(* ===== verification/_CoqProject ===== *)
-Q . S2P
Prelude.v
KeyFiles.v
RoundRobin.v
NoiseConn.v
Net.v
HsRead.v
Record.v
Handshake.v
Exchange.v
Session.v
NoiseServer.v
Ports.v
Chain.v
ChainIo.v
WriteFilter.v
Proxy.v
Pump.v
Relay.v
Variables.v
CoreVars.v
Script.v
Directive.v
LogText.v
Upstream.v
UpTable.v
UpVars.v
Start.v
Conf.v
CoreConf.v
ProxyConf.v
Modules.v
Reading.v
Block.v
BlockOk.v
Guard.v
BlockDemo.v
