(* ===== verification/Prelude.v ===== *)
(** * A verification development for virgil-nginx-noise-socket

    ** The program

    An nginx module family that terminates and originates Noise Socket
    connections.  A [listen] directive may carry [noise]; a session on such a port
    runs the Noise XX handshake as responder before its other phases, and from then
    on its reads and writes are framed and encrypted.  A proxied upstream may carry
    Noise settings as well, with the module as initiator.  All source files are at
    the top of src/.

      - [ngx_noise_protocol.c] reads key files and wraps the noise-c library.
      - [ngx_nsoc_handler.c] and [.h] hold the Noise connection: creation, the
        handshake state machine, the encrypting [recv] and [write], and the start
        and end of a session.
      - [ngx_nsoc.c] turns the configuration into listening sockets and into the
        flat table of phase handlers.
      - [ngx_nsoc_core_module.c] interprets that table for a session.
      - [ngx_nsoc_noiseserver_module.c] is the phase handler that loads the keys and
        starts the handshake.
      - [ngx_nsoc_upstream_round_robin.c] chooses the upstream peer of a session.
      - [ngx_nsoc_proxy_module.c], [ngx_nsoc_upstream.c], [ngx_nsoc_variables.c],
        [ngx_nsoc_script.c] and [ngx_nsoc_write_filter_module.c] pump the data,
        hold the upstream configuration and evaluate variables.

    ** The files of the development

    [Prelude] (this file): record update [r <| f := v |>]; [outcome], the result
    of C code that may be undefined; the state monad [M] over it with the
    weakest-precondition calculi [wp] (returns and satisfies) and [wlp] (what holds
    if it returns); fixed-width wrap-around ([u16], [u64], [be16], [swapw]); byte
    memory with bounds ([load], [store] give [None] outside the object); sums over
    lists; the class [NgxPool] of the pool allocator, each call of which may fail.

    [KeyFiles]: [ngx_noise_protocol_load_private_key] and
    [ngx_noise_protocol_load_public_key], the loops over [getc] with their state
    ([b64] is the accumulator), the caller's array and the fate of the stream.

    [RoundRobin]: peers, groups and the per-session data as records; a pointer to a
    peer is a group and an index.  Every operation of the file is here: both
    initialisations, [init_peer], [create_peer], [get_round_robin_peer] with its
    bitmap, [free], [notify].  [wstep] is the step relation of a world of many
    sessions over one shared upstream.

    [NoiseConn]: the connection structs, the classes [NoiseLib] (noise-c) and
    [NgxOs], [NgxStream] (sockets, timers and events of nginx core) with their laws,
    and [ngx_nsoc_create_connection], [ngx_nsoc_free_noise_connection] and the
    pool cleanup.

    [Net]: instances of these classes that compute, for concrete runs.

    [HsRead], [Record], [Handshake]: the four readers of handshake input; the
    transport phase ([ngx_nsoc_recv], [ngx_nsoc_write], [ngx_nsoc_shutdown]); the
    state machine [ngx_nsoc_do_handshake_process] with its messages, its phases and
    its resumption, and the event handlers that call it.

    [Exchange]: a client and a server, each with its own state and world, connected by a
    network that delivers whole ([NgxArrival]); [exchange] calls the state machine by turns.
    [NoisePartners] is what noise-c documents of the two halves of a handshake.

    [Session]: the session struct, [ngx_nsoc_init_phase_handlers], the engine
    and its three checkers, preread, [ngx_nsoc_finalize_session] and closing.

    [NoiseServer]: settings, key loading on first use, the protect-phase handler, and
    the settings of a proxied upstream that are made the same way.

    [Ports]: [ngx_nsoc_add_ports], [ngx_nsoc_optimize_servers],
    [ngx_nsoc_add_addrs] and its IPv6 twin, and [ngx_nsoc_init_connection]'s
    lookup of the local address.

    [Chain], [WriteFilter]: buffer descriptors over shared byte objects and chains of
    links that share descriptors; [ngx_nsoc_write_filter] over them.

    [Proxy]: connecting to a peer, the Noise handshake with it, the next peer, the end.
    Each function answers the call it ends with, and [run] makes the calls.  The class
    [Balancer] is what the proxy uses of [u->peer]; [RoundRobin] is its instance.

    [ChainIo]: [ngx_nsoc_send_chain] and [ngx_nsoc_recv_chain], the chained I/O of a
    Noise connection over [Record] and [Chain].

    [Pump], [Relay]: the data pump [ngx_nsoc_proxy_process], one call of which moves
    one direction, with the events that start it; and the proof that it relays.

    [Variables], [CoreVars]: the tables of ngx_nsoc_variables.c, made at
    configuration time (names, prefixes, indices, flags) and read by a session
    (indexed and flushed values, lookup by name); the table of core variables with all its
    handlers, and the regular expressions with their captures.

    [Script]: ngx_nsoc_script.c.  A code array is the list of its structs, addressed
    by byte offsets; [ngx_nsoc_compile_complex_value] fills two of them,
    [ngx_nsoc_complex_value] runs first the one that measures, then the one that
    copies.  [template] is the grammar of values with [$name], [${name}] and [$1].

    [LogText]: the handlers that complete a line of the error log, over [ngx_snprintf].

    [Directive]: words, the URL of a directive, and what nginx core parses for one.
    [Upstream], [UpTable]: the configuration part of ngx_nsoc_upstream.c, which is the table of
    upstreams ([ngx_nsoc_upstream_add], the [upstream] block, its [server] lines) and its way to
    the balancers of [RoundRobin].  [UpVars]: the variables of an upstream, written
    into reserved memory.

    [Start]: [ngx_nsoc_proxy_handler] up to the call of [Proxy] that connects: the template of
    [proxy_pass], the search among the upstreams, the resolver and its answer,
    [proxy_bind].

    [Conf]: the state that all directives share; a context is an array of server
    configurations by module, a pointer to one the number of its context.
    [CoreConf], [ProxyConf]: settings, merges and directives of ngx_nsoc_core_module.c and
    ngx_nsoc_proxy_module.c.  [Modules]: the structures of the five modules
    and their tables of directives, in the order of the build (src/config).  [Reading]:
    what reading a block does, and the invariant [reads_ok] that every directive keeps.
    [Block], [BlockOk]: [ngx_nsoc_block] of ngx_nsoc.c and what it has configured when it
    accepts.  [Guard]: the engine of an accepted block with the start of a session and the
    protect phase.  [BlockDemo]: functions of nginx core that compute, and a block with an
    upstream and two servers.

    ** What the theorems show

    Balancing: one choice is the best eligible peer or the documented fallback
    ([get_round_robin_peer_correct]); over every window of as many choices as the
    total weight, each peer is chosen as often as its weight ([fair_cycle]); under all
    interleavings of sessions the connection counts equal the holders and limits hold
    ([session_invariant]), and no session is stuck ([session_progress]);
    initialisation builds the groups the configuration names
    ([init_round_robin_builds]).

    Configuration: whatever the directives are, [ngx_nsoc_block] returns, and what it accepts has
    servers with a handler, an upstream, a resolver, a log and sane buffers, upstreams with
    balancers, the engine and the sockets ([block_configures]).  Its parts: a [listen] line is
    listened on once ([listen_keeps_pairs]); merging completes the settings of a server
    ([core_merge_completes], [proxy_merge_completes]); [proxy_pass] stores what it names
    ([proxy_pass_names]); the table of upstreams names each host and port once
    ([upstream_add_ok]), and a block of [server] lines becomes exactly the balancer
    its lines say ([upstream_block_builds]).

    The start of the proxy: it ends, connected or not, with nothing held that is not in use
    ([proxy_start_settles]); its search agrees with that of the configuration
    ([runtime_lookup_agrees]); the variables of an upstream are the texts of its
    connections, joined, and their memory suffices ([upstream_values]).  A line of the error
    log is cut where its buffer ends ([log_error_cuts]).

    Handshake: whatever the network answers, [handshaked] is set only by a call that
    split the library's state into two ciphers and installed the encrypting I/O
    ([handshaked_means_established], [handshake_ok_established]); messages have the
    layout of the protocol ([write_message_layout]); an unknown version is refused
    ([version_refused]); the readers consume exactly what is framed, under every
    fragmentation ([read_lengths_correct], [read_negotiation_correct],
    [read_noise_msg_correct]).  Two sides whose settings agree secure their connection in
    four calls, if each message arrives whole ([handshake_completes]); its conclusion is what
    [write_recv_roundtrip] asks of the ciphers.

    Transport: [nsoc_write_sends_packet], [nsoc_recv_correct], and their
    composition over two endpoints of a lawful cipher ([write_recv_roundtrip]).

    Sessions: the flat table and the engine implement the nested phases
    ([engine_runs_phases]); preread loses no byte ([preread_keeps_data]); the
    protect phase lets only encrypted sessions pass, one failure of the library apart
    ([noiseserver_protects]); the sockets made of a port give every connection the
    directive meant for its address ([ports_gathered], [dispatch_correct]).  Together with
    the configuration: what a server would do in the clear with a connection of a [listen]
    line with [noise] makes no difference to it ([noise_listens_guard]).

    Data: a call of the write filter keeps every byte and its order
    ([write_filter_conserves]); a call of the pump that ends delivers what the source
    sent, in order, after what was saved ([pump_relays]); a chain of one link leaves as
    one packet ([send_chain_one_packet]); connecting through any lawful balancer ends, with one
    connection or none and nothing held that is not in use ([proxy_connect_settles]).

    Values: compiling accepts exactly the grammar and lays out the programs
    ([compile_complex_value_correct]), and running them gives the template with its
    references replaced, in a buffer of exactly that size ([template_value]).  That
    needs variables whose lookups agree ([init_vars_joins],
    [get_variable_index_correct]) and handlers that keep the session's values, as those
    of the core do ([core_handlers_lawful]).

    Keys: the readers refine a base64 decoder and invert the encoder
    ([load_public_key_refines_decoder], [load_public_key_roundtrip],
    [load_private_key_correct]).

    A last group proves what goes wrong, on the model of the code as it is:
    [static_key_is_array_header], [noiseserver_fails_open], [retry_skips_noise],
    [late_message_fails],
    [nsoc_recv_overflow], [recv_length_unchecked], [nsoc_write_resume_crashes],
    [early_data_overwritten], [coalesced_links_repeat],
    [read_noise_msg_spins_at_eof], [read_noise_msg_split_fails] and
    [load_public_key_blank_counts].

    ** Modelling choices

    Pool allocation, sockets, timers, noise-c, the file system, [ngx_sort] and the
    phase handlers that other modules register are parameters.  A law of a class is
    documented behaviour: [recv] returns at most what was asked for, decryption
    inverts encryption in step with it, and so on; [Net] satisfies all of them.
    So are the string, hash, format and regular expression functions of nginx core that
    variables use (a build with PCRE), its chain allocator, [send_chain], and
    [ngx_event_connect_peer]; each file has an instance that computes.
    So are, for the configuration, nginx's parsers of URLs, numbers, times and addresses
    ([NgxParse]), what the core module asks of nginx ([NgxConfCore]), and the functions that
    set and merge plain fields ([NgxConfSet], [NgxConfMerge]).  Reading the text of a
    file belongs to nginx: [run_main] takes the directives it finds, one after
    the other until one fails, and each is the function of its table; the saved and restored
    [*cf] is the context that is passed.  The modules and the order of their indices are
    those of src/config, in a build with IPv6, keepalive parameters and SO_REUSEPORT.
    [block_configures] assumes that memory does not run out while the block is read (the
    sources leave some allocations of Noise settings untested) and that [ngx_sort] sorts.
    The host is little-endian and 64-bit (the code's [ntohs] becomes [swapw]);
    [pump_relays] is about sides that read in the clear, with nginx's own [recv]; every
    descriptor has memory, so the branch of the pump for a buffer without it is absent.
    [off_t] and weights are unbounded integers, and the balancer's invariant gives
    their bounds.  Log calls have no effect.  The shared-memory zone of an upstream is
    compiled out, so its locks are no-ops.

    Loops that only the data bounds are structural.  A [for (;;)] that the network
    bounds takes [fuel], and a theorem that it returns says which fuel is enough: two
    rounds for the readers of negotiation data and messages (the length, then the
    data), one more than the free bytes for [ngx_nsoc_recv] and than the bytes to send
    for [ngx_nsoc_write] (each round moves at least one byte), one more than the
    number of handlers for the engine, and the free bytes and three rounds for preread.
    The balancer's two rounds (primaries, backups) are part of its definition.
    The pump has two more than the bytes its source will deliver; the loop of
    [ngx_nsoc_send_chain] two rounds for a chain of one link.
    A script run has as much fuel as its code array has bytes (a code has at least
    eight), the loop of the compiler as much as its source has characters; the calls of
    the proxy have eight per try that the balancer allows.
    Three rounds are enough for each call of an exchange.
    [read_noise_msg_spins_at_eof] proves that no fuel is enough there.

    ** Not modelled

    The calls that write log lines and their messages, the text of the configuration before nginx has split it into directives,
    the shared-memory zones of upstreams (compiled out), the error messages that
    go with a refused directive, the examples and the build files. *)

From stdpp Require Import prelude list numbers.

(** ** Scope and generic notation *)

Declare Scope nsoc_scope.
Delimit Scope nsoc_scope with nsoc.
Open Scope Z_scope.

Create HintDb nsoc.
Create Rewrite HintDb zlen.
Create Rewrite HintDb sumz.

(** ** Record update

    The C code assigns single fields of large structs.  [Eta R] gives the
    eta-expansion of a record type; from it the update of one projection is
    obtained by abstracting that projection, so a model writes
    [r <| field := v |>] for the assignment [r->field = v]. *)

Class Eta (R : Type) := eta_expand : R -> R.

Class Upd {R T : Type} (proj : R -> T) := upd : (T -> T) -> R -> R.
Arguments upd {R T} proj {_} f r.
#[global] Hint Mode Upd - - ! : typeclass_instances.

Ltac solve_upd :=
  lazymatch goal with
  | |- @Upd ?R ?T ?proj =>
      let e := constr:(_ : Eta R) in
      let e := eval hnf in e in
      lazymatch (eval pattern proj in e) with
      | ?g proj => exact (fun (f : T -> T) (r : R) => g (fun x => f (proj x)) r)
      end
  end.

#[global] Hint Extern 1 (Upd _) => solve_upd : typeclass_instances.

Notation "r <| p := v |>" := (upd p (fun _ => v) r)
  (at level 1, left associativity, p at level 0, v at level 200,
   format "r  <| p  :=  v |>") : nsoc_scope.
Notation "r <| p ::= f |>" := (upd p f r)
  (at level 1, left associativity, p at level 0, f at level 200,
   format "r  <| p  ::=  f |>") : nsoc_scope.
Open Scope nsoc_scope.

(** ** Outcomes of a C function

    [Done a] is a return with value [a].  [Undefined] is undefined behaviour: a
    null or dangling pointer is dereferenced, or a byte outside its object is
    read or written.  [OutOfFuel] is the answer of a loop whose fuel is spent;
    a theorem that a function returns says it is never this. *)

Inductive outcome (A : Type) : Type :=
| Done (a : A)
| Undefined
| OutOfFuel.
Arguments Done {A} a.
Arguments Undefined {A}.
Arguments OutOfFuel {A}.

#[global] Instance outcome_ret : MRet outcome := fun A a => Done a.
#[global] Instance outcome_bind : MBind outcome := fun A B f m =>
  match m with
  | Done a => f a
  | Undefined => Undefined
  | OutOfFuel => OutOfFuel
  end.

(** A partial read that fails (NULL, out of range) is undefined behaviour. *)
Definition deref {A : Type} (o : option A) : outcome A :=
  match o with Some a => Done a | None => Undefined end.

(** ** Stateful C code: state passing over outcomes *)

Definition M (S A : Type) : Type := S -> outcome (A * S).

#[global] Instance M_ret S : MRet (M S) := fun A a s => Done (a, s).
#[global] Instance M_bind S : MBind (M S) := fun A B f m s =>
  match m s with
  | Done (a, s') => f a s'
  | Undefined => Undefined
  | OutOfFuel => OutOfFuel
  end.

Definition gets {S A : Type} (f : S -> A) : M S A := fun s => Done (f s, s).
Definition modify {S : Type} (f : S -> S) : M S unit := fun s => Done (tt, f s).
Definition undefined {S A : Type} : M S A := fun _ => Undefined.
Definition out_of_fuel {S A : Type} : M S A := fun _ => OutOfFuel.
Definition lift {S A : Type} (o : outcome A) : M S A := fun s =>
  match o with
  | Done a => Done (a, s)
  | Undefined => Undefined
  | OutOfFuel => OutOfFuel
  end.
Definition mderef {S A : Type} (o : option A) : M S A :=
  match o with Some a => mret a | None => undefined end.

(** [p->f = v] on the whole state. *)
Notation "p ::=! v" := (modify (fun s => s <| p := v |>))
  (at level 70, v at level 69, no associativity) : nsoc_scope.

(** Weakest preconditions: [wp] asks for a return that satisfies [Q], so it
    excludes undefined behaviour and divergence. *)
Definition wp {S A : Type} (m : M S A) (Q : A -> S -> Prop) (s : S) : Prop :=
  match m s with Done (a, s') => Q a s' | _ => False end.

Section Wp.
Context {S : Type}.

Lemma wp_bind {A B} (m : M S A) (k : A -> M S B) Q s :
  wp m (fun a s' => wp (k a) Q s') s -> wp (m ≫= k) Q s.
Proof.
  unfold wp, mbind, M_bind. destruct (m s) as [[a s']| |]; [done|done|done].
Qed.

Lemma wp_mono {A} (m : M S A) (Q Q' : A -> S -> Prop) s :
  wp m Q s -> (forall a s', Q a s' -> Q' a s') -> wp m Q' s.
Proof. unfold wp. destruct (m s) as [[a s']| |]; auto. Qed.

Lemma wp_ret {A} (a : A) (Q : A -> S -> Prop) s : Q a s -> wp (mret a) Q s.
Proof. done. Qed.

Lemma wp_gets {A} (f : S -> A) (Q : A -> S -> Prop) s : Q (f s) s -> wp (gets f) Q s.
Proof. done. Qed.

Lemma wp_modify (f : S -> S) (Q : unit -> S -> Prop) s : Q tt (f s) -> wp (modify f) Q s.
Proof. done. Qed.

Lemma wp_mderef {A} (o : option A) a (Q : A -> S -> Prop) s :
  o = Some a -> Q a s -> wp (mderef o) Q s.
Proof. by intros ->. Qed.

Lemma wp_done {A} (m : M S A) Q s :
  wp m Q s -> exists a s', m s = Done (a, s') /\ Q a s'.
Proof. unfold wp. destruct (m s) as [[a s']| |]; eauto; done. Qed.

Lemma done_wp {A} (m : M S A) (Q : A -> S -> Prop) s a s' :
  m s = Done (a, s') -> Q a s' -> wp m Q s.
Proof. unfold wp. by intros ->. Qed.

Lemma bind_done {A B} (m : M S A) (k : A -> M S B) s a s' :
  m s = Done (a, s') -> (m ≫= k) s = k a s'.
Proof. unfold mbind, M_bind. by intros ->. Qed.

Lemma bind_done_inv {A B} (m : M S A) (k : A -> M S B) s b s'' :
  (m ≫= k) s = Done (b, s'') ->
  exists a s', m s = Done (a, s') /\ k a s' = Done (b, s'').
Proof. unfold mbind, M_bind. destruct (m s) as [[a s']| |]; eauto; done. Qed.
End Wp.

(** The liberal version says nothing of a run that does not return. *)
Definition wlp {S A : Type} (m : M S A) (Q : A -> S -> Prop) (s : S) : Prop :=
  match m s with Done (a, s') => Q a s' | _ => True end.

Section Wlp.
Context {S : Type}.

Lemma wlp_bind {A B} (m : M S A) (k : A -> M S B) Q s :
  wlp m (fun a s' => wlp (k a) Q s') s -> wlp (m ≫= k) Q s.
Proof. unfold wlp, mbind, M_bind. by destruct (m s) as [[a s']| |]. Qed.

Lemma wlp_mono {A} (m : M S A) (Q Q' : A -> S -> Prop) s :
  wlp m Q s -> (forall a s', Q a s' -> Q' a s') -> wlp m Q' s.
Proof. unfold wlp. destruct (m s) as [[a s']| |]; auto. Qed.

Lemma wlp_any {A} (m : M S A) (Q : A -> S -> Prop) s : (forall a s', Q a s') -> wlp m Q s.
Proof. unfold wlp. destruct (m s) as [[a s']| |]; auto. Qed.

Lemma wlp_ret {A} (a : A) (Q : A -> S -> Prop) s : Q a s -> wlp (mret a) Q s.
Proof. done. Qed.

Lemma wlp_gets {A} (f : S -> A) (Q : A -> S -> Prop) s : Q (f s) s -> wlp (gets f) Q s.
Proof. done. Qed.

Lemma wlp_modify (f : S -> S) (Q : unit -> S -> Prop) s : Q tt (f s) -> wlp (modify f) Q s.
Proof. done. Qed.

Lemma wlp_mderef {A} (o : option A) (Q : A -> S -> Prop) s :
  (forall a, o = Some a -> Q a s) -> wlp (mderef o) Q s.
Proof. intros HQ. destruct o; [|done]. by apply wlp_ret, HQ. Qed.

Lemma wlp_conj {A} (m : M S A) (Q Q' : A -> S -> Prop) s :
  wlp m Q s -> wlp m Q' s -> wlp m (fun a s' => Q a s' /\ Q' a s') s.
Proof. unfold wlp. by destruct (m s) as [[a s']| |]. Qed.

Lemma wp_wlp {A} (m : M S A) (Q : A -> S -> Prop) s : wp m Q s -> wlp m Q s.
Proof. unfold wp, wlp. by destruct (m s) as [[a s']| |]. Qed.

Lemma wlp_inv {A} (m : M S A) (Q : A -> S -> Prop) s a s' :
  wlp m Q s -> m s = Done (a, s') -> Q a s'.
Proof. unfold wlp. intros H Hm. by rewrite Hm in H. Qed.
End Wlp.

(** ** What a program leaves alone

    [still f m] says that no run of [m] changes the part [f] of the state. *)

Section Still.
Context {S B : Type} (f : S -> B).

Definition still {A} (m : M S A) : Prop := forall s, wlp m (fun _ s' => f s' = f s) s.

Lemma still_ret {A} (a : A) : still (mret a).
Proof. by intros s. Qed.

Lemma still_bind {A C} (m : M S A) (k : A -> M S C) : still m -> (forall a, still (k a)) -> still (m ≫= k).
Proof.
  intros Hm Hk s. apply wlp_bind. eapply wlp_mono; [apply Hm|]. intros a s' Hs. eapply wlp_mono; [apply Hk|].
  cbn. congruence.
Qed.

Lemma still_gets {A} (g : S -> A) : still (gets g).
Proof. by intros s. Qed.

Lemma still_modify (g : S -> S) : (forall s, f (g s) = f s) -> still (modify g).
Proof. intros Hg s. apply Hg. Qed.

Lemma still_mderef {A} (o : option A) : still (mderef o).
Proof. by destruct o. Qed.

Lemma still_undefined {A} : still (undefined (A := A)).
Proof. done. Qed.

Lemma still_out_of_fuel {A} : still (out_of_fuel (A := A)).
Proof. done. Qed.

(** A program that reads the whole state. *)
Lemma still_state {A} (k : S -> M S A) :
  (forall s, wlp (k s) (fun _ s' => f s' = f s) s) -> still (gets id ≫= k).
Proof. intros Hk s. apply wlp_bind, wlp_gets, Hk. Qed.

Lemma still_done {A} (m : M S A) s a s' : still m -> m s = Done (a, s') -> f s' = f s.
Proof. intros Hm Hrun. exact (wlp_inv _ _ _ _ _ (Hm s) Hrun). Qed.
End Still.

Create HintDb still discriminated.
#[export] Hint Resolve still_ret still_gets still_mderef still_undefined still_out_of_fuel : still.

(** Walks through a program; what it calls is in the hint database. *)
Ltac solve_still :=
  repeat first
    [ solve [auto with still nocore]
    | apply still_bind; [|intros]
    | apply still_modify; intros; reflexivity
    | match goal with |- still _ (match ?x with _ => _ end) => destruct x end ].

(** One step of a straight-line program. *)
Ltac wp_step :=
  lazymatch goal with
  | |- wp (mbind _ _) _ _ => apply wp_bind
  | |- wp (mret _) _ _ => apply wp_ret
  | |- wp (gets _) _ _ => apply wp_gets
  | |- wp (modify _) _ _ => apply wp_modify
  end; cbv beta.

(** ** Bytes and machine words *)

Definition byte := Z.

(** The conversions C applies on assignment to a narrower unsigned type. *)
Definition u8 (z : Z) : Z := z mod 2 ^ 8.
Definition u16 (z : Z) : Z := z mod 2 ^ 16.
Definition u32 (z : Z) : Z := z mod 2 ^ 32.
Definition u64 (z : Z) : Z := z mod 2 ^ 64.

(** The conversion of a value to the signed types of 64 and 32 bits. *)
Definition s64 (z : Z) : Z := (z + 2 ^ 63) mod 2 ^ 64 - 2 ^ 63.
Definition s32 (z : Z) : Z := (z + 2 ^ 31) mod 2 ^ 32 - 2 ^ 31.

Definition is_byte (b : Z) : Prop := 0 <= b < 256.
Definition bytes_ok (l : list Z) : Prop := Forall is_byte l.

#[global] Instance is_byte_dec b : Decision (is_byte b) := _.
#[global] Instance bytes_ok_dec l : Decision (bytes_ok l) := _.

(** The two bytes the sources write as [(uint8_t)(n >> 8)], [(uint8_t) n]. *)
Definition be16 (n : Z) : list Z := [u8 (Z.shiftr n 8); u8 n].

(** [((ssize_t) a << 8) | ((ssize_t) b)]. *)
Definition dec16 (a b : Z) : Z := Z.lor (Z.shiftl a 8) b.

(** A [uint16_t] store and load through a byte pointer, on a little-endian host. *)
Definition le16 (n : Z) : list Z := [u8 n; u8 (Z.shiftr n 8)].
Definition ld16 (a b : Z) : Z := Z.lor (Z.shiftl b 8) a.

(** The bytes of a 64-bit word in memory. *)
Definition le64 (n : Z) : list Z :=
  [u8 n; u8 (Z.shiftr n 8); u8 (Z.shiftr n 16); u8 (Z.shiftr n 24);
   u8 (Z.shiftr n 32); u8 (Z.shiftr n 40); u8 (Z.shiftr n 48); u8 (Z.shiftr n 56)].

(** [swapw] of ngx_noise_protocol.h: the two bytes of a [uint16_t] exchanged. *)
Definition swapw (x : Z) : Z :=
  Z.lor (Z.shiftr (Z.land (u16 x) 0xFF00) 8) (Z.shiftl (Z.land (u16 x) 0x00FF) 8).

(** ** Byte memory

    A C object of bytes is the list of its bytes; pointers into it are offsets.
    [store] and [load] are defined only inside the object. *)

Definition zlen {A : Type} (l : list A) : Z := Z.of_nat (length l).
Definition ztake {A : Type} (n : Z) (l : list A) : list A := take (Z.to_nat n) l.
Definition zdrop {A : Type} (n : Z) (l : list A) : list A := drop (Z.to_nat n) l.

Definition store (off : Z) (bs mem : list Z) : option (list Z) :=
  if (0 <=? off) && (off + zlen bs <=? zlen mem)
  then Some (ztake off mem ++ bs ++ zdrop (off + zlen bs) mem)
  else None.

Definition load (off n : Z) (mem : list Z) : option (list Z) :=
  if (0 <=? off) && (0 <=? n) && (off + n <=? zlen mem)
  then Some (ztake n (zdrop off mem))
  else None.

(** ** The allocator of nginx

    [ngx_palloc], [ngx_pcalloc] and [ngx_pnalloc] belong to nginx core.  A pool
    answers whether the next object can be allocated ([NULL] otherwise) and
    gives the bytes of an uninitialised buffer. *)

Class NgxPool (P : Type) := {
  pool_object : P -> bool * P;
  pool_bytes : Z -> P -> option (list Z) * P;
}.

(** What nginx documents of a buffer: it has the size asked for. *)
Class NgxPoolLaws (P : Type) `{NgxPool P} : Prop := {
  pool_bytes_length n p bs p' :
    0 <= n -> pool_bytes n p = (Some bs, p') -> zlen bs = n /\ bytes_ok bs;
}.

(** A pool that never runs out, for concrete runs. *)
Definition plentiful : NgxPool unit := {|
  pool_object _ := (true, tt);
  pool_bytes n _ := (Some (replicate (Z.to_nat n) 0), tt);
|}.

(** ** Settings of nginx

    A setting that no directive gave has a mark of its own; a string that no directive
    gave is NULL, which is not the empty string.  [ngx_conf_merge_value] and its like
    complete the setting of a server from that of the block around it,
    [ngx_conf_init_value] one that belongs to no server; they belong to nginx core. *)

Definition NGX_CONF_UNSET : Z := -1.
Definition NGX_CONF_UNSET_UINT : Z := 2 ^ 64 - 1.
Definition NGX_CONF_UNSET_SIZE : Z := 2 ^ 64 - 1.
Definition NGX_CONF_UNSET_MSEC : Z := 2 ^ 64 - 1.

(** [ngx_str_t] in the configuration, and its [len]. *)
Definition conf_str : Type := option (list Z).
Definition str_text (s : conf_str) : list Z := match s with Some l => l | None => [] end.

Definition is_unset {A : Type} (o : option A) : bool := match o with None => true | Some _ => false end.

Class NgxConfMerge := {
  conf_merge : forall {A : Type}, (A -> bool) -> A -> A -> A -> A;
  conf_init : forall {A : Type}, (A -> bool) -> A -> A -> A;
}.

(** The own setting, else that of the block around, else the default. *)
Class NgxConfMergeLaws `{NgxConfMerge} : Prop := {
  merge_own A (unset : A -> bool) conf prev d : unset conf = false -> conf_merge unset conf prev d = conf;
  merge_outer A (unset : A -> bool) conf prev d :
    unset conf = true -> unset prev = false -> conf_merge unset conf prev d = prev;
  merge_default A (unset : A -> bool) conf prev d :
    unset conf = true -> unset prev = true -> conf_merge unset conf prev d = d;
  init_own A (unset : A -> bool) conf d : unset conf = false -> conf_init unset conf d = conf;
  init_default A (unset : A -> bool) conf d : unset conf = true -> conf_init unset conf d = d;
}.

(** A setting that a server takes over. *)
Definition inherits {A : Type} (unset : A -> bool) (own outer d v : A) : Prop :=
  v = if unset own then if unset outer then d else outer else own.

Lemma merge_inherits `{NgxConfMergeLaws} {A : Type} (unset : A -> bool) conf prev d :
  inherits unset conf prev d (conf_merge unset conf prev d).
Proof.
  unfold inherits. destruct (unset conf) eqn:Hc; [|by apply merge_own].
  destruct (unset prev) eqn:Hp; [by apply merge_default|by apply merge_outer].
Qed.

(** It is set, if the default is. *)
Lemma inherits_set {A : Type} (unset : A -> bool) own outer d v :
  inherits unset own outer d v -> unset d = false -> unset v = false.
Proof. intros -> Hd. destruct (unset own) eqn:Hc; [|done]. by destruct (unset outer) eqn:Hp. Qed.

Definition plain_merge : NgxConfMerge := {|
  conf_merge A unset conf prev d := if unset conf then if unset prev then d else prev else conf;
  conf_init A unset conf d := if unset conf then d else conf;
|}.

Lemma plain_merge_laws : @NgxConfMergeLaws plain_merge.
Proof. split; intros; cbn; repeat match goal with E : _ = _ :> bool |- _ => rewrite E; clear E end; done. Qed.

(** ** Return codes of nginx *)

Definition NGX_OK : Z := 0.
Definition NGX_ERROR : Z := -1.
Definition NGX_AGAIN : Z := -2.
Definition NGX_BUSY : Z := -3.
Definition NGX_DONE : Z := -4.
Definition NGX_DECLINED : Z := -5.

(** ** Arithmetic of words *)

(** [lia] with Euclidean division and remainder by constants. *)
Ltac zlia := Z.div_mod_to_equations; lia.

Lemma lor_shiftl_add a b n :
  0 <= n -> 0 <= b < 2 ^ n -> Z.lor (Z.shiftl a n) b = a * 2 ^ n + b.
Proof.
  intros Hn Hb. rewrite <- Z.shiftl_mul_pow2 by done.
  assert (Hland : Z.land (Z.shiftl a n) b = 0).
  { apply Z.bits_inj'. intros i Hi. rewrite Z.land_spec, Z.bits_0.
    destruct (Z.lt_ge_cases i n) as [Hlt|Hge].
    - by rewrite Z.shiftl_spec_low.
    - rewrite <- (Z.mod_small b (2 ^ n)) by done.
      by rewrite Z.mod_pow2_bits_high, andb_false_r. }
  rewrite <- Z.lxor_lor by done. symmetry. by apply Z.add_nocarry_lxor.
Qed.

Lemma dec16_arith a b : is_byte b -> dec16 a b = a * 256 + b.
Proof. intros Hb. unfold dec16. rewrite lor_shiftl_add; [done|lia|exact Hb]. Qed.

Lemma ld16_arith a b : is_byte a -> ld16 a b = b * 256 + a.
Proof. intros Ha. unfold ld16. rewrite lor_shiftl_add; [done|lia|exact Ha]. Qed.

Lemma u8_range z : is_byte (u8 z).
Proof. unfold is_byte, u8. zlia. Qed.

Lemma u8_byte b : is_byte b -> u8 b = b.
Proof. unfold is_byte, u8. intros. zlia. Qed.

Lemma u16_small z : 0 <= z < 65536 -> u16 z = z.
Proof. unfold u16. intros. zlia. Qed.

Lemma u64_small z : 0 <= z < 2 ^ 64 -> u64 z = z.
Proof. intros. unfold u64. by apply Z.mod_small. Qed.

Lemma s64_small z : - 2 ^ 63 <= z < 2 ^ 63 -> s64 z = z.
Proof. intros. unfold s64. rewrite Z.mod_small by lia. lia. Qed.

Lemma be16_arith n : be16 n = [(n / 256) mod 256; n mod 256].
Proof. unfold be16, u8. by rewrite Z.shiftr_div_pow2. Qed.

Lemma be16_bytes n : bytes_ok (be16 n).
Proof. unfold be16. repeat constructor; apply u8_range. Qed.

Lemma be16_length n : length (be16 n) = 2%nat.
Proof. done. Qed.

(** Writing a length field and reading it back is the identity on 16-bit values. *)
Lemma dec16_be16 n :
  0 <= n < 65536 -> dec16 (u8 (Z.shiftr n 8)) (u8 n) = n.
Proof.
  intros Hn. rewrite dec16_arith by apply u8_range.
  rewrite Z.shiftr_div_pow2 by lia. unfold u8. zlia.
Qed.

Lemma be16_dec16 a b : is_byte a -> is_byte b -> be16 (dec16 a b) = [a; b].
Proof.
  unfold is_byte. intros Ha Hb. rewrite dec16_arith, be16_arith by done.
  f_equal; [zlia|f_equal; zlia].
Qed.

Lemma dec16_range a b : is_byte a -> is_byte b -> 0 <= dec16 a b < 65536.
Proof. unfold is_byte. intros. rewrite dec16_arith by done. lia. Qed.

Lemma swapw_arith x : swapw x = (u16 x mod 256) * 256 + u16 x / 256.
Proof.
  unfold swapw. rewrite Z.lor_comm.
  change 0x00FF with (Z.ones 8). rewrite Z.land_ones by lia.
  change 0xFF00 with (Z.shiftl (Z.ones 8) 8).
  rewrite Z.shiftr_land, Z.shiftr_shiftl_l by lia.
  change (Z.shiftl (Z.ones 8) (8 - 8)) with (Z.ones 8).
  rewrite Z.land_ones, Z.shiftr_div_pow2 by lia.
  assert (0 <= u16 x < 65536) by (unfold u16; zlia).
  rewrite lor_shiftl_add; [|lia|zlia].
  change (2 ^ 8) with 256. f_equal. apply Z.mod_small. zlia.
Qed.

Lemma swapw_involutive x : 0 <= x < 65536 -> swapw (swapw x) = x.
Proof.
  intros Hx. rewrite (swapw_arith x), u16_small by done.
  rewrite swapw_arith, u16_small by zlia. zlia.
Qed.

(** A host-order [swapw] store is a big-endian store, and dually for loads. *)
Lemma le16_swapw n : 0 <= n < 65536 -> le16 (swapw n) = be16 n.
Proof.
  intros Hn. unfold le16, be16, u8. rewrite !Z.shiftr_div_pow2 by lia.
  rewrite swapw_arith, u16_small by done. f_equal; [zlia|f_equal; zlia].
Qed.

Lemma swapw_ld16 a b : is_byte a -> is_byte b -> swapw (ld16 a b) = dec16 a b.
Proof.
  unfold is_byte. intros Ha Hb. rewrite swapw_arith, ld16_arith, dec16_arith by done.
  rewrite u16_small by lia. zlia.
Qed.

#[export] Hint Resolve u8_range be16_bytes dec16_range : nsoc.

(** ** Lemmas on byte memory *)

Section Mem.
Implicit Types (mem bs : list Z) (off n : Z).

Lemma zlen_nonneg {A} (l : list A) : 0 <= zlen l.
Proof. unfold zlen. lia. Qed.

Lemma zlen_app {A} (l k : list A) : zlen (l ++ k) = zlen l + zlen k.
Proof. unfold zlen. rewrite length_app. lia. Qed.

Lemma zlen_cons {A} (x : A) l : zlen (x :: l) = 1 + zlen l.
Proof. unfold zlen. cbn [length]. lia. Qed.

Lemma zlen_nil {A} : zlen (@nil A) = 0.
Proof. done. Qed.

Lemma zlen_nil_inv {A} (l : list A) : zlen l = 0 -> l = [].
Proof. destruct l; [done|]. unfold zlen. cbn. lia. Qed.

Lemma zlen_ztake {A} n (l : list A) : 0 <= n <= zlen l -> zlen (ztake n l) = n.
Proof. unfold zlen, ztake. rewrite length_take. lia. Qed.

Lemma zlen_zdrop {A} n (l : list A) : 0 <= n <= zlen l -> zlen (zdrop n l) = zlen l - n.
Proof. unfold zlen, zdrop. rewrite length_drop. lia. Qed.

Lemma ztake_zdrop {A} n (l : list A) : ztake n l ++ zdrop n l = l.
Proof. apply take_drop. Qed.

Lemma ztake_app_exact {A} n (l k : list A) : n = zlen l -> ztake n (l ++ k) = l.
Proof. intros ->. unfold ztake, zlen. rewrite Nat2Z.id. apply take_app_length. Qed.

Lemma zdrop_app_exact {A} n (l k : list A) : n = zlen l -> zdrop n (l ++ k) = k.
Proof. intros ->. unfold zdrop, zlen. rewrite Nat2Z.id. apply drop_app_length. Qed.

Lemma zdrop_app_add {A} n (l k : list A) : 0 <= n -> zdrop (zlen l + n) (l ++ k) = zdrop n k.
Proof.
  intros Hn. unfold zdrop, zlen. rewrite Z2Nat.inj_add by lia.
  by rewrite Nat2Z.id, drop_app_add.
Qed.

Lemma ztake_all {A} n (l : list A) : zlen l <= n -> ztake n l = l.
Proof. unfold ztake, zlen. intros. apply take_ge. lia. Qed.

Lemma zdrop_all {A} n (l : list A) : zlen l <= n -> zdrop n l = [].
Proof. unfold zdrop, zlen. intros. apply drop_ge. lia. Qed.

Lemma store_Some off bs mem mem' :
  store off bs mem = Some mem' <->
  0 <= off /\ off + zlen bs <= zlen mem /\
  mem' = ztake off mem ++ bs ++ zdrop (off + zlen bs) mem.
Proof.
  unfold store. destruct (Z.leb_spec 0 off), (Z.leb_spec (off + zlen bs) (zlen mem));
    cbn; split; intros Hx; simplify_eq; try lia; try done; destruct_and!; subst; done || lia.
Qed.

Lemma store_in_range off bs mem :
  0 <= off -> off + zlen bs <= zlen mem -> exists mem', store off bs mem = Some mem'.
Proof. intros. eexists. by apply store_Some. Qed.

Lemma store_length off bs mem mem' : store off bs mem = Some mem' -> zlen mem' = zlen mem.
Proof.
  intros (H0 & H1 & ->)%store_Some. pose proof (zlen_nonneg bs).
  rewrite !zlen_app, zlen_ztake, zlen_zdrop by lia. lia.
Qed.

(** Storing over a split object replaces exactly the middle part. *)
Lemma store_app pre old post bs :
  zlen bs = zlen old ->
  store (zlen pre) bs (pre ++ old ++ post) = Some (pre ++ bs ++ post).
Proof.
  intros Hlen. apply store_Some. pose proof (zlen_nonneg pre). pose proof (zlen_nonneg post).
  rewrite !zlen_app. split_and!; [lia|lia|].
  rewrite ztake_app_exact by done. rewrite (app_assoc pre old post).
  rewrite zdrop_app_exact by (rewrite zlen_app; lia). done.
Qed.

Lemma load_Some off n mem bs :
  load off n mem = Some bs <->
  0 <= off /\ 0 <= n /\ off + n <= zlen mem /\ bs = ztake n (zdrop off mem).
Proof.
  unfold load. destruct (Z.leb_spec 0 off), (Z.leb_spec 0 n),
    (Z.leb_spec (off + n) (zlen mem)); cbn; split; intros Hx; simplify_eq; try lia; try done;
    destruct_and!; subst; done || lia.
Qed.

Lemma load_app pre bs post :
  load (zlen pre) (zlen bs) (pre ++ bs ++ post) = Some bs.
Proof.
  apply load_Some. pose proof (zlen_nonneg pre). pose proof (zlen_nonneg bs).
  pose proof (zlen_nonneg post).
  rewrite !zlen_app. split_and!; try lia.
  by rewrite zdrop_app_exact, ztake_app_exact.
Qed.

(** An object of known length splits at any offset inside it. *)
Lemma mem_split off mem :
  0 <= off <= zlen mem -> exists pre post, mem = pre ++ post /\ zlen pre = off.
Proof.
  intros H. exists (ztake off mem), (zdrop off mem).
  by rewrite ztake_zdrop, zlen_ztake.
Qed.

Lemma mem_split3 off n mem :
  0 <= off -> 0 <= n -> off + n <= zlen mem ->
  exists pre mid post, mem = pre ++ mid ++ post /\ zlen pre = off /\ zlen mid = n.
Proof.
  intros H1 H2 H3. destruct (mem_split off mem) as (pre & r & -> & Hp); [lia|].
  rewrite zlen_app in H3. destruct (mem_split n r) as (mid & post & -> & Hm); [lia|].
  by exists pre, mid, post.
Qed.
End Mem.

Lemma plentiful_laws : @NgxPoolLaws unit plentiful.
Proof.
  split. intros n [] bs [] Hn [= <-]. split; [unfold zlen; rewrite length_replicate; lia|].
  apply Forall_replicate. unfold is_byte. lia.
Qed.

Lemma zlen_be16 n : zlen (be16 n) = 2.
Proof. done. Qed.

#[export] Hint Rewrite @zlen_app @zlen_cons @zlen_nil zlen_be16 : zlen.

(** Simplify the lengths of concatenations, then linear arithmetic. *)
Ltac zlen_lia :=
  autorewrite with zlen in *;
  repeat match goal with
  | |- context [zlen ?l] =>
      lazymatch goal with H : 0 <= zlen l |- _ => fail | _ => pose proof (zlen_nonneg l) end
  | _ : context [zlen ?l] |- _ =>
      lazymatch goal with H : 0 <= zlen l |- _ => fail | _ => pose proof (zlen_nonneg l) end
  end; lia.

(** Evaluate the lengths of literal lists and the tests of literal numbers. *)
Ltac zlit :=
  repeat match goal with
  | |- context [zlen (?x :: ?l)] =>
      let v := eval vm_compute in (zlen (x :: l)) in
      lazymatch v with Zpos _ => change (zlen (x :: l)) with v end
  | |- context [@zlen ?A []] => change (@zlen A []) with 0
  | |- context [?x =? ?y] =>
      let v := eval vm_compute in (x =? y) in
      lazymatch v with
      | true => change (x =? y) with true
      | false => change (x =? y) with false
      end
  end; cbv match.

(** ** Sums over lists *)

Definition sumz {A : Type} (f : A -> Z) (l : list A) : Z := foldr (fun x a => f x + a) 0 l.

Section Sum.
Context {A : Type}.
Implicit Types (f g : A -> Z) (l : list A).

Lemma sumz_app f l k : sumz f (l ++ k) = sumz f l + sumz f k.
Proof. induction l as [|x l IH]; cbn; [done|]. fold (sumz f (l ++ k)) (sumz f l). lia. Qed.

Lemma sumz_cons f x l : sumz f (x :: l) = f x + sumz f l.
Proof. done. Qed.

Lemma sumz_insert f l k x y :
  l !! k = Some x -> sumz f (<[k := y]> l) = sumz f l - f x + f y.
Proof.
  revert k. induction l as [|z l IH]; intros [|k] Hk; try done.
  - injection Hk as ->. change (<[0%nat := y]> (x :: l)) with (y :: l). rewrite !sumz_cons. lia.
  - change (<[S k := y]> (z :: l)) with (z :: <[k := y]> l). rewrite !sumz_cons, (IH k Hk). lia.
Qed.

Lemma sumz_ext f g l : (forall x, x ∈ l -> f x = g x) -> sumz f l = sumz g l.
Proof.
  induction l as [|x l IH]; intros H; [done|]. rewrite !sumz_cons, IH, (H x); [done|left|].
  intros. apply H. by right.
Qed.

Lemma sumz_le f g l : (forall x, x ∈ l -> f x <= g x) -> sumz f l <= sumz g l.
Proof.
  induction l as [|x l IH]; intros H; [done|]. rewrite !sumz_cons.
  assert (f x <= g x) by (apply H; left).
  assert (sumz f l <= sumz g l) by (apply IH; intros; apply H; by right). lia.
Qed.

(** Termwise bounds whose sums agree hold with equality. *)
Lemma sumz_le_eq f g l :
  (forall x, x ∈ l -> f x <= g x) -> sumz f l = sumz g l -> forall x, x ∈ l -> f x = g x.
Proof.
  induction l as [|y l IH]; intros Hle Heq x Hx; [by apply elem_of_nil in Hx|].
  rewrite !sumz_cons in Heq.
  assert (f y <= g y) by (apply Hle; left).
  assert (sumz f l <= sumz g l) by (apply sumz_le; intros; apply Hle; by right).
  apply elem_of_cons in Hx as [->|Hx]; [lia|].
  apply IH; [intros; apply Hle; by right|lia|done].
Qed.

Lemma sumz_zero l : sumz (fun _ => 0) l = 0.
Proof. induction l as [|x l IH]; [done|]. by rewrite sumz_cons, IH. Qed.

Lemma sumz_scale f c l : sumz (fun x => c * f x) l = c * sumz f l.
Proof. induction l as [|x l IH]; [cbn; lia|]. rewrite !sumz_cons, IH. lia. Qed.

Lemma sumz_add f g l : sumz (fun x => f x + g x) l = sumz f l + sumz g l.
Proof. induction l as [|x l IH]; [done|]. rewrite !sumz_cons, IH. lia. Qed.
End Sum.

Lemma sumz_map {A B} (f : B -> Z) (h : A -> B) l : sumz f (map h l) = sumz (fun x => f (h x)) l.
Proof. induction l as [|x l IH]; [done|]. cbn [map]. rewrite !sumz_cons. by f_equal. Qed.

Lemma sumz_nil {A} (f : A -> Z) : sumz f [] = 0.
Proof. done. Qed.

#[export] Hint Rewrite @sumz_app @sumz_cons @sumz_nil : sumz.
#[global] Arguments sumz : simpl never.

Lemma alter_insert_at {A} (f : A -> A) (l : list A) k x :
  l !! k = Some x -> alter f k l = <[k := f x]> l.
Proof.
  intros Hk. rewrite list_insert_alter. apply list_alter_ext; [|done].
  intros y Hy. rewrite Hk in Hy. by injection Hy as <-.
Qed.
