(* ===== verification/KeyFiles.v ===== *)
(** * Key files: ngx_noise_protocol.c

    [ngx_noise_protocol_load_private_key] reads a raw key and
    [ngx_noise_protocol_load_public_key] a base64 key, character by character,
    into an array the caller owns.  The file is what [fopen] returned: [None]
    for NULL, otherwise the characters [getc] yields before EOF.  Each function
    returns the code, the caller's array and what became of the stream, so a
    stream that is not closed is visible. *)

From stdpp Require Import prelude list numbers.
From S2P Require Import Prelude.

Definition NOISE_PROTOCOL_CURVE25519_KEY_LEN : Z := 32.
Definition NOISE_PROTOCOL_MAX_DH_KEY_LEN : Z := 2048.

Inductive stream_end := NotOpened | Closed | LeftOpen.

Record load_result := LoadResult { lr_rc : Z; lr_key : list Z; lr_stream : stream_end }.

(** ** Private keys *)

(** The [while] loop of the private-key reader and the test after it. *)
Fixpoint load_private_loop (chs : list Z) (key : list Z) (len posn : Z) : outcome load_result :=
  match chs with
  | [] =>
      if posn <? len then Done (LoadResult NGX_ERROR key Closed)
      else Done (LoadResult NGX_OK key Closed)
  | ch :: chs =>
      if len <=? posn then Done (LoadResult NGX_ERROR key Closed)
      else
        key ← deref (store posn [u8 ch] key);
        load_private_loop chs key len (posn + 1)
  end.

Definition ngx_noise_protocol_load_private_key
    (file : option (list Z)) (key : list Z) (len : Z) : outcome load_result :=
  if NOISE_PROTOCOL_MAX_DH_KEY_LEN <? len then
    Done (LoadResult NGX_ERROR key (match file with Some _ => LeftOpen | None => NotOpened end))
  else
    match file with
    | None => Done (LoadResult NGX_ERROR key NotOpened)
    | Some chs => load_private_loop chs key len 0
    end.

(** ** Public keys *)

(** The variables the loop keeps between characters. *)
Record b64 := B64 {
  b64_group : Z;
  b64_group_size : Z;
  b64_digit : Z;
  b64_posn : Z;
  b64_key : list Z;
}.
#[export] Instance eta_b64 : Eta b64 := fun r =>
  B64 (b64_group r) (b64_group_size r) (b64_digit r) (b64_posn r) (b64_key r).

(** What the [if] chain on [ch] does: it may assign [digit] and go on, leave the
    loop, or return an error.  A blank goes on with [digit] as it was. *)
Inductive b64_class := AssignDigit (d : Z) | KeepDigit | BreakLoop | BadChar.

Definition b64_classify (ch : Z) : b64_class :=
  if (65 <=? ch) && (ch <=? 90) then AssignDigit (ch - 65)
  else if (97 <=? ch) && (ch <=? 122) then AssignDigit (ch - 97 + 26)
  else if (48 <=? ch) && (ch <=? 57) then AssignDigit (ch - 48 + 52)
  else if ch =? 43 then AssignDigit 62
  else if ch =? 47 then AssignDigit 63
  else if ch =? 61 then BreakLoop
  else if negb (ch =? 32) && negb (ch =? 9) && negb (ch =? 13) && negb (ch =? 10) then BadChar
  else KeepDigit.

(** The rest of the loop body, after [digit] is known; [inl] is [return NGX_ERROR]. *)
Definition b64_push (len : Z) (st : b64) : outcome (load_result + b64) :=
  let group := u32 (Z.lor (Z.shiftl (b64_group st) 6) (b64_digit st)) in
  let size := b64_group_size st + 1 in
  if 4 <=? size then
    if u64 (len - b64_posn st) <? 3 then Done (inl (LoadResult NGX_ERROR (b64_key st) Closed))
    else
      key ← deref (store (b64_posn st)
               [u8 (Z.shiftr group 16); u8 (Z.shiftr group 8); u8 group] (b64_key st));
      Done (inr (B64 group 0 (b64_digit st) (b64_posn st + 3) key))
  else Done (inr (st <| b64_group := group |> <| b64_group_size := size |>)).

(** What follows the loop: the last, shorter group, and the test of the length. *)
Definition b64_check (len posn : Z) (key : list Z) : outcome load_result :=
  if posn <? len then Done (LoadResult NGX_ERROR key Closed)
  else Done (LoadResult NGX_OK key Closed).

Definition b64_finish (len : Z) (st : b64) : outcome load_result :=
  let g := b64_group st in
  let posn := b64_posn st in
  if b64_group_size st =? 3 then
    if u64 (len - posn) <? 2 then Done (LoadResult NGX_ERROR (b64_key st) Closed)
    else
      key ← deref (store posn [u8 (Z.shiftr g 10); u8 (Z.shiftr g 2)] (b64_key st));
      b64_check len (posn + 2) key
  else if b64_group_size st =? 2 then
    if u64 (len - posn) <? 1 then Done (LoadResult NGX_ERROR (b64_key st) Closed)
    else
      key ← deref (store posn [u8 (Z.shiftr g 4)] (b64_key st));
      b64_check len (posn + 1) key
  else b64_check len posn (b64_key st).

Fixpoint load_public_loop (chs : list Z) (len : Z) (st : b64) : outcome load_result :=
  match chs with
  | [] => b64_finish len st
  | ch :: chs =>
      match b64_classify ch with
      | BadChar => Done (LoadResult NGX_ERROR (b64_key st) Closed)
      | BreakLoop => b64_finish len st
      | cls =>
          let st := match cls with AssignDigit d => st <| b64_digit := d |> | _ => st end in
          r ← b64_push len st;
          match r with
          | inl res => Done res
          | inr st => load_public_loop chs len st
          end
      end
  end.

Definition ngx_noise_protocol_load_public_key
    (file : option (list Z)) (key : list Z) (len : Z) : outcome load_result :=
  if NOISE_PROTOCOL_MAX_DH_KEY_LEN <? len then
    Done (LoadResult NGX_ERROR key (match file with Some _ => LeftOpen | None => NotOpened end))
  else
    match file with
    | None => Done (LoadResult NGX_ERROR key NotOpened)
    | Some chs => load_public_loop chs len (B64 0 0 0 0 key)
    end.

(** ** The private-key reader *)

Lemma load_private_loop_spec chs : forall pre rest len,
  zlen pre <= len <= zlen (pre ++ rest) ->
  if decide (zlen pre + zlen chs = len)
  then load_private_loop chs (pre ++ rest) len (zlen pre) =
       Done (LoadResult NGX_OK (pre ++ map u8 chs ++ zdrop (zlen chs) rest) Closed)
  else exists key', zlen key' = zlen (pre ++ rest) /\
       load_private_loop chs (pre ++ rest) len (zlen pre) =
       Done (LoadResult NGX_ERROR key' Closed).
Proof.
  induction chs as [|ch chs IH]; intros pre rest len Hlen; cbn [load_private_loop map].
  - rewrite zlen_nil. case_decide as Hd.
    + rewrite (proj2 (Z.ltb_ge _ _)) by lia. done.
    + rewrite (proj2 (Z.ltb_lt _ _)) by lia. eauto.
  - destruct (Z.leb_spec len (zlen pre)) as [Hle|Hgt].
    + rewrite decide_False by zlen_lia. eauto.
    + destruct rest as [|r rest]; [zlen_lia|].
      change (pre ++ r :: rest) with (pre ++ [r] ++ rest).
      rewrite (store_app pre [r] rest [u8 ch]) by done. cbn [deref mbind outcome_bind].
      specialize (IH (pre ++ [u8 ch]) rest len).
      rewrite !zlen_app, !zlen_cons, !zlen_nil in IH.
      rewrite <- !app_assoc in IH.
      replace (zlen pre + (1 + 0)) with (zlen pre + 1) in IH by lia.
      specialize (IH ltac:(zlen_lia)). autorewrite with zlen in *.
      destruct (decide (zlen pre + 1 + zlen chs = len)) as [Heq|Hne].
      * rewrite decide_True by lia. rewrite IH. do 2 f_equal.
        cbn [app map]. do 3 f_equal.
        unfold zdrop. replace (Z.to_nat (1 + zlen chs)) with (S (Z.to_nat (zlen chs))) by zlen_lia.
        done.
      * rewrite decide_False by lia. destruct IH as (key' & Hk & ->).
        exists key'. split; [lia|done].
Qed.

(** The private-key reader accepts exactly the files of [len] bytes (for a
    length within the limit): it then stores the file in the array and closes
    the stream.  Every other call returns NGX_ERROR.  It never writes outside
    the caller's array. *)
Theorem load_private_key_correct file key len (Hlen : 0 <= len <= zlen key) :
  exists r, ngx_noise_protocol_load_private_key file key len = Done r /\
    zlen (lr_key r) = zlen key /\
    ((lr_rc r = NGX_OK /\ len <= NOISE_PROTOCOL_MAX_DH_KEY_LEN /\ lr_stream r = Closed /\
      exists chs, file = Some chs /\ zlen chs = len /\ lr_key r = map u8 chs ++ zdrop len key)
     \/
     (lr_rc r = NGX_ERROR /\
      (NOISE_PROTOCOL_MAX_DH_KEY_LEN < len \/ file = None \/
       exists chs, file = Some chs /\ zlen chs <> len))).
Proof.
  unfold ngx_noise_protocol_load_private_key.
  destruct (Z.ltb_spec NOISE_PROTOCOL_MAX_DH_KEY_LEN len) as [Hbig|Hok].
  { eexists. split; [done|]. cbn. eauto 10. }
  destruct file as [chs|]; [|eexists; split; [done|]; cbn; eauto 10].
  pose proof (load_private_loop_spec chs [] key len Hlen) as Hloop.
  cbn [app] in Hloop. rewrite zlen_nil in Hloop. case_decide as Hd.
  - eexists. split; [exact Hloop|]. cbn. rewrite zlen_app, zlen_zdrop by lia.
    split; [unfold zlen in *; rewrite length_map; lia|].
    left. replace (zlen chs) with len by lia. eauto 10.
  - destruct Hloop as (key' & Hk & Hrun). eexists. split; [exact Hrun|]. cbn.
    split; [done|]. right. split; [done|]. right. right. exists chs. split; [done|lia].
Qed.

(** ** The public-key reader against a reference decoder

    The reference works on whole lists: first the digits the characters stand
    for, then groups of four digits.  A blank stands for the digit before it
    (0 at the start), which is what the loop does with it. *)

Fixpoint b64_digits (chs : list Z) (digit : Z) : option (list Z) :=
  match chs with
  | [] => Some []
  | ch :: chs =>
      match b64_classify ch with
      | AssignDigit d => cons d <$> b64_digits chs d
      | KeepDigit => cons digit <$> b64_digits chs digit
      | BreakLoop => Some []
      | BadChar => None
      end
  end.

Fixpoint b64_bytes (ds : list Z) : list Z :=
  match ds with
  | d1 :: d2 :: d3 :: d4 :: ds =>
      let v := ((d1 * 64 + d2) * 64 + d3) * 64 + d4 in
      v / 65536 :: (v / 256) mod 256 :: v mod 256 :: b64_bytes ds
  | [d1; d2; d3] =>
      let v := (d1 * 64 + d2) * 64 + d3 in
      [v / 1024; (v / 4) mod 256]
  | [d1; d2] => [(d1 * 64 + d2) / 16]
  | _ => []
  end.

(** Standard base64 with padding, the format the key files hold. *)
Definition b64_char (d : Z) : Z :=
  if d <? 26 then d + 65
  else if d <? 52 then d - 26 + 97
  else if d <? 62 then d - 52 + 48
  else if d =? 62 then 43 else 47.

Fixpoint b64_encode (bs : list Z) : list Z :=
  match bs with
  | b1 :: b2 :: b3 :: bs =>
      b64_char (b1 / 4) :: b64_char (b1 mod 4 * 16 + b2 / 16)
      :: b64_char (b2 mod 16 * 4 + b3 / 64) :: b64_char (b3 mod 64) :: b64_encode bs
  | [b1; b2] =>
      [b64_char (b1 / 4); b64_char (b1 mod 4 * 16 + b2 / 16); b64_char (b2 mod 16 * 4); 61]
  | [b1] => [b64_char (b1 / 4); b64_char (b1 mod 4 * 16); 61; 61]
  | [] => []
  end.

Definition is_digit (d : Z) : Prop := 0 <= d < 64.

Lemma b64_classify_digit ch d : b64_classify ch = AssignDigit d -> is_digit d.
Proof. unfold b64_classify, is_digit. intros H. repeat case_match; simplify_eq; lia. Qed.

Lemma b64_classify_char d : is_digit d -> b64_classify (b64_char d) = AssignDigit d.
Proof.
  unfold is_digit, b64_char, b64_classify. intros H.
  repeat case_match; try lia; f_equal; lia.
Qed.

(** The digits still waiting in [group]: its low [6 * group_size] bits. *)
Definition pending (p : list Z) (st : b64) : Prop :=
  Forall is_digit p /\ (length p < 4)%nat /\ b64_group_size st = zlen p /\
  0 <= b64_group st < 2 ^ 32 /\
  b64_group st mod 64 ^ zlen p = foldl (fun v d => v * 64 + d) 0 p.

Lemma u64_sub_ltb len posn k :
  0 <= posn <= len -> len < 2 ^ 64 -> (u64 (len - posn) <? k) = (len <? posn + k).
Proof.
  intros H1 H2. rewrite u64_small by lia.
  destruct (Z.ltb_spec (len - posn) k), (Z.ltb_spec len (posn + k)); lia.
Qed.

(** Shifting one digit into the group. *)
Lemma group_push g d :
  0 <= g < 2 ^ 32 -> is_digit d -> u32 (Z.lor (Z.shiftl g 6) d) = (g * 64 + d) mod 2 ^ 32.
Proof.
  intros Hg Hd. unfold u32. by rewrite lor_shiftl_add by (unfold is_digit in Hd; lia).
Qed.

Lemma pending_step g d v n :
  0 <= g < 2 ^ 32 -> is_digit d -> 0 < n -> n * 64 <= 2 ^ 32 -> (n | 2 ^ 26) ->
  g mod n = v -> u32 (Z.lor (Z.shiftl g 6) d) mod (n * 64) = v * 64 + d.
Proof.
  intros Hg Hd Hn Hbig [k Hk] Hv. rewrite group_push by done.
  unfold is_digit in Hd. change (2 ^ 32) with (2 ^ 26 * 64). rewrite Hk.
  replace (k * n * 64) with (k * (n * 64)) by lia.
  rewrite Z.mod_mod_divide by (by exists k).
  rewrite (Z.div_mod g n) by lia. rewrite Hv.
  assert (0 <= v < n) by (subst v; apply Z.mod_pos_bound; lia).
  replace ((n * (g / n) + v) * 64 + d) with (v * 64 + d + (g / n) * (n * 64)) by lia.
  rewrite Z.mod_add by lia. apply Z.mod_small. lia.
Qed.

Lemma b64_push_short len st p :
  pending p st -> (length p < 3)%nat -> is_digit (b64_digit st) ->
  exists st', b64_push len st = Done (inr st') /\ pending (p ++ [b64_digit st]) st' /\
    b64_posn st' = b64_posn st /\ b64_key st' = b64_key st /\ b64_digit st' = b64_digit st.
Proof.
  intros (Hp & _ & Hsz & Hg & Hv) Hlt Hd. unfold b64_push. rewrite Hsz.
  rewrite (proj2 (Z.leb_gt 4 (zlen p + 1))) by (unfold zlen; lia).
  eexists. split; [done|]. split; [|done]. cbn.
  split_and!; cbn.
  - by apply Forall_app_2; [|constructor].
  - rewrite length_app. cbn. lia.
  - zlen_lia.
  - unfold u32. zlia.
  - unfold u32. zlia.
  - rewrite zlen_app, zlen_cons, zlen_nil, foldl_app. cbn.
    replace (64 ^ (zlen p + (1 + 0))) with (64 ^ zlen p * 64)
      by (rewrite Z.add_assoc, Z.add_0_r, Z.pow_add_r by zlen_lia; lia).
    assert (zlen p = 0 \/ zlen p = 1 \/ zlen p = 2) as Hc by (unfold zlen; lia).
    apply pending_step; try done; destruct Hc as [->|[->| ->]]; try lia.
    + by exists (2 ^ 26).
    + by exists (2 ^ 20).
    + by exists (2 ^ 14).
Qed.

Lemma group_bytes a b c d g :
  is_digit a -> is_digit b -> is_digit c -> is_digit d -> 0 <= g < 2 ^ 32 ->
  g mod 262144 = (a * 64 + b) * 64 + c ->
  [u8 (Z.shiftr (u32 (Z.lor (Z.shiftl g 6) d)) 16);
   u8 (Z.shiftr (u32 (Z.lor (Z.shiftl g 6) d)) 8);
   u8 (u32 (Z.lor (Z.shiftl g 6) d))] = b64_bytes [a; b; c; d].
Proof.
  intros Ha Hb Hc Hd Hg Hv. cbn [b64_bytes].
  set (G := u32 (Z.lor (Z.shiftl g 6) d)).
  pose proof (pending_step g d _ 262144 Hg Hd ltac:(lia) ltac:(lia)
                ltac:(by exists (2 ^ 8)) Hv) as Hm. fold G in Hm.
  unfold is_digit in *. unfold u8. rewrite !Z.shiftr_div_pow2 by lia.
  change (262144 * 64) with 16777216 in Hm.
  change (2 ^ 16) with 65536. change (2 ^ 8) with 256.
  f_equal; [zlia|f_equal; [zlia|f_equal; zlia]].
Qed.

Lemma b64_push_full len st a b c pre rest :
  pending [a; b; c] st -> is_digit (b64_digit st) ->
  0 <= b64_posn st <= len -> len < 2 ^ 64 ->
  b64_key st = pre ++ rest -> zlen pre = b64_posn st -> len <= zlen (pre ++ rest) ->
  if len <? b64_posn st + 3 then
    b64_push len st = Done (inl (LoadResult NGX_ERROR (b64_key st) Closed))
  else exists st', b64_push len st = Done (inr st') /\ pending [] st' /\
    b64_posn st' = b64_posn st + 3 /\ b64_digit st' = b64_digit st /\
    b64_key st' = (pre ++ b64_bytes [a; b; c; b64_digit st]) ++ zdrop 3 rest.
Proof.
  intros (Hp & _ & Hsz & Hg & Hv) Hd Hpos Hlen Hkey Hpre Hcap.
  unfold b64_push. cbn zeta. rewrite Hsz.
  rewrite (proj2 (Z.leb_le 4 (zlen [a; b; c] + 1))) by done.
  rewrite u64_sub_ltb by done. destruct (Z.ltb_spec len (b64_posn st + 3)) as [|Hge]; [done|].
  rewrite !Forall_cons_iff in Hp. destruct Hp as (Ha & Hb & Hc & _).
  rewrite (group_bytes a b c) by done.
  destruct (mem_split 3 rest) as (old & post & -> & Hold); [zlen_lia|].
  rewrite Hkey, <- Hpre, store_app by (rewrite Hold; done).
  cbn [deref mbind outcome_bind]. eexists. split; [done|]. cbn.
  split_and!; try done.
  - split_and!; cbn; [constructor|lia|done|unfold u32; zlia|unfold u32; zlia|].
    rewrite zlen_nil. apply Z.mod_1_r.
  - rewrite zdrop_app_exact by done. by rewrite <- app_assoc.
Qed.

Lemma b64_finish_spec len st p pre rest :
  pending p st -> 0 <= b64_posn st <= len -> len < 2 ^ 64 ->
  b64_key st = pre ++ rest -> zlen pre = b64_posn st -> len <= zlen (pre ++ rest) ->
  if decide (zlen pre + zlen (b64_bytes p) = len)
  then b64_finish len st =
       Done (LoadResult NGX_OK (pre ++ b64_bytes p ++ zdrop (zlen (b64_bytes p)) rest) Closed)
  else exists key', zlen key' = zlen (pre ++ rest) /\
       b64_finish len st = Done (LoadResult NGX_ERROR key' Closed).
Proof.
  intros (Hp & Hlt & Hsz & Hg & Hv) Hpos Hlen Hkey Hpre Hcap.
  unfold b64_finish, b64_check. rewrite Hsz, !u64_sub_ltb by done.
  assert (Hlast : forall old post bs, rest = old ++ post -> zlen bs = zlen old ->
    store (b64_posn st) bs (b64_key st) = Some (pre ++ bs ++ post)).
  { intros old post bs -> Hbs. rewrite Hkey, <- Hpre. by apply store_app. }
  destruct p as [|a [|b [|c [|]]]]; cbn [length] in Hlt; try lia; cbn [b64_bytes]; zlit.
  1,2: case_decide; [rewrite (proj2 (Z.ltb_ge _ _)) by lia; by rewrite Hkey
        |rewrite (proj2 (Z.ltb_lt _ _)) by lia; rewrite Hkey; eauto].
  - rewrite !Forall_cons_iff in Hp. destruct Hp as (Ha & Hb & _). unfold is_digit in *.
    destruct (Z.ltb_spec len (b64_posn st + 1)) as [Hs|Hge].
    { rewrite decide_False by lia. rewrite Hkey. eauto. }
    destruct (mem_split 1 rest) as (old & post & -> & Hold); [zlen_lia|].
    rewrite (Hlast old post) by done. cbn [deref mbind outcome_bind].
    replace (u8 (Z.shiftr (b64_group st) 4)) with ((a * 64 + b) / 16).
    2:{ unfold u8. rewrite Z.shiftr_div_pow2 by lia.
        change (64 ^ zlen [a; b]) with 4096 in Hv. cbn [foldl] in Hv. zlia. }
    rewrite zdrop_app_exact by done.
    case_decide; [rewrite (proj2 (Z.ltb_ge _ _)) by lia; done
        |rewrite (proj2 (Z.ltb_lt _ _)) by lia].
    eexists. split; [|done]. zlen_lia.
  - rewrite !Forall_cons_iff in Hp. destruct Hp as (Ha & Hb & Hc & _). unfold is_digit in *.
    destruct (Z.ltb_spec len (b64_posn st + 2)) as [Hs|Hge].
    { rewrite decide_False by lia. rewrite Hkey. eauto. }
    destruct (mem_split 2 rest) as (old & post & -> & Hold); [zlen_lia|].
    rewrite (Hlast old post) by done. cbn [deref mbind outcome_bind].
    change (64 ^ zlen [a; b; c]) with 262144 in Hv. cbn [foldl] in Hv.
    replace (u8 (Z.shiftr (b64_group st) 10)) with (((a * 64 + b) * 64 + c) / 1024)
      by (unfold u8; rewrite Z.shiftr_div_pow2 by lia; zlia).
    replace (u8 (Z.shiftr (b64_group st) 2)) with ((((a * 64 + b) * 64 + c) / 4) mod 256)
      by (unfold u8; rewrite Z.shiftr_div_pow2 by lia; zlia).
    rewrite zdrop_app_exact by done.
    case_decide; [rewrite (proj2 (Z.ltb_ge _ _)) by lia; done
        |rewrite (proj2 (Z.ltb_lt _ _)) by lia].
    eexists. split; [|done]. zlen_lia.
Qed.

(** [loads o pre rest len res]: with [pre] already stored, the run [res] agrees
    with a decoding [o] of what is left. *)
Definition loads (o : option (list Z)) (pre rest : list Z) (len : Z)
    (res : outcome load_result) : Prop :=
  (exists bs, o = Some bs /\ zlen pre + zlen bs = len /\
     res = Done (LoadResult NGX_OK (pre ++ bs ++ zdrop (zlen bs) rest) Closed)) \/
  ((forall bs, o = Some bs -> zlen pre + zlen bs <> len) /\
   exists key', zlen key' = zlen (pre ++ rest) /\ res = Done (LoadResult NGX_ERROR key' Closed)).

(** The state of the loop once [pre] is stored and [p] is pending. *)
Definition loop_inv (len : Z) (st : b64) (p pre rest : list Z) : Prop :=
  pending p st /\ is_digit (b64_digit st) /\ 0 <= b64_posn st <= len /\ len < 2 ^ 64 /\
  b64_key st = pre ++ rest /\ zlen pre = b64_posn st /\ len <= zlen (pre ++ rest).

Definition decodes (p : list Z) (ods : option (list Z)) : option (list Z) :=
  (fun ds => b64_bytes (p ++ ds)) <$> ods.

Lemma loads_error o pre rest len key :
  (forall bs, o = Some bs -> zlen pre + zlen bs <> len) -> zlen key = zlen (pre ++ rest) ->
  loads o pre rest len (Done (LoadResult NGX_ERROR key Closed)).
Proof. right. eauto. Qed.

Lemma loads_finish len st p pre rest :
  loop_inv len st p pre rest -> loads (decodes p (Some [])) pre rest len (b64_finish len st).
Proof.
  intros (Hp & Hd & Hpos & Hlen & Hkey & Hpre & Hcap).
  pose proof (b64_finish_spec len st p pre rest Hp Hpos Hlen Hkey Hpre Hcap) as H.
  cbn. rewrite app_nil_r. case_decide as Hdec; [left; eauto|right].
  split; [by intros ? [= <-]|done].
Qed.

(** One digit: if the loop is right on the rest of the file from any state, it is
    right after pushing the current digit. *)
Lemma loads_push len st p pre rest chs ods :
  loop_inv len st p pre rest ->
  (forall st' p' pre' rest', loop_inv len st' p' pre' rest' ->
     b64_digit st' = b64_digit st ->
     loads (decodes p' ods) pre' rest' len (load_public_loop chs len st')) ->
  loads (decodes p (cons (b64_digit st) <$> ods)) pre rest len
    (r ← b64_push len st;
     match r with inl res => Done res | inr st => load_public_loop chs len st end).
Proof.
  intros (Hp & Hd & Hpos & Hlen & Hkey & Hpre & Hcap) IH.
  destruct (decide (length p < 3)%nat) as [Hshort|Hfull].
  - destruct (b64_push_short len st p Hp Hshort Hd) as (st' & -> & Hp' & Hpo & Hk & Hdg).
    cbn [mbind outcome_bind].
    replace (decodes p (cons (b64_digit st) <$> ods))
      with (decodes (p ++ [b64_digit st]) ods)
      by (destruct ods; cbn; [by rewrite <- app_assoc|done]).
    apply IH; [|done]. rewrite <- Hdg in Hd.
    split_and!; try done; rewrite ?Hpo, ?Hk; lia || done.
  - assert (exists a b c, p = [a; b; c]) as (a & b & c & ->).
    { destruct Hp as (_ & Hl & _). destruct p as [|a [|b [|c [|]]]]; cbn in *; try lia. eauto. }
    pose proof (b64_push_full len st a b c pre rest Hp Hd Hpos Hlen Hkey Hpre Hcap) as Hpush.
    destruct (Z.ltb_spec len (b64_posn st + 3)) as [Hov|Hroom].
    + rewrite Hpush. cbn [mbind outcome_bind]. apply loads_error; [|by rewrite Hkey].
      intros bs. destruct ods as [ds|]; [|done]. intros [= <-].
      rewrite !zlen_cons. zlen_lia.
    + destruct Hpush as (st' & -> & Hp' & Hpo & Hdg & Hk). cbn [mbind outcome_bind].
      destruct (mem_split 3 rest) as (old & post & -> & Hold); [zlen_lia|].
      rewrite zdrop_app_exact in Hk by done.
      set (b4 := b64_bytes [a; b; c; b64_digit st]) in *.
      assert (Hb4 : zlen b4 = 3) by done.
      assert (Hcut : forall ds, b64_bytes ([a; b; c] ++ b64_digit st :: ds) = b4 ++ b64_bytes ds)
        by done.
      clearbody b4. specialize (IH st' [] (pre ++ b4) post).
      destruct IH as [(bs & Ho & Hl & ->)|(Hne & key' & Hl & ->)]; [|done| |].
      * rewrite <- Hdg in Hd. split_and!; try done; zlen_lia.
      * left. destruct ods as [ds|]; [|done]. cbn in Ho. simplify_eq.
        exists (b4 ++ b64_bytes ds). split; [cbn; by rewrite <- Hcut|]. split; [zlen_lia|].
        rewrite <- !app_assoc, zlen_app, Hb4, <- Hold.
        by rewrite zdrop_app_add by zlen_lia.
      * right. split; [|exists key'; split; [zlen_lia|done]].
        intros bs. destruct ods as [ds|]; [|done]. intros Hbs.
        change (Some (b64_bytes ([a; b; c] ++ b64_digit st :: ds)) = Some bs) in Hbs.
        rewrite Hcut in Hbs. injection Hbs as <-. specialize (Hne _ eq_refl). cbn [app] in Hne. zlen_lia.
Qed.

Lemma load_public_loop_spec chs : forall len st p pre rest,
  loop_inv len st p pre rest ->
  loads (decodes p (b64_digits chs (b64_digit st))) pre rest len (load_public_loop chs len st).
Proof.
  induction chs as [|ch chs IH]; intros len st p pre rest Hinv; cbn [load_public_loop b64_digits].
  { by apply loads_finish. }
  destruct (b64_classify ch) as [d| | |] eqn:Hcls.
  - pose proof (b64_classify_digit _ _ Hcls) as Hd.
    refine (loads_push len (st <| b64_digit := d |>) p pre rest chs (b64_digits chs d) _ _).
    + destruct Hinv as (Hp & _ & Hrest). exact (conj Hp (conj Hd Hrest)).
    + intros st' p' pre' rest' Hinv' Hdg. cbn in Hdg. rewrite <- Hdg. by apply IH.
  - apply (loads_push len st p pre rest chs (b64_digits chs (b64_digit st))); [done|].
    intros st' p' pre' rest' Hinv' Hdg. rewrite <- Hdg. by apply IH.
  - by apply loads_finish.
  - destruct Hinv as (_ & _ & _ & _ & Hkey & _). apply loads_error; [done|by rewrite Hkey].
Qed.

Lemma load_public_key_loads chs key len :
  0 <= len <= zlen key -> len <= NOISE_PROTOCOL_MAX_DH_KEY_LEN ->
  loads (b64_bytes <$> b64_digits chs 0) [] key len
    (ngx_noise_protocol_load_public_key (Some chs) key len).
Proof.
  intros Hlen Hok. unfold ngx_noise_protocol_load_public_key, NOISE_PROTOCOL_MAX_DH_KEY_LEN in *.
  rewrite (proj2 (Z.ltb_ge _ _)) by lia.
  apply (load_public_loop_spec chs len (B64 0 0 0 0 key) [] [] key).
  split_and!; cbn; try done; try lia. split_and!; cbn; try lia; [constructor|done..].
Qed.



Lemma b64_digits_encode bs :
  bytes_ok bs -> forall d, b64_bytes <$> b64_digits (b64_encode bs) d = Some bs.
Proof.
  revert bs. fix IH 1. intros bs Hok d.
  destruct bs as [|b1 [|b2 [|b3 bs]]]; cbn [b64_encode b64_digits]; [done| | |];
    unfold bytes_ok in Hok; rewrite ?Forall_cons_iff in Hok; destruct_and?; fold bytes_ok in *; unfold is_byte in *.
  - rewrite !b64_classify_char by (unfold is_digit; zlia). cbn.
    do 2 f_equal. zlia.
  - rewrite !b64_classify_char by (unfold is_digit; zlia). cbn.
    f_equal. f_equal; [zlia|f_equal; zlia].
  - rewrite !b64_classify_char by (unfold is_digit; zlia).
    specialize (IH bs ltac:(done) (b3 mod 64)).
    destruct (b64_digits (b64_encode bs) (b3 mod 64)) as [ds|]; [|done].
    cbn in IH |- *. injection IH as IH. f_equal.
    f_equal; [zlia|f_equal; [zlia|f_equal; [zlia|exact IH]]].
Qed.

(** Loading the base64 file of a key gives the key back, for every key of at
    most NOISE_PROTOCOL_MAX_DH_KEY_LEN bytes. *)
Theorem load_public_key_roundtrip bs key
    (Hok : bytes_ok bs) (Hmax : zlen bs <= NOISE_PROTOCOL_MAX_DH_KEY_LEN)
    (Hkey : zlen key = zlen bs) :
  ngx_noise_protocol_load_public_key (Some (b64_encode bs)) key (zlen bs) =
  Done (LoadResult NGX_OK bs Closed).
Proof.
  destruct (load_public_key_loads (b64_encode bs) key (zlen bs))
    as [(bs' & Ho & _ & ->)|(Hne & _)]; [zlen_lia|done| |].
  - rewrite b64_digits_encode in Ho by done. simplify_eq.
    by rewrite zdrop_all, app_nil_r by lia.
  - destruct (Hne bs); [by apply b64_digits_encode|done].
Qed.

Lemma load_public_key_roundtrip_witness :
  zlen [7; 0; 255; 128; 1] <= NOISE_PROTOCOL_MAX_DH_KEY_LEN /\
  ngx_noise_protocol_load_public_key (Some (b64_encode [7; 0; 255; 128; 1])) [0; 0; 0; 0; 0] 5 =
  Done (LoadResult NGX_OK [7; 0; 255; 128; 1] Closed).
Proof.
  split; [done|]. apply (load_public_key_roundtrip [7; 0; 255; 128; 1] [0; 0; 0; 0; 0]).
  - repeat constructor; done.
  - done.
  - done.
Defined.

Lemma load_private_key_correct_witness :
  0 <= 3 <= zlen [0; 0; 0] /\
  exists r, ngx_noise_protocol_load_private_key (Some [5; 6; 7]) [0; 0; 0] 3 = Done r /\
    lr_rc r = NGX_OK.
Proof.
  split; [done|].
  destruct (load_private_key_correct (Some [5; 6; 7]) [0; 0; 0] 3 ltac:(done))
    as (r & Hr & _ & [(Hrc & _)|(_ & [Hb|[Hn|(chs & Hc & Hne)]])]).
  - exists r. by split.
  - by exfalso.
  - done.
  - injection Hc as <-. by exfalso.
Defined.

(** A blank inside the base64 text is not skipped: the loop runs on
    with the digit of the character before it, so the file is read as if that
    character stood twice. *)
Theorem load_public_key_blank_counts (d ch : Z) (chs : list Z)
    (Hblank : ch = 32 \/ ch = 9 \/ ch = 13 \/ ch = 10) (Hd : 0 <= d < 64) :
  b64_digits (b64_char d :: ch :: chs) 0 = b64_digits (b64_char d :: b64_char d :: chs) 0 /\
  forall key len, 0 <= len <= zlen key ->
    ngx_noise_protocol_load_public_key (Some (b64_char d :: ch :: chs)) key len =
    ngx_noise_protocol_load_public_key (Some (b64_char d :: b64_char d :: chs)) key len.
Proof.
  assert (Hk : b64_classify ch = KeepDigit) by (destruct Hblank as [->|[->|[->| ->]]]; done).
  assert (Hc : b64_classify (b64_char d) = AssignDigit d) by by apply b64_classify_char.
  split; [cbn; by rewrite Hk, Hc|].
  intros key len Hlen. unfold ngx_noise_protocol_load_public_key.
  destruct (_ <? _); [done|]. cbn [load_public_loop]. rewrite Hk, Hc.
  reflexivity.
Qed.

Lemma load_public_key_blank_counts_witness :
  b64_digits [b64_char 5; 10; 81] 0 = b64_digits [b64_char 5; b64_char 5; 81] 0.
Proof. apply (load_public_key_blank_counts 5 10 [81]); [right; right; right; done|done]. Defined.
