(* ===== verification/RoundRobin.v ===== *)
(** * The round-robin balancer: ngx_nsoc_upstream_round_robin.c

    The peers of an upstream are shared by every session: [rr_upstream] is that
    shared object, one group of primary peers and an optional group of backups
    ([peers->next]).  A session keeps an [rrp] (which group it is in, the peer it
    holds, the bitmap of the peers it tried) and the peer connection [pc].  A
    pointer to a peer is its group and its index in the group's list.

    Signed weights are unbounded integers here; [fair_cycle] and
    [session_invariant] bound them. *)

From stdpp Require Import prelude list numbers gmap.
From S2P Require Import Prelude.

(** ** Data *)

Record addr := Addr { ad_sockaddr : list Z; ad_socklen : Z; ad_name : list Z }.

(** [ngx_nsoc_upstream_server_t]: one [server] line of an upstream block. *)
Record upstream_server := UpstreamServer {
  sv_name : list Z;
  sv_addrs : list addr;
  sv_naddrs : Z;
  sv_weight : Z;
  sv_max_conns : Z;
  sv_max_fails : Z;
  sv_fail_timeout : Z;
  sv_down : bool;
  sv_backup : bool;
}.

Record rr_peer := RrPeer {
  sockaddr : list Z;
  socklen : Z;
  name : list Z;
  server : list Z;
  current_weight : Z;
  effective_weight : Z;
  weight : Z;
  conns : Z;
  max_conns : Z;
  fails : Z;
  accessed : Z;
  checked : Z;
  max_fails : Z;
  fail_timeout : Z;
  down : bool;
}.
#[export] Instance eta_rr_peer : Eta rr_peer := fun r =>
  RrPeer (sockaddr r) (socklen r) (name r) (server r) (current_weight r)
    (effective_weight r) (weight r) (conns r) (max_conns r) (fails r) (accessed r)
    (checked r) (max_fails r) (fail_timeout r) (down r).

Record rr_peers := RrPeers {
  number : Z;
  total_weight : Z;
  single : bool;
  weighted : bool;
  peers_name : list Z;
  peer : list rr_peer;
}.
#[export] Instance eta_rr_peers : Eta rr_peers := fun r =>
  RrPeers (number r) (total_weight r) (single r) (weighted r) (peers_name r) (peer r).

(** [us->peer.data]: the primary peers and [peers->next]. *)
Record rr_upstream := RrUpstream { primary : rr_peers; backup : option rr_peers }.
#[export] Instance eta_rr_upstream : Eta rr_upstream := fun r =>
  RrUpstream (primary r) (backup r).

Inductive rr_group := Primary | Backup.
#[export] Instance rr_group_eq_dec : EqDecision rr_group.
Proof. solve_decision. Defined.

Definition group (g : rr_group) (us : rr_upstream) : option rr_peers :=
  match g with Primary => Some (primary us) | Backup => backup us end.

Definition set_group (g : rr_group) (ps : rr_peers) (us : rr_upstream) : rr_upstream :=
  match g with
  | Primary => us <| primary := ps |>
  | Backup => us <| backup := Some ps |>
  end.

(** [peers->next]: only the primary group has one. *)
Definition group_next (g : rr_group) (us : rr_upstream) : option rr_group :=
  match g, backup us with
  | Primary, Some _ => Some Backup
  | _, _ => None
  end.

(** [ngx_nsoc_upstream_rr_peer_data_t]; [tried] holds the words of the bitmap,
    whether it points at [data] or at an array of its own. *)
Record rr_peer_data := RrPeerData {
  config : Z;
  rrp_peers : rr_group;
  current : option (rr_group * nat);
  tried : list Z;
}.
#[export] Instance eta_rr_peer_data : Eta rr_peer_data := fun r =>
  RrPeerData (config r) (rrp_peers r) (current r) (tried r).

(** The fields of [ngx_peer_connection_t] the balancer uses; [connection] is the
    socket type of the connection, when there is one. *)
Record peer_connection := PeerConnection {
  pc_sockaddr : option (list Z);
  pc_socklen : Z;
  pc_name : option (list Z);
  tries : Z;
  connection : option Z;
}.
#[export] Instance eta_peer_connection : Eta peer_connection := fun r =>
  PeerConnection (pc_sockaddr r) (pc_socklen r) (pc_name r) (tries r) (connection r).

Record rr_state := RrState { st_us : rr_upstream; st_rrp : rr_peer_data; st_pc : peer_connection }.
#[export] Instance eta_rr_state : Eta rr_state := fun r => RrState (st_us r) (st_rrp r) (st_pc r).

(** ** Configuration time *)

Section Init.
Context {P : Type} `{NgxPool P}.

Definition object : M P bool := fun p => Done (pool_object p).

(** The first loop over the servers: the number of addresses and the sum of the
    weights of the servers whose [backup] flag is [b]. *)
Definition count_servers (b : bool) (servers : list upstream_server) : Z * Z :=
  foldl (fun '(n, w) s =>
    if Bool.eqb (sv_backup s) b
    then (u64 (n + sv_naddrs s), u64 (w + sv_naddrs s * sv_weight s))
    else (n, w)) (0, 0) servers.

(** The body of the inner loop: one peer for one address. *)
Definition peer_of_server (s : upstream_server) (a : addr) : rr_peer :=
  RrPeer (ad_sockaddr a) (ad_socklen a) (ad_name a) (sv_name s) 0 (sv_weight s) (sv_weight s)
    0 (sv_max_conns s) 0 0 0 (sv_max_fails s) (sv_fail_timeout s) (sv_down s).

(** [for (j = 0; j < server[i].naddrs; j++)], reading [addrs[j]]. *)
Definition peers_of_server (s : upstream_server) : option (list rr_peer) :=
  mapM (fun j => peer_of_server s <$> sv_addrs s !! j) (seq 0 (Z.to_nat (sv_naddrs s))).

(** The second loop over the servers. *)
Fixpoint fill_peers (b : bool) (servers : list upstream_server) : option (list rr_peer) :=
  match servers with
  | [] => Some []
  | s :: servers =>
      if Bool.eqb (sv_backup s) b
      then ps ← peers_of_server s; rest ← fill_peers b servers; Some (ps ++ rest)
      else fill_peers b servers
  end.

(** The part of [init_round_robin] for an explicit list of servers; the result
    is the code and [us->peer.data] ([None]: not assigned). *)
Definition init_round_robin_servers (host : list Z) (servers : list upstream_server)
    : M P (Z * option rr_upstream) :=
  let '(n, w) := count_servers false servers in
  if n =? 0 then mret (NGX_ERROR, None)
  else
    ok ← object;
    if negb ok then mret (NGX_ERROR, None) else
    ok ← object;
    if negb ok then mret (NGX_ERROR, None) else
    ps ← mderef (fill_peers false servers);
    let peers := RrPeers n w (n =? 1) (negb (w =? n)) host ps in
    let '(bn, bw) := count_servers true servers in
    if bn =? 0 then mret (NGX_OK, Some (RrUpstream peers None))
    else
      ok ← object;
      if negb ok then mret (NGX_ERROR, Some (RrUpstream peers None)) else
      ok ← object;
      if negb ok then mret (NGX_ERROR, Some (RrUpstream peers None)) else
      let peers := peers <| single := false |> in
      bps ← mderef (fill_peers true servers);
      mret (NGX_OK, Some (RrUpstream peers
              (Some (RrPeers bn bw false (negb (bw =? bn)) host bps)))).

(** A peer of an upstream defined implicitly or resolved at run time. *)
Definition plain_peer (a : addr) : rr_peer :=
  RrPeer (ad_sockaddr a) (ad_socklen a) (ad_name a) [] 0 1 1 0 0 0 0 0 1 10 false.

(** The part for an upstream that [proxy_pass] defines implicitly.  [resolve] is
    [ngx_inet_resolve_host] of nginx core: the addresses, or [None] on failure. *)
Definition init_round_robin_implicit (resolve : list Z -> Z -> option (list addr))
    (host : list Z) (port : Z) : M P (Z * option rr_upstream) :=
  if port =? 0 then mret (NGX_ERROR, None)
  else
    match resolve host port with
    | None => mret (NGX_ERROR, None)
    | Some addrs =>
        let n := zlen addrs in
        ok ← object;
        if negb ok then mret (NGX_ERROR, None) else
        ok ← object;
        if negb ok then mret (NGX_ERROR, None) else
        mret (NGX_OK, Some (RrUpstream
                (RrPeers n n (n =? 1) false host (map plain_peer addrs)) None))
    end.

Definition ngx_nsoc_upstream_init_round_robin (resolve : list Z -> Z -> option (list addr))
    (host : list Z) (port : Z) (servers : option (list upstream_server))
    : M P (Z * option rr_upstream) :=
  match servers with
  | Some servers => init_round_robin_servers host servers
  | None => init_round_robin_implicit resolve host port
  end.

(** ** Start of a session *)

(** [8 * sizeof(uintptr_t)] *)
Definition word_bits : Z := 64.

(** The bitmap for [n] peers: [None] when its array cannot be allocated. *)
Definition alloc_tried (n : Z) : M P (option (list Z)) :=
  if n <=? word_bits then mret (Some [0])
  else
    ok ← object;
    mret (if ok : bool then Some (replicate (Z.to_nat ((n + (word_bits - 1)) / word_bits)) 0)
          else None).

(** [ngx_nsoc_upstream_tries] *)
Definition upstream_tries (us : rr_upstream) : Z :=
  number (primary us) + match backup us with Some b => number b | None => 0 end.

(** [s->upstream->peer.data] before the call is [old]. *)
Definition ngx_nsoc_upstream_init_round_robin_peer (old : option rr_peer_data)
    (us : rr_upstream) (pc : peer_connection)
    : M P (Z * option rr_peer_data * peer_connection) :=
  ok ← (match old with Some _ => mret true | None => object end);
  if negb ok then mret (NGX_ERROR, None, pc) else
  let n := number (primary us) in
  let n := match backup us with
           | Some b => if n <? number b then number b else n
           | None => n
           end in
  t ← alloc_tried n;
  match t with
  | None => mret (NGX_ERROR, Some (RrPeerData 0 Primary None []), pc)
  | Some words =>
      mret (NGX_OK, Some (RrPeerData 0 Primary None words),
            pc <| tries := upstream_tries us |>)
  end.

(** ** An upstream resolved at run time *)

(** [ngx_nsoc_upstream_resolved_t] *)
Record resolved := Resolved {
  ur_host : list Z;
  ur_port : Z;
  ur_naddrs : Z;
  ur_addrs : list addr;
  ur_sockaddr : option (list Z);
  ur_socklen : Z;
  ur_name : list Z;
}.

Section Create.
Context (set_port : list Z -> Z -> list Z) (sock_ntop : list Z -> list Z).

(** The loop over [ur->addrs]: a copy of each address with the port set, its
    text, and the peer; two allocations per address. *)
Fixpoint resolved_peers (ur : resolved) (idx : list nat) : M P (option (list rr_peer)) :=
  match idx with
  | [] => mret (Some [])
  | i :: idx =>
      a ← mderef (ur_addrs ur !! i);
      ok ← object;
      if negb ok then mret None else
      let sa := set_port (ad_sockaddr a) (ur_port ur) in
      ok ← object;
      if negb ok then mret None else
      rest ← resolved_peers ur idx;
      mret (cons (plain_peer (Addr sa (ad_socklen a) (sock_ntop sa))) <$> rest)
  end.

(** The upstream of the session is private: it has no backup group, and
    [total_weight] stays zero. *)
Definition ngx_nsoc_upstream_create_round_robin_peer (old : option rr_peer_data)
    (ur : resolved) (pc : peer_connection)
    : M P (Z * option (rr_upstream * rr_peer_data) * peer_connection) :=
  ok ← (match old with Some _ => mret true | None => object end);
  if negb ok then mret (NGX_ERROR, None, pc) else
  ok ← object;
  if negb ok then mret (NGX_ERROR, None, pc) else
  ok ← object;
  if negb ok then mret (NGX_ERROR, None, pc) else
  ps ← (match ur_sockaddr ur with
        | Some sa =>
            if ur_naddrs ur =? 0 then undefined
            else mret (Some [plain_peer (Addr sa (ur_socklen ur) (ur_name ur))])
        | None => resolved_peers ur (seq 0 (Z.to_nat (ur_naddrs ur)))
        end);
  match ps with
  | None => mret (NGX_ERROR, None, pc)
  | Some ps =>
      let us := RrUpstream (RrPeers (ur_naddrs ur) 0 (ur_naddrs ur =? 1) false (ur_host ur) ps)
                  None in
      t ← alloc_tried (ur_naddrs ur);
      match t with
      | None => mret (NGX_ERROR, Some (us, RrPeerData 0 Primary None []), pc)
      | Some words =>
          mret (NGX_OK, Some (us, RrPeerData 0 Primary None words),
                pc <| tries := upstream_tries us |>)
      end
  end.
End Create.
End Init.

(** ** Choosing a peer *)

Definition tried_word (i : nat) : nat := (i / 64)%nat.
Definition tried_mask (i : nat) : Z := Z.shiftl 1 (Z.of_nat (i mod 64)%nat).

(** [rrp->tried[n] & m], and [rrp->tried[n] |= m]. *)
Definition tried_bit (t : list Z) (i : nat) : option bool :=
  (fun w => negb (Z.land w (tried_mask i) =? 0)) <$> t !! tried_word i.

Definition set_tried (t : list Z) (i : nat) : option (list Z) :=
  (fun w => <[tried_word i := Z.lor w (tried_mask i)]> t) <$> t !! tried_word i.

(** The three other reasons to pass over a peer. *)
Definition skip_peer (now : Z) (p : rr_peer) : bool :=
  down p
  || (negb (max_fails p =? 0) && (max_fails p <=? fails p) && (now - checked p <=? fail_timeout p))
  || (negb (max_conns p =? 0) && (max_conns p <=? conns p)).

(** The weights of a peer that takes part in a choice. *)
Definition bump (p : rr_peer) : rr_peer :=
  p <| current_weight := current_weight p + effective_weight p |>
    <| effective_weight :=
         if effective_weight p <? weight p then effective_weight p + 1 else effective_weight p |>.

Definition better (i : nat) (p : rr_peer) (best : option (nat * rr_peer)) : option (nat * rr_peer) :=
  match best with
  | None => Some (i, p)
  | Some (k, b) => if current_weight b <? current_weight p then Some (i, p) else Some (k, b)
  end.

(** The loop over the peers: the updated peers, [best] with its index [p], and
    [total]. *)
Fixpoint get_peer_loop (now : Z) (t : list Z) (ps : list rr_peer) (i : nat)
    (best : option (nat * rr_peer)) (total : Z)
    : outcome (list rr_peer * option (nat * rr_peer) * Z) :=
  match ps with
  | [] => Done ([], best, total)
  | p :: ps =>
      b ← deref (tried_bit t i);
      if b || skip_peer now p then
        '(ps', best', total') ← get_peer_loop now t ps (S i) best total;
        Done (p :: ps', best', total')
      else
        let p' := bump p in
        '(ps', best', total') ←
          get_peer_loop now t ps (S i) (better i p' best) (total + effective_weight p);
        Done (p' :: ps', best', total')
  end.

(** What is done to [best] after the loop. *)
Definition settle (now total : Z) (p : rr_peer) : rr_peer :=
  p <| current_weight := current_weight p - total |>
    <| checked := if fail_timeout p <? now - checked p then now else checked p |>.

Definition ngx_nsoc_upstream_get_peer (now : Z) : M rr_state (option nat) :=
  rrp ← gets st_rrp;
  us ← gets st_us;
  let g := rrp_peers rrp in
  peers ← mderef (group g us);
  '(ps, best, total) ← lift (get_peer_loop now (tried rrp) (peer peers) 0 None 0);
  match best with
  | None => st_us ::=! set_group g (peers <| peer := ps |>) us;; mret None
  | Some (k, b) =>
      t ← mderef (set_tried (tried rrp) k);
      st_rrp ::=! (rrp <| current := Some (g, k) |> <| tried := t |>);;
      st_us ::=! set_group g (peers <| peer := <[k := settle now total b]> ps |>) us;;
      mret (Some k)
  end.

(** [for (i = 0; i < n; i++) rrp->tried[i] = 0]. *)
Definition clear_tried (n : nat) (t : list Z) : option (list Z) :=
  if decide (n <= length t)%nat then Some (replicate n 0 ++ drop n t) else None.

(** The choice inside the current group; [None] is [goto failed]. *)
Definition choose_in_group (now : Z) : M rr_state (option nat) :=
  rrp ← gets st_rrp;
  us ← gets st_us;
  peers ← mderef (group (rrp_peers rrp) us);
  if single peers then
    p ← mderef (head (peer peers));
    if down p then mret None
    else if negb (max_conns p =? 0) && (max_conns p <=? conns p) then mret None
    else st_rrp ::=! (rrp <| current := Some (rrp_peers rrp, 0%nat) |>);; mret (Some 0%nat)
  else ngx_nsoc_upstream_get_peer now.

(** [pc->sockaddr = peer->sockaddr; ...; peer->conns++]. *)
Definition take_peer (g : rr_group) (k : nat) : M rr_state unit :=
  us ← gets st_us;
  pc ← gets st_pc;
  peers ← mderef (group g us);
  p ← mderef (peer peers !! k);
  st_pc ::=! (pc <| pc_sockaddr := Some (sockaddr p) |> <| pc_socklen := socklen p |>
                 <| pc_name := Some (name p) |>);;
  st_us ::=! set_group g
    (peers <| peer := <[k := p <| conns := u64 (conns p + 1) |>]> (peer peers) |>) us.

(** The function calls itself for the backup group; [fuel] bounds the depth. *)
Fixpoint get_round_robin_peer_fuel (fuel : nat) (now : Z) : M rr_state Z :=
  match fuel with
  | O => out_of_fuel
  | S fuel =>
      modify (fun s => s <| st_pc := (st_pc s) <| connection := None |> |>);;
      g ← gets (fun s => rrp_peers (st_rrp s));
      us0 ← gets st_us;
      peers ← mderef (group g us0);
      k ← choose_in_group now;
      match k with
      | Some k => take_peer g k;; mret NGX_OK
      | None =>
          us ← gets st_us;
          rc ← (match group_next g us with
                | Some g' =>
                    next ← mderef (group g' us);
                    rrp ← gets st_rrp;
                    t ← mderef (clear_tried
                          (Z.to_nat ((number next + (word_bits - 1)) / word_bits)) (tried rrp));
                    st_rrp ::=! (rrp <| rrp_peers := g' |> <| tried := t |>);;
                    get_round_robin_peer_fuel fuel now
                | None => mret NGX_BUSY
                end);
          if negb (rc =? NGX_BUSY) then mret rc
          else
            pc ← gets st_pc;
            st_pc ::=! (pc <| pc_name := Some (peers_name peers) |>);;
            mret NGX_BUSY
      end
  end.

(** Two groups at most, so a depth of two. *)
Definition ngx_nsoc_upstream_get_round_robin_peer (now : Z) : M rr_state Z :=
  get_round_robin_peer_fuel 2 now.

(** ** Giving a peer back *)

(** The bookkeeping of a failed attempt. *)
Definition mark_failed (now : Z) (p : rr_peer) : rr_peer :=
  let p := p <| fails := u64 (fails p + 1) |> <| accessed := now |> <| checked := now |> in
  let p := if negb (max_fails p =? 0)
           then p <| effective_weight := s64 (effective_weight p - u64 (weight p) / max_fails p) |>
           else p in
  if effective_weight p <? 0 then p <| effective_weight := 0 |> else p.

(** [if (peer->accessed < peer->checked) peer->fails = 0] *)
Definition mark_live (p : rr_peer) : rr_peer :=
  if accessed p <? checked p then p <| fails := 0 |> else p.

Definition NGX_PEER_FAILED : Z := 4.

Definition ngx_nsoc_upstream_free_round_robin_peer (now state : Z) : M rr_state unit :=
  rrp ← gets st_rrp;
  us ← gets st_us;
  pc ← gets st_pc;
  '(g, k) ← mderef (current rrp);
  own ← mderef (group (rrp_peers rrp) us);
  peers ← mderef (group g us);
  p ← mderef (peer peers !! k);
  let drop_conn p := p <| conns := u64 (conns p - 1) |> in
  if single own then
    st_us ::=! set_group g (peers <| peer := <[k := drop_conn p]> (peer peers) |>) us;;
    st_pc ::=! (pc <| tries := 0 |>)
  else
    let p := if negb (Z.land state NGX_PEER_FAILED =? 0) then mark_failed now p else mark_live p in
    st_us ::=! set_group g (peers <| peer := <[k := drop_conn p]> (peer peers) |>) us;;
    st_pc ::=! (if negb (tries pc =? 0) then pc <| tries := tries pc - 1 |> else pc).

Definition NGX_NSOC_UPSTREAM_NOTIFY_CONNECT : Z := 1.
Definition SOCK_STREAM : Z := 1.

Definition ngx_nsoc_upstream_notify_round_robin_peer (type : Z) : M rr_state unit :=
  rrp ← gets st_rrp;
  us ← gets st_us;
  pc ← gets st_pc;
  if type =? NGX_NSOC_UPSTREAM_NOTIFY_CONNECT then
    ty ← mderef (connection pc);
    if ty =? SOCK_STREAM then
      '(g, k) ← mderef (current rrp);
      peers ← mderef (group g us);
      p ← mderef (peer peers !! k);
      st_us ::=! set_group g (peers <| peer := <[k := mark_live p]> (peer peers) |>) us
    else mret tt
  else mret tt.

(** ** The bitmap of tried peers *)

Lemma land_pow2_testbit w k : 0 <= k -> negb (Z.land w (Z.shiftl 1 k) =? 0) = Z.testbit w k.
Proof.
  intros Hk. rewrite Z.shiftl_1_l. destruct (Z.testbit w k) eqn:Hb.
  - apply negb_true_iff, Z.eqb_neq. intros H0.
    assert (Z.testbit (Z.land w (2 ^ k)) k = true)
      by (rewrite Z.land_spec, Z.pow2_bits_true, Hb by done; done).
    by rewrite H0, Z.bits_0 in *.
  - apply negb_false_iff, Z.eqb_eq. apply Z.bits_inj'. intros n Hn.
    rewrite Z.land_spec, Z.bits_0, Z.pow2_bits_eqb by done.
    destruct (Z.eqb_spec k n) as [->|]; [by rewrite Hb|by rewrite andb_false_r].
Qed.

Lemma tried_bit_testbit t i :
  tried_bit t i = (fun w => Z.testbit w (Z.of_nat (i mod 64))) <$> t !! tried_word i.
Proof.
  unfold tried_bit, tried_mask. destruct (t !! _); cbn; [|done].
  f_equal. apply land_pow2_testbit. lia.
Qed.

Lemma tried_word_lt (t : list Z) i : (i < 64 * length t)%nat -> (tried_word i < length t)%nat.
Proof. unfold tried_word. intros. apply Nat.Div0.div_lt_upper_bound. lia. Qed.

Lemma tried_bit_covered t i : (i < 64 * length t)%nat -> is_Some (tried_bit t i).
Proof.
  intros Hi. unfold tried_bit. apply fmap_is_Some, lookup_lt_is_Some. by apply tried_word_lt.
Qed.

Lemma set_tried_Some t i t' :
  set_tried t i = Some t' ->
  length t' = length t /\
  forall j, tried_bit t' j = if decide (i = j) then Some true else tried_bit t j.
Proof.
  unfold set_tried. destruct (t !! tried_word i) as [w|] eqn:Hw; [|done]. intros [= <-].
  split; [apply length_insert|]. intros j. rewrite !tried_bit_testbit.
  assert (Hlt : (tried_word i < length t)%nat) by by eapply lookup_lt_Some.
  destruct (decide (tried_word i = tried_word j)) as [He|Hne].
  - rewrite <- He, list_lookup_insert_eq, Hw by done. cbn [fmap option_fmap option_map]. rewrite Z.lor_spec.
    unfold tried_mask. rewrite Z.shiftl_1_l, Z.pow2_bits_eqb by lia.
    case_decide as Hij.
    + subst. by rewrite Z.eqb_refl, orb_true_r.
    + rewrite (proj2 (Z.eqb_neq _ _)); [by rewrite orb_false_r|].
      intros Hm%Nat2Z.inj. apply Hij. unfold tried_word in He.
      pose proof (Nat.div_mod_eq i 64). pose proof (Nat.div_mod_eq j 64). lia.
  - rewrite list_lookup_insert_ne by done. rewrite decide_False; [done|]. by intros ->.
Qed.

(** ** The choice as a maximum over the eligible peers *)

(** [eligible now t i p]: peer [p] at index [i] takes part in the choice. *)
Definition eligible (now : Z) (t : list Z) (i : nat) (p : rr_peer) : bool :=
  match tried_bit t i with Some false => negb (skip_peer now p) | _ => false end.

Definition score (p : rr_peer) : Z := current_weight p + effective_weight p.

Section Scan.
Context (el : nat -> rr_peer -> bool).

Fixpoint candidates (i : nat) (ps : list rr_peer) : list (nat * rr_peer) :=
  match ps with
  | [] => []
  | p :: ps => (if el i p then [(i, p)] else []) ++ candidates (S i) ps
  end.

Definition bump_at (i : nat) (p : rr_peer) : rr_peer := if el i p then bump p else p.

Fixpoint bump_all (i : nat) (ps : list rr_peer) : list rr_peer :=
  match ps with
  | [] => []
  | p :: ps => bump_at i p :: bump_all (S i) ps
  end.

Definition pick_best (best : option (nat * rr_peer)) (cs : list (nat * rr_peer))
    : option (nat * rr_peer) :=
  foldl (fun b '(k, p) => better k (bump p) b) best cs.

Lemma candidates_elem ps : forall i k p,
  (k, p) ∈ candidates i ps <-> (i <= k)%nat /\ ps !! (k - i)%nat = Some p /\ el k p = true.
Proof.
  induction ps as [|q ps IH]; intros i k p; cbn [candidates].
  { split; [by intros ?%elem_of_nil|]. intros (_ & H & _). done. }
  rewrite elem_of_app, IH. destruct (decide (k = i)) as [->|Hne].
  - rewrite Nat.sub_diag. cbn. split.
    + intros [Hin|(Hlt & _)]; [|lia]. destruct (el i q) eqn:He; [|by apply elem_of_nil in Hin].
      apply list_elem_of_singleton in Hin. injection Hin as ->. done.
    + intros (_ & [= ->] & He). left. rewrite He. by left.
  - split.
    + intros [Hin|(Hle & Hp & He)].
      * destruct (el i q); [apply list_elem_of_singleton in Hin; congruence|by apply elem_of_nil in Hin].
      * split; [lia|]. replace (k - i)%nat with (S (k - S i)) by lia. done.
    + intros (Hle & Hp & He). right. split; [lia|].
      replace (k - i)%nat with (S (k - S i)) in Hp by lia. done.
Qed.

Lemma bump_all_lookup ps : forall i k,
  bump_all i ps !! k = bump_at (i + k) <$> ps !! k.
Proof.
  induction ps as [|q ps IH]; intros i [|k]; cbn; try done.
  - by rewrite Nat.add_0_r.
  - rewrite IH. by rewrite Nat.add_succ_r.
Qed.

Lemma bump_all_length ps : forall i, length (bump_all i ps) = length ps.
Proof. induction ps as [|q ps IH]; intros i; cbn; [done|by rewrite IH]. Qed.

Lemma sumz_bump_all ps : forall i,
  sumz current_weight (bump_all i ps) =
  sumz current_weight ps + sumz (fun c => effective_weight c.2) (candidates i ps).
Proof.
  induction ps as [|p ps IH]; intros i; [done|]. cbn [bump_all candidates].
  rewrite sumz_app, !sumz_cons, IH. unfold bump_at. destruct (el i p); autorewrite with sumz; cbn; lia.
Qed.

(** The first of the maximal candidates wins. *)
Lemma pick_best_from cs : forall k b,
  exists k' b', pick_best (Some (k, b)) cs = Some (k', b') /\
    ((k' = k /\ b' = b /\ forall c, c ∈ cs -> score c.2 <= current_weight b) \/
     (exists p cs1 cs2, cs = cs1 ++ (k', p) :: cs2 /\ b' = bump p /\
        current_weight b < score p /\
        (forall c, c ∈ cs1 -> score c.2 < score p) /\
        (forall c, c ∈ cs2 -> score c.2 <= score p))).
Proof.
  induction cs as [|[j q] cs IH]; intros k b.
  { exists k, b. split; [done|]. left. split_and!; try done. by intros c ?%elem_of_nil. }
  cbn [pick_best foldl better].
  change (current_weight (bump q)) with (score q).
  destruct (Z.ltb_spec (current_weight b) (score q)) as [Hlt|Hge].
  - destruct (IH j (bump q)) as (k' & b' & Hp & Hc). exists k', b'. split; [exact Hp|]. right.
    destruct Hc as [(-> & -> & Hall)|(p & cs1 & cs2 & -> & -> & Hgt & H1 & H2)].
    + exists q, [], cs. split_and!; try done. by intros c ?%elem_of_nil.
    + change (current_weight (bump q)) with (score q) in Hgt.
      exists p, ((j, q) :: cs1), cs2. split_and!; try done; [lia|].
      intros c [->|Hc]%elem_of_cons; [done|by apply H1].
  - destruct (IH k b) as (k' & b' & Hp & Hc). exists k', b'. split; [exact Hp|].
    destruct Hc as [(-> & -> & Hall)|(p & cs1 & cs2 & -> & -> & Hgt & H1 & H2)].
    + left. split_and!; try done. intros c [->|Hc]%elem_of_cons; [done|by apply Hall].
    + right. exists p, ((j, q) :: cs1), cs2. split_and!; try done.
      intros c [->|Hc]%elem_of_cons; [cbn; lia|by apply H1].
Qed.

Lemma pick_best_None cs :
  match pick_best None cs with
  | None => cs = []
  | Some (k, b) => exists p cs1 cs2, cs = cs1 ++ (k, p) :: cs2 /\ b = bump p /\
      (forall c, c ∈ cs1 -> score c.2 < score p) /\
      (forall c, c ∈ cs2 -> score c.2 <= score p)
  end.
Proof.
  destruct cs as [|[j q] cs]; [done|]. cbn [pick_best foldl better].
  destruct (pick_best_from cs j (bump q)) as (k' & b' & Hp & Hc).
  change (foldl _ _ _) with (pick_best (Some (j, bump q)) cs). rewrite Hp.
  destruct Hc as [(-> & -> & Hall)|(p & cs1 & cs2 & -> & -> & Hgt & H1 & H2)].
  - exists q, [], cs. split_and!; try done. by intros c ?%elem_of_nil.
  - exists p, ((j, q) :: cs1), cs2. split_and!; try done.
    intros c [->|Hc]%elem_of_cons; [done|by apply H1].
Qed.

Lemma candidates_sorted ps : forall i cs1 k p cs2,
  candidates i ps = cs1 ++ (k, p) :: cs2 ->
  (forall c, c ∈ cs1 -> (c.1 < k)%nat) /\ (forall c, c ∈ cs2 -> (k < c.1)%nat).
Proof.
  induction ps as [|q ps IH]; intros i cs1 k p cs2 Heq; cbn [candidates] in Heq.
  { by destruct cs1. }
  destruct (el i q); [|by eapply IH]. destruct cs1 as [|c cs1]; cbn in Heq; injection Heq.
  - intros Hc <- <-. split; [by intros c ?%elem_of_nil|]. intros [j r] Hj.
    rewrite <- Hc, candidates_elem in Hj. cbn. lia.
  - intros Hc <-. destruct (IH (S i) cs1 k p cs2 Hc) as [H1 H2]. split; [|done].
    intros c [->|Hin]%elem_of_cons; [|by apply H1].
    assert ((k, p) ∈ candidates (S i) ps) as Hk
      by (rewrite Hc; apply elem_of_app; right; left).
    apply candidates_elem in Hk. cbn. lia.
Qed.
End Scan.

Lemma get_peer_loop_scan now t ps : forall i best total,
  (i + length ps <= 64 * length t)%nat ->
  get_peer_loop now t ps i best total =
  Done (bump_all (eligible now t) i ps,
        pick_best best (candidates (eligible now t) i ps),
        total + sumz (fun c => effective_weight c.2) (candidates (eligible now t) i ps)).
Proof.
  induction ps as [|p ps IH]; intros i best total Hlen; cbn [get_peer_loop].
  { cbn. by rewrite Z.add_0_r. }
  cbn [length] in Hlen. destruct (tried_bit_covered t i) as [b Hb]; [lia|].
  rewrite Hb. cbn [deref mbind outcome_bind bump_all candidates]. unfold bump_at.
  assert (He : eligible now t i p = negb (b || skip_peer now p))
    by (unfold eligible; rewrite Hb; by destruct b). rewrite He. clear He.
  destruct b, (skip_peer now p); cbn [orb negb app];
    rewrite IH by lia; cbn; try done.
  do 2 f_equal. by rewrite sumz_cons, Z.add_assoc.
Qed.

(** The peers of a group after peer [k] was chosen. *)
Definition chosen_peers (now : Z) (t : list Z) (k : nat) (ps : list rr_peer) : list rr_peer :=
  let el := eligible now t in
  alter (settle now (sumz (fun c => effective_weight c.2) (candidates el 0 ps))) k
    (bump_all el 0 ps).

(** [k] is the first eligible peer of greatest weight. *)
Definition best_choice (now : Z) (t : list Z) (ps : list rr_peer) (k : nat) : Prop :=
  exists p, ps !! k = Some p /\ eligible now t k p = true /\
  forall j q, ps !! j = Some q -> eligible now t j q = true ->
    score q <= score p /\ ((j < k)%nat -> score q < score p).

Definition none_eligible (now : Z) (t : list Z) (ps : list rr_peer) : Prop :=
  forall j q, ps !! j = Some q -> eligible now t j q = false.

Lemma pick_best_candidates el ps :
  match pick_best None (candidates el 0 ps) with
  | None => forall j q, ps !! j = Some q -> el j q = false
  | Some (k, b) => exists p, ps !! k = Some p /\ el k p = true /\ b = bump p /\
      forall j q, ps !! j = Some q -> el j q = true ->
        score q <= score p /\ ((j < k)%nat -> score q < score p)
  end.
Proof.
  pose proof (pick_best_None (candidates el 0 ps)) as H.
  destruct (pick_best None _) as [[k b]|].
  - destruct H as (p & cs1 & cs2 & Hcs & -> & H1 & H2).
    assert (Hin : (k, p) ∈ candidates el 0 ps)
      by (rewrite Hcs; apply elem_of_app; right; left).
    apply candidates_elem in Hin as (_ & Hp & He). rewrite Nat.sub_0_r in Hp.
    exists p. split_and!; try done. intros j q Hq Hel.
    destruct (candidates_sorted el ps 0 _ _ _ _ Hcs) as [_ Hs2].
    assert (Hj : (j, q) ∈ candidates el 0 ps)
      by (apply candidates_elem; rewrite Nat.sub_0_r; auto with lia).
    rewrite Hcs, elem_of_app, elem_of_cons in Hj. destruct Hj as [Hj|[[= -> ->]|Hj]].
    + specialize (H1 _ Hj). cbn in H1. lia.
    + lia.
    + specialize (H2 _ Hj). specialize (Hs2 _ Hj). cbn in *. lia.
  - intros j q Hq. destruct (el j q) eqn:He; [|done].
    assert (Hj : (j, q) ∈ candidates el 0 ps)
      by (apply candidates_elem; rewrite Nat.sub_0_r; auto with lia).
    rewrite H in Hj. by apply elem_of_nil in Hj.
Qed.

Lemma bump_all_none el ps :
  (forall j q, ps !! j = Some q -> el j q = false) -> bump_all el 0 ps = ps.
Proof.
  intros H. apply list_eq. intros k. rewrite bump_all_lookup. unfold bump_at.
  destruct (ps !! k) as [q|] eqn:Hq; cbn; [by rewrite (H k q)|done].
Qed.

Lemma set_group_same g peers us : group g us = Some peers -> set_group g peers us = us.
Proof.
  destruct us as [pr bk], g; cbn; intros [= <-]; [done|]. cbn. done.
Qed.

Lemma set_group_set_group g ps1 ps2 us : set_group g ps2 (set_group g ps1 us) = set_group g ps2 us.
Proof. by destruct us, g. Qed.

Lemma group_set_group g ps us : group g (set_group g ps us) = Some ps.
Proof. by destruct us, g. Qed.

Lemma group_set_group_ne g g' ps us : g <> g' -> group g' (set_group g ps us) = group g' us.
Proof. by destruct us, g, g'. Qed.

(** A run of [get_peer]: either no peer is eligible and nothing changes, or the
    best one is chosen, marked as tried and charged for the others' weights. *)
Lemma get_peer_run now us rrp pc peers :
  group (rrp_peers rrp) us = Some peers ->
  (length (peer peers) <= 64 * length (tried rrp))%nat ->
  (none_eligible now (tried rrp) (peer peers) /\
   ngx_nsoc_upstream_get_peer now (RrState us rrp pc) = Done (None, RrState us rrp pc)) \/
  (exists k t', best_choice now (tried rrp) (peer peers) k /\ set_tried (tried rrp) k = Some t' /\
   ngx_nsoc_upstream_get_peer now (RrState us rrp pc) =
   Done (Some k, RrState
     (set_group (rrp_peers rrp)
        (peers <| peer := chosen_peers now (tried rrp) k (peer peers) |>) us)
     (rrp <| current := Some (rrp_peers rrp, k) |> <| tried := t' |>) pc)).
Proof.
  intros Hg Hlen. unfold ngx_nsoc_upstream_get_peer, mbind, M_bind, gets. cbn [st_rrp st_us].
  rewrite Hg. cbn [mderef mret M_ret lift].
  rewrite get_peer_loop_scan by done. cbn [lift].
  pose proof (pick_best_candidates (eligible now (tried rrp)) (peer peers)) as Hp.
  destruct (pick_best None _) as [[k b]|].
  - right. destruct Hp as (p & Hk & He & -> & Hmax).
    assert (exists t', set_tried (tried rrp) k = Some t') as [t' Ht'].
    { unfold eligible in He. unfold set_tried.
      destruct (tried_bit (tried rrp) k) eqn:Hb; [|done]. unfold tried_bit in Hb.
      destruct (_ !! tried_word k); [cbn; eauto|done]. }
    exists k, t'. split; [by exists p|]. split; [done|]. rewrite Ht'. cbn. do 3 f_equal.
    unfold chosen_peers. do 2 f_equal.
    rewrite (alter_insert_at (settle _ _) _ k (bump p)); [done|].
    rewrite bump_all_lookup, Hk. unfold bump_at. cbn. by rewrite He.
  - left. split; [done|]. rewrite bump_all_none by done. cbn.
    do 3 f_equal. by destruct us as [? []], peers, (rrp_peers rrp); cbn in *; simplify_eq.
Qed.

Lemma sumz_chosen_peers now t ps k :
  best_choice now t ps k -> sumz current_weight (chosen_peers now t k ps) = sumz current_weight ps.
Proof.
  intros (p & Hk & He & _). unfold chosen_peers.
  assert (Hb : bump_all (eligible now t) 0 ps !! k = Some (bump p))
    by (rewrite bump_all_lookup, Hk; unfold bump_at; cbn; by rewrite He).
  rewrite (alter_insert_at _ _ k (bump p)) by done.
  rewrite (sumz_insert _ _ _ _ _ Hb), sumz_bump_all. cbn. lia.
Qed.

(** ** One call of [get_round_robin_peer] *)

Definition no_slot (p : rr_peer) : bool :=
  down p || (negb (max_conns p =? 0) && (max_conns p <=? conns p)).

(** Which peer a group gives, if any. *)
Definition usable_choice (now : Z) (t : list Z) (ps : rr_peers) (k : nat) : Prop :=
  if single ps then k = 0%nat /\ exists p, peer ps !! 0%nat = Some p /\ no_slot p = false
  else best_choice now t (peer ps) k.

Definition unusable (now : Z) (t : list Z) (ps : rr_peers) : Prop :=
  if single ps then exists p, peer ps !! 0%nat = Some p /\ no_slot p = true
  else none_eligible now t (peer ps).

Definition charged (now : Z) (t : list Z) (ps : rr_peers) (k : nat) : list rr_peer :=
  if single ps then peer ps else chosen_peers now t k (peer ps).

Definition add_conn (p : rr_peer) : rr_peer := p <| conns := u64 (conns p + 1) |>.

Definition taken (now : Z) (t : list Z) (ps : rr_peers) (k : nat) : rr_peers :=
  ps <| peer := alter add_conn k (charged now t ps k) |>.

Definition marked (t : list Z) (ps : rr_peers) (k : nat) : option (list Z) :=
  if single ps then Some t else set_tried t k.

Definition connect_to (p : rr_peer) (pc : peer_connection) : peer_connection :=
  pc <| connection := None |> <| pc_sockaddr := Some (sockaddr p) |>
     <| pc_socklen := socklen p |> <| pc_name := Some (name p) |>.

(** The state after a grant of peer [k] of group [g]. *)
Definition granted (now : Z) (g : rr_group) (ps : rr_peers) (k : nat) (t' : list Z)
    (us : rr_upstream) (rrp : rr_peer_data) (pc : peer_connection) (p : rr_peer) : rr_state :=
  RrState (set_group g (taken now (tried rrp) ps k) us)
    (rrp <| current := Some (g, k) |> <| tried := t' |>) (connect_to p pc).

(** A group as [init_round_robin] builds it: its list has [number] peers, and
    [single] means exactly one. *)
Definition wf_peers (ps : rr_peers) : Prop :=
  zlen (peer ps) = number ps /\ (single ps = true -> length (peer ps) = 1%nat).

Definition wf_us (us : rr_upstream) : Prop :=
  forall g ps, group g us = Some ps -> wf_peers ps.

(** The bitmap has a bit for every peer of either group. *)
Definition covers (t : list Z) (us : rr_upstream) : Prop :=
  forall g ps, group g us = Some ps -> (length (peer ps) <= 64 * length t)%nat.

(** Choosing leaves identity, limits and addresses of every peer alone. *)
Definition static (p : rr_peer) :=
  (sockaddr p, socklen p, name p, server p, weight p, max_conns p, max_fails p,
   fail_timeout p, down p).

Lemma chosen_peers_lookup now t k ps j :
  exists f, (forall p, static (f p) = static p /\ conns (f p) = conns p /\ fails (f p) = fails p) /\
  chosen_peers now t k ps !! j = f <$> ps !! j.
Proof.
  unfold chosen_peers. set (s := sumz _ _). destruct (decide (j = k)) as [->|Hne].
  - exists (fun p => settle now s (bump_at (eligible now t) k p)). split.
    + intros p. unfold bump_at. by destruct (eligible now t k p).
    + rewrite list_lookup_alter_eq, bump_all_lookup. by destruct (ps !! k).
  - exists (bump_at (eligible now t) j). split.
    + intros p. unfold bump_at. by destruct (eligible now t j p).
    + by rewrite list_lookup_alter_ne, bump_all_lookup by done.
Qed.

Lemma chosen_peers_length now t k ps : length (chosen_peers now t k ps) = length ps.
Proof. unfold chosen_peers. by rewrite length_alter, bump_all_length. Qed.

Lemma choose_in_group_run now us rrp pc ps :
  group (rrp_peers rrp) us = Some ps -> wf_peers ps -> covers (tried rrp) us ->
  (unusable now (tried rrp) ps /\
   choose_in_group now (RrState us rrp pc) = Done (None, RrState us rrp pc)) \/
  (exists k t', usable_choice now (tried rrp) ps k /\ marked (tried rrp) ps k = Some t' /\
   choose_in_group now (RrState us rrp pc) =
   Done (Some k, RrState (set_group (rrp_peers rrp) (ps <| peer := charged now (tried rrp) ps k |>) us)
     (rrp <| current := Some (rrp_peers rrp, k) |> <| tried := t' |>) pc)).
Proof.
  intros Hg [Hnum Hsg] Hcov. unfold choose_in_group, unusable, usable_choice, charged, marked.
  unfold mbind, M_bind, gets. cbn [st_rrp st_us]. rewrite Hg. cbn [mderef mret M_ret].
  destruct (single ps) eqn:Hs.
  - destruct (peer ps) as [|p [|]] eqn:Hps; try by specialize (Hsg eq_refl).
    cbn [head mderef mret M_ret]. change ([p] !! 0%nat) with (Some p).
    unfold no_slot. destruct (down p) eqn:Hd; [left; split; [exists p; by rewrite Hd|done]|].
    destruct (_ && _) eqn:Hc; [left; split; [|done]; exists p; by rewrite Hd, Hc|].
    right. exists 0%nat, (tried rrp). split; [split; [done|]; exists p; by rewrite Hd, Hc|].
    split; [done|]. rewrite <- Hps, set_group_same; [by destruct rrp|].
    rewrite Hg. by destruct ps.
  - destruct (get_peer_run now us rrp pc ps Hg (Hcov _ _ Hg)) as [H|H]; [by left|by right].
Qed.

Lemma take_peer_run g k us rrp pc ps p :
  group g us = Some ps -> peer ps !! k = Some p ->
  take_peer g k (RrState us rrp pc) =
  Done (tt, RrState (set_group g (ps <| peer := alter add_conn k (peer ps) |>) us) rrp
    (pc <| pc_sockaddr := Some (sockaddr p) |> <| pc_socklen := socklen p |>
        <| pc_name := Some (name p) |>)).
Proof.
  intros Hg Hp. unfold take_peer, mbind, M_bind, gets. cbn [st_us st_pc].
  rewrite Hg. cbn [mderef mret M_ret]. rewrite Hp. cbn.
  by rewrite (alter_insert_at _ _ _ _ Hp).
Qed.

Lemma charged_lookup now t ps k j :
  exists f, (forall p, static (f p) = static p /\ conns (f p) = conns p /\ fails (f p) = fails p) /\
  charged now t ps k !! j = f <$> peer ps !! j.
Proof.
  unfold charged. destruct (single ps); [|apply chosen_peers_lookup].
  exists id. split; [done|]. by destruct (peer ps !! j).
Qed.

Lemma usable_choice_lookup now t ps k :
  usable_choice now t ps k -> exists p, peer ps !! k = Some p /\ no_slot p = false.
Proof.
  unfold usable_choice. destruct (single ps).
  - intros [-> H]. done.
  - intros (p & Hp & He & _). exists p. split; [done|].
    unfold eligible in He. destruct (tried_bit t k) as [[|]|]; try done.
    unfold skip_peer, no_slot in *. destruct (down p), (negb (max_conns p =? 0) && _);
      cbn in *; try done; by rewrite orb_true_r in He.
Qed.

(** The call inside one group: a grant, or nothing changes. *)
Lemma get_fuel_grant fuel now us rrp pc ps k t' p :
  group (rrp_peers rrp) us = Some ps -> wf_peers ps -> covers (tried rrp) us ->
  choose_in_group now (RrState us rrp (pc <| connection := None |>)) =
   Done (Some k, RrState (set_group (rrp_peers rrp) (ps <| peer := charged now (tried rrp) ps k |>) us)
     (rrp <| current := Some (rrp_peers rrp, k) |> <| tried := t' |>) (pc <| connection := None |>)) ->
  peer ps !! k = Some p ->
  get_round_robin_peer_fuel (S fuel) now (RrState us rrp pc) =
  Done (NGX_OK, granted now (rrp_peers rrp) ps k t' us rrp pc p).
Proof.
  intros Hg Hwf Hcov Hch Hp. cbn [get_round_robin_peer_fuel].
  unfold mbind at 1 2 3 4 5, M_bind, modify, gets. cbn [st_pc].
  change (upd st_pc (fun _ => pc <| connection := None |>) (RrState us rrp pc))
    with (RrState us rrp (pc <| connection := None |>)).
  cbn [st_rrp st_us]. rewrite Hg. cbn [mderef mret M_ret]. rewrite Hch.
  destruct (charged_lookup now (tried rrp) ps k k) as (f & Hf & Hl). rewrite Hp in Hl.
  unfold mbind, M_bind.
  rewrite (take_peer_run _ _ _ _ _ (ps <| peer := charged now (tried rrp) ps k |>) (f p));
    [|by rewrite group_set_group|done].
  unfold mret, M_ret. do 2 f_equal. unfold granted, taken, connect_to.
  rewrite set_group_set_group. destruct (Hf p) as ([= -> -> -> _ _ _ _ _ _] & _ & _). done.
Qed.

Definition switch_backup (rrp : rr_peer_data) (t : list Z) : rr_peer_data :=
  rrp <| rrp_peers := Backup |> <| tried := t |>.

(** The words the switch to the backup group clears are there. *)
Lemma clear_tried_covers t us b :
  covers t us -> wf_us us -> backup us = Some b ->
  exists t', clear_tried (Z.to_nat ((number b + (word_bits - 1)) / word_bits)) t = Some t' /\
    length t' = length t.
Proof.
  intros Hcov Hwf Hb. specialize (Hcov Backup b Hb). destruct (Hwf Backup b Hb) as [Hn _].
  unfold clear_tried, word_bits, zlen in *.
  rewrite decide_True by (rewrite <- Hn; zlia).
  eexists. split; [done|]. rewrite length_app, length_replicate, length_drop.
  rewrite <- Hn. zlia.
Qed.

Lemma clear_tried_bits m t t' i :
  clear_tried (Z.to_nat ((m + (word_bits - 1)) / word_bits)) t = Some t' ->
  Z.of_nat i < m -> tried_bit t' i = Some false.
Proof.
  unfold clear_tried. case_decide as Hd; [|done]. intros [= <-] Hi.
  rewrite tried_bit_testbit. unfold tried_word, word_bits in *.
  assert (Hw : (i / 64 < Z.to_nat ((m + (64 - 1)) / 64))%nat).
  { apply Nat.Div0.div_lt_upper_bound. zlia. }
  rewrite lookup_app_l by (by rewrite length_replicate).
  rewrite (lookup_replicate_2 _ _ _ Hw). cbn [fmap option_fmap option_map]. by rewrite Z.bits_0.
Qed.

(** The contract of [get_round_robin_peer]: the session's group serves it if it
    can; otherwise, when there is a backup group, the session moves there with a
    clean bitmap and that group serves it if it can; otherwise it is busy and
    the shared peers are as before. *)
Inductive get_result (now : Z) (us : rr_upstream) (rrp : rr_peer_data) (pc : peer_connection)
    : Z -> rr_state -> Prop :=
| get_here ps k t' p :
    group (rrp_peers rrp) us = Some ps -> usable_choice now (tried rrp) ps k ->
    peer ps !! k = Some p -> marked (tried rrp) ps k = Some t' ->
    get_result now us rrp pc NGX_OK (granted now (rrp_peers rrp) ps k t' us rrp pc p)
| get_backup ps b k t0 t' p :
    rrp_peers rrp = Primary -> group Primary us = Some ps -> unusable now (tried rrp) ps ->
    backup us = Some b -> length t0 = length (tried rrp) ->
    (forall i, (i < length (peer b))%nat -> tried_bit t0 i = Some false) ->
    usable_choice now t0 b k -> peer b !! k = Some p -> marked t0 b k = Some t' ->
    get_result now us rrp pc NGX_OK (granted now Backup b k t' us (switch_backup rrp t0) pc p)
| get_busy ps rrp' :
    group (rrp_peers rrp) us = Some ps -> unusable now (tried rrp) ps ->
    length (tried rrp') = length (tried rrp) -> current rrp' = current rrp ->
    (forall b, rrp_peers rrp = Primary -> backup us = Some b ->
       rrp_peers rrp' = Backup /\ unusable now (tried rrp') b) ->
    (rrp_peers rrp = Backup \/ backup us = None -> rrp' = rrp) ->
    get_result now us rrp pc NGX_BUSY
      (RrState us rrp' (pc <| connection := None |> <| pc_name := Some (peers_name ps) |>)).

Lemma get_fuel_unusable fuel now us rrp pc ps :
  group (rrp_peers rrp) us = Some ps ->
  choose_in_group now (RrState us rrp (pc <| connection := None |>)) =
    Done (None, RrState us rrp (pc <| connection := None |>)) ->
  get_round_robin_peer_fuel (S fuel) now (RrState us rrp pc) =
  let busy s := Done (NGX_BUSY, s <| st_pc := (st_pc s) <| pc_name := Some (peers_name ps) |> |>) in
  match group_next (rrp_peers rrp) us, backup us with
  | Some _, Some b =>
      match clear_tried (Z.to_nat ((number b + (word_bits - 1)) / word_bits)) (tried rrp) with
      | Some t0 =>
          '(rc, s) ← get_round_robin_peer_fuel fuel now
            (RrState us (switch_backup rrp t0) (pc <| connection := None |>));
          if negb (rc =? NGX_BUSY) then Done (rc, s) else busy s
      | None => Undefined
      end
  | _, _ => busy (RrState us rrp (pc <| connection := None |>))
  end.
Proof.
  intros Hg Hch. cbn [get_round_robin_peer_fuel].
  unfold mbind at 1 2 3 4 5, M_bind, modify, gets. cbn [st_pc].
  change (upd st_pc (fun _ => pc <| connection := None |>) (RrState us rrp pc))
    with (RrState us rrp (pc <| connection := None |>)).
  cbn [st_rrp st_us]. rewrite Hg. cbn [mderef mret M_ret]. rewrite Hch.
  unfold mbind, M_bind, outcome_bind. cbn [st_us].
  unfold group_next. destruct (rrp_peers rrp), (backup us) as [b|] eqn:Hb; cbn [group]; try done.
  rewrite Hb. cbn [mderef mret M_ret st_rrp].
  destruct (clear_tried _ _) as [t0|]; [|done]. cbn [mderef mret M_ret].
  change (upd st_rrp _ _)
    with (RrState us (switch_backup rrp t0) (pc <| connection := None |>)).
  destruct (get_round_robin_peer_fuel fuel now _) as [[rc s]| |]; [|done|done].
  by destruct (negb (rc =? NGX_BUSY)).
Qed.

(** One group on its own, from any state: a grant or no change. *)
Lemma get_group_cases fuel now us rrp pc ps :
  group (rrp_peers rrp) us = Some ps -> wf_us us -> covers (tried rrp) us ->
  (exists k t' p, usable_choice now (tried rrp) ps k /\ peer ps !! k = Some p /\
     marked (tried rrp) ps k = Some t' /\
     get_round_robin_peer_fuel (S fuel) now (RrState us rrp pc) =
     Done (NGX_OK, granted now (rrp_peers rrp) ps k t' us rrp pc p)) \/
  (unusable now (tried rrp) ps /\
   choose_in_group now (RrState us rrp (pc <| connection := None |>)) =
     Done (None, RrState us rrp (pc <| connection := None |>))).
Proof.
  intros Hg Hwf Hcov.
  destruct (choose_in_group_run now us rrp (pc <| connection := None |>) ps Hg (Hwf _ _ Hg) Hcov)
    as [H|(k & t' & Hu & Hm & Hrun)]; [by right|left].
  destruct (usable_choice_lookup _ _ _ _ Hu) as (p & Hp & _).
  exists k, t', p. split_and!; try done.
  apply get_fuel_grant; try done. by eapply Hwf.
Qed.

Lemma get_round_robin_peer_total now us rrp pc ps :
  group (rrp_peers rrp) us = Some ps -> wf_us us -> covers (tried rrp) us ->
  exists rc st', ngx_nsoc_upstream_get_round_robin_peer now (RrState us rrp pc) = Done (rc, st') /\
    get_result now us rrp pc rc st'.
Proof.
  intros Hg Hwf Hcov. unfold ngx_nsoc_upstream_get_round_robin_peer.
  destruct (get_group_cases 1 now us rrp pc ps Hg Hwf Hcov)
    as [(k & t' & p & Hu & Hp & Hm & Hrun)|[Hun Hch]].
  { do 2 eexists. split; [exact Hrun|]. by eapply get_here. }
  rewrite (get_fuel_unusable 1 now us rrp pc ps Hg Hch). cbn zeta. unfold group_next.
  destruct (rrp_peers rrp) eqn:Hgrp, (backup us) as [b|] eqn:Hb.
  2-4: do 2 eexists; split; [done|]; apply (get_busy now us rrp pc ps rrp); try done;
       [by rewrite Hgrp|intros; congruence].
  destruct (clear_tried_covers (tried rrp) us b Hcov Hwf Hb) as (t0 & Ht0 & Hl0). rewrite Ht0.
  assert (Hcov0 : covers t0 us) by (intros g q Hq; rewrite Hl0; by eapply Hcov).
  assert (Hz : forall i, (i < length (peer b))%nat -> tried_bit t0 i = Some false).
  { intros i Hi. eapply clear_tried_bits; [done|]. destruct (Hwf Backup b Hb) as [Hn _].
    rewrite <- Hn. unfold zlen. lia. }
  destruct (get_group_cases 0 now us (switch_backup rrp t0) (pc <| connection := None |>) b Hb Hwf Hcov0)
    as [(k & t' & p & Hu & Hp & Hm & ->)|[Hun' Hch']]; cbn [mbind outcome_bind].
  - do 2 eexists. split; [reflexivity|]. by eapply (get_backup now us rrp pc ps b k t0 t' p).
  - rewrite (get_fuel_unusable 0 now us (switch_backup rrp t0) _ b Hb Hch'). cbn.
    do 2 eexists. split; [reflexivity|].
    apply (get_busy now us rrp pc ps (switch_backup rrp t0)); try done; [by rewrite Hgrp| |].
    + intros b' _ Hb'. rewrite Hb in Hb'. by injection Hb' as <-.
    + intros [?|?]; congruence.
Qed.

(** ** All sessions together

    A world is the shared upstream and the sessions that use it, by connection
    number.  The proxy asks for a peer only while it holds none
    ([u->peer.sockaddr == NULL]) and gives one back only while it holds one, then
    clears [sockaddr] (ngx_nsoc_proxy_next_upstream, ngx_nsoc_proxy_finalize).
    The connections of a process are an array indexed by a 64-bit count. *)

Definition session := (rr_peer_data * peer_connection)%type.

Record world := World { w_us : rr_upstream; w_sess : gmap nat session }.

Definition init_pc : peer_connection := PeerConnection None 0 None 0 None.

Definition release (pc : peer_connection) : peer_connection := pc <| pc_sockaddr := None |>.

Inductive rr_step : world -> world -> Prop :=
| step_open {P} {HP : NgxPool P} us m sid (pool pool' : P) rrp pc :
    m !! sid = None -> Z.of_nat (size m) + 1 < 2 ^ 64 ->
    ngx_nsoc_upstream_init_round_robin_peer None us init_pc pool =
      Done (NGX_OK, Some rrp, pc, pool') ->
    rr_step (World us m) (World us (<[sid := (rrp, pc)]> m))
| step_get us m sid now rrp pc rc us' rrp' pc' :
    m !! sid = Some (rrp, pc) -> pc_sockaddr pc = None ->
    ngx_nsoc_upstream_get_round_robin_peer now (RrState us rrp pc) =
      Done (rc, RrState us' rrp' pc') ->
    rr_step (World us m) (World us' (<[sid := (rrp', pc')]> m))
| step_free us m sid now state rrp pc us' rrp' pc' :
    m !! sid = Some (rrp, pc) -> is_Some (pc_sockaddr pc) ->
    ngx_nsoc_upstream_free_round_robin_peer now state (RrState us rrp pc) =
      Done (tt, RrState us' rrp' pc') ->
    rr_step (World us m) (World us' (<[sid := (rrp', release pc')]> m))
| step_notify us m sid type rrp pc us' rrp' pc' :
    m !! sid = Some (rrp, pc) -> is_Some (pc_sockaddr pc) ->
    ngx_nsoc_upstream_notify_round_robin_peer type (RrState us rrp pc) =
      Done (tt, RrState us' rrp' pc') ->
    rr_step (World us m) (World us' (<[sid := (rrp', pc')]> m))
| step_close us m sid rrp pc :
    m !! sid = Some (rrp, pc) -> pc_sockaddr pc = None ->
    rr_step (World us m) (World us (delete sid m)).

(** *** Counting the holders of a peer *)

Definition holds (g : rr_group) (k : nat) (s : session) : Prop :=
  is_Some (pc_sockaddr s.2) /\ current s.1 = Some (g, k).
#[export] Instance holds_dec g k s : Decision (holds g k s) := _.

Definition holders (m : gmap nat session) (g : rr_group) (k : nat) : Z :=
  Z.of_nat (size (filter (fun x : nat * session => holds g k x.2) m)).

Definition holds1 (g : rr_group) (k : nat) (s : session) : Z := if decide (holds g k s) then 1 else 0.

Lemma holders_insert_new m sid s g k :
  m !! sid = None -> holders (<[sid := s]> m) g k = holders m g k + holds1 g k s.
Proof.
  intros Hm. unfold holders, holds1.
  rewrite map_filter_insert, decide_bool_decide. cbn.
  assert (Hf : filter (fun x : nat * session => holds g k x.2) m !! sid = None)
    by (apply map_lookup_filter_None; by left).
  destruct (decide (holds g k s)) as [H|H].
  - rewrite bool_decide_true by done. rewrite map_size_insert_None by done. lia.
  - rewrite bool_decide_false by done. rewrite delete_id by done. lia.
Qed.

Lemma holders_delete m sid s g k :
  m !! sid = Some s -> holders m g k = holders (delete sid m) g k + holds1 g k s.
Proof.
  intros Hm. rewrite <- (insert_delete_id m sid s Hm) at 1.
  by rewrite holders_insert_new by apply lookup_delete_eq.
Qed.

Lemma holders_update m sid s s' g k :
  m !! sid = Some s -> holders (<[sid := s']> m) g k = holders m g k - holds1 g k s + holds1 g k s'.
Proof.
  intros Hm. rewrite (holders_delete m sid s) by done.
  rewrite <- insert_delete_eq, holders_insert_new by apply lookup_delete_eq. lia.
Qed.

(** *** Invariants of peers *)

Definition peer_inv (p : rr_peer) : Prop :=
  0 <= effective_weight p <= weight p /\ weight p < 2 ^ 63 /\ 0 <= max_fails p /\
  0 <= conns p < 2 ^ 64 /\ 0 <= max_conns p < 2 ^ 64 /\
  (max_conns p <> 0 -> conns p <= max_conns p).

Definition group_inv (ps : rr_peers) : Prop :=
  wf_peers ps /\ Forall peer_inv (peer ps) /\ sumz current_weight (peer ps) = 0.

(** Two groups with the same slots. *)
Definition same_slots (ps ps' : rr_peers) : Prop :=
  length (peer ps') = length (peer ps) /\ number ps' = number ps /\ single ps' = single ps.

Lemma bump_inv p : peer_inv p -> peer_inv (bump p).
Proof.
  unfold peer_inv, bump. cbn. intros H. destruct (Z.ltb_spec (effective_weight p) (weight p));
    cbn; lia.
Qed.

Lemma settle_inv now total p : peer_inv p -> peer_inv (settle now total p).
Proof. done. Qed.

Lemma charged_inv now t ps k :
  group_inv ps -> usable_choice now t ps k -> group_inv (ps <| peer := charged now t ps k |>).
Proof.
  intros (Hwf & Hall & Hsum) Hu. unfold group_inv, wf_peers. cbn. unfold charged, usable_choice in *.
  destruct (single ps) eqn:Hs; [by split; [destruct Hwf as [? Hw]; split; [done|intros _; by apply Hw]|]|].
  destruct Hwf as [Hn _]. unfold zlen. rewrite chosen_peers_length. split_and!; try done.
  - unfold chosen_peers. apply Forall_alter.
    + apply Forall_lookup. intros j q. rewrite bump_all_lookup.
      destruct (peer ps !! j) as [p|] eqn:Hp; [|done]. intros [= <-].
      rewrite Forall_lookup in Hall. unfold bump_at. destruct (eligible now t j p).
      * apply bump_inv; eauto.
      * eauto.
    + intros q _ Hq. by apply settle_inv.
  - by rewrite sumz_chosen_peers.
Qed.

Lemma sumz_alter_same {A} (f : A -> Z) (h : A -> A) k l :
  (forall x, f (h x) = f x) -> sumz f (alter h k l) = sumz f l.
Proof.
  intros Hh. destruct (l !! k) as [x|] eqn:Hk.
  - rewrite (alter_insert_at _ _ _ _ Hk), (sumz_insert _ _ _ _ _ Hk), Hh. lia.
  - f_equal. apply list_eq. intros j. destruct (decide (j = k)) as [->|].
    + by rewrite list_lookup_alter_eq, Hk.
    + by rewrite list_lookup_alter_ne.
Qed.

(** Changing one peer in a way that keeps its weight and its invariant. *)
Lemma group_inv_alter h k ps :
  group_inv ps -> (forall p, current_weight (h p) = current_weight p) ->
  (forall p, peer ps !! k = Some p -> peer_inv p -> peer_inv (h p)) ->
  group_inv (ps <| peer := alter h k (peer ps) |>).
Proof.
  intros ((Hn & Hs) & Hall & Hsum) Hcw Hinv. unfold group_inv, wf_peers, zlen in *. cbn.
  rewrite length_alter. split_and!; try done.
  - apply Forall_alter; [done|]. intros p Hp. by apply Hinv.
  - by rewrite sumz_alter_same.
Qed.

Lemma add_conn_inv p : no_slot p = false -> peer_inv p -> peer_inv (add_conn p).
Proof.
  unfold no_slot, peer_inv, add_conn, u64. cbn. intros [Hd Hc]%orb_false_iff H.
  split_and!; try lia; try (apply Z.mod_pos_bound; lia).
  intros Hm. rewrite (proj2 (Z.eqb_neq _ _)) in Hc by done. cbn in Hc.
  apply Z.leb_gt in Hc. rewrite Z.mod_small; lia.
Qed.

Lemma taken_inv now t ps k :
  group_inv ps -> usable_choice now t ps k -> group_inv (taken now t ps k).
Proof.
  intros Hinv Hu. unfold taken.
  pose proof (charged_inv now t ps k Hinv Hu) as Hch.
  apply (group_inv_alter add_conn k) in Hch; [exact Hch|done|].
  intros p Hp. apply add_conn_inv. cbn in Hp.
  destruct (usable_choice_lookup _ _ _ _ Hu) as (p0 & Hp0 & Hslot).
  destruct (charged_lookup now t ps k k) as (f & Hf & Hl). rewrite Hp, Hp0 in Hl.
  injection Hl as ->. destruct (Hf p0) as ([= _ _ _ _ _ Hmx _ _ Hdn] & Hcn & _).
  unfold no_slot in *. by rewrite Hmx, Hdn, Hcn.
Qed.

Definition drop_conn (p : rr_peer) : rr_peer := p <| conns := u64 (conns p - 1) |>.

Lemma drop_conn_inv p : 1 <= conns p -> peer_inv p -> peer_inv (drop_conn p).
Proof.
  unfold peer_inv, drop_conn, u64. cbn. intros Hc H. rewrite Z.mod_small by lia. lia.
Qed.

Lemma mark_failed_inv now p : peer_inv p -> peer_inv (mark_failed now p).
Proof.
  unfold peer_inv, mark_failed. intros H.
  assert (Hd : 0 <= max_fails p -> max_fails p <> 0 ->
               0 <= u64 (weight p) / max_fails p <= weight p).
  { intros Hm Hz. rewrite u64_small by lia. split; [apply Z.div_pos; lia|].
    apply Z.div_le_upper_bound; nia. }
  cbn. destruct (Z.eqb_spec (max_fails p) 0) as [Hz|Hz]; cbn.
  - destruct (Z.ltb_spec (effective_weight p) 0); cbn; lia.
  - specialize (Hd ltac:(lia) Hz). rewrite s64_small by lia.
    destruct (Z.ltb_spec (effective_weight p - u64 (weight p) / max_fails p) 0); cbn; lia.
Qed.

Lemma mark_live_inv p : peer_inv p -> peer_inv (mark_live p).
Proof. unfold mark_live. by destruct (_ <? _). Qed.

#[export] Hint Resolve mark_failed_inv mark_live_inv drop_conn_inv add_conn_inv bump_inv : nsoc.

(** *** The invariant of a world *)

Definition us_inv (us : rr_upstream) : Prop := forall g ps, group g us = Some ps -> group_inv ps.

Definition conns_inv (us : rr_upstream) (m : gmap nat session) : Prop :=
  forall g ps k p, group g us = Some ps -> peer ps !! k = Some p -> conns p = u64 (holders m g k).

Definition session_ok (us : rr_upstream) (s : session) : Prop :=
  covers (tried s.1) us /\ is_Some (group (rrp_peers s.1) us) /\
  (is_Some (pc_sockaddr s.2) -> exists g k ps p,
     current s.1 = Some (g, k) /\ group g us = Some ps /\ peer ps !! k = Some p).

Definition world_inv (w : world) : Prop :=
  us_inv (w_us w) /\ conns_inv (w_us w) (w_sess w) /\
  map_Forall (fun _ s => session_ok (w_us w) s) (w_sess w) /\
  Z.of_nat (size (w_sess w)) < 2 ^ 64.

Lemma us_inv_wf us : us_inv us -> wf_us us.
Proof. intros H g ps Hg. by destruct (H g ps Hg). Qed.

Lemma us_inv_set_group g ps us : us_inv us -> group_inv ps -> us_inv (set_group g ps us).
Proof.
  intros Hus Hps g' ps'. destruct (decide (g = g')) as [<-|Hne].
  - rewrite group_set_group. by intros [= <-].
  - rewrite group_set_group_ne by done. apply Hus.
Qed.

Lemma covers_set_group t g ps ps' us :
  group g us = Some ps -> same_slots ps ps' -> covers t us -> covers t (set_group g ps' us).
Proof.
  intros Hg (Hl & _) Hc g' q. destruct (decide (g = g')) as [<-|Hne].
  - rewrite group_set_group. intros [= <-]. rewrite Hl. by eapply Hc.
  - rewrite group_set_group_ne by done. apply Hc.
Qed.

Lemma lookup_set_group g ps ps' us g' k q p :
  group g us = Some ps -> same_slots ps ps' -> group g' us = Some q -> peer q !! k = Some p ->
  exists q' p', group g' (set_group g ps' us) = Some q' /\ peer q' !! k = Some p'.
Proof.
  intros Hg (Hl & _) Hq Hp. destruct (decide (g = g')) as [<-|Hne].
  - rewrite group_set_group. simplify_eq. eexists. assert (is_Some (peer ps' !! k)) as [p' Hp'].
    { apply lookup_lt_is_Some. rewrite Hl. by eapply lookup_lt_Some. }
    by exists p'.
  - rewrite group_set_group_ne by done. eauto.
Qed.

Lemma session_ok_set_group g ps ps' us s :
  group g us = Some ps -> same_slots ps ps' -> session_ok us s -> session_ok (set_group g ps' us) s.
Proof.
  intros Hg Hs (Hc & Hr & Hh). split_and!.
  - by eapply covers_set_group.
  - destruct (decide (g = rrp_peers s.1)) as [<-|Hne].
    + rewrite group_set_group. eauto.
    + by rewrite group_set_group_ne.
  - intros Hsk. destruct (Hh Hsk) as (g' & k & q & p & Hcur & Hq & Hp).
    destruct (lookup_set_group g ps ps' us g' k q p) as (q' & p' & ? & ?); eauto 10.
Qed.

(** A step of one session that changes one group. *)
Lemma world_inv_step us m sid s s' g ps ps' k d :
  world_inv (World us m) -> m !! sid = Some s -> group g us = Some ps ->
  same_slots ps ps' -> group_inv ps' ->
  (forall j p', peer ps' !! j = Some p' -> exists p, peer ps !! j = Some p /\
     conns p' = u64 (conns p + if decide (j = k) then d else 0)) ->
  (forall g' j, holds1 g' j s' = holds1 g' j s + if decide ((g', j) = (g, k)) then d else 0) ->
  session_ok (set_group g ps' us) s' ->
  world_inv (World (set_group g ps' us) (<[sid := s']> m)).
Proof.
  intros (Hus & Hconns & Hall & Hsz) Hm Hg Hslots Hinv Hlk Hh Hok.
  unfold world_inv. cbn in *. split_and!.
  - by apply us_inv_set_group.
  - intros g' q j p' Hq Hp'. rewrite (holders_update m sid s s' g' j Hm), Hh.
    replace (holders m g' j - holds1 g' j s + _)
      with (holders m g' j + if decide ((g', j) = (g, k)) then d else 0) by lia.
    destruct (decide (g = g')) as [<-|Hne].
    + rewrite group_set_group in Hq. injection Hq as <-.
      destruct (Hlk j p' Hp') as (p & Hp & ->). rewrite (Hconns g ps j p Hg Hp).
      unfold u64. rewrite Zplus_mod_idemp_l.
      f_equal. f_equal. destruct (decide (j = k)) as [->|Hjk].
      * by rewrite decide_True.
      * rewrite decide_False; congruence.
    + rewrite group_set_group_ne in Hq by done. rewrite decide_False by congruence.
      rewrite Z.add_0_r. by eapply Hconns.
  - apply map_Forall_insert_2; [done|]. intros i q Hq. by eapply session_ok_set_group; eauto.
  - by rewrite map_size_insert_Some by (by rewrite Hm).
Qed.

Lemma holds1_not_holding g k s : pc_sockaddr s.2 = None -> holds1 g k s = 0.
Proof.
  intros Hn. unfold holds1. rewrite decide_False; [done|]. intros [[x Hx] _]. congruence.
Qed.

Lemma holds1_holding g k s g' k' :
  is_Some (pc_sockaddr s.2) -> current s.1 = Some (g, k) ->
  holds1 g' k' s = if decide ((g', k') = (g, k)) then 1 else 0.
Proof.
  intros Hs Hc. unfold holds1, holds. destruct (decide ((g', k') = (g, k))) as [[= -> ->]|Hne].
  - by rewrite decide_True.
  - rewrite decide_False; [done|]. intros [_ H]. congruence.
Qed.

Lemma holders_holding (m : gmap nat session) sid (s : session) g k :
  m !! sid = Some s -> is_Some (pc_sockaddr s.2) -> current s.1 = Some (g, k) ->
  1 <= holders m g k <= Z.of_nat (size m).
Proof.
  intros Hm Hs Hc. rewrite (holders_delete m sid s) by done.
  rewrite (holds1_holding g k s) by done. rewrite decide_True by done.
  assert (Hle : holders (delete sid m) g k <= Z.of_nat (size (delete sid m))).
  { unfold holders. apply Nat2Z.inj_le, map_subseteq_size, map_filter_subseteq. }
  pose proof (map_size_delete_Some sid m (mk_is_Some _ _ Hm)) as Hd.
  assert (size m <> 0%nat) by (intros ?%map_size_empty_inv; simplify_map_eq).
  rewrite Hd in Hle. unfold holders in *. lia.
Qed.

Lemma same_slots_taken now t ps k : same_slots ps (taken now t ps k).
Proof.
  unfold same_slots, taken. cbn. rewrite length_alter. unfold charged.
  destruct (single ps); [done|]. by rewrite chosen_peers_length.
Qed.

Lemma conns_word ps j p :
  group_inv ps -> peer ps !! j = Some p -> u64 (conns p + 0) = conns p.
Proof.
  intros (_ & Hall & _) Hp. rewrite Forall_lookup in Hall. specialize (Hall j p Hp).
  rewrite Z.add_0_r. apply u64_small. unfold peer_inv in Hall. lia.
Qed.

Lemma taken_lookup now t ps k j p' :
  group_inv ps -> peer (taken now t ps k) !! j = Some p' -> exists p, peer ps !! j = Some p /\
    conns p' = u64 (conns p + if decide (j = k) then 1 else 0).
Proof.
  intros Hinv. unfold taken. cbn. destruct (charged_lookup now t ps k j) as (f & Hf & Hl).
  destruct (decide (j = k)) as [->|Hne].
  - rewrite list_lookup_alter_eq, Hl. destruct (peer ps !! k) as [p|]; [|done].
    intros [= <-]. exists p. split; [done|]. cbn. by destruct (Hf p) as (_ & -> & _).
  - rewrite list_lookup_alter_ne, Hl by done. destruct (peer ps !! j) as [p|] eqn:Hp; [|done].
    intros [= <-]. exists p. split; [done|]. destruct (Hf p) as (_ & -> & _).
    by rewrite (conns_word ps j p).
Qed.

Lemma alter_lookup_conns h d ps k j p' :
  group_inv ps -> (forall p, conns (h p) = u64 (conns p + d)) ->
  alter h k (peer ps) !! j = Some p' -> exists p, peer ps !! j = Some p /\
    conns p' = u64 (conns p + if decide (j = k) then d else 0).
Proof.
  intros Hinv Hh. destruct (decide (j = k)) as [->|Hne].
  - rewrite list_lookup_alter_eq. destruct (peer ps !! k) as [p|]; [|done].
    intros [= <-]. exists p. by rewrite Hh.
  - rewrite list_lookup_alter_ne by done. intros Hp. exists p'.
    by rewrite (conns_word ps j p').
Qed.

(** *** Every step keeps the invariant *)

(** A grant by group [g], to a session that held nothing. *)
Lemma grant_inv us m sid rrp0 rrp pc g ps k t' now p :
  world_inv (World us m) -> m !! sid = Some (rrp0, pc) -> pc_sockaddr pc = None ->
  group g us = Some ps -> rrp_peers rrp = g -> covers (tried rrp) us ->
  usable_choice now (tried rrp) ps k ->
  peer ps !! k = Some p -> marked (tried rrp) ps k = Some t' ->
  let st := granted now g ps k t' us rrp pc p in
  world_inv (World (st_us st) (<[sid := (st_rrp st, st_pc st)]> m)).
Proof.
  intros Hw Hm Hn Hg Hrg Hcov Hu Hp Hmk. cbn.
  assert (Hinv : group_inv ps) by (by eapply (proj1 Hw)).
  assert (Hl : length t' = length (tried rrp)).
  { unfold marked in Hmk. destruct (single ps); [congruence|]. by apply set_tried_Some in Hmk as [? _]. }
  eapply (world_inv_step us m sid (rrp0, pc) _ g ps _ k 1); try done.
  - apply same_slots_taken.
  - by apply taken_inv.
  - intros j p'. by apply taken_lookup.
  - intros g' j. rewrite (holds1_not_holding g' j (rrp0, pc)) by done.
    by rewrite (holds1_holding g k) by (cbn; eauto).
  - split_and!; cbn.
    + intros g' q Hq. rewrite Hl. revert g' q Hq. change (covers (tried rrp) (set_group g (taken now (tried rrp) ps k) us)).
      eapply covers_set_group; [done|apply same_slots_taken|done].
    + rewrite Hrg, group_set_group. eauto.
    + intros _. exists g, k. destruct (lookup_set_group g ps (taken now (tried rrp) ps k) us g k ps p)
        as (q' & p' & ? & ?); eauto using same_slots_taken.
Qed.

(** Only the session's own data changes, and it holds nothing before and after. *)
Lemma idle_inv us (m : gmap nat session) sid (s s' : session) :
  world_inv (World us m) -> m !! sid = Some s -> pc_sockaddr s.2 = None -> pc_sockaddr s'.2 = None ->
  covers (tried s'.1) us -> is_Some (group (rrp_peers s'.1) us) ->
  world_inv (World us (<[sid := s']> m)).
Proof.
  intros (Hus & Hconns & Hall & Hsz) Hm Hn Hn' Hc Hr. split_and!; cbn in *; try done.
  - intros g ps k p Hg Hp. rewrite (holders_update m sid s s' g k Hm).
    rewrite !holds1_not_holding by done. rewrite Z.sub_0_r, Z.add_0_r. by eapply Hconns.
  - apply map_Forall_insert_2; [|done]. split_and!; [done|done|]. intros [x Hx]. congruence.
  - by rewrite map_size_insert_Some by (by rewrite Hm).
Qed.

Lemma get_result_inv us (m : gmap nat session) sid now rrp pc rc st' :
  world_inv (World us m) -> m !! sid = Some (rrp, pc) -> pc_sockaddr pc = None ->
  get_result now us rrp pc rc st' ->
  world_inv (World (st_us st') (<[sid := (st_rrp st', st_pc st')]> m)).
Proof.
  intros Hw Hm Hn Hres.
  assert (Hok : session_ok us (rrp, pc)) by (destruct Hw as (_ & _ & Hall & _); exact (Hall _ _ Hm)).
  destruct Hok as (Hcov & Hr & _). destruct Hres as
    [ps k t' p Hg Hu Hp Hmk|ps b k t0 t' p Hpr Hg Hun Hb Hl Hz Hu Hp Hmk|ps rrp' Hg Hun Hl Hc Hb Hs].
  - by eapply grant_inv.
  - eapply grant_inv; try done. intros g q Hq. cbn. rewrite Hl. by eapply Hcov.
  - eapply idle_inv; try done.
    + intros g q Hq. cbn. rewrite Hl. by eapply Hcov.
    + cbn. destruct (rrp_peers rrp) eqn:Hrg.
      * destruct (backup us) as [b|] eqn:Hbk; [|rewrite Hs, Hrg by eauto; eauto].
        destruct (Hb b eq_refl eq_refl) as [-> _]. cbn. eauto.
      * rewrite Hs, Hrg by eauto. cbn in Hr; by rewrite Hrg in Hr.
Qed.

Definition free_peer (single : bool) (now state : Z) (p : rr_peer) : rr_peer :=
  drop_conn (if single then p
             else if negb (Z.land state NGX_PEER_FAILED =? 0) then mark_failed now p
             else mark_live p).

Lemma free_run now state us rrp pc g k own ps p :
  current rrp = Some (g, k) -> group (rrp_peers rrp) us = Some own ->
  group g us = Some ps -> peer ps !! k = Some p ->
  exists pc', ngx_nsoc_upstream_free_round_robin_peer now state (RrState us rrp pc) =
  Done (tt, RrState
    (set_group g (ps <| peer := alter (free_peer (single own) now state) k (peer ps) |>) us) rrp pc').
Proof.
  intros Hc Ho Hg Hp. unfold ngx_nsoc_upstream_free_round_robin_peer.
  unfold mbind, M_bind, gets. cbn [st_rrp st_us st_pc]. rewrite Hc. cbn [mderef mret M_ret].
  rewrite Ho. cbn [mderef mret M_ret]. rewrite Hg. cbn [mderef mret M_ret]. rewrite Hp.
  cbn [mderef mret M_ret]. unfold free_peer. rewrite (alter_insert_at _ _ _ _ Hp).
  by destruct (single own); eexists.
Qed.

Lemma free_peer_conns b now state p : conns (free_peer b now state p) = u64 (conns p + -1).
Proof.
  unfold free_peer, mark_failed, mark_live. cbn. destruct b; [done|].
  repeat (case_match; cbn); done.
Qed.

Lemma free_peer_weight b now state p : current_weight (free_peer b now state p) = current_weight p.
Proof.
  unfold free_peer, mark_failed, mark_live. cbn. destruct b; [done|].
  repeat (case_match; cbn); done.
Qed.

Lemma free_peer_inv b now state p :
  1 <= conns p -> peer_inv p -> peer_inv (free_peer b now state p).
Proof.
  intros Hc Hp. assert (Hm : conns (mark_failed now p) = conns p /\ conns (mark_live p) = conns p).
  { unfold mark_failed, mark_live. split; repeat (case_match; cbn); done. }
  destruct Hm as [Hf Hl]. unfold free_peer.
  destruct b; [auto with nsoc|]. destruct (negb _); apply drop_conn_inv; auto with nsoc; lia.
Qed.

Lemma alloc_tried_length {P} `{NgxPool P} n (pool pool' : P) t :
  alloc_tried n pool = Done (Some t, pool') -> n <= 64 * zlen t.
Proof.
  unfold alloc_tried, word_bits, mbind, M_bind, object, mret, M_ret.
  destruct (Z.leb_spec n 64).
  - intros [= <- <-]. unfold zlen. cbn. lia.
  - destruct (pool_object pool) as [[|] p']; intros [= <- <-].
    unfold zlen. rewrite length_replicate. zlia.
Qed.

Lemma init_peer_run {P} `{NgxPool P} old us pc (pool pool' : P) rrp pc' :
  ngx_nsoc_upstream_init_round_robin_peer old us pc pool = Done (NGX_OK, Some rrp, pc', pool') ->
  wf_us us ->
  covers (tried rrp) us /\ rrp_peers rrp = Primary /\ current rrp = None /\
  pc' = pc <| tries := upstream_tries us |>.
Proof.
  intros Hrun Hwf. unfold ngx_nsoc_upstream_init_round_robin_peer in Hrun.
  apply bind_done_inv in Hrun as (ok & p1 & _ & Hrun). destruct ok; [|done].
  apply bind_done_inv in Hrun as (t & p2 & Ht & Hrun).
  destruct t as [t|]; [|done]. unfold mret, M_ret in Hrun. simplify_eq. cbn.
  apply alloc_tried_length in Ht. split_and!; try done.
  intros g ps Hg. destruct (Hwf g ps Hg) as [Hn _]. unfold zlen in *.
  assert (number ps <= 64 * Z.of_nat (length t)); [|lia].
  destruct g; cbn in Hg; simplify_eq.
  - destruct (backup us) as [b|]; [destruct (Z.ltb_spec (number (primary us)) (number b))|]; lia.
  - rewrite Hg in Ht. destruct (Z.ltb_spec (number (primary us)) (number ps)); lia.
Qed.

Lemma free_inv us (m : gmap nat session) sid now state rrp pc us' rrp' pc' :
  world_inv (World us m) -> m !! sid = Some (rrp, pc) -> is_Some (pc_sockaddr pc) ->
  ngx_nsoc_upstream_free_round_robin_peer now state (RrState us rrp pc) =
    Done (tt, RrState us' rrp' pc') ->
  world_inv (World us' (<[sid := (rrp', release pc')]> m)).
Proof.
  intros Hw Hm Hsk Hrun. pose proof Hw as (Hus & Hconns & Hall & Hsz). cbn in *.
  destruct (Hall _ _ Hm) as (Hcov & [own Ho] & Hh). cbn in Hcov, Ho, Hh.
  destruct (Hh Hsk) as (g & k & ps & p & Hc & Hg & Hp).
  destruct (free_run now state us rrp pc g k own ps p Hc Ho Hg Hp) as (pc1 & Hrun').
  rewrite Hrun' in Hrun. injection Hrun as <- <- _.
  pose proof (Hus g ps Hg) as Hinv.
  eapply (world_inv_step us m sid (rrp, pc) _ g ps _ k (-1)); try done.
  - unfold same_slots. cbn. by rewrite length_alter.
  - apply group_inv_alter; [done|intros; apply free_peer_weight|].
    intros q Hq. rewrite Hp in Hq. injection Hq as <-. apply free_peer_inv.
    pose proof (holders_holding m sid (rrp, pc) g k Hm Hsk Hc).
    rewrite (Hconns g ps k p Hg Hp), u64_small; lia.
  - intros j p' Hj. eapply alter_lookup_conns; [done| |exact Hj]. intros q. apply free_peer_conns.
  - intros g' j. rewrite (holds1_holding g k (rrp, pc)) by done.
    rewrite holds1_not_holding by done. by case_decide.
  - split_and!; cbn.
    + eapply covers_set_group; [done| |done]. unfold same_slots. cbn. by rewrite length_alter.
    + destruct (decide (g = rrp_peers rrp)) as [<-|Hne].
      * rewrite group_set_group. eauto.
      * rewrite group_set_group_ne by done. eauto.
    + by intros [x Hx].
Qed.

(** [notify] changes the failure count of a peer at most. *)
Lemma notify_inv us (m : gmap nat session) sid type rrp pc us' rrp' pc' :
  world_inv (World us m) -> m !! sid = Some (rrp, pc) ->
  ngx_nsoc_upstream_notify_round_robin_peer type (RrState us rrp pc) =
    Done (tt, RrState us' rrp' pc') ->
  world_inv (World us' (<[sid := (rrp', pc')]> m)).
Proof.
  intros Hw Hm Hrun. pose proof Hw as (Hus & Hconns & Hall & Hsz). cbn in *.
  unfold ngx_nsoc_upstream_notify_round_robin_peer, mbind, M_bind, gets in Hrun.
  cbn [st_rrp st_us st_pc] in Hrun.
  assert (Hsame : world_inv (World us (<[sid := (rrp, pc)]> m))) by by rewrite insert_id.
  destruct (type =? _); [|by injection Hrun as <- <- <-].
  destruct (connection pc) as [ty|]; [|done]. cbn [mderef mret M_ret] in Hrun.
  destruct (ty =? _); [|by injection Hrun as <- <- <-].
  destruct (current rrp) as [[g k]|] eqn:Hc; [|done]. cbn [mderef mret M_ret] in Hrun.
  destruct (group g us) as [ps|] eqn:Hg; [|done]. cbn [mderef mret M_ret] in Hrun.
  destruct (peer ps !! k) as [p|] eqn:Hp; [|done]. cbn [mderef mret M_ret] in Hrun.
  injection Hrun as <- <- <-. rewrite <- (alter_insert_at mark_live _ _ _ Hp).
  pose proof (Hus g ps Hg) as Hinv.
  assert (Hslots : same_slots ps (ps <| peer := alter mark_live k (peer ps) |>))
    by (unfold same_slots; cbn; by rewrite length_alter).
  eapply (world_inv_step us m sid (rrp, pc) _ g ps _ k 0); try done.
  - apply group_inv_alter; [done| |intros; by apply mark_live_inv].
    intros q. unfold mark_live. by destruct (_ <? _).
  - intros j p' Hj. cbn in Hj. destruct (decide (j = k)) as [->|Hne].
    + rewrite list_lookup_alter_eq, Hp in Hj. injection Hj as <-. exists p.
      rewrite (conns_word ps k p) by done. split; [done|]. unfold mark_live. by destruct (_ <? _).
    + rewrite list_lookup_alter_ne in Hj by done. exists p'.
      by rewrite (conns_word ps j p').
  - intros g' j. case_decide; lia.
  - eapply session_ok_set_group; [done|done|by apply (Hall _ _ Hm)].
Qed.

Lemma get_group_exists us (m : gmap nat session) sid rrp pc :
  world_inv (World us m) -> m !! sid = Some (rrp, pc) ->
  exists ps, group (rrp_peers rrp) us = Some ps /\ wf_us us /\ covers (tried rrp) us.
Proof.
  intros (Hus & _ & Hall & _) Hm. destruct (Hall _ _ Hm) as (Hcov & [ps Hg] & _).
  exists ps. split_and!; [done|by apply us_inv_wf|done].
Qed.

Lemma rr_step_inv w w' : rr_step w w' -> world_inv w -> world_inv w'.
Proof.
  destruct 1 as [P HP us m sid pool pool' rrp pc Hm Hsz' Hrun
    |us m sid now rrp pc rc us' rrp' pc' Hm Hn Hrun
    |us m sid now state rrp pc us' rrp' pc' Hm Hn Hrun
    |us m sid type rrp pc us' rrp' pc' Hm Hn Hrun
    |us m sid rrp pc Hm Hn]; intros Hw.
  - destruct Hw as (Hus & Hconns & Hall & Hsz). cbn in Hus, Hconns, Hall, Hsz.
    apply init_peer_run in Hrun as (Hcov & Hr & Hc & ->); [|by apply us_inv_wf].
    split_and!; cbn; try done.
    + intros g ps k p Hg Hp. rewrite holders_insert_new by done.
      rewrite holds1_not_holding by done. rewrite Z.add_0_r. by eapply Hconns.
    + apply map_Forall_insert_2; [|done]. split_and!; [done|cbn; rewrite Hr; cbn; eauto|].
      by intros [x Hx].
    + rewrite map_size_insert_None by done. lia.
  - destruct (get_group_exists us m sid rrp pc Hw Hm) as (ps & Hg & Hwf & Hcov).
    destruct (get_round_robin_peer_total now us rrp pc ps Hg Hwf Hcov) as (rc' & st' & Hrun' & Hres).
    rewrite Hrun' in Hrun. injection Hrun as -> ->.
    by apply (get_result_inv us m sid now rrp pc rc (RrState us' rrp' pc')).
  - by eapply free_inv.
  - by eapply notify_inv.
  - destruct Hw as (Hus & Hconns & Hall & Hsz). cbn in *. split_and!; cbn; try done.
    + intros g ps k p Hg Hp. rewrite (Hconns g ps k p Hg Hp).
      rewrite (holders_delete m sid (rrp, pc)) by done.
      by rewrite holds1_not_holding, Z.add_0_r by done.
    + by apply map_Forall_delete.
    + rewrite map_size_delete_Some by eauto. lia.
Qed.

(** ** What configuration builds *)

(** A server line as the parser leaves it. *)
Definition server_ok (s : upstream_server) : Prop :=
  sv_naddrs s = zlen (sv_addrs s) /\ 0 < sv_weight s < 2 ^ 63 /\ 0 <= sv_max_fails s /\
  0 <= sv_max_conns s < 2 ^ 64.

(** The peers of the servers with a given flag, in the order of the file. *)
Fixpoint server_peers (b : bool) (servers : list upstream_server) : list rr_peer :=
  match servers with
  | [] => []
  | s :: servers =>
      (if Bool.eqb (sv_backup s) b then map (peer_of_server s) (sv_addrs s) else [])
      ++ server_peers b servers
  end.

Lemma mapM_seq_lookup {A B} (f : A -> B) (l : list A) : forall pre,
  mapM (fun j => f <$> (pre ++ l) !! j) (seq (length pre) (length l)) = Some (map f l).
Proof.
  induction l as [|x l IH]; intros pre; [done|]. cbn [length seq map mapM].
  rewrite (list_lookup_middle pre l x) by done. cbn [fmap option_fmap option_map mbind option_bind].
  specialize (IH (pre ++ [x])). rewrite <- app_assoc, length_app in IH. cbn [app length] in IH.
  rewrite Nat.add_1_r in IH. by rewrite IH.
Qed.

Lemma fill_peers_ok b servers :
  Forall server_ok servers -> fill_peers b servers = Some (server_peers b servers).
Proof.
  induction servers as [|s servers IH]; intros Hok; [done|].
  apply Forall_cons_iff in Hok as [(Hn & _) Hok]. cbn [fill_peers server_peers].
  rewrite (IH Hok). destruct (Bool.eqb _ _); [|done].
  unfold peers_of_server. rewrite Hn. unfold zlen. rewrite Nat2Z.id.
  pose proof (mapM_seq_lookup (peer_of_server s) (sv_addrs s) []) as Hm. cbn [app length] in Hm.
  by rewrite Hm.
Qed.

Lemma count_servers_from b servers : forall n w,
  Forall server_ok servers -> 0 <= n -> 0 <= w ->
  n + zlen (server_peers b servers) < 2 ^ 64 -> w + sumz weight (server_peers b servers) < 2 ^ 64 ->
  foldl (fun '(n, w) s =>
    if Bool.eqb (sv_backup s) b
    then (u64 (n + sv_naddrs s), u64 (w + sv_naddrs s * sv_weight s)) else (n, w)) (n, w) servers =
  (n + zlen (server_peers b servers), w + sumz weight (server_peers b servers)).
Proof.
  induction servers as [|s servers IH]; intros n w Hok Hn0 Hw0 Hn Hw.
  { cbn. rewrite zlen_nil, sumz_nil. f_equal; lia. }
  apply Forall_cons_iff in Hok as [(Hna & Hwt & _) Hok]. cbn [foldl server_peers] in *.
  assert (Hpos : 0 <= sumz weight (server_peers b servers)).
  { clear -Hok. induction servers as [|s l IH]; [done|].
    apply Forall_cons_iff in Hok as [(_ & Hs & _) Hok]. cbn. rewrite sumz_app.
    specialize (IH Hok). destruct (Bool.eqb _ _); [|rewrite sumz_nil; lia].
    rewrite sumz_map. cbn. assert (0 <= sumz (fun _ => sv_weight s) (sv_addrs s)); [|lia].
    rewrite <- (sumz_zero (sv_addrs s)). apply sumz_le. intros. lia. }
  destruct (Bool.eqb (sv_backup s) b); cbn [app] in *; [|by apply IH].
  assert (Hl : zlen (map (peer_of_server s) (sv_addrs s)) = sv_naddrs s)
    by (unfold zlen in *; by rewrite length_map).
  assert (Hs : sumz weight (map (peer_of_server s) (sv_addrs s)) = sv_naddrs s * sv_weight s).
  { rewrite sumz_map, Hna. cbn. clear. induction (sv_addrs s) as [|a l IH]; [done|].
    rewrite sumz_cons, zlen_cons, IH. lia. }
  rewrite zlen_app, Hl in *. rewrite sumz_app, Hs in *.
  pose proof (zlen_nonneg (server_peers b servers)). pose proof (zlen_nonneg (sv_addrs s)).
  rewrite !u64_small by nia. rewrite IH; try done; try nia. f_equal; lia.
Qed.

(** A group as it is before the first session. *)
Definition fresh_peers (ps : list rr_peer) : Prop :=
  Forall (fun p => current_weight p = 0 /\ conns p = 0 /\ fails p = 0 /\
                   effective_weight p = weight p /\ peer_inv p) ps.

Lemma server_peers_fresh b servers : Forall server_ok servers -> fresh_peers (server_peers b servers).
Proof.
  induction servers as [|s servers IH]; intros Hok; [constructor|].
  apply Forall_cons_iff in Hok as [(Hn & Hw & Hf & Hc) Hok]. cbn [server_peers].
  apply Forall_app_2; [|by apply IH]. destruct (Bool.eqb _ _); [|constructor].
  apply Forall_map, Forall_true. intros a. unfold peer_inv. cbn. split_and!; lia.
Qed.

Lemma fresh_group_inv ps :
  fresh_peers (peer ps) -> wf_peers ps -> group_inv ps.
Proof.
  intros Hf Hwf. split_and!; [done| |].
  - eapply Forall_impl; [exact Hf|]. by intros p (_ & _ & _ & _ & H).
  - unfold fresh_peers in Hf. induction (peer ps) as [|p l IH]; [done|].
    apply Forall_cons_iff in Hf as [(H & _) Hf]. rewrite sumz_cons, H, IH by done. done.
Qed.

(** What a successful configuration of [servers] is. *)
Definition built (host : list Z) (servers : list upstream_server) (us : rr_upstream) : Prop :=
  let ps := server_peers false servers in
  let bs := server_peers true servers in
  primary us = RrPeers (zlen ps) (sumz weight ps) ((zlen ps =? 1) && (zlen bs =? 0))
                 (negb (sumz weight ps =? zlen ps)) host ps /\
  backup us = (if zlen bs =? 0 then None
               else Some (RrPeers (zlen bs) (sumz weight bs) false
                            (negb (sumz weight bs =? zlen bs)) host bs)).

Definition servers_fit (servers : list upstream_server) : Prop :=
  Forall server_ok servers /\
  forall b, zlen (server_peers b servers) < 2 ^ 64 /\ sumz weight (server_peers b servers) < 2 ^ 64.

Lemma count_servers_ok b servers :
  servers_fit servers ->
  count_servers b servers = (zlen (server_peers b servers), sumz weight (server_peers b servers)).
Proof.
  intros [Hok Hfit]. destruct (Hfit b). unfold count_servers. rewrite count_servers_from; try done; lia.
Qed.

Lemma init_servers_run {P} `{NgxPool P} host servers (pool : P) :
  servers_fit servers ->
  exists rc r pool', init_round_robin_servers host servers pool = Done (rc, r, pool') /\
    (rc = NGX_OK /\ server_peers false servers <> [] /\ (exists us, r = Some us /\ built host servers us)
     \/ rc = NGX_ERROR).
Proof.
  intros Hfit. unfold init_round_robin_servers. rewrite (count_servers_ok false) by done.
  rewrite !(count_servers_ok true) by done. destruct Hfit as [Hok _].
  rewrite !fill_peers_ok by done. unfold built.
  unfold mbind, M_bind, object, mret, M_ret, mderef.
  set (ps := server_peers false servers). set (bs := server_peers true servers).
  destruct (Z.eqb_spec (zlen ps) 0) as [Hz|Hz]; [eauto 10|].
  assert (Hne : ps <> []) by (by intros ->).
  destruct (pool_object pool) as [[|] p1]; cbn; [|eauto 10].
  destruct (pool_object p1) as [[|] p2]; cbn; [|eauto 10].
  destruct (zlen bs =? 0) eqn:Hb; cbn.
  { do 3 eexists. split; [done|]. left. split_and!; try done. eexists. split; [done|].
    cbn. by rewrite andb_true_r. }
  destruct (pool_object p2) as [[|] p3]; cbn; [|eauto 10].
  destruct (pool_object p3) as [[|] p4]; cbn; [|eauto 10].
  do 3 eexists. split; [done|]. left. split_and!; try done. eexists. split; [done|].
  cbn. by rewrite andb_false_r.
Qed.

Lemma built_inv host servers us m :
  servers_fit servers -> built host servers us -> m = ∅ -> world_inv (World us m).
Proof.
  intros [Hok _] [Hp Hb] ->.
  assert (Hg : forall g q, group g us = Some q -> wf_peers q /\ fresh_peers (peer q)).
  { intros [|] q Hq; cbn in Hq; simplify_eq.
    - rewrite Hp. split; [|by apply server_peers_fresh]. split; [done|]. cbn. unfold zlen. lia.
    - rewrite Hb in Hq. destruct (_ =? 0); [done|]. injection Hq as <-.
      split; [|by apply server_peers_fresh]. done. }
  split_and!; cbn.
  - intros g q Hq. destruct (Hg g q Hq). by apply fresh_group_inv.
  - intros g q k p Hq Hk. destruct (Hg g q Hq) as [_ Hf]. unfold fresh_peers in Hf.
    rewrite Forall_lookup in Hf. destruct (Hf k p Hk) as (_ & -> & _).
    unfold holders. by rewrite map_filter_empty, map_size_empty.
  - by intros i s Hs%lookup_empty_Some.
  - rewrite map_size_empty. lia.
Qed.

(** ** Fairness

    Sessions that start one after the other, each asking once, while every
    primary peer is up and unlimited. *)

(** A new session asks for a peer: which one it got, and the shared state. *)
Definition serve_one (now : Z) (t : list Z) (us : rr_upstream)
    : outcome (option (rr_group * nat) * rr_upstream) :=
  '(_, st) ← ngx_nsoc_upstream_get_round_robin_peer now
               (RrState us (RrPeerData 0 Primary None t) init_pc);
  Done (current (st_rrp st), st_us st).

Fixpoint serve (nows : list Z) (t : list Z) (us : rr_upstream)
    : outcome (list (option (rr_group * nat)) * rr_upstream) :=
  match nows with
  | [] => Done ([], us)
  | now :: nows =>
      '(c, us) ← serve_one now t us;
      '(cs, us) ← serve nows t us;
      Done (c :: cs, us)
  end.

Definition ready (p : rr_peer) : Prop :=
  down p = false /\ max_conns p = 0 /\ (max_fails p = 0 \/ fails p < max_fails p) /\
  effective_weight p = weight p /\ 0 < weight p.

Definition occurrences (k : nat) (picks : list (option (rr_group * nat))) : Z :=
  sumz (fun c => if decide (c = Some (Primary, k)) then 1 else 0) picks.

Lemma ready_not_skipped now p : ready p -> skip_peer now p = false.
Proof.
  intros (Hd & Hm & Hf & _). unfold skip_peer. rewrite Hd, Hm. cbn. rewrite orb_false_r.
  destruct (Z.eqb_spec (max_fails p) 0); [done|]. cbn.
  rewrite (proj2 (Z.leb_gt _ _)) by lia. done.
Qed.

Section Fair.
Context (t : list Z) (ps : rr_peers).

Let W : Z := sumz weight (peer ps).

(** After [n] grants, [picks] so far: the current weight of each peer measures
    how far its share is from [n * weight / W]. *)
Definition balanced (n : Z) (picks : list (option (rr_group * nat))) (qs : list rr_peer) : Prop :=
  length qs = length (peer ps) /\ sumz current_weight qs = 0 /\
  forall k p q, peer ps !! k = Some p -> qs !! k = Some q ->
    static q = static p /\ ready q /\
    current_weight q = n * weight p - W * occurrences k picks /\ - W < current_weight q.

Definition fits (us : rr_upstream) (qs : list rr_peer) : Prop :=
  wf_us us /\ covers t us /\ group Primary us = Some (ps <| peer := qs |>) /\
  forall i, (i < length qs)%nat -> tried_bit t i = Some false.

Lemma balanced_weights n picks qs : balanced n picks qs -> sumz weight qs = W.
Proof.
  intros (Hl & _ & Hall). unfold W.
  assert (map weight qs = map weight (peer ps)) as Hm.
  { apply list_eq. intros k. rewrite !list_lookup_fmap.
    destruct (peer ps !! k) as [p|] eqn:Hp, (qs !! k) as [q|] eqn:Hq; cbn; try done.
    - destruct (Hall k p q Hp Hq) as ([= _ _ _ _ -> _ _ _ _] & _). done.
    - apply lookup_ge_None in Hq. apply lookup_lt_Some in Hp. lia.
    - apply lookup_ge_None in Hp. apply lookup_lt_Some in Hq. lia. }
  transitivity (sumz id (map weight qs)); [by rewrite sumz_map|]. by rewrite Hm, sumz_map.
Qed.

Lemma balanced_lookup n picks qs k q :
  balanced n picks qs -> qs !! k = Some q -> exists p, peer ps !! k = Some p.
Proof.
  intros (Hl & _) Hq. apply lookup_lt_is_Some. rewrite <- Hl. by eapply lookup_lt_Some.
Qed.

Lemma balanced_eligible n picks qs us now k q :
  balanced n picks qs -> fits us qs -> qs !! k = Some q -> eligible now t k q = true.
Proof.
  intros Hb (_ & _ & _ & Hz) Hq. unfold eligible.
  rewrite Hz by (by eapply lookup_lt_Some). destruct (balanced_lookup _ _ _ _ _ Hb Hq) as [p Hp].
  destruct Hb as (_ & _ & Hall). destruct (Hall k p q Hp Hq) as (_ & Hr & _).
  by rewrite ready_not_skipped.
Qed.

Lemma candidates_all el qs : forall i,
  (forall k q, qs !! k = Some q -> el (i + k)%nat q = true) ->
  sumz (fun c => effective_weight c.2) (candidates el i qs) = sumz effective_weight qs.
Proof.
  induction qs as [|q qs IH]; intros i Hel; [done|]. cbn [candidates].
  pose proof (Hel 0%nat q eq_refl) as H0. rewrite Nat.add_0_r in H0. rewrite H0.
  rewrite sumz_app, !sumz_cons, IH; [rewrite sumz_nil; cbn; lia|].
  intros k r Hr. rewrite Nat.add_succ_comm. by apply Hel.
Qed.

(** The winner has a positive score, since the scores add up to [W]. *)
Lemma winner_positive n picks qs us now k q :
  balanced n picks qs -> fits us qs -> best_choice now t qs k -> qs !! k = Some q -> 0 < W ->
  0 < score q.
Proof.
  intros Hb Hf (q' & Hq' & _ & Hmax) Hq HW. rewrite Hq in Hq'. injection Hq' as <-.
  destruct (Z.lt_ge_cases 0 (score q)) as [|Hle]; [done|].
  assert (Hs : sumz score qs = W).
  { unfold score. rewrite sumz_add, <- (balanced_weights n picks qs Hb).
    destruct Hb as (Hl & -> & Hall). rewrite Z.add_0_l. apply sumz_ext.
    intros r Hr. apply list_elem_of_lookup in Hr as [j Hj].
    assert (is_Some (peer ps !! j)) as [p Hp]
      by (apply lookup_lt_is_Some; rewrite <- Hl; by eapply lookup_lt_Some).
    by destruct (Hall j p r Hp Hj) as (_ & (_ & _ & _ & -> & _) & _). }
  assert (sumz score qs <= sumz (fun _ => 0) qs).
  { apply sumz_le. intros r Hr. apply list_elem_of_lookup in Hr as [j Hj].
    destruct (Hmax j r Hj) as [H _]; [by eapply balanced_eligible|lia]. }
  rewrite sumz_zero in *. lia.
Qed.

(** How one grant moves the weights, peer by peer. *)
Lemma taken_balanced n picks qs us now k j q q' :
  balanced n picks qs -> fits us qs -> usable_choice now t (ps <| peer := qs |>) k -> 0 < W ->
  qs !! j = Some q -> peer (taken now t (ps <| peer := qs |>) k) !! j = Some q' ->
  static q' = static q /\ ready q' /\ - W < current_weight q' /\
  current_weight q' = current_weight q + weight q - (if decide (j = k) then W else 0).
Proof.
  intros Hb Hf Hu HW Hq Hq'. destruct (balanced_lookup _ _ _ _ _ Hb Hq) as [p Hp].
  pose proof Hb as (Hl & _ & Hall). destruct (Hall j p q Hp Hq) as (Hst & Hr & _ & Hlow).
  unfold taken, charged, usable_choice in *. cbn in *. destruct (single ps) eqn:Hs.
  - destruct Hf as (Hwf & _ & Hg & _). destruct (Hwf Primary _ Hg) as [_ Hone]. cbn in Hone.
    specialize (Hone Hs). destruct Hu as [-> _].
    assert (j = 0%nat) as -> by (apply lookup_lt_Some in Hq; lia).
    rewrite list_lookup_alter_eq, Hq in Hq'. injection Hq' as <-. cbn.
    assert (Hsum : sumz weight qs = W) by by eapply balanced_weights.
    destruct qs as [|q0 [|]]; cbn in Hone; try lia. injection Hq as ->.
    rewrite sumz_cons, sumz_nil in Hsum. split; [done|]. split; [exact Hr|]. rewrite decide_True by done. lia.
  - unfold chosen_peers in Hq'. rewrite candidates_all in Hq'
      by (intros i r Hi; cbn; by eapply balanced_eligible).
    assert (HW' : sumz effective_weight qs = W).
    { rewrite <- (balanced_weights n picks qs Hb). apply sumz_ext. intros r [i Hi]%list_elem_of_lookup.
      destruct (balanced_lookup _ _ _ _ _ Hb Hi) as [pi Hpi].
      by destruct (Hall i pi r Hpi Hi) as (_ & (_ & _ & _ & -> & _) & _). }
    rewrite HW' in Hq'. pose proof Hr as (Hd & Hm & Hfl & He & Hw).
    assert (Hbump : bump_all (eligible now t) 0 qs !! j = Some (bump q)).
    { rewrite bump_all_lookup, Hq. cbn. unfold bump_at.
      by rewrite (balanced_eligible n picks qs us now j q Hb Hf Hq). }
    assert (Hbq : bump q = q <| current_weight := current_weight q + weight q |>).
    { unfold bump. rewrite He, (proj2 (Z.ltb_ge _ _)) by lia. destruct q; cbn in *; by subst. }
    destruct (decide (j = k)) as [->|Hne].
    + rewrite !list_lookup_alter_eq, Hbump, Hbq in Hq'. injection Hq' as <-. cbn.
      pose proof (winner_positive n picks qs us now k q Hb Hf Hu Hq HW) as Hsc.
      unfold score in Hsc. rewrite He in Hsc. split_and!; try done; lia.
    + rewrite !list_lookup_alter_ne, Hbump, Hbq in Hq' by done. injection Hq' as <-. cbn.
      split_and!; try done; lia.
Qed.

Lemma wf_us_set_group g q q' us :
  group g us = Some q -> same_slots q q' -> wf_us us -> wf_us (set_group g q' us).
Proof.
  intros Hg (Hl & Hn & Hs) Hwf g' r. destruct (decide (g = g')) as [<-|Hne].
  - rewrite group_set_group. intros [= <-]. destruct (Hwf g q Hg) as [H1 H2].
    unfold wf_peers, zlen in *. rewrite Hl, Hn, Hs. done.
  - rewrite group_set_group_ne by done. apply Hwf.
Qed.

Lemma taken_sum now q k :
  usable_choice now t q k -> sumz current_weight (peer (taken now t q k)) = sumz current_weight (peer q).
Proof.
  intros Hu. unfold taken, charged, usable_choice in *. cbn. rewrite sumz_alter_same by done.
  destruct (single q); [done|]. by apply sumz_chosen_peers.
Qed.

Lemma balanced_usable n picks qs us now :
  balanced n picks qs -> fits us qs -> 0 < W -> unusable now t (ps <| peer := qs |>) -> False.
Proof.
  intros Hb Hf HW Hun. assert (qs <> []) as Hne.
  { intros ->. rewrite <- (balanced_weights n picks [] Hb), sumz_nil in HW. lia. }
  destruct qs as [|q qs]; [done|]. unfold unusable in Hun. cbn in Hun. destruct (single ps).
  - destruct Hun as (p & [= ->] & Hns). destruct (balanced_lookup n picks _ 0 p Hb eq_refl) as [p0 Hp0].
    destruct Hb as (_ & _ & Hall). destruct (Hall 0%nat p0 p Hp0 eq_refl) as (_ & (Hd & Hm & _) & _).
    unfold no_slot in Hns. by rewrite Hd, Hm in Hns.
  - specialize (Hun 0%nat q eq_refl).
    by rewrite (balanced_eligible n picks (q :: qs) us now 0 q Hb Hf) in Hun.
Qed.

Lemma serve_one_balanced now n picks qs us :
  balanced n picks qs -> fits us qs -> 0 < W ->
  exists k qs' us', serve_one now t us = Done (Some (Primary, k), us') /\ fits us' qs' /\
    balanced (n + 1) (Some (Primary, k) :: picks) qs'.
Proof.
  intros Hb Hf HW. pose proof Hf as (Hwf & Hcov & Hg & Hz). unfold serve_one.
  destruct (get_round_robin_peer_total now us (RrPeerData 0 Primary None t) init_pc _ Hg Hwf Hcov)
    as (rc & st & -> & Hres). cbn [mbind outcome_bind].
  destruct Hres as [q k t' p Hq Hu Hp Hmk|q b k t0 t' p _ Hq Hun _ _ _ _ _ _|q rrp' Hq Hun _ _ _ _];
    cbn in Hq; change (Some (primary us) = Some (ps <| peer := qs |>)) in Hg;
    rewrite Hg in Hq; injection Hq as <-;
    [|by destruct (balanced_usable n picks qs us now)..].
  cbn in *. set (q := taken now t (ps <| peer := qs |>) k).
  pose proof (same_slots_taken now t (ps <| peer := qs |>) k) as Hslots. fold q in Hslots.
  exists k, (peer q), (set_group Primary q us). split; [done|].
  assert (Hlq : length (peer q) = length qs) by apply Hslots. split.
  - split_and!.
    + eapply (wf_us_set_group Primary); [exact Hg|exact Hslots|done].
    + eapply (covers_set_group t Primary); [exact Hg|exact Hslots|done].
    + by rewrite group_set_group.
    + intros i Hi. apply Hz. lia.
  - pose proof Hb as (Hl & Hsum & Hall). split_and!.
    + lia.
    + unfold q. by rewrite taken_sum.
    + intros j p0 q' Hp0 Hq'.
      assert (is_Some (qs !! j)) as [q0 Hq0]
        by (apply lookup_lt_is_Some; rewrite Hl; by eapply lookup_lt_Some).
      destruct (Hall j p0 q0 Hp0 Hq0) as (Hst & Hr & Hcw & _).
      destruct (taken_balanced n picks qs us now k j q0 q' Hb Hf Hu HW Hq0 Hq')
        as (Hst' & Hr' & Hlow & Hcw'). split_and!; [congruence|done| |done].
      rewrite Hcw', Hcw. unfold occurrences. rewrite sumz_cons.
      injection Hst as _ _ _ _ -> _ _ _ _.
      destruct (decide (j = k)) as [->|Hne].
      * rewrite decide_True by done. lia.
      * rewrite decide_False by congruence. lia.
Qed.

Lemma balanced_ext n picks picks' qs :
  (forall k, occurrences k picks = occurrences k picks') ->
  balanced n picks qs -> balanced n picks' qs.
Proof.
  intros Ho (Hl & Hs & Hall). split_and!; try done. intros k p q Hp Hq.
  rewrite <- Ho. by apply Hall.
Qed.

Lemma serve_balanced nows : forall n picks qs us,
  balanced n picks qs -> fits us qs -> 0 < W ->
  exists cs us' qs', serve nows t us = Done (cs, us') /\ fits us' qs' /\
    balanced (n + zlen nows) (cs ++ picks) qs' /\
    Forall (fun c => exists k, c = Some (Primary, k)) cs.
Proof.
  induction nows as [|now nows IH]; intros n picks qs us Hb Hf HW.
  { exists [], us, qs. rewrite zlen_nil, Z.add_0_r. split_and!; try done. }
  destruct (serve_one_balanced now n picks qs us Hb Hf HW) as (k & qs1 & us1 & Hrun & Hf1 & Hb1).
  destruct (IH _ _ _ _ Hb1 Hf1 HW) as (cs & us' & qs' & Hrun' & Hf' & Hb' & Hcs).
  exists (Some (Primary, k) :: cs), us', qs'. cbn [serve]. rewrite Hrun. cbn [mbind outcome_bind].
  rewrite Hrun'. cbn [mbind outcome_bind]. split_and!; try done.
  - rewrite zlen_cons. replace (n + (1 + zlen nows)) with (n + 1 + zlen nows) by lia.
    eapply balanced_ext; [|exact Hb']. intros j. unfold occurrences.
    cbn [app]. autorewrite with sumz. lia.
  - constructor; eauto.
Qed.

(** After [W] grants the books are even. *)
Lemma balanced_cycle picks qs :
  balanced W picks qs -> 0 < W ->
  forall k p q, peer ps !! k = Some p -> qs !! k = Some q ->
    current_weight q = 0 /\ occurrences k picks = weight p.
Proof.
  intros (Hl & Hsum & Hall) HW.
  assert (Hzero : forall q, q ∈ qs -> 0 = current_weight q).
  { apply (sumz_le_eq (fun _ => 0) current_weight).
    - intros q [k Hk]%list_elem_of_lookup.
      assert (is_Some (peer ps !! k)) as [p Hp]
        by (apply lookup_lt_is_Some; rewrite <- Hl; by eapply lookup_lt_Some).
      destruct (Hall k p q Hp Hk) as (_ & _ & Hcw & Hlow).
      rewrite <- Z.mul_sub_distr_l in Hcw. clearbody W.
      assert (0 <= weight p - occurrences k picks) by nia. nia.
    - by rewrite Hsum, sumz_zero. }
  intros k p q Hp Hq. destruct (Hall k p q Hp Hq) as (_ & _ & Hcw & _).
  rewrite <- (Hzero q) in Hcw |- * by (by eapply list_elem_of_lookup_2).
  rewrite <- Z.mul_sub_distr_l in Hcw. clearbody W. split; [done|]. nia.
Qed.
End Fair.

(** ** Theorems *)

Lemma rr_reach_inv w w' : rtc rr_step w w' -> world_inv w -> world_inv w'.
Proof. induction 1 as [w|w1 w2 w3 Hstep _ IH]; eauto using rr_step_inv. Qed.

Lemma fresh_balanced t ps us :
  wf_us us -> covers t us -> group Primary us = Some ps ->
  (forall i, (i < length (peer ps))%nat -> tried_bit t i = Some false) ->
  Forall (fun p => ready p /\ current_weight p = 0) (peer ps) -> 0 < sumz weight (peer ps) ->
  balanced ps 0 [] (peer ps) /\ fits t ps us (peer ps).
Proof.
  intros Hwf Hcov Hg Hz Hall HW. rewrite Forall_lookup in Hall. split.
  - split_and!; [done| |].
    + transitivity (sumz (fun _ : rr_peer => 0) (peer ps)); [|apply sumz_zero].
      apply sumz_ext. intros q [k Hk]%list_elem_of_lookup. by destruct (Hall k q Hk).
    + intros k p q Hp Hq. rewrite Hp in Hq. injection Hq as <-. destruct (Hall k p Hp) as [Hr Hc].
      unfold occurrences. rewrite sumz_nil, Hc. split; [done|]. split; [exact Hr|]. lia.
  - split_and!; try done. by destruct ps.
Qed.

(** C1: weighted round robin is exactly fair.  While every primary peer is up,
    unlimited and at full weight, any [total weight] consecutive sessions give
    each peer as many sessions as its weight, and all current weights are then
    back at zero, so every further cycle is the same. *)
Theorem fair_cycle t ps us nows
    (Hwf : wf_us us) (Hcov : covers t us) (Hg : group Primary us = Some ps)
    (Hz : forall i, (i < length (peer ps))%nat -> tried_bit t i = Some false)
    (Hall : Forall (fun p => ready p /\ current_weight p = 0) (peer ps))
    (HW : 0 < sumz weight (peer ps)) (Hn : zlen nows = sumz weight (peer ps)) :
  exists picks us' ps', serve nows t us = Done (picks, us') /\ group Primary us' = Some ps' /\
    length (peer ps') = length (peer ps) /\
    Forall (fun p => current_weight p = 0) (peer ps') /\
    forall k p, peer ps !! k = Some p -> occurrences k picks = weight p.
Proof.
  destruct (fresh_balanced t ps us Hwf Hcov Hg Hz Hall HW) as [Hb Hf].
  destruct (serve_balanced t ps nows 0 [] (peer ps) us Hb Hf HW)
    as (cs & us' & qs & Hrun & (_ & _ & Hg' & _) & Hb' & _).
  rewrite app_nil_r, Z.add_0_l, Hn in Hb'.
  pose proof (balanced_cycle ps cs qs Hb' HW) as Hcyc. pose proof Hb' as (Hl & _).
  exists cs, us', (ps <| peer := qs |>). split_and!; try done.
  - apply Forall_lookup. cbn. intros k q Hq.
    assert (is_Some (peer ps !! k)) as [p Hp]
      by (apply lookup_lt_is_Some; rewrite <- Hl; by eapply lookup_lt_Some).
    by apply (Hcyc k p q Hp).
  - intros k p Hp.
    assert (is_Some (qs !! k)) as [q Hq]
      by (apply lookup_lt_is_Some; rewrite Hl; by eapply lookup_lt_Some).
    by destruct (Hcyc k p q Hp Hq).
Qed.

(** The upstream of the witnesses: weights 5, 1 and 1, and one backup. *)
Definition demo_server (w : Z) (b : bool) : upstream_server :=
  UpstreamServer [97] [Addr [127; 0; 0; 1] 16 [97; w]] 1 w 0 1 10 false b.

Definition demo_servers : list upstream_server :=
  [demo_server 5 false; demo_server 1 false; demo_server 1 true; demo_server 1 false].

Definition demo_group (b : bool) : rr_peers :=
  let ps := server_peers b demo_servers in
  RrPeers (zlen ps) (sumz weight ps) false (negb (sumz weight ps =? zlen ps)) [117] ps.

Definition demo_us : rr_upstream := RrUpstream (demo_group false) (Some (demo_group true)).

Lemma demo_fit : servers_fit demo_servers.
Proof.
  split; [|intros [|]; split; done].
  repeat (apply Forall_cons_2; [unfold server_ok; cbn; split_and!; (done || lia)|]). constructor.
Qed.

Lemma demo_wf : wf_us demo_us.
Proof. intros [|] ps [= <-]; split; done. Qed.

Lemma demo_covers : covers [0] demo_us.
Proof. intros [|] ps [= <-]; cbn; lia. Qed.

Lemma fair_cycle_witness :
  exists picks us', serve [1; 2; 3; 4; 5; 6; 7] [0] demo_us = Done (picks, us') /\
    occurrences 0 picks = 5 /\ occurrences 1 picks = 1 /\ occurrences 2 picks = 1.
Proof.
  destruct (fair_cycle [0] (demo_group false) demo_us [1; 2; 3; 4; 5; 6; 7] demo_wf demo_covers
              eq_refl) as (picks & us' & ps' & Hrun & _ & _ & _ & Hocc).
  - intros [|[|[|i]]] Hi; [done..|cbn in Hi; lia].
  - cbn. repeat (apply Forall_cons_2;
      [unfold ready; cbn; split; [split_and!; (done || lia || (right; lia))|done]|]). constructor.
  - done.
  - done.
  - exists picks, us'. split; [exact Hrun|].
    exact (conj (Hocc 0%nat _ eq_refl) (conj (Hocc 1%nat _ eq_refl) (Hocc 2%nat _ eq_refl))).
Defined.

(** C24: [get_round_robin_peer] always returns and meets its contract: the
    session's group gives its best eligible peer (the first one of greatest
    weight, charged with the weights of the others); a group with none hands the
    session to the backup group with a cleared bitmap; NGX_BUSY comes exactly
    when neither has a usable peer, and then no shared peer has changed. *)
Theorem get_round_robin_peer_correct now us rrp pc ps
    (Hg : group (rrp_peers rrp) us = Some ps) (Hwf : wf_us us) (Hcov : covers (tried rrp) us) :
  exists rc st', ngx_nsoc_upstream_get_round_robin_peer now (RrState us rrp pc) = Done (rc, st') /\
    get_result now us rrp pc rc st'.
Proof. by eapply get_round_robin_peer_total. Qed.

Lemma get_round_robin_peer_correct_witness :
  let rrp := RrPeerData 0 Primary None [0] in
  group (rrp_peers rrp) demo_us = Some (demo_group false) /\ wf_us demo_us /\
  covers (tried rrp) demo_us /\
  exists rc st', ngx_nsoc_upstream_get_round_robin_peer 100 (RrState demo_us rrp init_pc) =
    Done (rc, st') /\ get_result 100 demo_us rrp init_pc rc st'.
Proof.
  split; [done|]. split; [apply demo_wf|]. split; [apply demo_covers|].
  apply (get_round_robin_peer_correct 100 demo_us (RrPeerData 0 Primary None [0]) init_pc
           (demo_group false)); [done|apply demo_wf|apply demo_covers].
Defined.

(** C13: whatever sessions open, ask, fail, succeed and close, and in whatever
    order: the connection count of every peer is the number of sessions that
    hold it and never exceeds its limit, effective weights stay between zero and
    the configured weight, and the current weights of a group add up to zero. *)
Theorem session_invariant host servers us w
    (Hfit : servers_fit servers) (Hbuilt : built host servers us)
    (Hreach : rtc rr_step (World us ∅) w) :
  forall g ps, group g (w_us w) = Some ps -> sumz current_weight (peer ps) = 0 /\
    forall k p, peer ps !! k = Some p ->
      conns p = holders (w_sess w) g k /\ (max_conns p <> 0 -> conns p <= max_conns p) /\
      0 <= effective_weight p <= weight p.
Proof.
  pose proof (rr_reach_inv _ _ Hreach (built_inv host servers us ∅ Hfit Hbuilt eq_refl))
    as (Hus & Hconns & _ & Hsz). intros g ps Hg.
  destruct (Hus g ps Hg) as (_ & Hall & Hsum). split; [done|]. intros k p Hp.
  rewrite Forall_lookup in Hall. pose proof (Hall k p Hp) as Hinv. unfold peer_inv in Hinv.
  split; [|split; [|lia]]; [|lia].
  rewrite (Hconns g ps k p Hg Hp). apply u64_small. split; [unfold holders; lia|].
  assert (holders (w_sess w) g k <= Z.of_nat (size (w_sess w))); [|lia].
  unfold holders. apply Nat2Z.inj_le, map_subseteq_size, map_filter_subseteq.
Qed.

Lemma demo_built : built [117] demo_servers demo_us.
Proof. done. Qed.

Lemma session_invariant_witness :
  exists w, rtc rr_step (World demo_us ∅) w /\ is_Some (w_sess w !! 7%nat) /\
  forall g ps, group g (w_us w) = Some ps -> sumz current_weight (peer ps) = 0 /\
    forall k p, peer ps !! k = Some p ->
      conns p = holders (w_sess w) g k /\ (max_conns p <> 0 -> conns p <= max_conns p) /\
      0 <= effective_weight p <= weight p.
Proof.
  assert (Hreach : exists us' m s, rtc rr_step (World demo_us ∅) (World us' (<[7%nat := s]> m))).
  { do 3 eexists. eapply rtc_l.
    - by apply (@step_open unit plentiful demo_us ∅ 7%nat tt tt (RrPeerData 0 Primary None [0])
                  (init_pc <| tries := 4 |>)).
    - eapply rtc_l; [|apply rtc_refl].
      eapply (step_get _ _ 7%nat 50); [apply lookup_insert_eq|done|reflexivity]. }
  destruct Hreach as (us' & m & s & Hreach). exists (World us' (<[7%nat := s]> m)).
  split; [done|]. split; [exists s; apply lookup_insert_eq|].
  apply (session_invariant [117] demo_servers demo_us _ demo_fit demo_built Hreach).
Defined.



(** Configuring a list of [server] lines never runs outside the address
    arrays; on NGX_OK the upstream holds one peer per address, the primary
    servers in file order and the backups in a second group, all fresh, with
    [number] and [total_weight] their count and total weight and [single] set
    exactly for one primary address without backups.  Without a primary address
    it is NGX_ERROR. *)
Theorem init_round_robin_builds {P} `{NgxPool P} resolve host port servers (pool : P)
    (Hfit : servers_fit servers) :
  exists rc r pool', ngx_nsoc_upstream_init_round_robin resolve host port (Some servers) pool =
      Done (rc, r, pool') /\
    (server_peers false servers = [] -> rc = NGX_ERROR) /\
    (rc = NGX_OK -> exists us, r = Some us /\ built host servers us /\ wf_us us /\
       fresh_peers (server_peers false servers ++ server_peers true servers)).
Proof.
  destruct (init_servers_run host servers pool Hfit) as (rc & r & pool' & Hrun & Hcase).
  exists rc, r, pool'. split; [done|]. destruct Hcase as [(-> & Hne & us & -> & Hb)| ->].
  - split; [done|]. intros _. exists us. split_and!; try done.
    + by destruct (built_inv host servers us ∅ Hfit Hb eq_refl) as (Hus%us_inv_wf & _).
    + apply Forall_app_2; apply server_peers_fresh; apply Hfit.
  - done.
Qed.

Lemma init_round_robin_builds_witness :
  exists rc r pool', @ngx_nsoc_upstream_init_round_robin unit plentiful
    (fun _ _ => None) [117] 0 (Some demo_servers) tt = Done (rc, r, pool') /\
    rc = NGX_OK /\ exists us, r = Some us /\ built [117] demo_servers us.
Proof.
  destruct (@init_round_robin_builds unit plentiful (fun _ _ => None) [117] 0 demo_servers tt demo_fit)
    as (rc & r & pool' & Hrun & _ & Hok).
  assert (Hrc : rc = NGX_OK) by (vm_compute in Hrun; by injection Hrun as <- _ _).
  exists rc, r, pool'. split; [exact Hrun|]. split; [exact Hrc|].
  destruct (Hok Hrc) as (us & Hr & Hb & _). exists us. by split.
Defined.
