(* ===== verification/NoiseConn.v ===== *)
(** * Noise connections: the data of ngx_nsoc_handler.h and the world around it

    The state of one Noise connection ([nconn], the C struct
    [ngx_noise_connection_t]), the fields of the nginx connection it uses, and
    what the handler calls in nginx core and in the noise-c library.  Those two
    are parameters: [NgxOs] and [NoiseLib] are their operations, [NgxOsLaws] and
    [NoiseLaws] the documented behaviour the theorems rely on.  Also the
    functions that create and release a Noise connection. *)

From stdpp Require Import prelude list numbers.
From S2P Require Import Prelude.

(** ** Constants *)

Definition NGX_NSOC_BUFFER : Z := 1.
Definition NGX_NSOC_CLIENT : Z := 2.
Definition NGX_NSOC_SIZE_UNSET : Z := -1.

Definition NGX_NSOC_1MSG : Z := 0.
Definition NGX_NSOC_2MSG_OK : Z := 1.
Definition NGX_NSOC_2MSG_FB : Z := 2.
Definition NGX_NSOC_2MSG_ERR : Z := 3.
Definition NGX_NSOC_3MSG : Z := 4.

Definition NGX_NSOC_1MSG_NEG_DATA_SIZE : Z := 6.
Definition NGX_NSOC_2MSG_NEG_DATA_OK_SIZE : Z := 0.
Definition NGX_NSOC_2MSG_NEG_DATA_FB_SIZE : Z := 3.
Definition NGX_NSOC_2MSG_NEG_DATA_ERR_SIZE : Z := 3.
Definition NGX_NSOC_3MSG_NEG_DATA_SIZE : Z := 0.
Definition NGX_NSOC_LEN_FIELD_SIZE : Z := 2.
Definition NGX_NSOC_VERSION_ID : Z := swapw 1.

Definition NOISE_PROTOCOL_PAYLOAD_SIZE : Z := 65517.
Definition NOISE_PROTOCOL_MAC_DATA_SIZE : Z := 16.
Definition NOISE_PROTOCOL_MAX_HANDSHAKE_LEN : Z := 32 * 2 + 16 * 2.

Definition NOISE_ERROR_NONE : Z := 0.

Inductive phase := NONE_PHASE | PROCESS_PHASE | END_PHASE.
Inductive role := UNSET_ROLE | CLIENT_ROLE | SERVER_ROLE.

(** ** Messages *)

(** [noise_handshake_first_hdr_t]; packed, so its bytes are its fields. *)
Record first_hdr := FirstHdr {
  version_id : Z;
  dh_id : Z;
  cipher_id : Z;
  hash_id : Z;
  pattern_id : Z;
}.

Definition first_hdr_bytes (h : first_hdr) : list Z :=
  le16 (version_id h) ++ [dh_id h; cipher_id h; hash_id h; pattern_id h].

(** The struct read through a pointer to its bytes. *)
Definition first_hdr_of_bytes (bs : list Z) : option first_hdr :=
  match bs with
  | v0 :: v1 :: d :: c :: h :: p :: _ => Some (FirstHdr (ld16 v0 v1) d c h p)
  | _ => None
  end.

(** [noise_prologue_data_t] *)
Record prologue_data := PrologueData {
  strPrologue : list Z;
  header_len : Z;
  header : first_hdr;
}.
#[export] Instance eta_prologue_data : Eta prologue_data := fun r =>
  PrologueData (strPrologue r) (header_len r) (header r).

Definition prologue_bytes (p : prologue_data) : list Z :=
  strPrologue p ++ le16 (header_len p) ++ first_hdr_bytes (header p).

(** ** Buffers, events and connections *)

(** [ngx_buf_t] over memory of its own: [b_mem] is [start .. end), [b_pos] and
    [b_last] are offsets from [start]. *)
Record nbuf := NBuf { b_mem : list Z; b_pos : Z; b_last : Z }.
#[export] Instance eta_nbuf : Eta nbuf := fun r => NBuf (b_mem r) (b_pos r) (b_last r).

(** A buffer descriptor over memory the caller owns. *)
Record region := Region { r_start : Z; r_pos : Z; r_last : Z; r_end : Z }.
#[export] Instance eta_region : Eta region := fun r =>
  Region (r_start r) (r_pos r) (r_last r) (r_end r).

Inductive ev_handler := HandshakeHandler | OtherHandler.

Record event := Event {
  ready : bool;
  eof : bool;
  error : bool;
  timer_set : bool;
  available : bool;
  handler : ev_handler;
}.
#[export] Instance eta_event : Eta event := fun r =>
  Event (ready r) (eof r) (error r) (timer_set r) (available r) (handler r).

(** Whether a connection's I/O function pointers are nginx's or the Noise ones. *)
Inductive io_fn := OsIo | NsocIo.

Record conn := Conn {
  c_id : Z;
  read : event;
  write : event;
  sent : Z;
  buffered : bool;
  io : io_fn;
}.
#[export] Instance eta_conn : Eta conn := fun r =>
  Conn (c_id r) (read r) (write r) (sent r) (buffered r) (io r).

(** ** The noise-c library *)

(** [HS] and [CS] are [NoiseHandshakeState] and [NoiseCipherState].  Each
    operation returns the error code and the state after the call; DH states
    live inside the handshake state. *)
Class NoiseLib (HS CS : Type) := {
  noise_init : Z;
  NOISE_ROLE_INITIATOR : Z;
  NOISE_ROLE_RESPONDER : Z;
  NOISE_ACTION_WRITE_MESSAGE : Z;
  NOISE_ACTION_READ_MESSAGE : Z;
  NOISE_ACTION_SPLIT : Z;
  NOISE_PREFIX_STANDARD : Z;
  (** prefix, pattern, dh, cipher, hash and hybrid identifiers, then the role *)
  hs_new_by_id : Z -> Z -> Z -> Z -> Z -> Z -> Z -> Z * option HS;
  hs_set_prologue : HS -> list Z -> Z * HS;
  hs_needs_local_keypair : HS -> bool;
  hs_set_local_private : HS -> list Z -> Z * HS;
  hs_local_private_len : HS -> Z;
  hs_needs_remote_public : HS -> bool;
  hs_set_remote_public : HS -> list Z -> Z * HS;
  hs_remote_public_len : HS -> Z;
  hs_start : HS -> Z * HS;
  hs_action : HS -> Z;
  (** the output buffer's capacity; on success the message *)
  hs_write_message : HS -> Z -> Z * list Z * HS;
  hs_read_message : HS -> list Z -> Z * HS;
  (** the send and the receive cipher *)
  hs_split : HS -> Z * option (CS * CS) * HS;
  hs_free : HS -> Z;
  (** contents and capacity of the buffer; on success its new contents *)
  cs_encrypt : CS -> list Z -> Z -> Z * list Z * CS;
  cs_decrypt : CS -> list Z -> Z * list Z * CS;
}.

(** [NOISE_ID(ch, num)] of noise-c. *)
Definition NOISE_ID (ch num : Z) : Z := Z.lor (Z.shiftl ch 8) num.

(** Documented behaviour: the actions are distinct non-zero codes, error codes
    are non-negative, outputs fit their buffers, a cipher adds and removes
    exactly its MAC, and split hands out both ciphers. *)
Class NoiseLaws (HS CS : Type) `{NoiseLib HS CS} : Prop := {
  action_write_nonzero : NOISE_ACTION_WRITE_MESSAGE <> 0;
  action_read_nonzero : NOISE_ACTION_READ_MESSAGE <> 0;
  action_write_read : NOISE_ACTION_WRITE_MESSAGE <> NOISE_ACTION_READ_MESSAGE;
  action_write_split : NOISE_ACTION_WRITE_MESSAGE <> NOISE_ACTION_SPLIT;
  action_read_split : NOISE_ACTION_READ_MESSAGE <> NOISE_ACTION_SPLIT;
  hs_write_length h cap m h' :
    hs_write_message h cap = (NOISE_ERROR_NONE, m, h') -> zlen m <= cap /\ bytes_ok m;
  hs_split_some h cs h' :
    hs_split h = (NOISE_ERROR_NONE, cs, h') -> is_Some cs;
  cs_encrypt_length k m cap c k' :
    bytes_ok m -> cs_encrypt k m cap = (NOISE_ERROR_NONE, c, k') ->
    zlen c = zlen m + NOISE_PROTOCOL_MAC_DATA_SIZE /\ zlen c <= cap /\ bytes_ok c;
  cs_decrypt_length k c m k' :
    bytes_ok c -> cs_decrypt k c = (NOISE_ERROR_NONE, m, k') ->
    zlen c = zlen m + NOISE_PROTOCOL_MAC_DATA_SIZE /\ bytes_ok m;
}.

(** ** The event system and the sockets of nginx core *)

(** [os_recv] and [os_send] are [ngx_recv] and [ngx_send]; they update the event
    and, for sending, the count [c->sent]. *)
Class NgxOs (W : Type) := {
  os_recv : Z -> event -> W -> Z * list Z * event * W;
  os_send : list Z -> event -> Z -> W -> Z * event * Z * W;
  os_handle_read : event -> W -> Z * event * W;
  os_handle_write : event -> W -> Z * event * W;
  os_add_timer : event -> Z -> W -> event * W;
  os_del_timer : event -> W -> event * W;
}.

(** The bytes a socket has still to deliver, the bytes it was given so far, and
    whether the peer will keep its end open. *)
Class NgxStream (W : Type) := {
  pending : W -> list Z;
  wire : W -> list Z;
  peer_open : W -> Prop;
}.

Definition same_streams {W : Type} `{NgxStream W} (w w' : W) : Prop :=
  pending w' = pending w /\ wire w' = wire w /\ (peer_open w -> peer_open w').

(** Documented behaviour: a positive result is the number of bytes moved, which
    is at most the number asked for; otherwise nothing was moved and the result
    is end of file, NGX_AGAIN or NGX_ERROR, and the read event says so.  Bytes
    come in order, and neither events, timers nor allocation touch the streams. *)
Class NgxOsLaws (W : Type) `{NgxOs W} `{NgxPool W} `{NgxStream W} : Prop := {
  os_recv_result n e w r bs e' w' :
    os_recv n e w = (r, bs, e', w') ->
    (0 < r <= n /\ zlen bs = r /\ bytes_ok bs) \/
    (bs = [] /\ (r = 0 \/ r = NGX_AGAIN \/ r = NGX_ERROR));
  os_recv_stream n e w r bs e' w' :
    os_recv n e w = (r, bs, e', w') ->
    pending w = bs ++ pending w' /\ wire w' = wire w /\
    (peer_open w -> peer_open w' /\ r <> 0);
  os_recv_ready n e w r bs e' w' :
    0 < n -> os_recv n e w = (r, bs, e', w') ->
    (r = NGX_AGAIN -> ready e' = false) /\ (r = 0 -> eof e' = true);
  os_send_result bs e k w r e' k' w' :
    os_send bs e k w = (r, e', k', w') ->
    0 < r <= zlen bs \/ r = 0 \/ r = NGX_AGAIN \/ r = NGX_ERROR;
  os_send_stream bs e k w r e' k' w' :
    os_send bs e k w = (r, e', k', w') ->
    pending w' = pending w /\ wire w' = wire w ++ ztake r bs /\ (peer_open w -> peer_open w');
  os_handle_read_stream e w r e' w' :
    os_handle_read e w = (r, e', w') -> same_streams w w';
  os_handle_write_stream e w r e' w' :
    os_handle_write e w = (r, e', w') -> same_streams w w';
  os_add_timer_law e ms w e' w' :
    os_add_timer e ms w = (e', w') ->
    timer_set e' = true /\ same_streams w w';
  os_del_timer_law e w e' w' :
    os_del_timer e w = (e', w') ->
    timer_set e' = false /\ same_streams w w';
  pool_object_stream w ok w' :
    pool_object w = (ok, w') -> same_streams w w';
  pool_bytes_stream n w bs w' :
    pool_bytes n w = (bs, w') -> same_streams w w';
}.

(** ** A Noise connection *)

Section NoiseConn.
Context {HS CS : Type} {NL : NoiseLib HS CS}.

(** An [ngx_array_t] of [ngx_str_t] that holds keys.  [ka_elts] is the raw memory
    from [elts] on, that is the [ngx_str_t] structures (a length and a pointer
    each) and the bytes behind the array; [ka_data] is what their [data] point
    at. *)
Record key_array := KeyArray { ka_elts : list Z; ka_data : list (list Z) }.

(** [NOISE_CTX] *)
Record noise_ctx := NoiseCtx { private_keys : option key_array; public_keys : option key_array }.

(** [noise_protocol_conn_t] *)
Record noise_protocol_conn := NoiseProtocolConn {
  NoiseHandshakeObj : option HS;
  NoiseSendCipherObj : option CS;
  NoiseRecvCipherObj : option CS;
}.

Record nconn := NConn {
  connection : Z;
  noise_connection : noise_protocol_conn;
  nc_ctx : option noise_ctx;
  handshake_phase : phase;
  noise_role : role;
  msg_num : Z;
  last : Z;
  buf : option nbuf;
  buffer_size : Z;
  handshake_timeout : Z;
  send_buf : option region;
  recv_buf : option region;
  to_send : Z;
  neg_data_recv_size : Z;
  noise_msg_recv_size : Z;
  handshaked : bool;
  noise_msg_size_reading : bool;
  neg_data_size_reading : bool;
  buffer : bool;
}.
End NoiseConn.
Arguments noise_protocol_conn : clear implicits.
Arguments nconn : clear implicits.

#[export] Instance eta_noise_ctx : Eta noise_ctx := fun r =>
  NoiseCtx (private_keys r) (public_keys r).
#[export] Instance eta_npc HS CS : Eta (noise_protocol_conn HS CS) := fun r =>
  NoiseProtocolConn (NoiseHandshakeObj r) (NoiseSendCipherObj r) (NoiseRecvCipherObj r).
#[export] Instance eta_nconn HS CS : Eta (nconn HS CS) := fun r =>
  NConn (connection r) (noise_connection r) (nc_ctx r) (handshake_phase r) (noise_role r)
    (msg_num r) (last r) (buf r) (buffer_size r) (handshake_timeout r) (send_buf r) (recv_buf r)
    (to_send r) (neg_data_recv_size r) (noise_msg_recv_size r) (handshaked r)
    (noise_msg_size_reading r) (neg_data_size_reading r) (buffer r).

(** The state the handler's functions work on: the connection [c], its Noise
    connection [nc], the prologue the latter points at, which belongs to the
    configuration and is shared by its connections, and the world. *)
Record hs (HS CS W : Type) := Hs {
  c : conn;
  nc : nconn HS CS;
  prologue : prologue_data;
  world : W;
}.
Arguments Hs {HS CS W}.
Arguments c {HS CS W}.
Arguments nc {HS CS W}.
Arguments prologue {HS CS W}.
Arguments world {HS CS W}.
#[export] Instance eta_hs HS CS W : Eta (hs HS CS W) := fun r =>
  Hs (c r) (nc r) (prologue r) (world r).

Section Prims.
Context {HS CS W : Type} {OS : NgxOs W} {PO : NgxPool W}.
Abbreviation ST := (M (hs HS CS W)).

(** [nc->f = v], [c->f = v], [c->read->f = v], [c->write->f = v]. *)
Definition on_nc (f : nconn HS CS -> nconn HS CS) : ST unit :=
  modify (fun s => s <| nc := f (nc s) |>).
Definition on_c (f : conn -> conn) : ST unit := modify (fun s => s <| c := f (c s) |>).
Definition on_read (f : event -> event) : ST unit := on_c (fun x => x <| read := f (read x) |>).
Definition on_write (f : event -> event) : ST unit := on_c (fun x => x <| write := f (write x) |>).

Definition ngx_recv (n : Z) : ST (Z * list Z) := fun s =>
  let '(r, bs, e, w) := os_recv n (read (c s)) (world s) in
  Done (r, bs, s <| c := (c s) <| read := e |> |> <| world := w |>).

Definition ngx_send (bs : list Z) : ST Z := fun s =>
  let '(r, e, k, w) := os_send bs (write (c s)) (sent (c s)) (world s) in
  Done (r, s <| c := (c s) <| write := e |> <| sent := k |> |> <| world := w |>).

Definition handle_read_event : ST Z := fun s =>
  let '(r, e, w) := os_handle_read (read (c s)) (world s) in
  Done (r, s <| c := (c s) <| read := e |> |> <| world := w |>).

Definition handle_write_event : ST Z := fun s =>
  let '(r, e, w) := os_handle_write (write (c s)) (world s) in
  Done (r, s <| c := (c s) <| write := e |> |> <| world := w |>).

(** [if (!ev->timer_set) ngx_add_timer(ev, nc->handshake_timeout)] and
    [if (ev->timer_set) ngx_del_timer(ev)], on either event. *)
Definition add_read_timer : ST unit := fun s =>
  if timer_set (read (c s)) then Done (tt, s)
  else
    let '(e, w) := os_add_timer (read (c s)) (handshake_timeout (nc s)) (world s) in
    Done (tt, s <| c := (c s) <| read := e |> |> <| world := w |>).

Definition del_read_timer : ST unit := fun s =>
  if timer_set (read (c s)) then
    let '(e, w) := os_del_timer (read (c s)) (world s) in
    Done (tt, s <| c := (c s) <| read := e |> |> <| world := w |>)
  else Done (tt, s).

Definition add_write_timer : ST unit := fun s =>
  if timer_set (write (c s)) then Done (tt, s)
  else
    let '(e, w) := os_add_timer (write (c s)) (handshake_timeout (nc s)) (world s) in
    Done (tt, s <| c := (c s) <| write := e |> |> <| world := w |>).

Definition del_write_timer : ST unit := fun s =>
  if timer_set (write (c s)) then
    let '(e, w) := os_del_timer (write (c s)) (world s) in
    Done (tt, s <| c := (c s) <| write := e |> |> <| world := w |>)
  else Done (tt, s).

Definition palloc (n : Z) : ST (option (list Z)) := fun s =>
  let '(bs, w) := pool_bytes n (world s) in Done (bs, s <| world := w |>).
Definition alloc_object : ST bool := fun s =>
  let '(ok, w) := pool_object (world s) in Done (ok, s <| world := w |>).

(** [ngx_create_temp_buf]: a descriptor and [n] bytes; [None] is NULL. *)
Definition create_temp_buf (n : Z) : ST (option nbuf) :=
  ok ← alloc_object;
  if (ok : bool) then
    bs ← palloc n;
    mret ((fun m => NBuf m 0 0) <$> bs)
  else mret None.
End Prims.

(** ** Rules for the primitives

    [quiet s s']: the Noise connection, the prologue and the I/O functions are
    unchanged; [silent] adds that no byte moved. *)

Definition stream {HS CS W} `{NgxStream W} (s : hs HS CS W) : list Z := pending (world s).
Definition outbox {HS CS W} `{NgxStream W} (s : hs HS CS W) : list Z := wire (world s).

Definition opened {HS CS W} `{NgxStream W} (s : hs HS CS W) : Prop := peer_open (world s).

Definition quiet {HS CS W} `{NgxStream W} (s s' : hs HS CS W) : Prop :=
  nc s' = nc s /\ prologue s' = prologue s /\ c_id (c s') = c_id (c s) /\ io (c s') = io (c s) /\
  (opened s -> opened s').

Definition silent {HS CS W} `{NgxStream W} (s s' : hs HS CS W) : Prop :=
  quiet s s' /\ stream s' = stream s /\ outbox s' = outbox s.

#[export] Instance quiet_preorder {HS CS W} `{NgxStream W} : PreOrder (@quiet HS CS W _).
Proof.
  split; [done|]. intros s1 s2 s3 (?&?&?&?&?) (?&?&?&?&?). split_and!; [congruence..|auto].
Qed.

#[export] Instance silent_preorder {HS CS W} `{NgxStream W} : PreOrder (@silent HS CS W _).
Proof.
  split; [done|]. intros s1 s2 s3 (Ha & ? & ?) (Hb & ? & ?).
  split_and!; [by etransitivity|congruence..].
Qed.

Lemma silent_quiet {HS CS W} `{NgxStream W} (s s' : hs HS CS W) : silent s s' -> quiet s s'.
Proof. by intros [? _]. Qed.

Section Rules.
Context {HS CS W : Type} {OS : NgxOs W} {PO : NgxPool W} {SM : NgxStream W} {OL : NgxOsLaws W}.
Implicit Types s : hs HS CS W.

(** What a failed read says of the state now, it says of an earlier state. *)
Definition read_failed s (r : Z) : Prop := r = 0 /\ ~ opened s \/ r = NGX_AGAIN \/ r = NGX_ERROR.

Lemma read_failed_nonpos s r : read_failed s r -> r <= 0.
Proof. unfold read_failed, NGX_AGAIN, NGX_ERROR. lia. Qed.

Lemma read_failed_before s s' r : quiet s s' -> read_failed s' r -> read_failed s r.
Proof. unfold read_failed. intros (_ & _ & _ & _ & Ho). tauto. Qed.

Definition recv_result s (n r : Z) (bs : list Z) : Prop :=
  (0 < r <= n /\ zlen bs = r /\ bytes_ok bs) \/
  (bs = [] /\ read_failed s r).

Lemma wp_recv n (Q : Z * list Z -> hs HS CS W -> Prop) s :
  (forall r bs s', quiet s s' -> stream s = bs ++ stream s' -> outbox s' = outbox s ->
     recv_result s n r bs -> Q (r, bs) s') ->
  wp (ngx_recv n) Q s.
Proof.
  intros HQ. unfold wp, ngx_recv.
  destruct (os_recv n (read (c s)) (world s)) as [[[r bs] e] w] eqn:Hr.
  destruct (os_recv_stream _ _ _ _ _ _ _ Hr) as (H1 & H2 & H3).
  apply HQ; try done. { split_and!; try done. intros Ho. by apply H3. }
  destruct (os_recv_result _ _ _ _ _ _ _ Hr) as [|[-> Hz]]; [by left|right]. split; [done|].
  unfold read_failed, opened. destruct Hz as [-> |Hz]; [left|by right].
  split; [done|]. intros Ho. by destruct (H3 Ho).
Qed.

Lemma wp_send bs (Q : Z -> hs HS CS W -> Prop) s :
  (forall r s', quiet s s' -> stream s' = stream s -> outbox s' = outbox s ++ ztake r bs ->
     (0 < r <= zlen bs \/ r = 0 \/ r = NGX_AGAIN \/ r = NGX_ERROR) -> Q r s') ->
  wp (ngx_send bs) Q s.
Proof.
  intros HQ. unfold wp, ngx_send.
  destruct (os_send bs (write (c s)) (sent (c s)) (world s)) as [[[r e] k] w] eqn:Hr.
  destruct (os_send_stream _ _ _ _ _ _ _ _ Hr) as (H1 & H2 & H3).
  apply HQ; try done. by eapply os_send_result.
Qed.

Lemma wp_on_c f (Q : unit -> hs HS CS W -> Prop) s :
  (forall x, c_id (f x) = c_id x /\ io (f x) = io x) ->
  (forall s', silent s s' -> Q tt s') -> wp (on_c f) Q s.
Proof.
  intros Hf HQ. apply HQ. split; [|done]. do 2 (split; [done|]). destruct (Hf (c s)). by split.
Qed.

Lemma wp_on_read f (Q : unit -> hs HS CS W -> Prop) s :
  (forall s', silent s s' -> Q tt s') -> wp (on_read f) Q s.
Proof. by apply wp_on_c. Qed.

Lemma wp_on_write f (Q : unit -> hs HS CS W -> Prop) s :
  (forall s', silent s s' -> Q tt s') -> wp (on_write f) Q s.
Proof. by apply wp_on_c. Qed.

Lemma wp_handle_read (Q : Z -> hs HS CS W -> Prop) s :
  (forall r s', silent s s' -> Q r s') -> wp handle_read_event Q s.
Proof.
  intros HQ. unfold wp, handle_read_event. destruct (os_handle_read _ _) as [[r e] w] eqn:Hr.
  destruct (os_handle_read_stream _ _ _ _ _ Hr) as (? & ? & ?). by apply HQ.
Qed.

Lemma wp_handle_write (Q : Z -> hs HS CS W -> Prop) s :
  (forall r s', silent s s' -> Q r s') -> wp handle_write_event Q s.
Proof.
  intros HQ. unfold wp, handle_write_event. destruct (os_handle_write _ _) as [[r e] w] eqn:Hr.
  destruct (os_handle_write_stream _ _ _ _ _ Hr) as (? & ? & ?). by apply HQ.
Qed.

Lemma wp_add_read_timer (Q : unit -> hs HS CS W -> Prop) s :
  (forall s', silent s s' -> Q tt s') -> wp add_read_timer Q s.
Proof.
  intros HQ. unfold wp, add_read_timer. destruct (timer_set _); [by apply HQ|].
  destruct (os_add_timer _ _ _) as [e w] eqn:Hr. destruct (os_add_timer_law _ _ _ _ _ Hr) as (_ & ? & ? & ?).
  by apply HQ.
Qed.

Lemma wp_del_read_timer (Q : unit -> hs HS CS W -> Prop) s :
  (forall s', silent s s' -> Q tt s') -> wp del_read_timer Q s.
Proof.
  intros HQ. unfold wp, del_read_timer. destruct (timer_set _); [|by apply HQ].
  destruct (os_del_timer _ _) as [e w] eqn:Hr. destruct (os_del_timer_law _ _ _ _ Hr) as (_ & ? & ? & ?).
  by apply HQ.
Qed.

Lemma wp_add_write_timer (Q : unit -> hs HS CS W -> Prop) s :
  (forall s', silent s s' -> Q tt s') -> wp add_write_timer Q s.
Proof.
  intros HQ. unfold wp, add_write_timer. destruct (timer_set _); [by apply HQ|].
  destruct (os_add_timer _ _ _) as [e w] eqn:Hr. destruct (os_add_timer_law _ _ _ _ _ Hr) as (_ & ? & ? & ?).
  by apply HQ.
Qed.

Lemma wp_del_write_timer (Q : unit -> hs HS CS W -> Prop) s :
  (forall s', silent s s' -> Q tt s') -> wp del_write_timer Q s.
Proof.
  intros HQ. unfold wp, del_write_timer. destruct (timer_set _); [|by apply HQ].
  destruct (os_del_timer _ _) as [e w] eqn:Hr. destruct (os_del_timer_law _ _ _ _ Hr) as (_ & ? & ? & ?).
  by apply HQ.
Qed.

Lemma wp_alloc_object (Q : bool -> hs HS CS W -> Prop) s :
  (forall ok s', silent s s' -> Q ok s') -> wp alloc_object Q s.
Proof.
  intros HQ. unfold wp, alloc_object. destruct (pool_object _) as [ok w] eqn:Hr.
  destruct (pool_object_stream _ _ _ Hr) as (? & ? & ?). by apply HQ.
Qed.

Context {PL : NgxPoolLaws W}.

Lemma wp_palloc n (Q : option (list Z) -> hs HS CS W -> Prop) s :
  0 <= n ->
  (forall o s', silent s s' -> (forall bs, o = Some bs -> zlen bs = n /\ bytes_ok bs) -> Q o s') ->
  wp (palloc n) Q s.
Proof.
  intros Hn HQ. unfold wp, palloc. destruct (pool_bytes n _) as [o w] eqn:Hr.
  destruct (pool_bytes_stream _ _ _ _ Hr) as (? & ? & ?). apply HQ; [done|]. intros bs ->.
  by eapply pool_bytes_length.
Qed.

Lemma wp_create_temp_buf n (Q : option nbuf -> hs HS CS W -> Prop) s :
  0 <= n ->
  (forall o s', silent s s' ->
     (forall b, o = Some b -> zlen (b_mem b) = n /\ b_pos b = 0 /\ b_last b = 0) -> Q o s') ->
  wp (create_temp_buf n) Q s.
Proof.
  intros Hn HQ. unfold create_temp_buf. wp_step. apply wp_alloc_object. intros [|] s1 H1; [|by apply HQ].
  wp_step. apply wp_palloc; [done|]. intros o s2 H2 Ho. wp_step.
  apply HQ; [by etransitivity|]. intros b. destruct o as [bs|]; [|done]. intros [= <-].
  by destruct (Ho bs eq_refl).
Qed.
End Rules.

(** Straight-line steps, with the rule of [on_nc]. *)
Ltac hs_step :=
  lazymatch goal with
  | |- wp (on_nc _) _ _ => apply wp_modify; cbv beta
  | _ => wp_step
  end.

(** ** Creating and releasing *)

Section Create.
Context {HS CS W : Type} {NL : NoiseLib HS CS} {PO : NgxPool W}.

(** [ngx_noise_t]: the Noise settings of a server or of a proxied location. *)
Record noise_t := NoiseT {
  n_ctx : option noise_ctx;
  n_prologue : prologue_data;
  n_buffer_size : Z;
  n_handshake_timeout : Z;
}.
#[export] Instance eta_noise_t : Eta noise_t := fun r =>
  NoiseT (n_ctx r) (n_prologue r) (n_buffer_size r) (n_handshake_timeout r).

(** [ngx_memzero] on every key, then the context is freed. *)
Definition wipe_keys (x : noise_ctx) : noise_ctx :=
  let wipe a := KeyArray (ka_elts a) (map (map (fun _ => 0)) (ka_data a)) in
  NoiseCtx (wipe <$> private_keys x) (wipe <$> public_keys x).

(** The second component is the memory of the freed context. *)
Definition ngx_nsoc_cleanup_ctx (noise : noise_t) : noise_t * option noise_ctx :=
  match n_ctx noise with
  | Some x => (noise <| n_ctx := None |>, Some (wipe_keys x))
  | None => (noise, None)
  end.

Definition ngx_nsoc_create (noise : noise_t) (size : Z) : M W (Z * noise_t) := fun w =>
  let noise := noise <| n_buffer_size := size |> in
  let '(ok, w) := pool_object w in
  if (ok : bool) then Done (NGX_OK, noise <| n_ctx := Some (NoiseCtx None None) |>, w)
  else Done (NGX_ERROR, noise <| n_ctx := None |>, w).

(** What [ngx_nsoc_cleanup_connection_pool] frees: each object that exists. *)
Record freed := Freed { f_handshake : option HS; f_send : option CS; f_recv : option CS }.

Definition ngx_nsoc_cleanup_connection_pool (x : option (nconn HS CS))
    : outcome (freed * option (nconn HS CS)) :=
  nc ← deref x;
  let npc := noise_connection nc in
  Done (Freed (NoiseHandshakeObj npc) (NoiseSendCipherObj npc) (NoiseRecvCipherObj npc), None).

(** The Noise connections of a session: towards the upstream and towards the
    client that connected. *)
Record nsoc_session := NsocSession {
  client_noise_connection : option (nconn HS CS);
  server_noise_connection : option (nconn HS CS);
  noise_on : bool;
}.
#[export] Instance eta_nsoc_session : Eta nsoc_session := fun r =>
  NsocSession (client_noise_connection r) (server_noise_connection r) (noise_on r).

Definition new_nconn (noise : noise_t) (cid flags : Z) (r : role) : nconn HS CS :=
  NConn cid (NoiseProtocolConn None None None) (n_ctx noise) NONE_PHASE r 0 0 None
    (n_buffer_size noise) (n_handshake_timeout noise) None None 0
    NGX_NSOC_SIZE_UNSET NGX_NSOC_SIZE_UNSET false false false
    (negb (Z.land flags NGX_NSOC_BUFFER =? 0)).

Definition ngx_nsoc_create_connection (noise : noise_t) (x : conn) (flags : Z) (s : nsoc_session)
    : M W (Z * nsoc_session) := fun w =>
  let '(ok, w) := pool_object w in
  if negb ok then Done (NGX_ERROR, s, w) else
  let '(ok, w) := pool_object w in
  if negb ok then Done (NGX_ERROR, s, w) else
  if negb (Z.land flags NGX_NSOC_CLIENT =? 0)
  then Done (NGX_OK, s <| client_noise_connection :=
                           Some (new_nconn noise (c_id x) flags CLIENT_ROLE) |>, w)
  else Done (NGX_OK, s <| server_noise_connection :=
                           Some (new_nconn noise (c_id x) flags SERVER_ROLE) |>, w).

(** How every function of the handler finds the Noise connection of [c]. *)
Inductive side := ClientSide | ServerSide.

Definition find_nc (cid : Z) (s : nsoc_session) : option side :=
  let owns x := match x with Some n => connection n =? cid | None => false end in
  if owns (client_noise_connection s) then Some ClientSide
  else if owns (server_noise_connection s) then Some ServerSide
  else None.

Definition nc_at (d : side) (s : nsoc_session) : option (nconn HS CS) :=
  match d with
  | ClientSide => client_noise_connection s
  | ServerSide => server_noise_connection s
  end.

Definition set_nc (d : side) (x : nconn HS CS) (s : nsoc_session) : nsoc_session :=
  match d with
  | ClientSide => s <| client_noise_connection := Some x |>
  | ServerSide => s <| server_noise_connection := Some x |>
  end.
End Create.
Arguments nsoc_session : clear implicits.
Arguments freed : clear implicits.

(** The state of a whole session's I/O on connection [sc]. *)
Record sess (HS CS W : Type) := Sess {
  sc : conn;
  ss : nsoc_session HS CS;
  sp : prologue_data;
  sw : W;
}.
Arguments Sess {HS CS W}.
Arguments sc {HS CS W}.
Arguments ss {HS CS W}.
Arguments sp {HS CS W}.
Arguments sw {HS CS W}.
#[export] Instance eta_sess HS CS W : Eta (sess HS CS W) := fun r =>
  Sess (sc r) (ss r) (sp r) (sw r).

(** Run [m] on the Noise connection of [c], or answer [none]. *)
Definition with_nc {HS CS W A : Type} (none : A) (m : M (hs HS CS W) A) : M (sess HS CS W) A :=
  fun st =>
    match find_nc (c_id (sc st)) (ss st) with
    | None => Done (none, st)
    | Some d =>
        match nc_at d (ss st) with
        | None => Undefined
        | Some x =>
            match m (Hs (sc st) x (sp st) (sw st)) with
            | Done (a, s') => Done (a, Sess (c s') (set_nc d (nc s') (ss st)) (prologue s') (world s'))
            | Undefined => Undefined
            | OutOfFuel => OutOfFuel
            end
        end
    end.

(** The inner state of a session's side. *)
Definition view {HS CS W} (x : nconn HS CS) (st : sess HS CS W) : hs HS CS W :=
  Hs (sc st) x (sp st) (sw st).

Definition unview {HS CS W} (d : side) (s : hs HS CS W) (st : sess HS CS W) : sess HS CS W :=
  Sess (c s) (set_nc d (nc s) (ss st)) (prologue s) (world s).

(** [d] is the side whose Noise connection [x] belongs to [c]. *)
Definition at_side {HS CS W} (d : side) (x : nconn HS CS) (st : sess HS CS W) : Prop :=
  find_nc (c_id (sc st)) (ss st) = Some d /\ nc_at d (ss st) = Some x.

Lemma with_nc_done {HS CS W A} (none : A) (m : M (hs HS CS W) A) st d x a s' :
  at_side d x st -> m (view x st) = Done (a, s') ->
  with_nc none m st = Done (a, unview d s' st).
Proof. intros [Hf Hn] Hm. unfold with_nc. rewrite Hf, Hn. unfold view in Hm. by rewrite Hm. Qed.

Lemma with_nc_undefined {HS CS W A} (none : A) (m : M (hs HS CS W) A) st d x :
  at_side d x st -> m (view x st) = Undefined -> with_nc none m st = Undefined.
Proof. intros [Hf Hn] Hm. unfold with_nc. rewrite Hf, Hn. unfold view in Hm. by rewrite Hm. Qed.

Lemma with_nc_wp {HS CS W A} (none : A) (m : M (hs HS CS W) A) st d x (Q : A -> hs HS CS W -> Prop) :
  at_side d x st -> wp m Q (view x st) ->
  exists a s', with_nc none m st = Done (a, unview d s' st) /\ Q a s'.
Proof.
  intros Hat Hwp. apply wp_done in Hwp as (a & s' & Hm & HQ). exists a, s'.
  split; [by eapply with_nc_done|done].
Qed.

(** Afterwards the same side still owns the connection, if the function kept its
    identity. *)
Lemma unview_at_side {HS CS W} d (x : nconn HS CS) (s' : hs HS CS W) st :
  at_side d x st -> connection (nc s') = connection x -> c_id (c s') = c_id (sc st) ->
  at_side d (nc s') (unview d s' st).
Proof.
  destruct st as [x0 [cl sv on] p w]. unfold at_side, find_nc, unview. cbn.
  intros [Hf Hn] Hc Hid. rewrite Hid. destruct d; cbn in *; simplify_eq; cbn; rewrite Hc; split; try done.
Qed.
