(* ===== verification/Net.v ===== *)
(** * A scripted world for concrete runs

    Instances of the interfaces of [NoiseConn] that compute: a socket that
    answers from a script, a pool that never fails, and a stand-in for noise-c
    whose handshake has the three messages of the XX pattern and whose cipher
    appends a counter as its MAC.  The laws hold for them, so the theorems
    proved from the laws apply to these worlds; the witnesses run in them. *)

From stdpp Require Import prelude list numbers.
From S2P Require Import Prelude NoiseConn.

(** ** Sockets *)

Inductive chunk := Data (bs : list Z) | WouldBlock | Closed | Reset.

(** [send_script] limits the next sends; a limit of zero is NGX_AGAIN. *)
Record net := Net { inbox : list chunk; sent_bytes : list Z; send_script : list Z }.

Definition chunk_bytes (k : chunk) : list Z := match k with Data bs => map u8 bs | _ => [] end.

Definition net_recv (n : Z) (e : event) (w : net) : Z * list Z * event * net :=
  match inbox w with
  | Data bs :: q =>
      let bs := map u8 bs in
      let k := Z.min n (zlen bs) in
      if k <=? 0 then (NGX_AGAIN, [], e <| ready := false |>, w)
      else (k, ztake k bs, e,
            Net (if k =? zlen bs then q else Data (zdrop k bs) :: q) (sent_bytes w) (send_script w))
  | WouldBlock :: q =>
      (NGX_AGAIN, [], e <| ready := false |>, Net q (sent_bytes w) (send_script w))
  | Closed :: _ => (0, [], e <| eof := true |>, w)
  | Reset :: _ => (NGX_ERROR, [], e <| error := true |>, w)
  | [] => (NGX_AGAIN, [], e <| ready := false |>, w)
  end.

Definition net_send (bs : list Z) (e : event) (k : Z) (w : net) : Z * event * Z * net :=
  let limit := match send_script w with [] => zlen bs | l :: _ => l end in
  let n := Z.min limit (zlen bs) in
  if n <=? 0 then (NGX_AGAIN, e <| ready := false |>, k,
                   Net (inbox w) (sent_bytes w) (tail (send_script w)))
  else (n, e, k + n, Net (inbox w) (sent_bytes w ++ ztake n bs) (tail (send_script w))).

#[export] Instance net_os : NgxOs net := {|
  os_recv := net_recv;
  os_send := net_send;
  os_handle_read e w := (NGX_OK, e, w);
  os_handle_write e w := (NGX_OK, e, w);
  os_add_timer e _ w := (e <| timer_set := true |>, w);
  os_del_timer e w := (e <| timer_set := false |>, w);
|}.

#[export] Instance net_pool : NgxPool net := {|
  pool_object w := (true, w);
  pool_bytes n w := (Some (replicate (Z.to_nat n) 0), w);
|}.

#[export] Instance net_stream : NgxStream net := {|
  pending w := concat (map chunk_bytes (inbox w));
  wire := sent_bytes;
  peer_open w := Forall (fun k => k <> Closed) (inbox w);
|}.

#[export] Instance net_pool_laws : NgxPoolLaws net.
Proof.
  split. intros n p bs p' Hn [= <- <-]. split.
  - unfold zlen. rewrite length_replicate. lia.
  - apply Forall_replicate. done.
Qed.

Lemma map_u8_idemp l : map u8 (map u8 l) = map u8 l.
Proof. rewrite map_map. apply map_ext. intros x. apply u8_byte, u8_range. Qed.

Lemma map_u8_ok l : bytes_ok (map u8 l).
Proof. apply Forall_map, Forall_true. intros. apply u8_range. Qed.

Lemma map_u8_fix l : bytes_ok l -> map u8 l = l.
Proof.
  induction l as [|x l IH]; [done|]. intros [Hx Hl]%Forall_cons_iff. cbn.
  by rewrite (u8_byte x Hx), IH.
Qed.

Lemma zdrop_ok n l : bytes_ok l -> bytes_ok (zdrop n l).
Proof. apply Forall_drop. Qed.

Lemma ztake_ok n l : bytes_ok l -> bytes_ok (ztake n l).
Proof. apply Forall_take. Qed.

#[export] Instance net_laws : NgxOsLaws net.
Proof.
  split; try (intros; cbn in *; simplify_eq; done).
  - intros n e w r bs e' w' Hr. unfold os_recv, net_os, net_recv in Hr.
    destruct (inbox w) as [|[l| | |] q]; [simplify_eq; auto| |simplify_eq; auto..].
    pose proof (zlen_nonneg (map u8 l)).
    destruct (Z.leb_spec (Z.min n (zlen (map u8 l))) 0); simplify_eq; [auto|]. left.
    split_and!; try lia; [|apply ztake_ok, map_u8_ok]. rewrite zlen_ztake; lia.
  - intros n e w r bs e' w' Hr. unfold os_recv, net_os, net_recv in Hr.
    unfold pending, wire, peer_open, net_stream.
    destruct (inbox w) as [|[l| | |] q] eqn:Hi.
    + simplify_eq. by rewrite Hi.
    + destruct (Z.leb_spec (Z.min n (zlen (map u8 l))) 0); simplify_eq; [by rewrite Hi|].
      destruct (Z.eqb_spec (Z.min n (zlen (map u8 l))) (zlen (map u8 l))) as [He|Hne]; cbn.
      * rewrite He, ztake_all by lia. split_and!; try done.
        intros [_ Hq]%Forall_cons_iff. split; [done|lia].
      * rewrite (map_u8_fix (zdrop _ _)) by (apply zdrop_ok, map_u8_ok).
        rewrite app_assoc, ztake_zdrop. split_and!; try done.
        intros [_ Hq]%Forall_cons_iff. split; [by constructor|lia].
    + simplify_eq. cbn. split_and!; try done. by intros [_ Hq]%Forall_cons_iff.
    + simplify_eq. rewrite Hi. split_and!; try done. by intros [Hq _]%Forall_cons_iff.
    + simplify_eq. rewrite Hi. split_and!; done.
  - intros n e w r bs e' w' Hn Hr. unfold os_recv, net_os, net_recv in Hr.
    destruct (inbox w) as [|[l| | |] q]; [by simplify_eq| |by simplify_eq..].
    destruct (Z.leb_spec (Z.min n (zlen (map u8 l))) 0); [by simplify_eq|].
    simplify_eq. unfold NGX_AGAIN. split; intros; lia.
  - intros bs e k w r e' k' w' Hr. unfold os_send, net_os, net_send in Hr.
    destruct (Z.leb_spec (Z.min (match send_script w with [] => zlen bs | l :: _ => l end) (zlen bs)) 0);
      simplify_eq; [auto|lia].
  - intros bs e k w r e' k' w' Hr. unfold os_send, net_os, net_send in Hr.
    destruct (Z.leb_spec (Z.min (match send_script w with [] => zlen bs | l :: _ => l end) (zlen bs)) 0);
      simplify_eq; cbn; [|done]. by rewrite app_nil_r.
Qed.

(** A read that asks for exactly the next piece. *)
Lemma os_recv_piece n e w bs q :
  inbox w = Data bs :: q -> bytes_ok bs -> zlen bs = n -> 0 < n ->
  os_recv n e w = (n, bs, e, Net q (sent_bytes w) (send_script w)).
Proof.
  intros Hi Hok Hl Hn. cbn. unfold net_recv. rewrite Hi, map_u8_fix by done. cbn zeta.
  rewrite Hl, Z.min_id, (proj2 (Z.leb_gt n 0)) by lia. by rewrite Z.eqb_refl, ztake_all by lia.
Qed.

(** ** A stand-in for noise-c *)

Record toy_hs := ToyHs { toy_initiator : bool; toy_step : nat; toy_prologue : list Z }.

(** Whose turn it is: the initiator writes the first and the third message. *)
Definition toy_action (h : toy_hs) : Z :=
  match toy_step h with
  | 0%nat | 2%nat => if toy_initiator h then 1 else 2
  | 1%nat => if toy_initiator h then 2 else 1
  | 3%nat => 3
  | _ => 4
  end.

Definition toy_len (n : nat) : Z := match n with O => 32 | S O => 96 | _ => 64 end.
Definition toy_message (h : toy_hs) : list Z :=
  replicate (Z.to_nat (toy_len (toy_step h))) (u8 (Z.of_nat (toy_step h))).
Definition toy_next (h : toy_hs) : toy_hs := ToyHs (toy_initiator h) (S (toy_step h)) (toy_prologue h).

Definition toy_mac (k : Z) : list Z := replicate 16 (u8 k).

#[export] Instance toy_lib : NoiseLib toy_hs Z := {|
  noise_init := 0;
  NOISE_ROLE_INITIATOR := 1;
  NOISE_ROLE_RESPONDER := 2;
  NOISE_ACTION_WRITE_MESSAGE := 1;
  NOISE_ACTION_READ_MESSAGE := 2;
  NOISE_ACTION_SPLIT := 3;
  NOISE_PREFIX_STANDARD := 0;
  hs_new_by_id _ _ _ _ _ _ r := (0, Some (ToyHs (r =? 1) 0 []));
  hs_set_prologue h p := (0, ToyHs (toy_initiator h) (toy_step h) p);
  hs_needs_local_keypair _ := true;
  hs_set_local_private h _ := (0, h);
  hs_local_private_len _ := 32;
  hs_needs_remote_public _ := false;
  hs_set_remote_public h _ := (0, h);
  hs_remote_public_len _ := 32;
  hs_start h := (0, h);
  hs_action := toy_action;
  hs_write_message h cap :=
    let m := toy_message h in
    if zlen m <=? cap then (0, m, toy_next h) else (NOISE_ID 69 1, [], h);
  hs_read_message h m :=
    if decide (m = toy_message h) then (0, toy_next h) else (NOISE_ID 69 2, h);
  hs_split h := (0, Some (0, 0), h);
  hs_free _ := 0;
  cs_encrypt k m cap :=
    if zlen m + 16 <=? cap then (0, m ++ toy_mac k, k + 1) else (NOISE_ID 69 3, [], k);
  cs_decrypt k m :=
    if (16 <=? zlen m) && bool_decide (zdrop (zlen m - 16) m = toy_mac k)
    then (0, ztake (zlen m - 16) m, k + 1) else (NOISE_ID 69 4, [], k);
|}.

Lemma toy_mac_ok k : bytes_ok (toy_mac k).
Proof. apply Forall_replicate, u8_range. Qed.

#[export] Instance toy_laws : NoiseLaws toy_hs Z.
Proof.
  split; try done.
  - intros h cap m h' Hr. cbn in Hr.
    destruct (Z.leb_spec (zlen (toy_message h)) cap); simplify_eq. split; [done|].
    apply Forall_replicate, u8_range.
  - intros h cs h' Hr. cbn in Hr. simplify_eq. eauto.
  - intros k m cap x k' Hok Hr. cbn in Hr. destruct (Z.leb_spec (zlen m + 16) cap); simplify_eq.
    rewrite zlen_app. change (zlen (toy_mac k)) with 16. split_and!; try done.
    apply Forall_app_2; [done|apply toy_mac_ok].
  - intros k x m k' Hok Hr. cbn in Hr. destruct (Z.leb_spec 16 (zlen x)); cbn in Hr; [|done].
    case_bool_decide; simplify_eq. rewrite zlen_ztake by lia.
    split; [unfold NOISE_PROTOCOL_MAC_DATA_SIZE; lia|by apply ztake_ok].
Qed.

(** ** Fresh states *)

Definition idle_event : event := Event false false false false false OtherHandler.

Definition demo_conn : conn := Conn 1 idle_event idle_event 0 false OsIo.

Definition demo_prologue : prologue_data :=
  PrologueData [78; 111; 105; 115; 101; 83; 111; 99; 107; 101; 116; 73; 110; 105; 116; 49]
    (swapw NGX_NSOC_1MSG_NEG_DATA_SIZE) (FirstHdr NGX_NSOC_VERSION_ID 1 2 3 9).

Definition demo_noise : noise_t :=
  NoiseT (Some (NoiseCtx (Some (KeyArray (replicate 32 7) [])) None)) demo_prologue
    NOISE_PROTOCOL_PAYLOAD_SIZE 60000.

Definition demo_state (r : role) (script : list chunk) (sends : list Z) : hs toy_hs Z net :=
  Hs demo_conn (new_nconn demo_noise 1 NGX_NSOC_BUFFER r) demo_prologue (Net script [] sends).
