(* ===== verification/HsRead.v ===== *)
(** * Reading the two parts of a handshake message: ngx_nsoc_handler.c

    A handshake message is negotiation data and a Noise message, each with a
    two-byte big-endian length before it.  [read_negotiation_data_len] and
    [read_noise_msg_len] read a length and may stop after its first byte;
    [read_negotiation] and [read_noise_msg] read a length and then the data.
    A [for (;;)] that the code can leave only through the socket's answers takes
    [fuel]; the theorems say how much is enough, or that none is. *)

From stdpp Require Import prelude list numbers.
From S2P Require Import Prelude NoiseConn Net.

Section HsRead.
Context {HS CS W : Type} {NL : NoiseLib HS CS} {OS : NgxOs W} {PO : NgxPool W}.
Abbreviation ST := (M (hs HS CS W)).

(** ** Definitions *)

Definition ngx_nsoc_read_handshake_data (buffer_size : Z) : ST Z :=
  n0 ← gets nc;
  b ← (match buf n0 with
       | Some b => mret (Some b)
       | None => create_temp_buf buffer_size
       end);
  match b with
  | None => mret NGX_ERROR
  | Some b =>
      on_nc (fun n => n <| buf := Some b |>);;
      let size := zlen (b_mem b) - b_last b in
      if size =? 0 then mret NGX_ERROR else
      e ← gets (fun s => eof (read (c s)));
      if (e : bool) then mret NGX_OK else
      on_read (fun r => r <| available := true |>);;
      '(n, bs) ← ngx_recv size;
      if 0 <=? n then
        mem ← mderef (store (b_last b) bs (b_mem b));
        on_nc (fun x => x <| buf := Some (NBuf mem (b_pos b) (b_last b + n)) |>);;
        del_read_timer;;
        mret n
      else mret n
  end.

(** The loop of both length readers.  [ptr] is the offset of [ptr_size] in the
    two-byte array [arr] and [len] the bytes it still waits for.  The result is
    the array when the length is complete, or the final [n] with [len] and the
    array when the loop is left through the [else]. *)
Fixpoint read_size_loop (fuel : nat) (ptr len : Z) (arr : list Z)
    : ST (list Z + Z * Z * list Z) :=
  match fuel with
  | O => out_of_fuel
  | S fuel =>
      on_read (fun r => r <| available := true |>);;
      '(n, bs) ← ngx_recv len;
      if 0 <? n then
        arr ← mderef (store ptr bs arr);
        let len := u8 (len - n) in
        if len =? 0 then mret (inl arr) else read_size_loop fuel (ptr + n) len arr
      else mret (inr (n, len, arr))
  end.

(** A byte of the local array. *)
Definition byte_at (i : nat) (arr : list Z) : ST Z := mderef (arr !! i).

Definition ngx_nsoc_read_negotiation_data_len : ST Z :=
  n0 ← gets nc;
  r ← (if negb (neg_data_size_reading n0)
       then
         on_nc (fun n => n <| neg_data_recv_size := NGX_NSOC_SIZE_UNSET |>);;
         read_size_loop 3 0 2 [0; 0]
       else read_size_loop 3 1 1 [u8 (neg_data_recv_size n0); 0]);
  match r with
  | inr (n, len, arr) =>
      if (len =? 1) && (n =? NGX_AGAIN) then
        a ← byte_at 0 arr;
        on_nc (fun x => x <| neg_data_recv_size := a |> <| neg_data_size_reading := true |>);;
        mret NGX_AGAIN
      else
        (if negb (n =? NGX_AGAIN) then on_nc (fun x => x <| last := n |>) else mret tt);;
        on_nc (fun x => x <| neg_data_size_reading := false |>);;
        mret n
  | inl arr =>
      a ← byte_at 0 arr;
      b ← byte_at 1 arr;
      on_nc (fun x => x <| neg_data_size_reading := false |>
                        <| neg_data_recv_size := dec16 a b |>);;
      mret NGX_OK
  end.

Definition ngx_nsoc_read_noise_msg_len : ST Z :=
  n0 ← gets nc;
  r ← (if negb (noise_msg_size_reading n0)
       then
         on_nc (fun n => n <| noise_msg_recv_size := NGX_NSOC_SIZE_UNSET |>);;
         read_size_loop 3 0 2 [0; 0]
       else read_size_loop 3 1 1 [u8 (noise_msg_recv_size n0); 0]);
  match r with
  | inr (n, len, arr) =>
      if (len =? 1) && (n =? NGX_AGAIN) then
        a ← byte_at 0 arr;
        on_nc (fun x => x <| noise_msg_recv_size := a |> <| noise_msg_size_reading := true |>);;
        mret NGX_AGAIN
      else
        (if negb (n =? NGX_AGAIN) then on_nc (fun x => x <| last := n |>) else mret tt);;
        on_nc (fun x => x <| noise_msg_size_reading := false |>);;
        mret n
  | inl arr =>
      a ← byte_at 0 arr;
      b ← byte_at 1 arr;
      on_nc (fun x => x <| noise_msg_size_reading := false |>
                        <| noise_msg_recv_size := dec16 a b |>);;
      mret NGX_OK
  end.

(** [c->read->handler = c->write->handler = ngx_nsoc_handshake_handler]. *)
Definition set_handshake_handlers : ST unit :=
  on_read (fun r => r <| handler := HandshakeHandler |>);;
  on_write (fun r => r <| handler := HandshakeHandler |>).

(** The branch both readers take on NGX_AGAIN. *)
Definition read_again : ST Z :=
  on_nc (fun x => x <| last := NOISE_ACTION_READ_MESSAGE |>);;
  r ← handle_read_event;
  if negb (r =? NGX_OK) then mret NGX_ERROR else
  add_read_timer;;
  mret NGX_AGAIN.

(** What follows the loop of both readers: [n] must be the whole data. *)
Definition read_complete (n size : Z) : ST Z :=
  if n <? size then
    on_nc (fun x => x <| last := NOISE_ACTION_READ_MESSAGE |>);;
    r ← handle_read_event;
    if negb (r =? NGX_OK) then mret NGX_ERROR else mret NGX_AGAIN
  else mret n.

Fixpoint ngx_nsoc_read_negotiation (fuel : nat) (true_len : Z) : ST Z :=
  match fuel with
  | O => out_of_fuel
  | S fuel =>
      let after (n : Z) : ST Z :=
        if n =? NGX_AGAIN then read_again else
        size ← gets (fun s => neg_data_recv_size (nc s));
        if negb (n =? NGX_ERROR)
        then if size =? true_len then ngx_nsoc_read_negotiation fuel true_len else mret NGX_ERROR
        else mret n in
      n0 ← gets nc;
      if (neg_data_recv_size n0 =? NGX_NSOC_SIZE_UNSET) || neg_data_size_reading n0 then
        set_handshake_handlers;;
        n ← ngx_nsoc_read_negotiation_data_len;
        after n
      else
        n ← (if negb (neg_data_recv_size n0 =? 0)
             then ngx_nsoc_read_handshake_data (neg_data_recv_size n0) else mret 0);
        if 0 <=? n then read_complete n (neg_data_recv_size n0) else after n
  end.

Fixpoint ngx_nsoc_read_noise_msg (fuel : nat) : ST Z :=
  match fuel with
  | O => out_of_fuel
  | S fuel =>
      let after (n : Z) : ST Z :=
        if n =? NGX_AGAIN then read_again
        else if negb (n =? NGX_ERROR) then ngx_nsoc_read_noise_msg fuel
        else mret n in
      n0 ← gets nc;
      if (noise_msg_recv_size n0 =? NGX_NSOC_SIZE_UNSET) || noise_msg_size_reading n0 then
        set_handshake_handlers;;
        n ← ngx_nsoc_read_noise_msg_len;
        after n
      else
        n ← (if negb (noise_msg_recv_size n0 =? 0)
             then ngx_nsoc_read_handshake_data (noise_msg_recv_size n0) else mret 0);
        if 0 <=? n then read_complete n (noise_msg_recv_size n0) else after n
  end.
End HsRead.

(** ** The length readers

    Both are the same algorithm on different fields.  [LenField] is a pair of
    such fields with the laws of independent fields; [read_len] is the algorithm. *)

Class LenField (HS CS : Type) := {
  lf_size : nconn HS CS -> Z;
  lf_reading : nconn HS CS -> bool;
  lf_set_size : Z -> nconn HS CS -> nconn HS CS;
  lf_set_reading : bool -> nconn HS CS -> nconn HS CS;
  lf_size_size z n : lf_size (lf_set_size z n) = z;
  lf_size_reading b n : lf_size (lf_set_reading b n) = lf_size n;
  lf_reading_size z n : lf_reading (lf_set_size z n) = lf_reading n;
  lf_reading_reading b n : lf_reading (lf_set_reading b n) = b;
  lf_set_set z z' n : lf_set_size z (lf_set_size z' n) = lf_set_size z n;
  lf_set_set_reading b b' n : lf_set_reading b (lf_set_reading b' n) = lf_set_reading b n;
  lf_comm z b n : lf_set_size z (lf_set_reading b n) = lf_set_reading b (lf_set_size z n);
  lf_size_last z n : lf_size (n <| last := z |>) = lf_size n;
  lf_reading_last z n : lf_reading (n <| last := z |>) = lf_reading n;
  lf_eta n : lf_set_size (lf_size n) n = n;
}.

#[export] Program Instance neg_field HS CS : LenField HS CS := {|
  lf_size := neg_data_recv_size;
  lf_reading := neg_data_size_reading;
  lf_set_size z n := n <| neg_data_recv_size := z |>;
  lf_set_reading b n := n <| neg_data_size_reading := b |>;
|}.
Solve All Obligations with (by intros; destruct n).

#[export] Program Instance msg_field HS CS : LenField HS CS := {|
  lf_size := noise_msg_recv_size;
  lf_reading := noise_msg_size_reading;
  lf_set_size z n := n <| noise_msg_recv_size := z |>;
  lf_set_reading b n := n <| noise_msg_size_reading := b |>;
|}.
Solve All Obligations with (by intros; destruct n).

Section Len.
Context {HS CS W : Type} {OS : NgxOs W} {PO : NgxPool W} {SM : NgxStream W} {OL : NgxOsLaws W}.
Context (LF : LenField HS CS).
Implicit Types s : hs HS CS W.

Definition read_len : M (hs HS CS W) Z :=
  n0 ← gets nc;
  r ← (if negb (lf_reading n0)
       then on_nc (lf_set_size NGX_NSOC_SIZE_UNSET);; read_size_loop 3 0 2 [0; 0]
       else read_size_loop 3 1 1 [u8 (lf_size n0); 0]);
  match r with
  | inr (n, len, arr) =>
      if (len =? 1) && (n =? NGX_AGAIN) then
        a ← byte_at 0 arr;
        on_nc (fun x => lf_set_reading true (lf_set_size a x));;
        mret NGX_AGAIN
      else
        (if negb (n =? NGX_AGAIN) then on_nc (fun x => x <| last := n |>) else mret tt);;
        on_nc (lf_set_reading false);;
        mret n
  | inl arr =>
      a ← byte_at 0 arr;
      b ← byte_at 1 arr;
      on_nc (fun x => lf_set_size (dec16 a b) (lf_set_reading false x));;
      mret NGX_OK
  end.

(** The stream as the reader sees it: a byte it read before NGX_AGAIN is still
    the next one. *)
Definition unread s : list Z :=
  (if lf_reading (nc s) then [lf_size (nc s)] else []) ++ stream s.

Definition partial_ok s : Prop := lf_reading (nc s) = true -> is_byte (lf_size (nc s)).

Inductive len_result s : Z -> hs HS CS W -> Prop :=
| len_complete a b s' :
    is_byte a -> is_byte b -> unread s = a :: b :: stream s' ->
    nc s' = lf_set_reading false (lf_set_size (dec16 a b) (nc s)) ->
    len_result s NGX_OK s'
| len_again z rd s' :
    unread s' = unread s -> partial_ok s' -> (rd = false -> z = NGX_NSOC_SIZE_UNSET) ->
    nc s' = lf_set_reading rd (lf_set_size z (nc s)) ->
    len_result s NGX_AGAIN s'
| len_closed z n s' :
    n = 0 /\ ~ opened s \/ n = NGX_ERROR ->
    z = (if lf_reading (nc s) then lf_size (nc s) else NGX_NSOC_SIZE_UNSET) ->
    nc s' = lf_set_reading false ((lf_set_size z (nc s)) <| last := n |>) ->
    len_result s n s'.

Lemma size_loop_one fuel a z s (Q : list Z + Z * Z * list Z -> hs HS CS W -> Prop) :
  (forall b s', quiet s s' -> is_byte b -> stream s = b :: stream s' -> outbox s' = outbox s ->
     Q (inl [a; b]) s') ->
  (forall n s', silent s s' -> read_failed s n -> Q (inr (n, 1, [a; z])) s') ->
  wp (read_size_loop (S fuel) 1 1 [a; z]) Q s.
Proof.
  intros HQ1 HQ2. cbn [read_size_loop]. wp_step. apply wp_on_read. intros s1 (Hq1 & Hs1 & Ho1).
  wp_step. apply wp_recv. intros r bs s2 Hq2 Hs2 Ho2 Hres.
  assert (Hq : quiet s s2) by by etransitivity.
  destruct Hres as [(Hr & Hl & Hok)|(-> & Hr)].
  - rewrite (proj2 (Z.ltb_lt 0 r)) by lia. destruct bs as [|b [|]]; try zlen_lia.
    rewrite zlen_cons, zlen_nil in Hl. apply Forall_cons_iff in Hok as [Hb _].
    wp_step. eapply wp_mderef; [reflexivity|]. replace r with 1 by lia.
    change (u8 (1 - 1) =? 0) with true. cbv iota. wp_step.
    cbn [app] in Hs2. apply HQ1; try done; congruence.
  - rewrite (proj2 (Z.ltb_ge 0 r)) by (by eapply read_failed_nonpos). wp_step.
    apply HQ2; [|exact (read_failed_before _ _ _ Hq1 Hr)]. split; [done|]. cbn in Hs2. split; congruence.
Qed.

Lemma size_loop_two fuel s (Q : list Z + Z * Z * list Z -> hs HS CS W -> Prop) :
  (forall a b s', quiet s s' -> is_byte a -> is_byte b -> stream s = a :: b :: stream s' ->
     outbox s' = outbox s -> Q (inl [a; b]) s') ->
  (forall n s', silent s s' -> read_failed s n -> Q (inr (n, 2, [0; 0])) s') ->
  (forall a n s', quiet s s' -> is_byte a -> stream s = a :: stream s' -> outbox s' = outbox s ->
     read_failed s n -> Q (inr (n, 1, [a; 0])) s') ->
  wp (read_size_loop (S (S fuel)) 0 2 [0; 0]) Q s.
Proof.
  intros HQ1 HQ2 HQ3. cbn [read_size_loop]. wp_step. apply wp_on_read. intros s1 (Hq1 & Hs1 & Ho1).
  wp_step. apply wp_recv. intros r bs s2 Hq2 Hs2 Ho2 Hres.
  assert (Hq : quiet s s2) by by etransitivity.
  destruct Hres as [(Hr & Hl & Hok)|(-> & Hr)].
  - rewrite (proj2 (Z.ltb_lt 0 r)) by lia.
    destruct bs as [|a [|b [|]]]; try zlen_lia; autorewrite with zlen in Hl;
      unfold bytes_ok in Hok; rewrite !Forall_cons_iff in Hok; wp_step; (eapply wp_mderef; [reflexivity|]).
    + replace r with 1 by lia. change (u8 (2 - 1) =? 0) with false. cbv iota.
      change (0 + 1) with 1. change (u8 (2 - 1)) with 1.
      apply (size_loop_one fuel a 0 s2).
      * intros b s' Hq' Hb Hs' Ho'. apply HQ1; try done; [by etransitivity|apply Hok| |congruence].
        by rewrite <- Hs1, Hs2, Hs'.
      * intros n s' (Hq' & Hs' & Ho') Hn. apply HQ3; try done; [by etransitivity|apply Hok| |congruence|exact (read_failed_before _ _ _ Hq Hn)].
        rewrite <- Hs1, Hs2, Hs'. done.
    + replace r with 2 by lia. change (u8 (2 - 2) =? 0) with true. cbv iota. wp_step.
      cbn [app] in Hs2. apply HQ1; try done; [apply Hok|apply Hok|congruence|congruence].
  - rewrite (proj2 (Z.ltb_ge 0 r)) by (by eapply read_failed_nonpos). wp_step.
    apply HQ2; [|exact (read_failed_before _ _ _ Hq1 Hr)]. split; [done|]. cbn in Hs2. split; congruence.
Qed.

Ltac lf_simpl :=
  repeat first [rewrite lf_size_size | rewrite lf_size_reading | rewrite lf_reading_size
    | rewrite lf_reading_reading | rewrite lf_set_set | rewrite lf_set_set_reading
    | rewrite lf_comm | rewrite lf_size_last | rewrite lf_reading_last].

Ltac len_step :=
  lazymatch goal with
  | |- wp (byte_at _ _) _ _ => eapply wp_mderef; [reflexivity|]
  | _ => hs_step
  end.

Lemma read_len_correct s :
  partial_ok s -> wp read_len (fun r s' => len_result s r s' /\ outbox s' = outbox s /\
    prologue s' = prologue s /\ c_id (c s') = c_id (c s) /\ io (c s') = io (c s) /\
    (opened s -> opened s')) s.
Proof.
  intros Hpart. unfold read_len. repeat len_step.
  destruct (lf_reading (nc s)) eqn:Hrd; cbn [negb].
  - apply size_loop_one.
    + intros b s' (Hn & Hp & Hid & Hio & Hop) Hb Hs Ho. repeat len_step.
      split; [|done]. rewrite (u8_byte (lf_size (nc s))) by by apply Hpart.
      apply len_complete with (a := lf_size (nc s)) (b := b); [by apply Hpart|done| |].
      * unfold unread. rewrite Hrd, Hs. done.
      * cbn. rewrite Hn. by lf_simpl.
    + intros n s' ((Hn & Hp & Hid & Hio & Hop) & Hs & Ho) Hres.
      change (1 =? 1) with true. cbn [andb]. destruct (Z.eqb_spec n NGX_AGAIN) as [->|Hne].
      * repeat len_step. split; [|done].
        rewrite (u8_byte (lf_size (nc s))) by by apply Hpart.
        apply len_again with (z := lf_size (nc s)) (rd := true); try done.
        -- unfold unread. cbn. rewrite Hn. lf_simpl. rewrite Hrd. unfold stream in *. cbn. by rewrite Hs.
        -- intros _. cbn. rewrite Hn. lf_simpl. by apply Hpart.
        -- cbn. by rewrite Hn.
      * cbn [negb]. repeat len_step. split; [|done].
        apply len_closed with (z := lf_size (nc s)); [change (read_failed s n) in Hres; unfold read_failed in Hres; tauto|by rewrite Hrd|].
        cbn. by rewrite Hn, lf_eta.
  - repeat len_step. apply size_loop_two; cbn.
    + intros a b s' (Hn & Hp & Hid & Hio & Hop) Ha Hb Hs Ho. cbn in *. repeat len_step. split; [|done].
      apply len_complete with (a := a) (b := b); try done.
      * unfold unread. by rewrite Hrd.
      * cbn. rewrite Hn. by lf_simpl.
    + intros n s' ((Hn & Hp & Hid & Hio & Hop) & Hs & Ho) Hres. cbn in *.
      change (2 =? 1) with false. cbn [andb]. destruct (Z.eqb_spec n NGX_AGAIN) as [->|Hne]; cbn [negb].
      * repeat len_step. split; [|done].
        apply len_again with (z := NGX_NSOC_SIZE_UNSET) (rd := false); try done.
        -- unfold unread. cbn. rewrite Hn. lf_simpl. rewrite Hrd. unfold stream in *. cbn in *. by rewrite Hs.
        -- intros Hr. cbn in Hr. rewrite Hn, lf_reading_reading in Hr. done.
        -- cbn. by rewrite Hn.
      * repeat len_step. split; [|done].
        apply len_closed with (z := NGX_NSOC_SIZE_UNSET); [change (read_failed s n) in Hres; unfold read_failed in Hres; tauto|by rewrite Hrd|]. cbn. by rewrite Hn.
    + intros a n s' (Hn & Hp & Hid & Hio & Hop) Ha Hs Ho Hres. cbn in *.
      change (1 =? 1) with true. cbn [andb]. destruct (Z.eqb_spec n NGX_AGAIN) as [->|Hne]; cbn [negb].
      * repeat len_step. split; [|done].
        apply len_again with (z := a) (rd := true); try done.
        -- unfold unread. cbn. rewrite Hn. lf_simpl. rewrite Hrd. unfold stream in *. cbn in *. by rewrite Hs.
        -- intros _. cbn. rewrite Hn. by lf_simpl.
        -- cbn. rewrite Hn. by lf_simpl.
      * repeat len_step. split; [|done].
        apply len_closed with (z := NGX_NSOC_SIZE_UNSET); [change (read_failed s n) in Hres; unfold read_failed in Hres; tauto|by rewrite Hrd|]. cbn. by rewrite Hn.
Qed.
End Len.

(** ** Reading the data *)

Section Data.
Context {HS CS W : Type} {NL : NoiseLib HS CS} {OS : NgxOs W} {PO : NgxPool W} {SM : NgxStream W}
  {OL : NgxOsLaws W} {PL : NgxPoolLaws W}.
Implicit Types s : hs HS CS W.

(** The buffer the reader works on: the one it has, or a new one. *)
Definition work_buf s (size : Z) (b : nbuf) : Prop :=
  match buf (nc s) with
  | Some b0 => b = b0
  | None => zlen (b_mem b) = size /\ b_pos b = 0 /\ b_last b = 0
  end.

Inductive data_result s (size : Z) : Z -> hs HS CS W -> Prop :=
| data_bytes b mem bs s' :
    work_buf s size b -> b_last b < zlen (b_mem b) -> bytes_ok bs ->
    (bs = [] -> ~ opened s \/ eof (read (c s)) = true) ->
    store (b_last b) bs (b_mem b) = Some mem -> stream s = bs ++ stream s' ->
    nc s' = (nc s) <| buf := Some (NBuf mem (b_pos b) (b_last b + zlen bs)) |> ->
    data_result s size (zlen bs) s'
| data_fail r o s' :
    r = NGX_AGAIN \/ r = NGX_ERROR -> stream s' = stream s ->
    (forall b, o = Some b -> work_buf s size b) -> nc s' = (nc s) <| buf := o |> ->
    data_result s size r s'.

Definition buf_ok s : Prop :=
  forall b, buf (nc s) = Some b -> 0 <= b_last b <= zlen (b_mem b).

Lemma set_buf_same (n : nconn HS CS) : n <| buf := buf n |> = n.
Proof. by destruct n. Qed.

Lemma store_nil off mem : 0 <= off <= zlen mem -> store off [] mem = Some mem.
Proof.
  intros Hr. apply store_Some. change (zlen (@nil Z)) with 0. rewrite (Z.add_0_r off).
  split_and!; [lia|lia|]. cbn [app]. by rewrite ztake_zdrop.
Qed.

(** The reader once it has its buffer [b]. *)
Lemma read_data_with s s1 size b (Q : Z -> hs HS CS W -> Prop) :
  0 <= b_last b <= zlen (b_mem b) -> work_buf s size b ->
  silent s s1 -> read (c s1) = read (c s) ->
  (forall r s', data_result s size r s' -> outbox s' = outbox s -> quiet (s <| nc := nc s' |>) s' ->
     Q r s') ->
  wp (on_nc (fun n => n <| buf := Some b |>);;
      let size := zlen (b_mem b) - b_last b in
      if size =? 0 then mret NGX_ERROR else
      e ← gets (fun s => eof (read (c s)));
      if (e : bool) then mret NGX_OK else
      on_read (fun r => r <| available := true |>);;
      '(n, bs) ← ngx_recv size;
      if 0 <=? n then
        mem ← mderef (store (b_last b) bs (b_mem b));
        on_nc (fun x => x <| buf := Some (NBuf mem (b_pos b) (b_last b + n)) |>);;
        del_read_timer;;
        mret n
      else mret n) Q s1.
Proof.
  intros Hb Hw ((Hn1 & Hp1 & Hid1 & Hio1 & Hop1) & Hs1 & Ho1) Hrd HQ. repeat hs_step. cbn zeta.
  destruct (Z.eqb_spec (zlen (b_mem b) - b_last b) 0) as [Hz|Hnz].
  { hs_step. apply HQ; [|done|by repeat split]. apply (data_fail s size _ (Some b)).
    - by right.
    - done.
    - by intros ? [= <-].
    - cbn. by rewrite Hn1. }
  repeat hs_step. destruct (eof _) eqn:He.
  { hs_step. apply HQ; [|done|by repeat split].
    apply (data_bytes s size b (b_mem b) []); try done; try lia.
    - constructor.
    - right. cbn in He. by rewrite <- Hrd.
    - by apply store_nil.
    - cbn. rewrite zlen_nil, Z.add_0_r, Hn1. by destruct b. }
  hs_step. apply wp_on_read. intros s2 ((Hn2 & Hp2 & Hid2 & Hio2 & Hop2) & Hs2 & Ho2). hs_step. apply wp_recv.
  intros r bs s3 (Hn3 & Hp3 & Hid3 & Hio3 & Hop3) Hs3 Ho3 Hres. cbn in Hn2, Hp2, Hid2, Hio2.
  change (stream s2 = stream s1) in Hs2. change (outbox s2 = outbox s1) in Ho2.
  destruct (Z.leb_spec 0 r) as [Hr|Hr].
  - assert (Hl : zlen bs = r /\ bytes_ok bs /\ zlen bs <= zlen (b_mem b) - b_last b /\
                 (bs = [] -> ~ opened s)).
    { destruct Hres as [(? & ? & ?)|[-> [[-> Hcl]|[->| ->]]]]; try done.
      - split_and!; try done; try lia. intros ->. rewrite zlen_nil in *. lia.
      - rewrite zlen_nil. split; [done|]. split; [constructor|]. split; [lia|].
        intros _ Ho. apply Hcl, Hop2, Hop1, Ho. }
    destruct Hl as (Hl & Hok & Hfit & Hnil).
    destruct (store_in_range (b_last b) bs (b_mem b)) as [mem Hmem]; [lia|lia|].
    hs_step. eapply wp_mderef; [exact Hmem|]. repeat hs_step. apply wp_del_read_timer.
    intros s4 ((Hn4 & Hp4 & Hid4 & Hio4 & Hop4) & Hs4 & Ho4). hs_step. cbn in *. subst r.
    apply HQ.
    + apply (data_bytes s size b mem bs); try done; try lia; [by intros; left; auto|..].
      * unfold stream in *. cbn in *. congruence.
      * by rewrite Hn4, Hn3, Hn2, Hn1.
    + unfold outbox in *. cbn in *. congruence.
    + split_and!; cbn; [congruence..|]; unfold opened in *; cbn in *; auto.
  - hs_step. apply HQ.
    + destruct Hres as [?|[-> Hr']]; [lia|]. apply (data_fail s size r (Some b)).
      * by destruct Hr' as [[-> _]|Hr']; [lia|].
      * cbn in Hs3. congruence.
      * by intros ? [= <-].
      * by rewrite Hn3, Hn2, Hn1.
    + congruence.
    + split_and!; cbn; [congruence..|]; unfold opened in *; cbn in *; auto.
Qed.

Lemma create_temp_buf_read n s o s' :
  create_temp_buf n s = Done (o, s') -> read (c s') = read (c s).
Proof.
  unfold create_temp_buf, mbind, M_bind, alloc_object, palloc.
  destruct (pool_object _) as [[|] w]; [|by intros [= <- <-]].
  destruct (pool_bytes _ _) as [o' w']. by intros [= <- <-].
Qed.

Lemma read_handshake_data_correct size s :
  0 <= size -> buf_ok s ->
  wp (ngx_nsoc_read_handshake_data size) (fun r s' => data_result s size r s' /\
    outbox s' = outbox s /\ quiet (s <| nc := nc s' |>) s') s.
Proof.
  intros Hsz Hbuf. unfold ngx_nsoc_read_handshake_data. repeat hs_step.
  destruct (buf (nc s)) as [b|] eqn:Hb.
  - hs_step. apply (read_data_with s s size b); try done; [by apply Hbuf|].
    unfold work_buf. by rewrite Hb.
  - assert (Hwp : wp (create_temp_buf size) (fun o s1 => silent s s1 /\
      (forall b, o = Some b -> zlen (b_mem b) = size /\ b_pos b = 0 /\ b_last b = 0)) s).
    { apply wp_create_temp_buf; [done|]. intros o s1 H1 Ho. done. }
    apply wp_done in Hwp as (o & s1 & Hrun & Hsil & Ho).
    eapply done_wp; [exact Hrun|]. destruct o as [b|].
    + destruct (Ho b eq_refl) as (Hl & Hp & Hla).
      apply (read_data_with s s1 size b); try done; [lia| |by eapply create_temp_buf_read].
      unfold work_buf. by rewrite Hb.
    + hs_step. destruct Hsil as ((Hn & Hp & Hid & Hio & Hop) & Hs & Hob). split; [|split; [done|]].
      * apply (data_fail s size _ None); [by right|done|done|]. rewrite Hn, <- Hb. by rewrite set_buf_same.
      * split_and!; cbn; [congruence..|]; unfold opened in *; cbn in *; auto.
Qed.

(** ** Reading a whole part *)

Definition failed (r : Z) : Prop := r = NGX_AGAIN \/ r = NGX_ERROR.

Lemma failed_neg r : failed r -> r < 0.
Proof. unfold failed, NGX_AGAIN, NGX_ERROR. lia. Qed.

Lemma wp_read_again s (Q : Z -> hs HS CS W -> Prop) :
  (forall r s', failed r -> stream s' = stream s -> Q r s') -> wp read_again Q s.
Proof.
  intros HQ. unfold read_again. repeat hs_step. apply wp_handle_read. intros r s1 (_ & H1 & _).
  destruct (negb _).
  - hs_step. apply HQ; [by right|done].
  - hs_step. apply wp_add_read_timer. intros s2 (_ & H2 & _). hs_step.
    apply HQ; [by left|]. by rewrite H2, H1.
Qed.

Lemma wp_read_complete n size s (Q : Z -> hs HS CS W -> Prop) :
  (n < size -> forall r s', failed r -> stream s' = stream s -> Q r s') ->
  (size <= n -> Q n s) -> wp (read_complete n size) Q s.
Proof.
  intros HQ1 HQ2. unfold read_complete. destruct (Z.ltb_spec n size).
  - repeat hs_step. apply wp_handle_read. intros r s1 (_ & H1 & _).
    destruct (negb _); hs_step; apply HQ1; try done; [by right|by left].
  - hs_step. by apply HQ2.
Qed.

Lemma wp_set_handlers s (Q : unit -> hs HS CS W -> Prop) :
  (forall s', silent s s' -> Q tt s') -> wp set_handshake_handlers Q s.
Proof.
  intros HQ. unfold set_handshake_handlers. hs_step. apply wp_on_read. intros s1 H1.
  apply wp_on_write. intros s2 H2. apply HQ. by etransitivity.
Qed.

(** The data of a part is in the connection's buffer, in memory of its size. *)
Definition holds_payload s (payload : list Z) : Prop :=
  buf (nc s) = match payload with [] => None | _ => Some (NBuf payload 0 (zlen payload)) end.

Lemma store_whole bs mem mem' :
  zlen mem <= zlen bs -> store 0 bs mem = Some mem' -> mem' = bs /\ zlen bs = zlen mem.
Proof.
  intros Hl (_ & Hfit & ->)%store_Some. split; [|lia].
  rewrite zdrop_all by lia. rewrite app_nil_r. done.
Qed.

(** The part of both readers that runs once the length is known. *)
Lemma wp_read_payload size s (after : Z -> M (hs HS CS W) Z) (Q : Z -> hs HS CS W -> Prop) :
  0 <= size -> buf (nc s) = None ->
  (forall n s1 Q', failed n -> (forall r s', failed r -> Q' r s') -> wp (after n) Q' s1) ->
  (forall r s', failed r -> Q r s') ->
  (forall payload s', zlen payload = size -> bytes_ok payload -> stream s = payload ++ stream s' ->
     holds_payload s' payload -> Q size s') ->
  wp (n ← (if negb (size =? 0) then ngx_nsoc_read_handshake_data size else mret 0);
      if 0 <=? n then read_complete n size else after n) Q s.
Proof.
  intros Hsz Hnone Hafter HQf HQ. hs_step. destruct (Z.eqb_spec size 0) as [->|Hnz]; cbn [negb].
  - repeat hs_step. cbv iota. change (0 <=? 0) with true. cbv iota.
    apply wp_read_complete; [lia|]. intros _. apply (HQ []); [done|constructor|done|done].
  - eapply wp_mono; [apply read_handshake_data_correct; [done|]; intros b Hb; congruence|].
    intros r s1 (Hres & _). destruct Hres as [b mem bs s1 Hw Hroom Hok Hnil Hst Hs Hnc|r o s1 Hr Hs Ho Hnc].
    + rewrite (proj2 (Z.leb_le _ _)) by zlen_lia. apply wp_read_complete; [by auto|].
      intros Hge. unfold work_buf in Hw. rewrite Hnone in Hw. destruct Hw as (Hl & Hp & Hla).
      rewrite Hla in Hst. destruct (store_whole bs (b_mem b) mem) as [-> Hlen]; [lia|done|].
      replace (zlen bs) with size by lia. apply (HQ bs); try done; [lia|].
      unfold holds_payload. rewrite Hnc. cbn. rewrite Hp, Hla. destruct bs; [rewrite zlen_nil in *; lia|].
      by rewrite Z.add_0_l.
    + rewrite (proj2 (Z.leb_gt 0 r)) by (apply failed_neg; done). apply Hafter; [done|]. auto.
Qed.

Definition wants_length (LF : LenField HS CS) s : Prop :=
  lf_size (nc s) = NGX_NSOC_SIZE_UNSET \/ lf_reading (nc s) = true.

(** One whole part was taken off the stream: its length field [a b], then as
    many bytes, which are in the buffer. *)
Definition got_part (LF : LenField HS CS) s (r : Z) s' : Prop :=
  exists a b payload, is_byte a /\ is_byte b /\ bytes_ok payload /\
    unread LF s = a :: b :: payload ++ stream s' /\
    r = dec16 a b /\ zlen payload = r /\ holds_payload s' payload.

Lemma read_noise_msg_len_generic :
  @ngx_nsoc_read_noise_msg_len HS CS W OS = read_len (msg_field HS CS).
Proof. reflexivity. Qed.

Lemma read_negotiation_data_len_generic :
  @ngx_nsoc_read_negotiation_data_len HS CS W OS = read_len (neg_field HS CS).
Proof. reflexivity. Qed.

Lemma lf_buf_msg b z (n : nconn HS CS) :
  buf (n <| noise_msg_size_reading := b |> <| noise_msg_recv_size := z |>) = buf n.
Proof. done. Qed.

(** The length branch, and what the next round finds. *)
Lemma wp_len_branch (LF : LenField HS CS) s (k : Z -> M (hs HS CS W) Z) (Q : Z -> hs HS CS W -> Prop) :
  opened s -> partial_ok LF s ->
  (forall s1, wp (k NGX_AGAIN) Q s1) -> (forall s1, wp (k NGX_ERROR) Q s1) ->
  (forall a b s1, is_byte a -> is_byte b -> unread LF s = a :: b :: stream s1 ->
     nc s1 = lf_set_reading false (lf_set_size (dec16 a b) (nc s)) -> wp (k NGX_OK) Q s1) ->
  wp (set_handshake_handlers;; n ← read_len LF; k n) Q s.
Proof.
  intros Hopen Hpart Ha He Hk. hs_step. apply wp_set_handlers. intros s1 (Hq & Hs & _). pose proof Hq as (Hn & _ & _ & _ & Hop). hs_step.
  eapply wp_mono; [apply read_len_correct; intros Hr; rewrite Hn in *; by apply Hpart|].
  intros r s2 (Hres & _).
  assert (Hun : unread LF s1 = unread LF s) by (unfold unread; by rewrite Hn, Hs).
  destruct Hres as [a b s2 Hba Hbb Hu Hnc|z rd s2 Hu Hp Hz Hnc|z n s2 [[-> Hsaw]| ->] Hz Hnc];
    [|done|exfalso; by apply Hsaw, Hop|done].
  apply (Hk a b); try done; [congruence|]. by rewrite Hnc, Hn.
Qed.

Lemma read_noise_msg_whole fuel s :
  opened s -> partial_ok (msg_field HS CS) s -> wants_length (msg_field HS CS) s -> buf (nc s) = None ->
  wp (ngx_nsoc_read_noise_msg (S (S fuel))) (fun r s' => failed r \/ got_part (msg_field HS CS) s r s') s.
Proof.
  intros Hopen Hpart Hwant Hnone. cbn [ngx_nsoc_read_noise_msg]. repeat hs_step.
  assert (Hc : (noise_msg_recv_size (nc s) =? NGX_NSOC_SIZE_UNSET) || noise_msg_size_reading (nc s) = true).
  { destruct Hwant as [Hw|Hw]; cbn in Hw; rewrite Hw; [done|]. apply orb_true_r. }
  rewrite Hc. change (@ngx_nsoc_read_noise_msg_len HS CS W OS) with (read_len (W := W) (msg_field HS CS)).
  apply wp_len_branch; try done.
  - intros s1. zlit. apply wp_read_again. by left.
  - intros s1. zlit. cbn [negb]. hs_step. left. by right.
  - intros a b s1 Ha Hb Hu Hnc. zlit. cbn [negb]. repeat hs_step.
    pose proof (dec16_range a b Ha Hb) as Hr.
    assert (Hsz : noise_msg_recv_size (nc s1) = dec16 a b) by (by rewrite Hnc).
    assert (Hrd : noise_msg_size_reading (nc s1) = false) by (by rewrite Hnc).
    rewrite Hrd, Hsz, (proj2 (Z.eqb_neq (dec16 a b) NGX_NSOC_SIZE_UNSET))
      by (unfold NGX_NSOC_SIZE_UNSET; lia). cbn [orb].
    apply wp_read_payload; [lia|rewrite Hnc; exact Hnone| |by left|].
    + intros n s2 Q' [->| ->] HQ'.
      * zlit. apply wp_read_again. auto.
      * zlit. cbn [negb]. hs_step. apply HQ'. by right.
    + intros payload s' Hl Hok Hs Hh. right. exists a, b, payload. split_and!; try done.
      by rewrite Hu, Hs.
Qed.

Lemma read_negotiation_whole fuel true_len s :
  opened s -> partial_ok (neg_field HS CS) s -> wants_length (neg_field HS CS) s -> buf (nc s) = None ->
  wp (ngx_nsoc_read_negotiation (S (S fuel)) true_len)
    (fun r s' => failed r \/ (got_part (neg_field HS CS) s r s' /\ r = true_len)) s.
Proof.
  intros Hopen Hpart Hwant Hnone. cbn [ngx_nsoc_read_negotiation]. repeat hs_step.
  assert (Hc : (neg_data_recv_size (nc s) =? NGX_NSOC_SIZE_UNSET) || neg_data_size_reading (nc s) = true).
  { destruct Hwant as [Hw|Hw]; cbn in Hw; rewrite Hw; [done|]. apply orb_true_r. }
  rewrite Hc.
  change (@ngx_nsoc_read_negotiation_data_len HS CS W OS) with (read_len (W := W) (neg_field HS CS)).
  apply wp_len_branch; try done.
  - intros s1. zlit. apply wp_read_again. by left.
  - intros s1. zlit. cbn [negb]. repeat hs_step. left. by right.
  - intros a b s1 Ha Hb Hu Hnc. zlit. cbn [negb]. repeat hs_step.
    pose proof (dec16_range a b Ha Hb) as Hr.
    assert (Hsz : neg_data_recv_size (nc s1) = dec16 a b) by (by rewrite Hnc).
    assert (Hrd : neg_data_size_reading (nc s1) = false) by (by rewrite Hnc).
    rewrite !Hsz. destruct (Z.eqb_spec (dec16 a b) true_len) as [Heq|Hne]; [|hs_step; left; by right].
    repeat hs_step.
    rewrite Hrd, !Hsz, (proj2 (Z.eqb_neq (dec16 a b) NGX_NSOC_SIZE_UNSET))
      by (unfold NGX_NSOC_SIZE_UNSET; lia). cbn [orb].
    apply wp_read_payload; [lia|rewrite Hnc; exact Hnone| |by left|].
    + intros n s2 Q' [->| ->] HQ'.
      * zlit. apply wp_read_again. auto.
      * zlit. cbn [negb]. repeat hs_step. apply HQ'. by right.
    + intros payload s' Hl Hok Hs Hh. right. split; [|done]. exists a, b, payload. split_and!; try done.
      by rewrite Hu, Hs.
Qed.

(** ** Theorems *)

(** The length readers do not depend on how the network cuts the stream.
    Each always returns.  On NGX_OK the two next bytes of the stream, the first
    of which may have come in an earlier call, are the big-endian length; on
    NGX_AGAIN no byte is lost; otherwise the connection is closed or broken, and
    [last] records that. *)
Theorem read_lengths_correct s
    (Hmsg : partial_ok (msg_field HS CS) s) (Hneg : partial_ok (neg_field HS CS) s) :
  (exists r s', ngx_nsoc_read_noise_msg_len s = Done (r, s') /\
     len_result (msg_field HS CS) s r s' /\ outbox s' = outbox s) /\
  (exists r s', ngx_nsoc_read_negotiation_data_len s = Done (r, s') /\
     len_result (neg_field HS CS) s r s' /\ outbox s' = outbox s).
Proof.
  split.
  - rewrite read_noise_msg_len_generic.
    destruct (wp_done _ _ _ (read_len_correct (msg_field HS CS) s Hmsg)) as (r & s' & Hr & Hp & Ho & _).
    by exists r, s'.
  - rewrite read_negotiation_data_len_generic.
    destruct (wp_done _ _ _ (read_len_correct (neg_field HS CS) s Hneg)) as (r & s' & Hr & Hp & Ho & _).
    by exists r, s'.
Qed.


(** [read_noise_msg] takes one length-prefixed Noise message off the stream:
    a non-negative result is its length and the buffer holds the message;
    otherwise the result is NGX_AGAIN or NGX_ERROR.  Two rounds of its loop are
    enough while the peer keeps the connection open. *)
Theorem read_noise_msg_correct s
    (Hopen : opened s) (Hpart : partial_ok (msg_field HS CS) s)
    (Hwant : wants_length (msg_field HS CS) s) (Hnone : buf (nc s) = None) :
  exists r s', ngx_nsoc_read_noise_msg 2 s = Done (r, s') /\
    (failed r \/ got_part (msg_field HS CS) s r s').
Proof. apply wp_done. by apply read_noise_msg_whole. Qed.

(** When the peer has closed the connection before a message length arrived,
    [read_noise_msg] never returns: the length reader answers 0, which its caller
    takes for success, and the loop asks again, whatever the fuel. *)
Theorem read_noise_msg_spins_at_eof (closed : W -> Prop) s
    (Hclosed : forall n e w, closed w -> exists e' w', os_recv n e w = (0, [], e', w') /\ closed w')
    (Hw : closed (world s)) (Hsize : noise_msg_recv_size (nc s) = NGX_NSOC_SIZE_UNSET)
    (Hrd : noise_msg_size_reading (nc s) = false) :
  forall fuel, ngx_nsoc_read_noise_msg fuel s = OutOfFuel.
Proof.
  intros fuel. revert s Hw Hsize Hrd. induction fuel as [|fuel IH]; intros s Hw Hsize Hrd; [done|].
  destruct s as [x n p w]. cbn in Hw, Hsize, Hrd.
  cbn [ngx_nsoc_read_noise_msg]. unfold mbind at 1, M_bind, gets. cbn [nc]. rewrite Hsize.
  change (NGX_NSOC_SIZE_UNSET =? NGX_NSOC_SIZE_UNSET) with true. cbn [orb].
  unfold set_handshake_handlers, on_read, on_write, on_c, mbind, M_bind, modify.
  unfold ngx_nsoc_read_noise_msg_len, mbind, M_bind, gets. cbn. rewrite Hrd. cbn.
  unfold ngx_recv, mbind, M_bind, modify, on_nc, on_read, on_c. cbn.
  match goal with |- context [os_recv ?k ?e w] => destruct (Hclosed k e w Hw) as (e' & w' & -> & Hw') end.
  cbn. unfold mbind, M_bind, modify, mret, M_ret. cbn. by apply IH.
Qed.

(** A Noise message whose data does not arrive in one read is never
    completed: once a first piece is in the buffer, every further call answers
    NGX_AGAIN or NGX_ERROR, since it compares the bytes of that call, not the
    bytes in the buffer, with the length of the message. *)
Theorem read_noise_msg_split_fails s b
    (Hsize : 0 < noise_msg_recv_size (nc s)) (Hrd : noise_msg_size_reading (nc s) = false)
    (Hbuf : buf (nc s) = Some b) (Hmem : zlen (b_mem b) = noise_msg_recv_size (nc s))
    (Hlast : 0 < b_last b <= zlen (b_mem b)) :
  exists r s', ngx_nsoc_read_noise_msg 1 s = Done (r, s') /\ failed r.
Proof.
  apply wp_done. cbn [ngx_nsoc_read_noise_msg]. repeat hs_step. rewrite Hrd.
  rewrite (proj2 (Z.eqb_neq _ _)) by (unfold NGX_NSOC_SIZE_UNSET; lia). cbn [orb]. hs_step.
  rewrite (proj2 (Z.eqb_neq _ _)) by lia. cbn [negb].
  eapply wp_mono; [apply read_handshake_data_correct; [lia|]|].
  { intros b' Hb'. rewrite Hbuf in Hb'. injection Hb' as <-. lia. }
  intros r s1 (Hres & _). destruct Hres as [b1 mem bs s1 Hw Hroom Hok Hnil Hst Hs Hnc|r o s1 Hr Hs Ho Hnc].
  - unfold work_buf in Hw. rewrite Hbuf in Hw. subst b1. apply store_Some in Hst as (_ & Hfit & _).
    rewrite (proj2 (Z.leb_le _ _)) by zlen_lia. apply wp_read_complete; [by auto|lia].
  - rewrite (proj2 (Z.leb_gt 0 r)) by (by apply failed_neg). destruct Hr as [->| ->].
    + zlit. apply wp_read_again. auto.
    + zlit. cbn [negb]. hs_step. by right.
Qed.
End Data.

(** ** Witnesses *)

(** A length field cut after its first byte, then a message of three bytes. *)
Definition cut_script : list chunk := [Data [0]; WouldBlock; Data [3]; Data [9; 8; 7]].

Lemma fresh_partial_msg r script sends : partial_ok (msg_field toy_hs Z) (demo_state r script sends).
Proof. done. Qed.

Lemma fresh_partial_neg r script sends : partial_ok (neg_field toy_hs Z) (demo_state r script sends).
Proof. done. Qed.

Lemma read_lengths_correct_witness :
  exists r s', ngx_nsoc_read_noise_msg_len (demo_state SERVER_ROLE cut_script []) = Done (r, s') /\
    r = NGX_AGAIN /\ unread (msg_field toy_hs Z) s' = [0; 3; 9; 8; 7].
Proof.
  destruct (read_lengths_correct (demo_state SERVER_ROLE cut_script [])
              (fresh_partial_msg _ _ _) (fresh_partial_neg _ _ _)) as [(r & s' & Hrun & Hres & _) _].
  exists r, s'. split; [exact Hrun|]. vm_compute in Hrun. injection Hrun as <- <-.
  split; [done|]. by vm_compute.
Defined.

Lemma cut_open sends : opened (demo_state SERVER_ROLE cut_script sends).
Proof. unfold opened. cbn. repeat (apply Forall_cons_2; [done|]). constructor. Qed.

Definition whole_script : list chunk := [Data [0; 3; 9; 8; 7; 1]].

Lemma whole_open r sends : opened (demo_state r whole_script sends).
Proof. unfold opened. cbn. repeat (apply Forall_cons_2; [done|]). constructor. Qed.


Lemma read_noise_msg_correct_witness :
  exists s', ngx_nsoc_read_noise_msg 2 (demo_state SERVER_ROLE whole_script []) = Done (3, s') /\
    got_part (msg_field toy_hs Z) (demo_state SERVER_ROLE whole_script []) 3 s'.
Proof.
  destruct (read_noise_msg_correct (demo_state SERVER_ROLE whole_script []) (whole_open _ _)
              (fresh_partial_msg _ _ _) (or_introl eq_refl) eq_refl) as (r & s' & Hrun & Hres).
  assert (Hr : r = 3) by (vm_compute in Hrun; by injection Hrun as <- _).
  subst r. exists s'. split; [exact Hrun|]. by destruct Hres as [[?|?]|Hp].
Defined.

Lemma read_noise_msg_spins_at_eof_witness :
  ngx_nsoc_read_noise_msg 1000 (demo_state SERVER_ROLE [Closed] []) = OutOfFuel.
Proof.
  apply (read_noise_msg_spins_at_eof (fun w => inbox w = [Closed])); try done.
  intros n e [ib o ss] Hw. cbn in Hw. subst ib. by do 2 eexists.
Defined.

(** The state after the first piece of a three-byte message. *)
Definition split_state : hs toy_hs Z net :=
  let s := demo_state SERVER_ROLE [Data [8; 7]] [] in
  s <| nc := (nc s) <| noise_msg_recv_size := 3 |> <| buf := Some (NBuf [9; 0; 0] 0 1) |> |>.

Lemma read_noise_msg_split_fails_witness :
  exists r s', ngx_nsoc_read_noise_msg 1 split_state = Done (r, s') /\ failed r /\
    buf (nc s') = Some (NBuf [9; 8; 7] 0 3).
Proof.
  destruct (read_noise_msg_split_fails split_state (NBuf [9; 0; 0] 0 1)) as (r & s' & Hrun & Hf);
    try done.
  exists r, s'. split; [exact Hrun|]. split; [exact Hf|]. vm_compute in Hrun. by injection Hrun as <- <-.
Defined.
