(* ===== verification/Record.v ===== *)
(** * The transport phase: ngx_nsoc_recv and ngx_nsoc_write

    After the handshake every packet is a two-byte big-endian length and a
    ciphertext; the plaintext begins with the two-byte length of the body.  The
    caller's memory is a byte list [mem]; [data] is the offset the C pointer
    points at ([None] for NULL).  [ngx_nsoc_write] expects four bytes of room
    before the body and sixteen after it, and encrypts in place;
    [ngx_nsoc_recv] leaves the body at [data + 4].  Both return the C result and
    the caller's memory. *)

From stdpp Require Import prelude list numbers.
From S2P Require Import Prelude NoiseConn Net HsRead.

Section Record.
Context {HS CS W : Type} {NL : NoiseLib HS CS} {OS : NgxOs W} {PO : NgxPool W}.
Abbreviation ST := (M (hs HS CS W)).

(** ** Definitions *)

Definition set_recv_cipher (k : CS) (n : nconn HS CS) : nconn HS CS :=
  n <| noise_connection := (noise_connection n) <| NoiseRecvCipherObj := Some k |> |>.
Definition set_send_cipher (k : CS) (n : nconn HS CS) : nconn HS CS :=
  n <| noise_connection := (noise_connection n) <| NoiseSendCipherObj := Some k |> |>.

(** The packet is complete: decrypt it in place and read the body's length. *)
Definition recv_packet (b : region) (size : Z) (mem : list Z) : ST (Z * list Z) :=
  n0 ← gets nc;
  packet ← mderef (load (r_start b) (noise_msg_recv_size n0) mem);
  k ← mderef (NoiseRecvCipherObj (noise_connection n0));
  let '(err, plain, k') := cs_decrypt k packet in
  on_nc (set_recv_cipher k');;
  if negb (err =? NOISE_ERROR_NONE) then
    on_read (fun r => r <| error := true |>);;
    on_nc (fun n => n <| noise_msg_recv_size := NGX_NSOC_SIZE_UNSET |> <| recv_buf := None |>);;
    mret (NGX_ERROR, mem)
  else
    mem ← mderef (store (r_start b) plain mem);
    l ← mderef (load (r_start b) 2 mem);
    let plain_data_size := match l with [x; y] => swapw (ld16 x y) | _ => 0 end in
    if size <? plain_data_size then mret (NGX_ERROR, mem)
    else
      on_read (fun r => r <| ready := true |>);;
      on_nc (fun n => n <| recv_buf := None |> <| last := 0 |>
                        <| noise_msg_recv_size := NGX_NSOC_SIZE_UNSET |>);;
      mret (plain_data_size, mem).

(** The loop: read on until the packet is complete. *)
Fixpoint recv_loop (fuel : nat) (size : Z) (mem : list Z) : ST (Z * list Z) :=
  match fuel with
  | O => out_of_fuel
  | S fuel =>
      b ← gets (fun s => recv_buf (nc s));
      b ← mderef b;
      '(n, bs) ← ngx_recv (r_end b - r_pos b);
      if 0 <? n then
        mem ← mderef (store (r_pos b) bs mem);
        let b := b <| r_pos := r_pos b + n |> in
        on_nc (fun x => x <| recv_buf := Some b |>);;
        sz ← gets (fun s => noise_msg_recv_size (nc s));
        if r_pos b - r_start b =? sz then recv_packet b size mem
        else recv_loop fuel size mem
      else
        (if negb (n =? NGX_AGAIN)
         then on_nc (fun x => x <| recv_buf := None |> <| noise_msg_recv_size := NGX_NSOC_SIZE_UNSET |>)
         else mret tt);;
        on_nc (fun x => x <| last := n |>);;
        mret (n, mem)
  end.

(** The part before the loop: the length of a new packet and its descriptor.
    [inl] is an early return. *)
Definition recv_begin (data : option Z) : ST (Z + option region) :=
  n0 ← gets nc;
  if (noise_msg_recv_size n0 =? NGX_NSOC_SIZE_UNSET) || noise_msg_size_reading n0 then
    n ← ngx_nsoc_read_noise_msg_len;
    if negb (n =? NGX_OK) then mret (inl n) else
    sz ← gets (fun s => noise_msg_recv_size (nc s));
    if sz =? NGX_NSOC_SIZE_UNSET then mret (inl NGX_AGAIN) else
    match data with
    | None => mret (inl NGX_ERROR)
    | Some off =>
        ok ← alloc_object;
        if negb ok then mret (inl NGX_ERROR) else
        let start := off + NGX_NSOC_LEN_FIELD_SIZE in
        mret (inr (Some (Region start start start (start + sz))))
    end
  else mret (inr (recv_buf n0)).

(** The body of [ngx_nsoc_recv] once the Noise connection is found. *)
Definition recv_nc (data : option Z) (size : Z) (mem : list Z) : ST (Z * list Z) :=
  n0 ← gets nc;
  if last n0 =? NGX_ERROR then
    on_read (fun r => r <| error := true |>);; mret (NGX_ERROR, mem)
  else
    r ← recv_begin data;
    match r with
    | inl n => mret (n, mem)
    | inr b =>
        on_nc (fun n => n <| recv_buf := b |>);;
        b ← mderef b;
        recv_loop (S (Z.to_nat (r_end b - r_pos b))) size mem
    end.

Definition ngx_nsoc_recv (data : option Z) (size : Z) (mem : list Z)
    : M (sess HS CS W) (Z * list Z) :=
  with_nc (NGX_ERROR, mem) (recv_nc data size mem).

(** [ngx_send] of what is left of [b] until all of it is gone. *)
Fixpoint send_loop (fuel : nat) (b : region) (size : Z) (mem : list Z) : ST Z :=
  match fuel with
  | O => out_of_fuel
  | S fuel =>
      bs ← mderef (load (r_pos b) (r_last b - r_pos b) mem);
      n ← ngx_send bs;
      if 0 <? n then
        let b := b <| r_pos := r_pos b + n |> in
        if r_pos b =? r_last b then
          on_nc (fun x => x <| send_buf := None |> <| to_send := 0 |>);;
          mret size
        else send_loop fuel b size mem
      else mret n
  end.

(** A new packet: the body's length, encryption in place, the packet's length. *)
Definition write_packet (off data_size : Z) (mem : list Z)
    : ST (Z * list Z + region * list Z) :=
  ok ← alloc_object;
  if negb ok then mret (inl (NGX_ERROR, mem)) else
  let pos := off + NGX_NSOC_LEN_FIELD_SIZE in
  mem ← mderef (store pos (be16 data_size) mem);
  plain ← mderef (load pos (data_size + NGX_NSOC_LEN_FIELD_SIZE) mem);
  n0 ← gets nc;
  k ← mderef (NoiseSendCipherObj (noise_connection n0));
  let cap := data_size + NOISE_PROTOCOL_MAC_DATA_SIZE + NGX_NSOC_LEN_FIELD_SIZE in
  let '(err, packet, k') := cs_encrypt k plain cap in
  on_nc (set_send_cipher k');;
  if negb (err =? NOISE_ERROR_NONE) then
    on_nc (fun x => x <| send_buf := None |> <| to_send := 0 |>);;
    mret (inl (NGX_ERROR, mem))
  else
    mem ← mderef (store pos packet mem);
    mem ← mderef (store off (be16 (zlen packet)) mem);
    on_nc (fun x => x <| to_send := zlen packet + NGX_NSOC_LEN_FIELD_SIZE |>);;
    mret (inr (Region off off (pos + zlen packet) (pos + cap), mem)).

(** The body of [ngx_nsoc_write] once the Noise connection is found. *)
Definition write_nc (off size : Z) (mem : list Z) : ST (Z * list Z) :=
  let data_size := size - 2 * NGX_NSOC_LEN_FIELD_SIZE in
  n0 ← gets nc;
  if buffer_size n0 <? data_size then mret (NGX_ERROR, mem)
  else
    r ← (if to_send n0 =? 0 then write_packet off data_size mem
         else b ← mderef (send_buf n0); mret (inr (b, mem)));
    match r with
    | inl res => mret res
    | inr (b, mem) =>
        n ← send_loop (S (Z.to_nat (r_last b - r_pos b))) b size mem;
        mret (n, mem)
    end.

Definition ngx_nsoc_write (data : option Z) (size : Z) (mem : list Z)
    : M (sess HS CS W) (Z * list Z) :=
  match data with
  | None => mret (NGX_ERROR, mem)
  | Some off =>
      if size <? 2 * NGX_NSOC_LEN_FIELD_SIZE then mret (NGX_ERROR, mem)
      else with_nc (NGX_ERROR, mem) (write_nc off size mem)
  end.

Definition ngx_nsoc_shutdown : Z := NGX_OK.
End Record.

Section RecordProofs.
Context {HS CS W : Type} {NL : NoiseLib HS CS} {OS : NgxOs W} {PO : NgxPool W} {SM : NgxStream W}
  {OL : NgxOsLaws W} {PL : NgxPoolLaws W} {NLaw : NoiseLaws HS CS}.
Implicit Types s : hs HS CS W.

(** ** Writing *)

Definition frame (packet : list Z) : list Z := be16 (zlen packet) ++ packet.

(** A send stopped after [front], a proper part of what was to go. *)
Definition stopped (all front : list Z) : Prop := exists back, back <> [] /\ all = front ++ back.

Lemma ztake_split {A} n (l : list A) : 0 <= n <= zlen l ->
  l = ztake n l ++ zdrop n l /\ zlen (ztake n l) = n /\ zlen (zdrop n l) = zlen l - n.
Proof. intros Hn. by rewrite ztake_zdrop, zlen_ztake, zlen_zdrop. Qed.

Lemma send_loop_correct fuel : forall b size pre bs post s (Q : Z -> hs HS CS W -> Prop),
  r_pos b = zlen pre -> r_last b = zlen pre + zlen bs -> bs <> [] -> (length bs < fuel)%nat ->
  (forall s', outbox s' = outbox s ++ bs ->
     quiet (s <| nc := (nc s) <| send_buf := None |> <| to_send := 0 |> |>) s' -> Q size s') ->
  (forall r front s', r <= 0 -> stopped bs front -> outbox s' = outbox s ++ front ->
     quiet s s' -> Q r s') ->
  wp (send_loop fuel b size (pre ++ bs ++ post)) Q s.
Proof.
  induction fuel as [|fuel IH]; intros b size pre bs post s Q Hpos Hlast Hne Hfuel HQ1 HQ2; [lia|].
  cbn [send_loop]. hs_step. eapply wp_mderef.
  { rewrite Hpos, Hlast. replace (zlen pre + zlen bs - zlen pre) with (zlen bs) by lia. apply load_app. }
  hs_step. apply wp_send. intros r s1 Hq Hst Hout Hr. destruct (Z.ltb_spec 0 r) as [Hpos'|Hneg].
  - assert (Hle : r <= zlen bs) by (unfold NGX_AGAIN, NGX_ERROR in Hr; lia).
    destruct (ztake_split r bs ltac:(lia)) as (Hsplit & Hl1 & Hl2).
    cbn zeta. change (r_pos (upd r_pos (fun _ => r_pos b + r) b)) with (r_pos b + r).
    change (r_last (upd r_pos (fun _ => r_pos b + r) b)) with (r_last b).
    rewrite Hpos, Hlast. destruct (Z.eqb_spec (zlen pre + r) (zlen pre + zlen bs)) as [He|Hne'].
    + rewrite ztake_all in Hout by lia. repeat hs_step. apply HQ1; [exact Hout|].
      destruct Hq as (Hn & Hp & Hid & Hio & Hop). split_and!; cbn; congruence || done.
    + rewrite Hsplit, <- !app_assoc, app_assoc. apply IH.
      * cbn. rewrite zlen_app. lia.
      * cbn. rewrite Hlast, zlen_app. lia.
      * intros Hz. rewrite Hz, zlen_nil in Hl2. lia.
      * unfold zlen in *. lia.
      * intros s' Ho' Hq'. apply HQ1.
        -- rewrite Ho', Hout, <- app_assoc. by rewrite <- Hsplit.
        -- destruct Hq as (Hn & Hp & Hid & Hio & Hop), Hq' as (Hn' & Hp' & Hid' & Hio' & Hop').
           cbn in *. rewrite Hn in Hn'. split_and!; cbn; try congruence.
           intros Ho. apply Hop'. apply Hop. exact Ho.
      * intros r' front s' Hr' (back & Hb & Hf) Ho' Hq'. apply (HQ2 r' (ztake r bs ++ front)); try done.
        -- exists back. split; [done|]. rewrite <- app_assoc, <- Hf. done.
        -- by rewrite Ho', Hout, app_assoc.
        -- by etransitivity.
  - hs_step. apply (HQ2 r []); try done.
    + exists bs. done.
    + rewrite Hout, app_nil_r. unfold ztake. replace (Z.to_nat r) with 0%nat by lia.
      by rewrite take_0, app_nil_r.
Qed.

(** What a new packet is: [cs_encrypt] of the body with its length. *)
Definition sealed s (body packet : list Z) (k' : CS) : Prop :=
  exists k, NoiseSendCipherObj (noise_connection (nc s)) = Some k /\
    cs_encrypt k (be16 (zlen body) ++ body)
      (zlen body + NOISE_PROTOCOL_MAC_DATA_SIZE + NGX_NSOC_LEN_FIELD_SIZE) =
      (NOISE_ERROR_NONE, packet, k').

Lemma write_packet_correct pre h body tail post s (Q : Z * list Z + region * list Z -> hs HS CS W -> Prop) :
  zlen h = 4 -> zlen tail = 16 -> bytes_ok body ->
  is_Some (NoiseSendCipherObj (noise_connection (nc s))) ->
  (forall mem s', zlen mem = zlen (pre ++ h ++ body ++ tail ++ post) -> to_send (nc s') = to_send (nc s) \/ to_send (nc s') = 0 ->
     outbox s' = outbox s -> Q (inl (NGX_ERROR, mem)) s') ->
  (forall packet k' s', sealed s body packet k' -> zlen packet = zlen body + 18 -> bytes_ok packet ->
     outbox s' = outbox s ->
     quiet (s <| nc := (set_send_cipher k' (nc s)) <| to_send := zlen packet + 2 |> |>) s' ->
     Q (inr (Region (zlen pre) (zlen pre) (zlen pre + 2 + zlen packet) (zlen pre + 2 + zlen packet),
             pre ++ frame packet ++ post)) s') ->
  wp (write_packet (zlen pre) (zlen body) (pre ++ h ++ body ++ tail ++ post)) Q s.
Proof.
  intros Hh Ht Hok [k Hk] HQ1 HQ2. unfold write_packet. hs_step. apply wp_alloc_object.
  intros ok s1 (Hq1 & Hs1 & Ho1). destruct ok; cbn [negb].
  2:{ hs_step. apply HQ1; try done. left. by destruct Hq1 as (-> & _). }
  cbn zeta. change NGX_NSOC_LEN_FIELD_SIZE with 2. change NOISE_PROTOCOL_MAC_DATA_SIZE with 16.
  destruct h as [|h0 [|h1 [|h2 [|h3 [|]]]]]; autorewrite with zlen in Hh; try zlen_lia.
  pose proof Hq1 as (Hn1 & Hp1 & Hid1 & Hio1 & Hop1). hs_step.
  eapply wp_mderef.
  { replace (zlen pre + 2) with (zlen (pre ++ [h0; h1])) by (rewrite zlen_app; done).
    change (pre ++ [h0; h1; h2; h3] ++ body ++ tail ++ post)
      with (pre ++ [h0; h1] ++ [h2; h3] ++ (body ++ tail ++ post)).
    rewrite (app_assoc pre). by apply store_app. }
  hs_step. eapply wp_mderef.
  { replace (zlen pre + 2) with (zlen (pre ++ [h0; h1])) by (rewrite zlen_app; done).
    replace (zlen body + 2) with (zlen (be16 (zlen body) ++ body)) by zlen_lia.
    rewrite (app_assoc (be16 (zlen body))). apply load_app. }
  repeat hs_step. rewrite Hn1. eapply wp_mderef; [exact Hk|].
  destruct (cs_encrypt k _ _) as [[err packet] k'] eqn:Henc. cbv beta iota.
  destruct (Z.eqb_spec err NOISE_ERROR_NONE) as [->|Herr]; cbn [negb].
  2:{ repeat hs_step. apply HQ1; [|by right|by rewrite <- Ho1]. zlen_lia. }
  destruct (cs_encrypt_length _ _ _ _ _ (Forall_app_2 _ _ _ (be16_bytes _) Hok) Henc) as (Hlen & _ & Hpok).
  rewrite zlen_app in Hlen. change (zlen (be16 (zlen body))) with 2 in Hlen.
  change NOISE_PROTOCOL_MAC_DATA_SIZE with 16 in Hlen.
  hs_step. hs_step. hs_step. eapply wp_mderef.
  { replace (zlen pre + 2) with (zlen (pre ++ [h0; h1])) by (rewrite zlen_app; done).
    rewrite (app_assoc body tail post), (app_assoc (be16 (zlen body))).
    apply store_app. zlen_lia. }
  hs_step. eapply wp_mderef.
  { rewrite <- app_assoc. change (pre ++ [h0; h1] ++ packet ++ post)
      with (pre ++ [h0; h1] ++ (packet ++ post)). by apply store_app. }
  repeat hs_step.
  replace (zlen pre + 2 + (zlen body + 16 + 2)) with (zlen pre + 2 + zlen packet) by lia.
  replace (pre ++ be16 (zlen packet) ++ packet ++ post) with (pre ++ frame packet ++ post)
    by (unfold frame; by rewrite <- app_assoc).
  apply (HQ2 packet k'); try done; [by exists k|lia|].
  split_and!; cbn; try done. by rewrite Hn1.
Qed.

(** How a write of [body] ends: nothing was sent because there is no memory or
    the cipher failed; the whole packet went out; or only its front did. *)
Inductive write_end s (body : list Z) : Z -> hs HS CS W -> Prop :=
| write_refused s' :
    outbox s' = outbox s -> to_send (nc s') = 0 -> write_end s body NGX_ERROR s'
| write_done packet k' s' :
    sealed s body packet k' -> zlen packet = zlen body + 18 ->
    outbox s' = outbox s ++ frame packet ->
    nc s' = (set_send_cipher k' (nc s)) <| send_buf := None |> <| to_send := 0 |> ->
    write_end s body (zlen body + 4) s'
| write_partial r packet k' front s' :
    r <= 0 -> sealed s body packet k' -> stopped (frame packet) front ->
    outbox s' = outbox s ++ front ->
    nc s' = (set_send_cipher k' (nc s)) <| to_send := zlen body + 20 |> ->
    c_id (c s') = c_id (c s) -> write_end s body r s'.

Lemma zlen_frame packet : zlen (frame packet) = zlen packet + 2.
Proof. unfold frame. zlen_lia. Qed.

Lemma write_nc_run pre h body tail post s :
  zlen h = 4 -> zlen tail = 16 -> bytes_ok body -> zlen body <= buffer_size (nc s) ->
  to_send (nc s) = 0 -> is_Some (NoiseSendCipherObj (noise_connection (nc s))) ->
  wp (write_nc (zlen pre) (zlen body + 4) (pre ++ h ++ body ++ tail ++ post))
    (fun res s' => write_end s body res.1 s' /\
       zlen res.2 = zlen (pre ++ h ++ body ++ tail ++ post)) s.
Proof.
  intros Hh Ht Hok Hsz Hts Hk. unfold write_nc. cbn zeta.
  change (2 * NGX_NSOC_LEN_FIELD_SIZE) with 4. replace (zlen body + 4 - 4) with (zlen body) by lia.
  repeat hs_step. rewrite (proj2 (Z.ltb_ge _ _)) by lia. rewrite Hts. change (0 =? 0) with true. cbv iota.
  hs_step. apply write_packet_correct; try done.
  - intros mem s1 Hl Hts1 Ho. hs_step. split; [|done]. apply write_refused; [done|].
    destruct Hts1 as [Hx|Hx]; by rewrite Hx.
  - intros packet k' s1 Hsl Hlen Hpok Ho1 Hq1. cbv beta iota. hs_step.
    replace (Z.to_nat _) with (length (frame packet))
      by (cbn [r_last r_pos]; pose proof (zlen_frame packet); unfold zlen in *; lia).
    apply (send_loop_correct _ _ _ pre (frame packet) post); try done.
    + cbn [r_last]. rewrite zlen_frame. lia.
    + lia.
    + intros s2 Ho2 (Hn2 & _). hs_step. destruct Hq1 as (Hn1 & _). split; [|cbn [snd]; rewrite !zlen_app, zlen_frame; zlen_lia].
      eapply (write_done s body packet k'); [done|done|by rewrite Ho2, Ho1|].
      rewrite Hn2. cbn [nc]. rewrite Hn1. done.
    + intros r front s2 Hr Hst Ho2 (Hn2 & _ & Hid2 & _). hs_step. destruct Hq1 as (Hn1 & _ & Hid1 & _).
      split; [|cbn [snd]; rewrite !zlen_app, zlen_frame; zlen_lia].
      apply (write_partial s body r packet k' front); try done; [by rewrite Ho2, Ho1| |by rewrite Hid2, Hid1].
      rewrite Hn2, Hn1. cbn. by replace (zlen packet + 2) with (zlen body + 20) by lia.
Qed.

(** C26: a write produces exactly one packet.  With four bytes of room before the
    body and sixteen after it, the call returns and stays inside the caller's
    memory; when it reports success the wire carries, after what it had, the
    big-endian length of one ciphertext and the ciphertext of the body preceded
    by its length, under the connection's send cipher. *)
Theorem nsoc_write_sends_packet st d x pre h body tail post
    (Hat : at_side d x st) (Hh : zlen h = 4) (Ht : zlen tail = 16) (Hok : bytes_ok body)
    (Hsz : zlen body <= buffer_size x) (Hts : to_send x = 0)
    (Hk : is_Some (NoiseSendCipherObj (noise_connection x))) :
  exists n mem' s', ngx_nsoc_write (Some (zlen pre)) (zlen body + 4)
      (pre ++ h ++ body ++ tail ++ post) st = Done ((n, mem'), unview d s' st) /\
    zlen mem' = zlen (pre ++ h ++ body ++ tail ++ post) /\ write_end (view x st) body n s'.
Proof.
  unfold ngx_nsoc_write. rewrite (proj2 (Z.ltb_ge _ _)) by (change (2 * NGX_NSOC_LEN_FIELD_SIZE) with 4; zlen_lia).
  destruct (with_nc_wp (NGX_ERROR, pre ++ h ++ body ++ tail ++ post) _ st d x _ Hat
              (write_nc_run pre h body tail post (view x st) Hh Ht Hok Hsz Hts Hk))
    as ([n mem'] & s' & Hrun & Hend & Hl).
  exists n, mem', s'. done.
Qed.

(** A write that could send only part of its packet breaks the connection:
    [to_send] stays set but [send_buf] was never assigned, so the next write, of
    any data that fits, dereferences NULL. *)
Theorem nsoc_write_resume_crashes st d x body n s' data size mem
    (Hat : at_side d x st) (Hsb : send_buf x = None)
    (Hend : write_end (view x st) body n s') (Hn : n <= 0) (Hpart : to_send (nc s') <> 0)
    (Hsize : 4 <= size <= 4 + buffer_size x) :
  ngx_nsoc_write (Some data) size mem (unview d s' st) = Undefined.
Proof.
  unfold ngx_nsoc_write. change (2 * NGX_NSOC_LEN_FIELD_SIZE) with 4.
  rewrite (proj2 (Z.ltb_ge _ _)) by lia.
  destruct Hend as [s' _ Hz|packet k' s' _ _ _ Hnc|r packet k' front s' Hr _ _ _ Hnc Hid];
    [done|zlen_lia|].
  apply (with_nc_undefined _ _ _ d (nc s')).
  - apply (unview_at_side d x); [done| |exact Hid]. by rewrite Hnc.
  - unfold write_nc, mbind, M_bind, gets. cbn [nc view unview sc sp sw]. rewrite Hnc. cbn.
    rewrite (proj2 (Z.ltb_ge _ _)) by (unfold NGX_NSOC_LEN_FIELD_SIZE; lia). rewrite (proj2 (Z.eqb_neq _ _)) by zlen_lia.
    by rewrite Hsb.
Qed.

(** ** Reading *)

(** The decrypted packet lies at [pre], in front of the rest of the packet. *)
Definition opened_mem (pre plain packet post : list Z) : list Z :=
  pre ++ plain ++ zdrop (zlen plain) packet ++ post.

(** The body's length, from the first two bytes there. *)
Definition body_length (plain packet : list Z) : Z :=
  match plain ++ zdrop (zlen plain) packet with x :: y :: _ => dec16 x y | _ => 0 end.

Lemma load_two pre x y rest : load (zlen pre) 2 (pre ++ x :: y :: rest) = Some [x; y].
Proof. change (x :: y :: rest) with ([x; y] ++ rest). change 2 with (zlen [x; y]) at 1. apply load_app. Qed.

Lemma recv_packet_correct b size pre packet post s (Q : Z * list Z -> hs HS CS W -> Prop) :
  r_start b = zlen pre -> noise_msg_recv_size (nc s) = zlen packet -> bytes_ok packet ->
  is_Some (NoiseRecvCipherObj (noise_connection (nc s))) ->
  (forall mem' s', zlen mem' = zlen (pre ++ packet ++ post) -> Q (NGX_ERROR, mem') s') ->
  (forall k plain k' s', NoiseRecvCipherObj (noise_connection (nc s)) = Some k ->
     cs_decrypt k packet = (NOISE_ERROR_NONE, plain, k') -> zlen packet = zlen plain + 16 ->
     body_length plain packet <= size -> stream s' = stream s -> c_id (c s') = c_id (c s) ->
     nc s' = (set_recv_cipher k' (nc s)) <| recv_buf := None |> <| last := 0 |>
               <| noise_msg_recv_size := NGX_NSOC_SIZE_UNSET |> ->
     Q (body_length plain packet, opened_mem pre plain packet post) s') ->
  wp (recv_packet b size (pre ++ packet ++ post)) Q s.
Proof.
  intros Hst Hsz Hok [k Hk] HQ1 HQ2. unfold recv_packet. repeat hs_step. rewrite Hst, Hsz, Hk.
  eapply wp_mderef; [apply load_app|]. hs_step. eapply wp_mderef; [done|].
  destruct (cs_decrypt k packet) as [[err plain] k'] eqn:Hdec. cbv beta iota.
  destruct (Z.eqb_spec err NOISE_ERROR_NONE) as [->|Herr]; cbn [negb].
  2:{ repeat hs_step. apply wp_on_read. intros s1 _. repeat hs_step. by apply HQ1. }
  destruct (cs_decrypt_length _ _ _ _ Hok Hdec) as [Hlen Hplain].
  change NOISE_PROTOCOL_MAC_DATA_SIZE with 16 in Hlen.
  destruct (mem_split (zlen plain) packet) as (p1 & p2 & -> & Hp1); [zlen_lia|].
  rewrite zlen_app in Hlen. repeat hs_step. rewrite <- app_assoc. eapply wp_mderef; [by apply store_app|].
  assert (Hrest : zdrop (zlen plain) (p1 ++ p2) = p2) by (by apply zdrop_app_exact).
  assert (exists x y r, plain ++ p2 = x :: y :: r) as (x & y & r & Hxy).
  { destruct (plain ++ p2) as [|x [|y r]] eqn:He; [| |eauto].
    - apply (f_equal zlen) in He. rewrite zlen_app, zlen_nil in He. zlen_lia.
    - apply (f_equal zlen) in He. rewrite zlen_app, zlen_cons, zlen_nil in He. zlen_lia. }
  assert (Hbl : body_length plain (p1 ++ p2) = dec16 x y) by (unfold body_length; by rewrite Hrest, Hxy).
  hs_step. eapply wp_mderef.
  { rewrite (app_assoc plain), Hxy. apply load_two. }
  assert (Hb2 : is_byte x /\ is_byte y).
  { assert (Hall : bytes_ok (plain ++ p2)) by (apply Forall_app_2; [done|]; by apply Forall_app in Hok as [_ ?]).
    rewrite Hxy in Hall. unfold bytes_ok in Hall. rewrite !Forall_cons_iff in Hall. tauto. }
  cbv beta iota zeta. rewrite swapw_ld16 by tauto. destruct (Z.ltb_spec size (dec16 x y)).
  { hs_step. apply HQ1. zlen_lia. }
  hs_step. apply wp_on_read. intros s1 ((Hn1 & _ & Hid1 & _) & Hs1 & _). repeat hs_step.
  rewrite <- Hbl. replace (pre ++ plain ++ p2 ++ post) with (opened_mem pre plain (p1 ++ p2) post)
    by (unfold opened_mem; by rewrite Hrest).
  apply (HQ2 k plain k'); try done; [zlen_lia|lia|]. cbn. by rewrite Hn1.
Qed.

(** What the loop has of a packet: [got] of its bytes, in the caller's memory. *)
Definition in_progress s (pre got room post mem : list Z) : Prop :=
  mem = pre ++ got ++ room ++ post /\ bytes_ok got /\
  noise_msg_recv_size (nc s) = zlen got + zlen room /\
  exists l, recv_buf (nc s) =
    Some (Region (zlen pre) (zlen pre + zlen got) l (zlen pre + zlen got + zlen room)).

Definition closed_nc (r : Z) (n : nconn HS CS) : nconn HS CS :=
  n <| recv_buf := None |> <| noise_msg_recv_size := NGX_NSOC_SIZE_UNSET |> <| last := r |>.

Lemma recv_loop_correct fuel : forall size pre got room post mem s (Q : Z * list Z -> hs HS CS W -> Prop),
  in_progress s pre got room post mem -> (length room < fuel)%nat ->
  is_Some (NoiseRecvCipherObj (noise_connection (nc s))) ->
  (forall got' room' mem' s', in_progress s' pre got' room' post mem' ->
     zlen got' + zlen room' = zlen got + zlen room -> got ++ stream s = got' ++ stream s' ->
     (exists b, nc s' = (nc s) <| recv_buf := b |> <| last := NGX_AGAIN |>) ->
     c_id (c s') = c_id (c s) -> Q (NGX_AGAIN, mem') s') ->
  (forall r mem' s', r = 0 /\ ~ opened s \/ r = NGX_ERROR -> zlen mem' = zlen mem -> Q (r, mem') s') ->
  (forall packet k plain k' s', zlen packet = zlen got + zlen room ->
     got ++ stream s = packet ++ stream s' ->
     NoiseRecvCipherObj (noise_connection (nc s)) = Some k ->
     cs_decrypt k packet = (NOISE_ERROR_NONE, plain, k') -> zlen packet = zlen plain + 16 ->
     body_length plain packet <= size -> c_id (c s') = c_id (c s) ->
     nc s' = (set_recv_cipher k' (nc s)) <| recv_buf := None |> <| last := 0 |>
               <| noise_msg_recv_size := NGX_NSOC_SIZE_UNSET |> ->
     Q (body_length plain packet, opened_mem pre plain packet post) s') ->
  wp (recv_loop fuel size mem) Q s.
Proof.
  induction fuel as [|fuel IH]; intros size pre got room post mem s Q (-> & Hok & Hsz & l & Hb) Hf Hk HQ1 HQ2 HQ3;
    [lia|].
  cbn [recv_loop]. repeat hs_step. rewrite Hb. eapply wp_mderef; [done|]. cbn [r_end r_pos].
  replace (zlen pre + zlen got + zlen room - (zlen pre + zlen got)) with (zlen room) by lia.
  hs_step. apply wp_recv. intros r bs s1 Hq Hs Ho Hres. pose proof Hq as (Hn & Hp & Hid & Hio & Hop).
  destruct Hres as [(Hr & Hl & Hbs)|(-> & Hr)].
  - rewrite (proj2 (Z.ltb_lt 0 r)) by lia. destruct (mem_split r room) as (old & room' & -> & Hold); [lia|].
    hs_step. eapply wp_mderef.
    { rewrite <- zlen_app, <- app_assoc, (app_assoc pre got). apply store_app. lia. }
    repeat hs_step. cbn zeta.
    match goal with |- wp (if ?x then _ else _) _ _ =>
      replace x with (zlen pre + zlen got + r - zlen pre =? zlen got + zlen (old ++ room'))
        by (cbn; by rewrite Hn, Hsz) end.
    assert (Hgot : bytes_ok (got ++ bs)) by by apply Forall_app_2.
    replace ((pre ++ got) ++ bs ++ room' ++ post) with (pre ++ (got ++ bs) ++ room' ++ post)
      by (by rewrite <- !app_assoc).
    destruct (Z.eqb_spec (zlen pre + zlen got + r - zlen pre) (zlen got + zlen (old ++ room'))) as [He|Hne].
    + destruct room' as [|]; [|zlen_lia]. cbn [app].
      apply recv_packet_correct; try done.
      * cbn. rewrite Hn. rewrite Hsz. zlen_lia.
      * cbn. by rewrite Hn.
      * intros mem' s' Hlm. apply HQ2; [by right|]. rewrite Hlm. zlen_lia.
      * intros k plain k' s' Hk' Hdec Hlen Hbl Hst Hid' Hnc. cbn in Hk', Hnc, Hid'. rewrite Hn in Hk', Hnc.
        eapply (HQ3 (got ++ bs) k plain k'); try done.
        -- zlen_lia.
        -- rewrite Hs, app_assoc. f_equal. unfold stream in *. cbn in Hst. done.
        -- congruence.
    + apply (IH size pre (got ++ bs) room' post); try done.
      * split_and!; try done.
        -- cbn. rewrite Hn, Hsz. zlen_lia.
        -- exists l. cbn. f_equal.
           cbv beta iota delta [upd r_start r_pos r_last r_end]. f_equal; zlen_lia.
      * rewrite length_app in Hf. unfold zlen in *. lia.
      * cbn. by rewrite Hn.
      * intros got' room'' mem' s' Hprog Hlen Hst (b' & Hnc) Hid'. apply (HQ1 got' room''); try done.
        -- zlen_lia.
        -- rewrite Hs, app_assoc. done.
        -- exists b'. rewrite Hnc. cbn. by rewrite Hn.
        -- cbn in Hid'. congruence.
      * intros r' mem' s' Hr' Hlm. apply HQ2; [|rewrite Hlm; zlen_lia].
        destruct Hr' as [[-> Hno]|Hr']; [left|by right]. split; [done|]. intros Hx. apply Hno. by apply Hop.
      * intros packet k plain k' s' Hlen Hst Hk' Hdec Hpl Hbl Hid' Hnc. cbn in Hk', Hnc, Hid'. rewrite Hn in Hk', Hnc.
        eapply (HQ3 packet k plain k'); try done.
        -- zlen_lia.
        -- rewrite Hs, app_assoc. exact Hst.
        -- congruence.
  - rewrite (proj2 (Z.ltb_ge 0 r)) by (by eapply read_failed_nonpos). cbn [app] in Hs.
    destruct (Z.eqb_spec r NGX_AGAIN) as [->|Hne]; cbn [negb]; repeat hs_step.
    + apply (HQ1 got room); try done.
      * split_and!; try done; cbn; rewrite Hn; [done|]. by exists l.
      * by rewrite Hs.
      * exists (recv_buf (nc s)). cbn. rewrite Hn. by destruct (nc s).
    + apply HQ2; [|done]. destruct Hr as [Hr|[Hr|Hr]]; [by left|done|by right].
Qed.

(** The bytes of the current packet that a connection has taken off the wire,
    when the caller reads at [off]: part of the length field, or the length and
    [got] of the packet, which are in the caller's memory. *)
Inductive on_the_way (off : Z) s (mem : list Z) : list Z -> Prop :=
| way_length :
    wants_length (msg_field HS CS) s -> partial_ok (msg_field HS CS) s ->
    on_the_way off s mem
      (if noise_msg_size_reading (nc s) then [noise_msg_recv_size (nc s)] else [])
| way_packet pre got room post :
    zlen pre = off + 2 -> noise_msg_size_reading (nc s) = false ->
    in_progress s pre got room post mem -> zlen got + zlen room < 65536 ->
    on_the_way off s mem (be16 (zlen got + zlen room) ++ got).

(** How a read ends, with [p] already taken. *)
Inductive recv_end (off size : Z) s (p : list Z) : Z -> list Z -> hs HS CS W -> Prop :=
| recv_wait p' mem' s' :
    on_the_way off s' mem' p' -> p ++ stream s = p' ++ stream s' ->
    c_id (c s') = c_id (c s) -> connection (nc s') = connection (nc s) ->
    recv_end off size s p NGX_AGAIN mem' s'
| recv_body packet plain k k' pre post s' :
    zlen pre = off + 2 -> p ++ stream s = frame packet ++ stream s' -> zlen packet < 65536 ->
    NoiseRecvCipherObj (noise_connection (nc s)) = Some k ->
    cs_decrypt k packet = (NOISE_ERROR_NONE, plain, k') -> zlen packet = zlen plain + 16 ->
    body_length plain packet <= size ->
    noise_msg_recv_size (nc s') = NGX_NSOC_SIZE_UNSET ->
    NoiseRecvCipherObj (noise_connection (nc s')) = Some k' ->
    recv_end off size s p (body_length plain packet) (opened_mem pre plain packet post) s'
| recv_broken mem' s' : recv_end off size s p NGX_ERROR mem' s'.

Lemma recv_loop_end off size s s1 p pre got room post mem b fuel :
  zlen pre = off + 2 -> in_progress s1 pre got room post mem -> recv_buf (nc s1) = Some b ->
  fuel = S (Z.to_nat (r_end b - r_pos b)) -> opened s1 ->
  noise_msg_size_reading (nc s1) = false -> zlen got + zlen room < 65536 ->
  is_Some (NoiseRecvCipherObj (noise_connection (nc s1))) ->
  NoiseRecvCipherObj (noise_connection (nc s1)) = NoiseRecvCipherObj (noise_connection (nc s)) ->
  p ++ stream s = be16 (zlen got + zlen room) ++ got ++ stream s1 ->
  c_id (c s1) = c_id (c s) -> connection (nc s1) = connection (nc s) ->
  wp (recv_loop fuel size mem)
    (fun res s' => recv_end off size s p res.1 res.2 s' /\ zlen res.2 = zlen mem) s1.
Proof.
  intros Hpre Hprog Hb -> Hop Hrd Hsz Hk Hkk Hst Hid Hcn.
  pose proof Hprog as (Hmem & Hok & _ & l & Hb'). rewrite Hb in Hb'. injection Hb' as ->.
  apply (recv_loop_correct _ size pre got room post); try done.
  - cbn [r_end r_pos]. unfold zlen. lia.
  - intros got' room' mem' s' Hprog' Hl Hst' (b' & Hnc) Hid'. split.
    + apply (recv_wait off size s p (be16 (zlen got' + zlen room') ++ got')).
      * apply (way_packet _ _ _ pre got' room' post); try done; [by rewrite Hnc|lia].
      * rewrite Hl, Hst, <- app_assoc. f_equal. exact Hst'.
      * congruence.
      * by rewrite Hnc.
    + destruct Hprog' as (-> & _). rewrite Hmem. cbn [snd]. zlen_lia.
  - intros r mem' s' [[-> Hno]| ->] Hl; [done|]. split; [apply recv_broken|done].
  - intros packet k plain k' s' Hl Hst' Hk' Hdec Hpl Hbl Hid' Hnc. split.
    + eapply (recv_body off size s p packet plain k k' pre post); try done; try congruence.
      * unfold frame. rewrite Hl, Hst, <- app_assoc. by f_equal.
      * by rewrite Hnc.
      * by rewrite Hnc.
    + cbn [snd]. rewrite Hmem. unfold opened_mem.
      rewrite !zlen_app, zlen_zdrop by zlen_lia. zlen_lia.
Qed.

Lemma recv_nc_run off size mem s p :
  0 <= off -> off + 2 + 65535 <= zlen mem -> opened s ->
  is_Some (NoiseRecvCipherObj (noise_connection (nc s))) ->
  on_the_way off s mem p ->
  wp (recv_nc (Some off) size mem)
    (fun res s' => recv_end off size s p res.1 res.2 s' /\ zlen res.2 = zlen mem) s.
Proof.
  intros Hoff Hroom Hop Hk Hway. unfold recv_nc. repeat hs_step.
  destruct (last (nc s) =? NGX_ERROR).
  { hs_step. apply wp_on_read. intros s1 _. hs_step. split; [apply recv_broken|done]. }
  hs_step. unfold recv_begin. repeat hs_step. destruct Hway as [Hwant Hpart|pre got room post Hpre Hrd Hprog Hbnd].
  - assert (Hc : (noise_msg_recv_size (nc s) =? NGX_NSOC_SIZE_UNSET) || noise_msg_size_reading (nc s) = true).
    { destruct Hwant as [Hw|Hw]; cbn in Hw; rewrite Hw; [done|]. apply orb_true_r. }
    rewrite Hc. hs_step.
    change (@ngx_nsoc_read_noise_msg_len HS CS W OS) with (read_len (W := W) (msg_field HS CS)).
    eapply wp_mono; [by apply read_len_correct|].
    intros r s1 (Hres & Ho1 & Hp1 & Hid1 & Hio1 & Hop1).
    destruct Hres as [a b s1 Ha Hb Hu Hnc|z rd s1 Hu Hpk Hz Hnc|z n s1 [[-> Hno]| ->] Hz Hnc]; [| |done|].
    + zlit. cbn [negb]. repeat hs_step. pose proof (dec16_range a b Ha Hb) as Hr.
      assert (Hsz : noise_msg_recv_size (nc s1) = dec16 a b) by (by rewrite Hnc).
      rewrite Hsz, (proj2 (Z.eqb_neq _ _)) by (unfold NGX_NSOC_SIZE_UNSET; lia).
      hs_step. apply wp_alloc_object. intros ok s2 ((Hn2 & Hp2 & Hid2 & Hio2 & Hop2) & Hs2 & Ho2).
      destruct ok; cbn [negb]; hs_step; [|hs_step; split; [apply recv_broken|done]].
      repeat hs_step. eapply wp_mderef; [reflexivity|].
      destruct (mem_split3 (off + 2) (dec16 a b) mem) as (pre & room & post & -> & Hpre & Hrm); [lia..|].
      eapply (recv_loop_end off size s _ _ pre [] room post); try done.
      * split_and!; try done; [constructor|cbn; rewrite Hn2, Hsz; zlen_lia|].
        exists (off + 2). cbn [recv_buf nc upd]. change NGX_NSOC_LEN_FIELD_SIZE with 2.
        rewrite Hpre, Hrm, zlen_nil, Z.add_0_r. done.
      * unfold opened in *. cbn. by apply Hop2, Hop1.
      * cbn. rewrite Hn2. by rewrite Hnc.
      * zlen_lia.
      * cbn. rewrite Hn2. by rewrite Hnc.
      * cbn. rewrite Hn2. by rewrite Hnc.
      * unfold unread in Hu. cbn in Hu. rewrite Hu, zlen_nil, Z.add_0_l, Hrm, be16_dec16 by done.
        unfold stream in *. cbn. by rewrite Hs2.
      * cbn. congruence.
      * cbn. rewrite Hn2. by rewrite Hnc.
    + zlit. cbn [negb]. repeat hs_step. split; [|done].
      eapply (recv_wait off size s _ _ mem s1).
      * apply way_length; [|done]. destruct rd; [right|left]; cbn; rewrite Hnc; cbn; [done|by apply Hz].
      * exact (eq_sym Hu).
      * done.
      * by rewrite Hnc.
    + zlit. cbn [negb]. repeat hs_step. split; [apply recv_broken|done].
  - pose proof Hprog as (Hmem & Hok & Hsz & l & Hb). rewrite Hrd, Hsz.
    rewrite (proj2 (Z.eqb_neq _ _)) by (unfold NGX_NSOC_SIZE_UNSET; zlen_lia). cbn [orb].
    repeat hs_step. rewrite Hb. eapply wp_mderef; [reflexivity|].
    eapply (recv_loop_end off size s _ _ pre got room post); try done.
    split_and!; try done. by exists l.
Qed.


(** Frames are a prefix code. *)
Lemma frame_inj p q a b :
  zlen p < 65536 -> zlen q < 65536 -> frame p ++ a = frame q ++ b -> p = q /\ a = b.
Proof.
  unfold frame. intros Hp Hq Heq. rewrite <- !app_assoc in Heq. cbn [be16 app] in Heq.
  injection Heq as H1 H2 H3. assert (Hlen : zlen p = zlen q).
  { rewrite <- (dec16_be16 (zlen p)), <- (dec16_be16 (zlen q)) by zlen_lia. by rewrite H1, H2. }
  apply app_inj_1 in H3; [done|]. unfold zlen in Hlen. lia.
Qed.

Lemma body_length_be16 body packet :
  zlen body < 65536 -> body_length (be16 (zlen body) ++ body) packet = zlen body.
Proof. intros Hb. unfold body_length. cbn [be16 app]. apply dec16_be16. zlen_lia. Qed.

Lemma opened_mem_body pre body packet post :
  load (zlen pre + 2) (zlen body) (opened_mem pre (be16 (zlen body) ++ body) packet post) = Some body.
Proof.
  unfold opened_mem. rewrite <- app_assoc, (app_assoc pre).
  replace (zlen pre + 2) with (zlen (pre ++ be16 (zlen body))) by zlen_lia. apply load_app.
Qed.

End RecordProofs.

(** ** A length that does not fit its packet *)

(** The body length inside a packet is compared with the caller's [size] but
    not with the packet: an authenticated packet that declares more bytes than
    it carries makes [ngx_nsoc_recv] report them all, and what the caller reads
    past [rest] is whatever the memory held. *)
Theorem recv_length_unchecked {HS CS W} `{NoiseLaws HS CS} (b : region) size pre packet post
    (s : hs HS CS W) k k' rest L
    (Hstart : r_start b = zlen pre) (Hsz : noise_msg_recv_size (nc s) = zlen packet)
    (Hok : bytes_ok packet)
    (Hk : NoiseRecvCipherObj (noise_connection (nc s)) = Some k)
    (Hdec : cs_decrypt k packet = (NOISE_ERROR_NONE, be16 L ++ rest, k'))
    (HL : zlen rest < L <= size) (HL' : L < 65536) :
  exists mem' s', recv_packet b size (pre ++ packet ++ post) s = Done ((L, mem'), s').
Proof.
  destruct (cs_decrypt_length _ _ _ _ Hok Hdec) as [Hlen _].
  rewrite zlen_app, zlen_be16 in Hlen. change NOISE_PROTOCOL_MAC_DATA_SIZE with 16 in Hlen.
  destruct (mem_split (zlen (be16 L ++ rest)) packet) as (p1 & p2 & -> & Hp1); [zlen_lia|].
  unfold recv_packet, mbind, M_bind, gets. cbn [nc]. rewrite Hstart, Hsz, load_app, Hk.
  cbn [mderef mret M_ret]. rewrite Hdec. cbn [on_nc modify]. unfold NOISE_ERROR_NONE. cbn [Z.eqb negb].
  rewrite <- app_assoc, (store_app pre p1) by (by rewrite Hp1). cbn [mderef mret M_ret].
  change (pre ++ (be16 L ++ rest) ++ p2 ++ post)
    with (pre ++ u8 (Z.shiftr L 8) :: u8 L :: (rest ++ p2 ++ post)).
  rewrite load_two. cbn [mderef mret M_ret].
  pose proof (zlen_nonneg rest).
  rewrite swapw_ld16, dec16_be16 by (apply u8_range || lia).
  rewrite (proj2 (Z.ltb_ge _ _)) by lia. by do 2 eexists.
Qed.

(** ** Packets that do not fit *)

Section Overflow.
Context {HS CS : Type} {NL : NoiseLib HS CS}.

(** A connection that waits for a packet. *)
Definition idle_nc (x : nconn HS CS) : Prop :=
  noise_msg_recv_size x = NGX_NSOC_SIZE_UNSET /\ noise_msg_size_reading x = false /\
  last x <> NGX_ERROR.

(** The socket delivers a length field, then the whole packet in one piece. *)
Definition delivers (packet : list Z) (st : sess HS CS net) : Prop :=
  inbox (sw st) = [Data (be16 (zlen packet)); Data packet].

(** After the length field: the descriptor of the packet, and the packet next. *)
Lemma recv_begin_delivers x st packet off :
  idle_nc x -> delivers packet st -> 0 < zlen packet < 65536 ->
  exists s1, recv_begin (Some off) (view x st) =
      Done (inr (Some (Region (off + 2) (off + 2) (off + 2) (off + 2 + zlen packet))), s1) /\
    nc s1 = x <| noise_msg_recv_size := zlen packet |> <| noise_msg_size_reading := false |> /\
    inbox (world s1) = [Data packet] /\ c_id (c s1) = c_id (sc st).
Proof.
  intros (Hsz & Hrd & _) Hdel Hl. destruct st as [x0 ses p [ib o sl]]. unfold delivers in Hdel. cbn in Hdel.
  subst ib. unfold recv_begin, ngx_nsoc_read_noise_msg_len, mbind, M_bind, gets, view. cbn [nc sc sw sp].
  rewrite Hsz. change (NGX_NSOC_SIZE_UNSET =? NGX_NSOC_SIZE_UNSET) with true. cbn [orb nc].
  rewrite Hrd. cbn [negb read_size_loop]. unfold on_nc, modify, mbind, M_bind, on_read, on_c, modify, ngx_recv.
  cbv beta iota zeta. rewrite (os_recv_piece 2 _ _ (be16 (zlen packet)) [Data packet]);
    [|reflexivity|apply be16_bytes|done|done]. cbv beta iota.
  unfold mderef, mret, M_ret.
  change (0 <? 2) with true. cbv iota.
  change (store 0 (be16 (zlen packet)) [0; 0]) with (Some (be16 (zlen packet))). cbv iota beta.
  change (u8 (2 - 2) =? 0) with true. cbv iota. unfold byte_at, mderef, mret, M_ret.
  change (be16 (zlen packet) !! 0%nat) with (Some (u8 (Z.shiftr (zlen packet) 8))).
  change (be16 (zlen packet) !! 1%nat) with (Some (u8 (zlen packet))). cbv iota beta.
  rewrite dec16_be16 by lia. change (NGX_OK =? NGX_OK) with true. cbn [negb]. cbv iota.
  cbn. rewrite (proj2 (Z.eqb_neq (zlen packet) NGX_NSOC_SIZE_UNSET)) by (unfold NGX_NSOC_SIZE_UNSET; lia).
  eexists. split; [reflexivity|]. cbn. by destruct x.
Qed.

(** The first read of the packet, after [recv_begin]. *)
Lemma recv_loop_delivers fuel size mem s1 off packet :
  recv_buf (nc s1) = Some (Region (off + 2) (off + 2) (off + 2) (off + 2 + zlen packet)) ->
  noise_msg_recv_size (nc s1) = zlen packet -> inbox (world s1) = [Data packet] ->
  0 < zlen packet -> bytes_ok packet ->
  recv_loop (S fuel) size mem s1 =
  match store (off + 2) packet mem with
  | None => Undefined
  | Some mem =>
      let b := Region (off + 2) (off + 2 + zlen packet) (off + 2) (off + 2 + zlen packet) in
      recv_packet b size mem
        (Hs (c s1) ((nc s1) <| recv_buf := Some b |>) (prologue s1)
           (Net [] (sent_bytes (world s1)) (send_script (world s1))))
  end.
Proof.
  intros Hb Hsz Hin Hl Hok. destruct s1 as [x0 n p [ib o sl]]. cbn in *. subst ib.
  unfold mbind, M_bind, gets. cbn. rewrite Hb. cbn. unfold ngx_recv. cbn [c read world].
  rewrite (os_recv_piece _ _ _ packet []); [|done|done|cbn; lia|cbn; lia]. cbn.
  rewrite (proj2 (Z.ltb_lt _ _)) by lia.
  destruct (store (off + 2) packet mem) as [mem1|]; [|done]. cbn. rewrite Hsz.
  replace (off + 2 + zlen packet - (off + 2)) with (zlen packet) by lia.
  replace (off + 2 + zlen packet - (off + 2)) with (zlen packet) by lia.
  rewrite Z.eqb_refl. by destruct x0.
Qed.

Lemma recv_delivers st d x off size mem packet :
  at_side d x st -> idle_nc x -> delivers packet st -> 0 < zlen packet < 65536 -> bytes_ok packet ->
  store (off + 2) packet mem = None -> ngx_nsoc_recv (Some off) size mem st = Undefined.
Proof.
  intros Hat Hidle Hdel Hl Hok Hst. apply (with_nc_undefined _ _ _ d x Hat). unfold recv_nc.
  unfold mbind at 1, M_bind, gets. cbn [nc view].
  destruct Hidle as (Hsz & Hrd & Hlast) eqn:Hi. rewrite (proj2 (Z.eqb_neq _ _)) by done.
  destruct (recv_begin_delivers x st packet off Hidle Hdel Hl) as (s1 & Hb & Hnc & Hin & _).
  unfold mbind, M_bind. unfold view in Hb |- *. rewrite Hb. cbv beta iota.
  unfold on_nc, modify, mderef, mret, M_ret. cbv beta iota.
  rewrite (recv_loop_delivers _ _ _ _ off packet); [by rewrite Hst|..]; try done; try lia.
  by cbn; rewrite Hnc.
Qed.

(** C40: [ngx_nsoc_recv] trusts the length in the packet header: when a peer sends
    a packet that is longer than the room behind the caller's pointer, the bytes
    are written past the end of the caller's memory, whatever [size] the caller
    passed. *)
Theorem nsoc_recv_overflow st d x off size mem packet
    (Hat : at_side d x st) (Hidle : idle_nc x) (Hdel : delivers packet st)
    (Hlen : 0 < zlen packet < 65536) (Hok : bytes_ok packet)
    (Hsmall : zlen mem < off + 2 + zlen packet) :
  ngx_nsoc_recv (Some off) size mem st = Undefined.
Proof.
  eapply recv_delivers; try done. unfold store.
  rewrite (proj2 (Z.leb_gt (off + 2 + zlen packet) (zlen mem))) by lia. by rewrite andb_false_r.
Qed.
End Overflow.

(** ** Witnesses *)

(** A session whose server side is past the handshake. *)
Definition ready_nc : nconn toy_hs Z :=
  (new_nconn demo_noise 1 NGX_NSOC_BUFFER SERVER_ROLE)
    <| noise_connection := NoiseProtocolConn None (Some 0) (Some 0) |>
    <| handshake_phase := END_PHASE |> <| handshaked := true |>.

Definition ready_sess (script : list chunk) (sends : list Z) : sess toy_hs Z net :=
  Sess demo_conn (NsocSession None (Some ready_nc) true) demo_prologue (Net script [] sends).

Lemma ready_at script sends : at_side ServerSide ready_nc (ready_sess script sends).
Proof. done. Qed.

Lemma nsoc_write_sends_packet_witness :
  exists mem' s', ngx_nsoc_write (Some 0) 7 ([0; 0; 0; 0] ++ [1; 2; 3] ++ replicate 16 0)
      (ready_sess [] []) = Done ((7, mem'), unview ServerSide s' (ready_sess [] [])) /\
    outbox s' = [0; 21; 0; 3; 1; 2; 3] ++ replicate 16 0.
Proof.
  destruct (nsoc_write_sends_packet (ready_sess [] []) ServerSide ready_nc [] [0; 0; 0; 0] [1; 2; 3]
              (replicate 16 0) [] (ready_at _ _) eq_refl eq_refl) as (n & mem' & s' & Hrun & _ & Hend).
  - repeat constructor; done.
  - done.
  - done.
  - eauto.
  - cbn [app] in *. rewrite app_nil_r in Hrun.
    assert (n = 7) as -> by (vm_compute in Hrun; by injection Hrun as <- _ _).
    exists mem', s'. split; [exact Hrun|].
    inversion Hend as [| packet k' s0 (k & Hk & Henc) _ Ho _ Heq|]; simplify_eq; try done.
    rewrite Ho. injection Hk as <-. vm_compute in Henc. by injection Henc as <- _.
Defined.

(** The state a write leaves that could send five bytes of its packet. *)
Lemma nsoc_write_resume_crashes_witness :
  exists n s', n <= 0 /\ to_send (nc s') <> 0 /\
    ngx_nsoc_write (Some 0) 7 (replicate 23 0) (unview ServerSide s' (ready_sess [] [5; 0])) = Undefined.
Proof.
  destruct (nsoc_write_sends_packet (ready_sess [] [5; 0]) ServerSide ready_nc [] [0; 0; 0; 0] [1; 2; 3]
              (replicate 16 0) [] (ready_at _ _) eq_refl eq_refl) as (n & mem' & s' & Hrun & _ & Hend).
  - repeat constructor; done.
  - done.
  - done.
  - eauto.
  - assert (Hn : n = NGX_AGAIN /\ to_send (nc s') = 23).
    { apply (f_equal (fun o => match o with
                               | Done (r, st) => Some (r.1, to_send <$> server_noise_connection (ss st))
                               | _ => None
                               end)) in Hrun.
      vm_compute in Hrun. injection Hrun as Hn Ht. exact (conj (eq_sym Hn) (eq_sym Ht)). }
    destruct Hn as [-> Hts]. exists NGX_AGAIN, s'. split; [done|]. split; [by rewrite Hts|].
    apply (nsoc_write_resume_crashes (ready_sess [] [5; 0]) ServerSide ready_nc [1; 2; 3] NGX_AGAIN s');
      try done. by rewrite Hts.
Defined.

Definition big_mem : list Z := replicate (Z.to_nat 65540) 0.

Lemma big_mem_room : 0 + 2 + 65535 <= zlen big_mem.
Proof. unfold big_mem, zlen. rewrite length_replicate. lia. Qed.
Definition demo_packet : list Z := [0; 3; 1; 2; 3] ++ replicate 16 0.

Lemma demo_way script sends : on_the_way 0 (view ready_nc (ready_sess script sends)) big_mem [].
Proof.
  apply (way_length 0 (view ready_nc (ready_sess script sends))); [left; reflexivity|discriminate].
Qed.



(** A packet of 21 bytes into a buffer of 20. *)
Lemma nsoc_recv_overflow_witness :
  ngx_nsoc_recv (Some 0) 20 (replicate 20 0)
    (ready_sess [Data (be16 (zlen demo_packet)); Data demo_packet] []) = Undefined.
Proof.
  apply (nsoc_recv_overflow _ ServerSide ready_nc 0 20 (replicate 20 0) demo_packet).
  - apply ready_at.
  - split_and!; done.
  - reflexivity.
  - done.
  - repeat (apply Forall_cons_2; [done|]). constructor.
  - done.
Defined.

Lemma recv_length_unchecked_witness :
  exists mem' s', recv_packet (Region 2 20 2 20) 65517 ([0; 0] ++ [3; 232] ++ replicate 16 0)
    (view (ready_nc <| noise_msg_recv_size := 18 |>) (ready_sess [] [])) = Done ((1000, mem'), s').
Proof.
  apply (recv_length_unchecked (Region 2 20 2 20) 65517 [0; 0] ([3; 232] ++ replicate 16 0) []
           (view (ready_nc <| noise_msg_recv_size := 18 |>) (ready_sess [] [])) 0 1 [] 1000);
    try reflexivity; try done.
  repeat (apply Forall_cons_2; [done|]). constructor.
Defined.
