(* ===== verification/Handshake.v ===== *)
(** * The Noise handshake: ngx_nsoc_handler.c and ngx_noise_protocol.c

    [ngx_nsoc_do_handshake_process] is a resumable state machine: it runs until
    it needs the network, returns NGX_AGAIN, and is called again by the event
    handler.  Its position is kept in [handshake_phase], [last] (the action to
    resume) and [msg_num] (the message to come).  [fuel] bounds its loop and the
    loops of the readers it calls. *)

From stdpp Require Import prelude list numbers.
From S2P Require Import Prelude NoiseConn Net HsRead Record.

Section Handshake.
Context {HS CS W : Type} {NL : NoiseLib HS CS} {OS : NgxOs W} {PO : NgxPool W}.
Abbreviation ST := (M (hs HS CS W)).

(** ** Starting the Noise library *)

Definition set_hs (h : option HS) (n : nconn HS CS) : nconn HS CS :=
  n <| noise_connection := (noise_connection n) <| NoiseHandshakeObj := h |> |>.

Definition role_eqb (a b : role) : bool :=
  match a, b with
  | UNSET_ROLE, UNSET_ROLE | CLIENT_ROLE, CLIENT_ROLE | SERVER_ROLE, SERVER_ROLE => true
  | _, _ => false
  end.

(** The static keys the pattern needs: [elts] of the arrays of the context is
    passed as the key, for as many bytes as the algorithm's keys have. *)
Definition set_static_keys (ctx : option noise_ctx) (h : HS) : outcome (Z * HS) :=
  '(err, h) ←
    (if hs_needs_local_keypair h then
       x ← deref ctx;
       a ← deref (private_keys x);
       key ← deref (load 0 (hs_local_private_len h) (ka_elts a));
       Done (hs_set_local_private h key)
     else Done (NOISE_ERROR_NONE, h));
  if negb (err =? NOISE_ERROR_NONE) then Done (NGX_ERROR, h) else
  '(err, h) ←
    (if hs_needs_remote_public h then
       x ← deref ctx;
       a ← deref (public_keys x);
       key ← deref (load 0 (hs_remote_public_len h) (ka_elts a));
       Done (hs_set_remote_public h key)
     else Done (NOISE_ERROR_NONE, h));
  if negb (err =? NOISE_ERROR_NONE) then Done (NGX_ERROR, h) else Done (NGX_OK, h).

Definition ngx_noise_protocol_init_handshake : ST Z :=
  n0 ← gets nc;
  pro ← gets prologue;
  if negb (role_eqb (noise_role n0) CLIENT_ROLE) && negb (role_eqb (noise_role n0) SERVER_ROLE)
  then mret NGX_ERROR
  else if negb (noise_init =? NOISE_ERROR_NONE) then mret NGX_ERROR
  else
    let hdr := header pro in
    let id ch v := Z.land (NOISE_ID ch v) 0xFFFF in
    let r := if role_eqb (noise_role n0) CLIENT_ROLE then NOISE_ROLE_INITIATOR else NOISE_ROLE_RESPONDER in
    let '(err, h) := hs_new_by_id NOISE_PREFIX_STANDARD (id 80 (pattern_id hdr)) (id 68 (dh_id hdr))
                       (id 67 (cipher_id hdr)) (id 72 (hash_id hdr)) 0 r in
    on_nc (set_hs h);;
    if negb (err =? NOISE_ERROR_NONE) then mret NGX_ERROR else
    h ← mderef h;
    let '(err, h) := hs_set_prologue h (prologue_bytes pro) in
    on_nc (set_hs (Some h));;
    if negb (err =? NOISE_ERROR_NONE) then mret NGX_ERROR else
    '(rc, h) ← lift (set_static_keys (nc_ctx n0) h);
    on_nc (set_hs (Some h));;
    mret rc.

(** ** Writing a message *)

(** [b->start = b->pos = ngx_palloc(c->pool, size)] and the stores at the front;
    the result of [ngx_palloc] is not tested. *)
Definition start_message (size : Z) (stores : list (Z * list Z)) : ST (list Z) :=
  o ← palloc size;
  mem ← mderef o;
  mderef (foldl (fun m '(off, bs) => m ≫= store off bs) (Some mem) stores).

(** The end of the function: the Noise message goes behind [size] bytes of
    header, its length into the last two of them. *)
Definition finish_message (size : Z) (mem : list Z) : ST (Z * option nbuf) :=
  n0 ← gets nc;
  h ← mderef (NoiseHandshakeObj (noise_connection n0));
  let '(n, m, h') := hs_write_message h NOISE_PROTOCOL_MAX_HANDSHAKE_LEN in
  on_nc (set_hs (Some h'));;
  if negb (n =? NOISE_ERROR_NONE) then mret (n, None) else
  mem ← mderef (store size m mem);
  mem ← mderef (store (size - NGX_NSOC_LEN_FIELD_SIZE) (be16 (zlen m)) mem);
  mret (NGX_OK, Some (NBuf mem 0 (size + zlen m))).

Definition ngx_nsoc_handshake_start_action_write_message : ST (Z * option nbuf) :=
  ok ← alloc_object;
  if negb ok then mret (NGX_ERROR, None) else
  pro ← gets prologue;
  n0 ← gets nc;
  let room neg := neg + NOISE_PROTOCOL_MAX_HANDSHAKE_LEN + 2 * NGX_NSOC_LEN_FIELD_SIZE in
  let next k : ST unit := on_nc (fun n => n <| msg_num := k |>) in
  if msg_num n0 =? NGX_NSOC_1MSG then
    mem ← start_message (room NGX_NSOC_1MSG_NEG_DATA_SIZE)
            [(0, le16 (header_len pro) ++ first_hdr_bytes (header pro))];
    next NGX_NSOC_2MSG_OK;;
    finish_message (NGX_NSOC_1MSG_NEG_DATA_SIZE + 2 * NGX_NSOC_LEN_FIELD_SIZE) mem
  else if msg_num n0 =? NGX_NSOC_2MSG_OK then
    mem ← start_message (room NGX_NSOC_2MSG_NEG_DATA_OK_SIZE)
            [(0, le16 (swapw NGX_NSOC_2MSG_NEG_DATA_OK_SIZE))];
    next NGX_NSOC_3MSG;;
    finish_message (NGX_NSOC_2MSG_NEG_DATA_OK_SIZE + 2 * NGX_NSOC_LEN_FIELD_SIZE) mem
  else if msg_num n0 =? NGX_NSOC_3MSG then
    mem ← start_message (room NGX_NSOC_3MSG_NEG_DATA_SIZE)
            [(0, le16 (swapw NGX_NSOC_3MSG_NEG_DATA_SIZE))];
    next NGX_NSOC_1MSG;;
    finish_message (NGX_NSOC_3MSG_NEG_DATA_SIZE + 2 * NGX_NSOC_LEN_FIELD_SIZE) mem
  else if msg_num n0 =? NGX_NSOC_2MSG_ERR then
    mem ← start_message (room NGX_NSOC_2MSG_NEG_DATA_ERR_SIZE)
            [(0, le16 (swapw NGX_NSOC_2MSG_NEG_DATA_ERR_SIZE)); (2, le16 NGX_NSOC_VERSION_ID);
             (4, [0xFF]); (5, le16 0)];
    next NGX_NSOC_1MSG;;
    mret (NGX_OK, Some (NBuf mem 0 (NGX_NSOC_2MSG_NEG_DATA_ERR_SIZE + 2 * NGX_NSOC_LEN_FIELD_SIZE)))
  else if msg_num n0 =? NGX_NSOC_2MSG_FB then
    mem ← start_message (room NGX_NSOC_2MSG_NEG_DATA_FB_SIZE)
            [(0, le16 (swapw NGX_NSOC_2MSG_NEG_DATA_ERR_SIZE)); (2, le16 NGX_NSOC_VERSION_ID);
             (4, [0x01])];
    next NGX_NSOC_1MSG;;
    finish_message (NGX_NSOC_2MSG_NEG_DATA_ERR_SIZE + 2 * NGX_NSOC_LEN_FIELD_SIZE) mem
  else mret (NGX_ERROR, None).

(** ** Reading a message *)

(** The loop that reads the negotiation data of the message to come and steps
    [msg_num]; [size] is the local variable, UNSET at first.  The value is the
    [n] with which the loop is left ([inr]), or an early return ([inl]). *)
Fixpoint read_message_loop (fuel : nat) (size : Z) : ST (Z + Z) :=
  match fuel with
  | O => out_of_fuel
  | S fuel =>
      n0 ← gets nc;
      let negotiate size : ST (Z + Z) :=
        n ← ngx_nsoc_read_negotiation fuel size;
        if n <? 0 then mret (inr n) else read_message_loop fuel size in
      let step k : ST (Z + Z) := on_nc (fun n => n <| msg_num := k |>);; mret (inr NGX_OK) in
      if msg_num n0 =? NGX_NSOC_1MSG then step NGX_NSOC_2MSG_OK
      else if msg_num n0 =? NGX_NSOC_2MSG_OK then
        if size =? NGX_NSOC_SIZE_UNSET then negotiate NGX_NSOC_2MSG_NEG_DATA_OK_SIZE
        else if neg_data_recv_size n0 =? NGX_NSOC_2MSG_NEG_DATA_OK_SIZE then step NGX_NSOC_3MSG
        else
          b ← mderef (buf n0);
          status ← mderef (b_mem b !! Z.to_nat (b_pos b + 2));
          if status =? 0xFF then mret (inl NGX_ERROR)
          else if status =? 1 then mret (inl NGX_ERROR)
          else negotiate size
      else if msg_num n0 =? NGX_NSOC_3MSG then
        if size =? NGX_NSOC_SIZE_UNSET then negotiate NGX_NSOC_3MSG_NEG_DATA_SIZE
        else step NGX_NSOC_1MSG
      else mret (inl NGX_ERROR)
  end.

Definition free_buf : ST unit := on_nc (fun n => n <| buf := None |>).

Definition ngx_nsoc_handshake_start_action_read_message (fuel : nat) : ST Z :=
  r ← read_message_loop fuel NGX_NSOC_SIZE_UNSET;
  match r with
  | inl n => mret n
  | inr n =>
      free_buf;;
      if n <? 0 then mret n else
      n ← ngx_nsoc_read_noise_msg fuel;
      if n <? 0 then mret n else
      n0 ← gets nc;
      b ← mderef (buf n0);
      m ← mderef (load 0 (noise_msg_recv_size n0) (b_mem b));
      h ← mderef (NoiseHandshakeObj (noise_connection n0));
      let '(err, h') := hs_read_message h m in
      on_nc (set_hs (Some h'));;
      if negb (err =? NOISE_ERROR_NONE) then mret NGX_ERROR else
      free_buf;;
      on_nc (fun n => n <| last := 0 |> <| noise_msg_recv_size := NGX_NSOC_SIZE_UNSET |>
                        <| noise_msg_size_reading := false |>
                        <| neg_data_recv_size := NGX_NSOC_SIZE_UNSET |>
                        <| neg_data_size_reading := false |>);;
      mret NGX_OK
  end.

(** ** Sending what was written *)

(** [c->send(c, b->pos, size)]: nginx's function until the handshake is over. *)
Definition c_send (b : nbuf) : ST (Z * nbuf) :=
  f ← gets (fun s => io (c s));
  let size := b_last b - b_pos b in
  match f with
  | OsIo => bs ← mderef (load (b_pos b) size (b_mem b)); n ← ngx_send bs; mret (n, b)
  | NsocIo =>
      if size <? 2 * NGX_NSOC_LEN_FIELD_SIZE then mret (NGX_ERROR, b)
      else '(n, mem) ← write_nc (b_pos b) size (b_mem b); mret (n, b <| b_mem := mem |>)
  end.

(** The send of both phases: [false] is the return of NGX_AGAIN or NGX_ERROR in
    the first component. *)
Definition send_flight (b : nbuf) : ST (Z * bool) :=
  let size := b_last b - b_pos b in
  '(n, b) ← c_send b;
  set_handshake_handlers;;
  if (n =? NGX_AGAIN) || (n <? size) then
    on_write (fun e => e <| ready := false |>);;
    r ← handle_write_event;
    if negb (r =? NGX_OK) then mret (NGX_ERROR, false) else
    add_write_timer;;
    del_read_timer;;
    on_nc (fun x => x <| buf := Some b |> <| last := NOISE_ACTION_WRITE_MESSAGE |>);;
    mret (NGX_AGAIN, false)
  else
    on_read (fun e => e <| ready := false |>);;
    free_buf;;
    mret (NGX_OK, true).

(** ** The first phase

    The server reads the negotiation data, answers a foreign version with an
    error message, and takes the algorithms into the shared prologue; then both
    roles set up the library.  [inl] is a return. *)

Definition refuse_version : ST Z :=
  on_nc (fun n => n <| msg_num := NGX_NSOC_2MSG_ERR |>);;
  '(n, b) ← ngx_nsoc_handshake_start_action_write_message;
  if negb (n =? NGX_OK) then mret n else
  b ← mderef b;
  '(n, sent) ← send_flight b;
  if (sent : bool) then mret NGX_ERROR else mret n.

Definition none_phase (fuel : nat) : ST (Z + unit) :=
  n0 ← gets nc;
  r ← (if role_eqb (noise_role n0) SERVER_ROLE then
         n ← ngx_nsoc_read_negotiation fuel NGX_NSOC_1MSG_NEG_DATA_SIZE;
         if n <=? 0 then mret (inl n) else
         n1 ← gets nc;
         b ← mderef (buf n1);
         hdr ← mderef (first_hdr_of_bytes (b_mem b));
         if negb (version_id hdr =? NGX_NSOC_VERSION_ID) then n ← refuse_version; mret (inl n)
         else
           modify (fun s => s <| prologue := (prologue s) <| header := hdr |> |>);;
           mret (inr tt)
       else mret (inr tt));
  match r with
  | inl n => mret (inl n)
  | inr _ =>
      n ← ngx_noise_protocol_init_handshake;
      free_buf;;
      if n =? NGX_ERROR then mret (inl n) else
      n1 ← gets nc;
      h ← mderef (NoiseHandshakeObj (noise_connection n1));
      let '(n, h') := hs_start h in
      on_nc (set_hs (Some h'));;
      if n =? NGX_ERROR then mret (inl n) else
      on_nc (fun n => n <| handshake_phase := PROCESS_PHASE |> <| last := 0 |>);;
      mret (inr tt)
  end.

(** ** The second phase: one action; [inl] is a return, [inr] goes round again *)

Definition split_action : ST Z :=
  n0 ← gets nc;
  h ← mderef (NoiseHandshakeObj (noise_connection n0));
  let '(err, cs, h') := hs_split h in
  on_nc (fun n => n <| noise_connection := NoiseProtocolConn (Some h') (fst <$> cs) (snd <$> cs) |>);;
  if negb (err =? NOISE_ERROR_NONE) then mret NGX_ERROR else
  let err := hs_free h' in
  on_nc (set_hs None);;
  if negb (err =? NOISE_ERROR_NONE) then mret NGX_ERROR else
  on_nc (fun n => n <| handshake_phase := END_PHASE |> <| buf := None |> <| handshaked := true |>);;
  on_c (fun x => x <| sent := 0 |> <| io := NsocIo |>);;
  mret NGX_OK.

Definition write_action : ST (Z + unit) :=
  n0 ← gets nc;
  '(n, b) ← (if last n0 =? 0 then ngx_nsoc_handshake_start_action_write_message
             else mret (NGX_OK, buf n0));
  if negb (n =? NGX_OK) then mret (inl n) else
  on_nc (fun x => x <| last := 0 |>);;
  b ← mderef b;
  '(n, sent) ← send_flight b;
  if negb sent then mret (inl n) else
  n1 ← gets nc;
  h ← mderef (NoiseHandshakeObj (noise_connection n1));
  if hs_action h =? NOISE_ACTION_READ_MESSAGE then
    on_read (fun e => e <| ready := false |>);;
    r ← handle_read_event;
    if negb (r =? NGX_OK) then mret (inl NGX_ERROR) else
    add_read_timer;;
    del_write_timer;;
    mret (inl NGX_AGAIN)
  else
    del_read_timer;;
    mret (inr tt).

Definition process_phase (fuel : nat) : ST (Z + unit) :=
  n0 ← gets nc;
  action ← (if negb (last n0 =? 0) then mret (last n0)
            else h ← mderef (NoiseHandshakeObj (noise_connection n0)); mret (hs_action h));
  if action =? NOISE_ACTION_WRITE_MESSAGE then write_action
  else if action =? NOISE_ACTION_READ_MESSAGE then
    on_nc (fun n => n <| last := 0 |>);;
    n ← ngx_nsoc_handshake_start_action_read_message fuel;
    if negb (n =? NGX_OK) then mret (inl n) else mret (inr tt)
  else if action =? NOISE_ACTION_SPLIT then n ← split_action; mret (inl n)
  else mret (inl NGX_ERROR).

Fixpoint ngx_nsoc_do_handshake_process (fuel : nat) : ST Z :=
  match fuel with
  | O => out_of_fuel
  | S fuel' =>
      n0 ← gets nc;
      r ← (match handshake_phase n0 with
           | NONE_PHASE =>
               r ← none_phase fuel;
               match r with inl n => mret (inl n) | inr _ => process_phase fuel end
           | PROCESS_PHASE => process_phase fuel
           | END_PHASE => mret (inr tt)
           end);
      match r with
      | inl n => mret n
      | inr _ => ngx_nsoc_do_handshake_process fuel'
      end
  end.

Definition ngx_nsoc_handshake (fuel : nat) : M (sess HS CS W) Z :=
  with_nc NGX_ERROR (ngx_nsoc_do_handshake_process fuel).

(** Whether the event handler calls [nc->handler]. *)
Definition ngx_nsoc_handshake_handler (fuel : nat) (timedout : bool) : M (sess HS CS W) bool :=
  st ← gets id;
  match find_nc (c_id (sc st)) (ss st) with
  | None => mret false
  | Some _ =>
      if timedout then mret true else
      rc ← ngx_nsoc_handshake fuel;
      mret (negb (rc =? NGX_AGAIN))
  end.
End Handshake.

(** ** Concrete runs *)

Definition client_hello : list Z := [0; 6; 0; 1; 1; 2; 3; 9] ++ frame (replicate 32 0).
Definition server_hello : list Z := [0; 0] ++ frame (replicate 96 1).
Definition client_final : list Z := [0; 0] ++ frame (replicate 64 2).

Definition run_code {A} (o : outcome (Z * A)) : option Z :=
  match o with Done (n, _) => Some n | _ => None end.
Definition run_out (o : outcome (Z * hs toy_hs Z net)) : list Z :=
  match o with Done (_, s) => wire (world s) | _ => [] end.
Definition then_feed (script : list chunk) (o : outcome (Z * hs toy_hs Z net)) : hs toy_hs Z net :=
  match o with
  | Done (_, s) => s <| world := Net script (wire (world s)) [] |>
  | _ => demo_state SERVER_ROLE [] []
  end.

(** A server that gets both client messages whole. *)
Example server_runs :
  let s1 := ngx_nsoc_do_handshake_process 20 (demo_state SERVER_ROLE [Data client_hello] []) in
  let s2 := ngx_nsoc_do_handshake_process 20 (then_feed [Data client_final] s1) in
  run_code s1 = Some NGX_AGAIN /\ run_out s1 = server_hello /\ run_code s2 = Some NGX_OK.
Proof. by vm_compute. Qed.

(** A client that gets the server message whole. *)
Example client_runs :
  let s1 := ngx_nsoc_do_handshake_process 20 (demo_state CLIENT_ROLE [] []) in
  let s2 := ngx_nsoc_do_handshake_process 20 (then_feed [Data server_hello] s1) in
  run_out s1 = client_hello /\ run_code s2 = Some NGX_OK /\ run_out s2 = client_hello ++ client_final.
Proof. by vm_compute. Qed.

(** A server whose first Noise message comes later than the negotiation data. *)
Example server_late :
  let s1 := ngx_nsoc_do_handshake_process 20
              (demo_state SERVER_ROLE [Data [0; 6; 0; 1; 1; 2; 3; 9]; WouldBlock] []) in
  let s2 := ngx_nsoc_do_handshake_process 20 (then_feed [Data (frame (replicate 32 0))] s1) in
  run_code s1 = Some NGX_AGAIN /\ run_code s2 = Some NGX_ERROR.
Proof. by vm_compute. Qed.

Section HandshakeProofs.
Context {HS CS W : Type} {NL : NoiseLib HS CS} {OS : NgxOs W} {PO : NgxPool W} {SM : NgxStream W}
  {OL : NgxOsLaws W} {PL : NgxPoolLaws W} {NLaw : NoiseLaws HS CS}.
Implicit Types s : hs HS CS W.

(** ** The layout of a message *)

(** A handshake message on the wire: two length-prefixed parts. *)
Definition message (neg m : list Z) : list Z := frame neg ++ frame m.

(** The negotiation data of message [k], and the message after it. *)
Definition neg_data (pro : prologue_data) (k : Z) : list Z :=
  if k =? NGX_NSOC_1MSG then first_hdr_bytes (header pro) else [].
Definition next_msg (k : Z) : Z :=
  if k =? NGX_NSOC_1MSG then NGX_NSOC_2MSG_OK
  else if k =? NGX_NSOC_2MSG_OK then NGX_NSOC_3MSG else NGX_NSOC_1MSG.

(** The bytes a buffer has to send. *)
Definition flight (b : nbuf) : option (list Z) := load (b_pos b) (b_last b - b_pos b) (b_mem b).

Lemma finish_message_correct neg l0 l1 room s (Q : Z * option nbuf -> hs HS CS W -> Prop) h :
  NoiseHandshakeObj (noise_connection (nc s)) = Some h ->
  zlen room = NOISE_PROTOCOL_MAX_HANDSHAKE_LEN ->
  (forall n s', n <> NGX_OK -> (hs_write_message h NOISE_PROTOCOL_MAX_HANDSHAKE_LEN).1.1 = n ->
     outbox s' = outbox s -> Q (n, None) s') ->
  (forall m h' b, hs_write_message h NOISE_PROTOCOL_MAX_HANDSHAKE_LEN = (NOISE_ERROR_NONE, m, h') ->
     flight b = Some (neg ++ frame m) -> b_pos b = 0 -> b_last b = zlen (neg ++ frame m) ->
     Q (NGX_OK, Some b) (s <| nc := set_hs (Some h') (nc s) |>)) ->
  wp (finish_message (zlen neg + 2) (neg ++ [l0; l1] ++ room)) Q s.
Proof.
  intros Hh Hroom HQ1 HQ2. unfold finish_message. repeat hs_step. rewrite Hh. eapply wp_mderef; [done|].
  destruct (hs_write_message h _) as [[n m] h'] eqn:Hw. cbv beta iota.
  destruct (Z.eqb_spec n NOISE_ERROR_NONE) as [->|Hn]; cbn [negb]; repeat hs_step.
  2:{ by apply HQ1; rewrite ?Hw. }
  destruct (hs_write_length _ _ _ _ Hw) as [Hl Hok]. rewrite <- Hroom in Hl.
  destruct (mem_split (zlen m) room) as (old & post & -> & Hold); [zlen_lia|].
  eapply wp_mderef.
  { replace (zlen neg + 2) with (zlen (neg ++ [l0; l1])) by (rewrite zlen_app; done).
    rewrite (app_assoc neg). by apply store_app. }
  hs_step. eapply wp_mderef.
  { replace (zlen neg + 2 - NGX_NSOC_LEN_FIELD_SIZE) with (zlen neg)
      by (unfold NGX_NSOC_LEN_FIELD_SIZE; lia).
    rewrite <- app_assoc. by apply store_app. }
  hs_step. eapply (HQ2 m h'); [done| |done|].
  - unfold flight. cbn [b_pos b_last b_mem]. rewrite Z.sub_0_r.
    replace (zlen neg + 2 + zlen m) with (zlen (neg ++ frame m)) by (unfold frame; zlen_lia).
    change 0 with (zlen (@nil Z)).
    replace (neg ++ be16 (zlen m) ++ m ++ post) with ([] ++ (neg ++ frame m) ++ post)
      by (unfold frame; cbn [app]; by rewrite <- !app_assoc). apply load_app.
  - cbn [b_last]. unfold frame. zlen_lia.
Qed.

Context (Hpool : forall n (w : W), exists bs w', pool_bytes n w = (Some bs, w')).

Lemma wp_start_message size stores mem' s (Q : list Z -> hs HS CS W -> Prop) :
  0 <= size ->
  (forall mem, zlen mem = size ->
     exists mem1, foldl (fun m '(off, bs) => m ≫= store off bs) (Some mem) stores = Some mem1 /\
       mem' mem mem1) ->
  (forall mem mem1 s', zlen mem = size -> mem' mem mem1 -> silent s s' -> Q mem1 s') ->
  wp (start_message size stores) Q s.
Proof.
  intros Hsz Hst HQ. unfold start_message. hs_step.
  destruct (Hpool size (world s)) as (bs & w' & Hp).
  eapply done_wp; [unfold palloc; rewrite Hp; reflexivity|].
  destruct (pool_bytes_length _ _ _ _ Hsz Hp) as [Hl _].
  destruct (pool_bytes_stream _ _ _ _ Hp) as (? & ? & ?).
  hs_step. eapply wp_mderef; [done|]. destruct (Hst bs Hl) as (mem1 & Hf & Hm).
  rewrite Hf. by apply (HQ bs mem1).
Qed.

(** A memory whose front is [bs] and then two bytes for a length and the room. *)
Definition headed (bs : list Z) (mem mem1 : list Z) : Prop :=
  exists l0 l1 room, mem1 = bs ++ [l0; l1] ++ room /\
    zlen room = NOISE_PROTOCOL_MAX_HANDSHAKE_LEN.

Lemma headed_store bs mem :
  zlen mem = zlen bs + 2 + NOISE_PROTOCOL_MAX_HANDSHAKE_LEN ->
  exists mem1, foldl (fun m '(off, b) => m ≫= store off b) (Some mem) [(0, bs)] = Some mem1 /\
    headed bs mem mem1.
Proof.
  intros Hl. cbn. unfold NOISE_PROTOCOL_MAX_HANDSHAKE_LEN in Hl.
  destruct (mem_split (zlen bs) mem) as (old & rest & -> & Hold); [zlen_lia|].
  destruct rest as [|l0 [|l1 room]]; try zlen_lia.
  exists (bs ++ [l0; l1] ++ room). split.
  - change (old ++ l0 :: l1 :: room) with ([] ++ old ++ (l0 :: l1 :: room)). change 0 with (zlen (@nil Z)).
    by rewrite store_app by done.
  - exists l0, l1, room. split; [done|]. unfold NOISE_PROTOCOL_MAX_HANDSHAKE_LEN. zlen_lia.
Qed.

Lemma write_message_case size bs k s s1 h (Q : Z * option nbuf -> hs HS CS W -> Prop) :
  size = zlen bs + 2 + NOISE_PROTOCOL_MAX_HANDSHAKE_LEN ->
  silent s s1 -> NoiseHandshakeObj (noise_connection (nc s)) = Some h ->
  (forall n s', n <> NGX_OK -> outbox s' = outbox s -> Q (n, None) s') ->
  (forall m h' b s', hs_write_message h NOISE_PROTOCOL_MAX_HANDSHAKE_LEN = (NOISE_ERROR_NONE, m, h') ->
     flight b = Some (bs ++ frame m) -> b_pos b = 0 -> b_last b = zlen (bs ++ frame m) ->
     nc s' = set_hs (Some h') ((nc s) <| msg_num := k |>) ->
     stream s' = stream s -> outbox s' = outbox s -> io (c s') = io (c s) -> Q (NGX_OK, Some b) s') ->
  wp (mem ← start_message size [(0, bs)];
      on_nc (fun n => n <| msg_num := k |>);;
      finish_message (zlen bs + 2) mem) Q s1.
Proof.
  intros Hsize ((Hn1 & _ & _ & Hio1 & _) & Hs1 & Ho1) Hh HQ1 HQ2. hs_step.
  eapply (wp_start_message size _ (headed bs)).
  { subst size. pose proof (zlen_nonneg bs). unfold NOISE_PROTOCOL_MAX_HANDSHAKE_LEN. lia. }
  { intros mem Hm. apply headed_store. by rewrite Hm. }
  intros mem mem1 s2 Hm (l0 & l1 & room & -> & Hr) ((Hn2 & _ & _ & Hio2 & _) & Hs2 & Ho2). repeat hs_step.
  eapply (finish_message_correct bs l0 l1 room _ _ h); [|done|..].
  - cbn. by rewrite Hn2, Hn1.
  - intros n s' Hne _ Ho'. apply HQ1; [done|]. rewrite Ho'. unfold outbox in *. cbn. congruence.
  - intros m h' b Hw Hf Hp Hl. apply (HQ2 m h'); try done; unfold stream, outbox in *; cbn; congruence.
Qed.

(** The bytes in front of the Noise message of message [k]. *)
Definition message_head (pro : prologue_data) (k : Z) : list Z :=
  if k =? NGX_NSOC_1MSG then le16 (header_len pro) ++ first_hdr_bytes (header pro)
  else le16 (swapw 0).

Lemma write_message_run s h :
  NoiseHandshakeObj (noise_connection (nc s)) = Some h ->
  msg_num (nc s) = NGX_NSOC_1MSG \/ msg_num (nc s) = NGX_NSOC_2MSG_OK \/ msg_num (nc s) = NGX_NSOC_3MSG ->
  wp ngx_nsoc_handshake_start_action_write_message (fun '(n, o) s' =>
    outbox s' = outbox s /\
    ((n <> NGX_OK /\ o = None) \/
     (n = NGX_OK /\ exists m h' b, o = Some b /\
       hs_write_message h NOISE_PROTOCOL_MAX_HANDSHAKE_LEN = (NOISE_ERROR_NONE, m, h') /\
       flight b = Some (message_head (prologue s) (msg_num (nc s)) ++ frame m) /\
       nc s' = set_hs (Some h') ((nc s) <| msg_num := next_msg (msg_num (nc s)) |>)))) s.
Proof.
  intros Hh Hk. unfold ngx_nsoc_handshake_start_action_write_message. hs_step. apply wp_alloc_object.
  intros ok s1 Hsil. pose proof Hsil as ((Hn1 & Hp1 & _) & _ & Ho1). destruct ok; cbn [negb].
  2:{ hs_step. split; [done|]. by left. }
  repeat hs_step. rewrite Hn1, Hp1. cbn zeta.
  set (head := message_head (prologue s) (msg_num (nc s))).
  assert (Hend : wp (mem ← start_message (zlen head + 2 + NOISE_PROTOCOL_MAX_HANDSHAKE_LEN) [(0, head)];
      on_nc (fun n => n <| msg_num := next_msg (msg_num (nc s)) |>);;
      finish_message (zlen head + 2) mem) (fun '(n, o) s' => outbox s' = outbox s /\
    ((n <> NGX_OK /\ o = None) \/
     (n = NGX_OK /\ exists m h' b, o = Some b /\
       hs_write_message h NOISE_PROTOCOL_MAX_HANDSHAKE_LEN = (NOISE_ERROR_NONE, m, h') /\
       flight b = Some (head ++ frame m) /\
       nc s' = set_hs (Some h') ((nc s) <| msg_num := next_msg (msg_num (nc s)) |>)))) s1).
  { apply (write_message_case _ head _ s s1 h); try done.
    - intros n s' Hn Ho. split; [done|]. by left.
    - intros m h' b s' Hw Hf _ _ Hnc _ Ho _. split; [done|]. right. split; [done|]. by exists m, h', b. }
  unfold head, message_head, next_msg in Hend |- *. destruct Hk as [Hk|[Hk|Hk]]; rewrite Hk in *; exact Hend.
Qed.

(** ** Refusing a version *)

(** The library's state, the phase and the next message stay as they are. *)
Definition same_progress s s' : Prop :=
  noise_connection (nc s') = noise_connection (nc s) /\
  handshake_phase (nc s') = handshake_phase (nc s) /\ msg_num (nc s') = msg_num (nc s) /\
  handshaked (nc s') = handshaked (nc s) /\ io (c s') = io (c s) /\ prologue s' = prologue s.

Lemma silent_progress s s' : silent s s' -> same_progress s s'.
Proof. intros ((Hn & ? & _ & Hio & _) & _). unfold same_progress. by rewrite Hn. Qed.

Lemma same_progress_trans s1 s2 s3 : same_progress s1 s2 -> same_progress s2 s3 -> same_progress s1 s3.
Proof. intros (?&?&?&?&?&?) (?&?&?&?&?&?). split_and!; congruence. Qed.

(** Sending in the clear: some front part of the message goes out, and the
    function is content only when that is all of it. *)
Lemma send_flight_run b bs s :
  io (c s) = OsIo -> flight b = Some bs -> zlen bs = b_last b - b_pos b ->
  wp (send_flight b) (fun '(n, ok) s' => exists k, outbox s' = outbox s ++ ztake k bs /\
    same_progress s s' /\ (if ok : bool then n = NGX_OK /\ k = zlen bs else n = NGX_AGAIN \/ n = NGX_ERROR)) s.
Proof.
  intros Hio Hf Hl. unfold send_flight, c_send. cbn zeta. repeat hs_step. rewrite Hio. hs_step.
  eapply wp_mderef; [exact Hf|]. hs_step. apply wp_send. intros r s1 Hq _ Ho Hr. repeat hs_step.
  unfold set_handshake_handlers. hs_step. apply wp_on_read. intros s2 H2. apply wp_on_write. intros s3 H3.
  assert (Hp3 : same_progress s s3 /\ outbox s3 = outbox s ++ ztake r bs).
  { destruct Hq as (Hn & ? & _ & Hi & _). destruct H2 as ((Hn2 & ? & _ & Hi2 & _) & _ & Ho2).
    destruct H3 as ((Hn3 & ? & _ & Hi3 & _) & _ & Ho3). unfold same_progress.
    rewrite Hn3, Hn2, Hn. split_and!; congruence. }
  destruct Hp3 as [Hp3 Ho3]. destruct ((r =? NGX_AGAIN) || (r <? b_last b - b_pos b)) eqn:Hshort.
  - hs_step. apply wp_on_write. intros s4 H4. hs_step. apply wp_handle_write. intros q s5 H5.
    assert (H35 : silent s3 s5) by by etransitivity.
    destruct (negb (q =? NGX_OK)).
    { hs_step. exists r. split_and!; [|by eapply same_progress_trans, silent_progress|by right].
      destruct H35 as (_ & _ & ->). done. }
    hs_step. apply wp_add_write_timer. intros s6 H6. hs_step. apply wp_del_read_timer. intros s7 H7.
    assert (H37 : silent s3 s7) by (do 2 (etransitivity; [|done]); done).
    repeat hs_step. exists r. split; [|split; [exact (same_progress_trans _ _ _ Hp3 (silent_progress _ _ H37))|by left]].
    destruct H37 as (_ & _ & Ho7). unfold outbox in *. cbn. congruence.
  - hs_step. apply wp_on_read. intros s4 H4. unfold free_buf. repeat hs_step. exists r.
    apply orb_false_iff in Hshort as [_ Hge%Z.ltb_ge]. rewrite <- Hl in Hge. pose proof (zlen_nonneg bs).
    split; [|split; [exact (same_progress_trans _ _ _ Hp3 (silent_progress _ _ H4))|split; [done|]]].
    + destruct H4 as (_ & _ & Ho4). unfold outbox in *. cbn. congruence.
    + unfold NGX_AGAIN, NGX_ERROR in Hr. lia.
Qed.

(** The error message: the length of its negotiation data, this side's version,
    the status 0xFF, and an empty Noise message. *)
Definition refusal : list Z := frame (le16 NGX_NSOC_VERSION_ID ++ [0xFF]) ++ frame [].

Lemma refusal_stores mem :
  zlen mem = NGX_NSOC_2MSG_NEG_DATA_ERR_SIZE + NOISE_PROTOCOL_MAX_HANDSHAKE_LEN + 2 * NGX_NSOC_LEN_FIELD_SIZE ->
  exists mem1, foldl (fun m '(off, bs) => m ≫= store off bs) (Some mem)
      [(0, le16 (swapw NGX_NSOC_2MSG_NEG_DATA_ERR_SIZE)); (2, le16 NGX_NSOC_VERSION_ID);
       (4, [0xFF]); (5, le16 0)] = Some mem1 /\ load 0 7 mem1 = Some refusal.
Proof.
  intros Hl. unfold NOISE_PROTOCOL_MAX_HANDSHAKE_LEN, NGX_NSOC_2MSG_NEG_DATA_ERR_SIZE, NGX_NSOC_LEN_FIELD_SIZE in Hl.
  destruct (mem_split 7 mem) as (old & rest & -> & Hold); [zlen_lia|].
  destruct old as [|a0 [|a1 [|a2 [|a3 [|a4 [|a5 [|a6 [|a7 old]]]]]]]];
    try (exfalso; rewrite ?zlen_cons, ?zlen_nil in Hold; pose proof (zlen_nonneg old); lia);
    try (exfalso; rewrite ?zlen_cons, ?zlen_nil in Hold; lia).
  exists (refusal ++ rest). split; [|exact (load_app [] refusal rest)]. cbn [foldl mbind option_bind].
  rewrite (store_app [] [a0; a1] ([a2; a3; a4; a5; a6] ++ rest)) by done. cbn [mbind option_bind].
  rewrite (store_app [0; 3] [a2; a3] ([a4; a5; a6] ++ rest)) by done. cbn [mbind option_bind].
  rewrite (store_app [0; 3; 0; 1] [a4] ([a5; a6] ++ rest)) by done. cbn [mbind option_bind].
  by rewrite (store_app [0; 3; 0; 1; 255] [a5; a6] rest) by done.
Qed.

Lemma refuse_version_run s :
  io (c s) = OsIo ->
  wp refuse_version (fun n s' => (n = NGX_ERROR \/ n = NGX_AGAIN) /\
    (exists k, outbox s' = outbox s ++ ztake k refusal) /\
    noise_connection (nc s') = noise_connection (nc s) /\
    handshake_phase (nc s') = handshake_phase (nc s) /\ io (c s') = OsIo /\ prologue s' = prologue s) s.
Proof.
  intros Hio. unfold refuse_version. repeat hs_step.
  unfold ngx_nsoc_handshake_start_action_write_message. hs_step. apply wp_alloc_object.
  intros ok s1 ((Hn1 & Hp1 & _ & Hi1 & _) & _ & Ho1). cbn in Hn1, Hp1, Hi1. unfold outbox in Ho1. cbn in Ho1.
  destruct ok; cbn [negb].
  2:{ repeat hs_step. zlit. cbn [negb]. hs_step. rewrite Hn1. cbn. split; [by left|]. split; [exists 0|].
      - unfold outbox. change (ztake 0 refusal) with (@nil Z). by rewrite Ho1, app_nil_r.
      - split_and!; congruence. }
  do 4 hs_step. rewrite Hn1. zlit. hs_step.
  eapply (wp_start_message _ _ (fun _ mem1 => load 0 7 mem1 = Some refusal)); [done|apply refusal_stores|].
  intros mem mem1 s2 _ Hm ((Hn2 & Hp2 & _ & Hi2 & _) & _ & Ho2). repeat hs_step. zlit. cbn [negb]. repeat hs_step.
  eapply wp_mderef; [done|]. hs_step. eapply wp_mono; [apply (send_flight_run _ refusal); try done|].
  { cbn. congruence. }
  intros [n sent] s3 (k & Ho3 & (P1 & P2 & _ & _ & P5 & P6) & Hres).
  cbv beta iota. assert (Hwire : outbox s3 = outbox s ++ ztake k refusal).
  { rewrite Ho3. unfold outbox in *. cbn. congruence. }
  cbn in P1, P2, P5, P6. rewrite Hn2, Hn1 in P1, P2. cbn in P1, P2.
  destruct sent; hs_step; (split; [tauto|split; [by exists k|split_and!; congruence]]).
Qed.

(** A client that speaks another version is refused before any key is used:
    the server has sent a front part of exactly the error message (version and
    status 0xFF) and nothing else, never returns success, leaves the Noise
    library untouched and keeps its prologue, and the connection stays in the
    first phase with nginx's own I/O functions. *)
Theorem version_refused fuel s n s1 b hdr
    (Hrole : noise_role (nc s) = SERVER_ROLE)
    (Hread : ngx_nsoc_read_negotiation fuel NGX_NSOC_1MSG_NEG_DATA_SIZE s = Done (n, s1))
    (Hn : 0 < n) (Hbuf : buf (nc s1) = Some b) (Hhdr : first_hdr_of_bytes (b_mem b) = Some hdr)
    (Hver : version_id hdr <> NGX_NSOC_VERSION_ID) (Hio : io (c s1) = OsIo) :
  exists r s2 k, none_phase fuel s = Done (inl r, s2) /\ (r = NGX_ERROR \/ r = NGX_AGAIN) /\
    outbox s2 = outbox s1 ++ ztake k refusal /\
    noise_connection (nc s2) = noise_connection (nc s1) /\
    handshake_phase (nc s2) = handshake_phase (nc s1) /\ io (c s2) = OsIo /\ prologue s2 = prologue s1.
Proof.
  assert (H : wp (none_phase fuel) (fun o s2 => exists r k, o = inl r /\ (r = NGX_ERROR \/ r = NGX_AGAIN) /\
    outbox s2 = outbox s1 ++ ztake k refusal /\ noise_connection (nc s2) = noise_connection (nc s1) /\
    handshake_phase (nc s2) = handshake_phase (nc s1) /\ io (c s2) = OsIo /\ prologue s2 = prologue s1) s).
  { unfold none_phase. do 3 hs_step. rewrite Hrole. cbn [role_eqb]. hs_step.
    eapply done_wp; [exact Hread|]. rewrite (proj2 (Z.leb_gt n 0)) by done. repeat hs_step.
    rewrite Hbuf. eapply wp_mderef; [done|]. hs_step. eapply wp_mderef; [done|].
    rewrite (proj2 (Z.eqb_neq _ _) Hver). cbn [negb]. hs_step.
    eapply wp_mono; [by apply refuse_version_run|]. intros r s2 (Hr & [k Hk] & Hrest).
    repeat hs_step. exists r, k. exact (conj eq_refl (conj Hr (conj Hk Hrest))). }
  destruct (wp_done _ _ _ H) as (o & s2 & Hrun & r & k & -> & Hrest). by exists r, s2, k.
Qed.
End HandshakeProofs.

(** ** What NGX_OK means *)

Create HintDb keeps.

(** A field [f] of the Noise connection is as it was when [m] returns. *)
Definition keeps {HS CS W A B} (f : nconn HS CS -> B) (m : M (hs HS CS W) A) : Prop :=
  forall s, wlp m (fun _ s' => f (nc s') = f (nc s)) s.

Section Keeps.
Context {HS CS W : Type} {NL : NoiseLib HS CS} {OS : NgxOs W} {PO : NgxPool W}.
Context {F : Type} (f : nconn HS CS -> F).
Abbreviation ST := (M (hs HS CS W)).

Lemma keeps_bind {A B} (m : ST A) (k : A -> ST B) :
  keeps f m -> (forall a, keeps f (k a)) -> keeps f (m ≫= k).
Proof.
  intros Hm Hk s. apply wlp_bind. eapply wlp_mono; [apply Hm|]. intros a s' H1.
  eapply wlp_mono; [apply Hk|]. intros b s'' H2. congruence.
Qed.

Lemma keeps_ret {A} (a : A) : keeps f (mret a : ST A).
Proof. done. Qed.

Lemma keeps_gets {A} (g : hs HS CS W -> A) : keeps f (gets g).
Proof. done. Qed.

Lemma keeps_mderef {A} (o : option A) : keeps f (mderef o : ST A).
Proof. by destruct o. Qed.

Lemma keeps_fuel {A} : keeps f (out_of_fuel : ST A).
Proof. done. Qed.

Lemma keeps_on_nc g : (forall n, f (g n) = f n) -> keeps f (on_nc g : ST unit).
Proof. intros Hg s. apply Hg. Qed.

Lemma keeps_on_c g : keeps f (on_c g : ST unit).
Proof. done. Qed.

Lemma keeps_world {A} (g : hs HS CS W -> outcome (A * hs HS CS W)) :
  (forall s a s', g s = Done (a, s') -> nc s' = nc s) -> keeps f g.
Proof. intros Hg s. unfold wlp. destruct (g s) as [[a s']| |] eqn:He; try done. by rewrite (Hg s a s'). Qed.

Lemma keeps_recv n : keeps f (ngx_recv n : ST _).
Proof. apply keeps_world. intros s a s'. unfold ngx_recv. by destruct (os_recv _ _ _) as [[[? ?] ?] ?]; intros [= <- <-]. Qed.

Lemma keeps_send bs : keeps f (ngx_send bs : ST _).
Proof. apply keeps_world. intros s a s'. unfold ngx_send. by destruct (os_send _ _ _ _) as [[[? ?] ?] ?]; intros [= <- <-]. Qed.

Lemma keeps_handle_read : keeps f (handle_read_event : ST _).
Proof. apply keeps_world. intros s a s'. unfold handle_read_event. by destruct (os_handle_read _ _) as [[? ?] ?]; intros [= <- <-]. Qed.

Lemma keeps_handle_write : keeps f (handle_write_event : ST _).
Proof. apply keeps_world. intros s a s'. unfold handle_write_event. by destruct (os_handle_write _ _) as [[? ?] ?]; intros [= <- <-]. Qed.

Lemma keeps_add_read_timer : keeps f (add_read_timer : ST _).
Proof. apply keeps_world. intros s a s'. unfold add_read_timer. destruct (timer_set _); [by intros [= <- <-]|]. by destruct (os_add_timer _ _ _); intros [= <- <-]. Qed.

Lemma keeps_del_read_timer : keeps f (del_read_timer : ST _).
Proof. apply keeps_world. intros s a s'. unfold del_read_timer. destruct (timer_set _); [|by intros [= <- <-]]. by destruct (os_del_timer _ _); intros [= <- <-]. Qed.

Lemma keeps_add_write_timer : keeps f (add_write_timer : ST _).
Proof. apply keeps_world. intros s a s'. unfold add_write_timer. destruct (timer_set _); [by intros [= <- <-]|]. by destruct (os_add_timer _ _ _); intros [= <- <-]. Qed.

Lemma keeps_del_write_timer : keeps f (del_write_timer : ST _).
Proof. apply keeps_world. intros s a s'. unfold del_write_timer. destruct (timer_set _); [|by intros [= <- <-]]. by destruct (os_del_timer _ _); intros [= <- <-]. Qed.

Lemma keeps_alloc : keeps f (alloc_object : ST _).
Proof. apply keeps_world. intros s a s'. unfold alloc_object. by destruct (pool_object _); intros [= <- <-]. Qed.

Lemma keeps_palloc n : keeps f (palloc n : ST _).
Proof. apply keeps_world. intros s a s'. unfold palloc. by destruct (pool_bytes _ _); intros [= <- <-]. Qed.
End Keeps.

#[export] Hint Resolve keeps_ret keeps_gets keeps_mderef keeps_fuel keeps_on_c keeps_recv keeps_send
  keeps_handle_read keeps_handle_write keeps_add_read_timer keeps_del_read_timer
  keeps_add_write_timer keeps_del_write_timer keeps_alloc keeps_palloc : keeps.

(** Structural proof of [keeps]. *)
Ltac keeps :=
  repeat (cbn zeta; cbv beta;
    lazymatch goal with
    | |- forall _, _ => intros ?
    | |- keeps _ (mbind _ _) => apply keeps_bind
    | |- keeps _ (on_nc _) => apply keeps_on_nc; done
    | |- keeps _ (on_read _) => apply keeps_on_c
    | |- keeps _ (on_write _) => apply keeps_on_c
    | |- keeps _ (match ?x with _ => _ end) => destruct x
    | |- keeps _ _ => solve [auto with keeps nocore]
    end).

Section KeepsProgram.
Context {HS CS W : Type} {NL : NoiseLib HS CS} {OS : NgxOs W} {PO : NgxPool W}.
Abbreviation ST := (M (hs HS CS W)).

(** How far the handshake is. *)
Definition stage (n : nconn HS CS) : phase * bool := (handshake_phase n, handshaked n).

Lemma keeps_create_temp_buf n : keeps stage (create_temp_buf n : ST _).
Proof. unfold create_temp_buf. keeps. Qed.
Local Hint Resolve keeps_create_temp_buf : keeps.

Lemma keeps_read_data n : keeps stage (ngx_nsoc_read_handshake_data n : ST _).
Proof. unfold ngx_nsoc_read_handshake_data. keeps. Qed.

Lemma keeps_size_loop fuel : forall ptr len arr, keeps stage (read_size_loop fuel ptr len arr : ST _).
Proof. induction fuel as [|fuel IH]; intros; cbn [read_size_loop]; keeps. Qed.
Local Hint Resolve keeps_read_data keeps_size_loop : keeps.

Lemma keeps_neg_len : keeps stage (ngx_nsoc_read_negotiation_data_len : ST _).
Proof. unfold ngx_nsoc_read_negotiation_data_len, byte_at. keeps. Qed.

Lemma keeps_msg_len : keeps stage (ngx_nsoc_read_noise_msg_len : ST _).
Proof. unfold ngx_nsoc_read_noise_msg_len, byte_at. keeps. Qed.

Lemma keeps_handlers : keeps stage (set_handshake_handlers : ST _).
Proof. unfold set_handshake_handlers. keeps. Qed.

Lemma keeps_read_again : keeps stage (read_again : ST _).
Proof. unfold read_again. keeps. Qed.

Lemma keeps_read_complete n k : keeps stage (read_complete n k : ST _).
Proof. unfold read_complete. keeps. Qed.
Local Hint Resolve keeps_neg_len keeps_msg_len keeps_handlers keeps_read_again keeps_read_complete : keeps.

Lemma keeps_negotiation fuel : forall k, keeps stage (ngx_nsoc_read_negotiation fuel k : ST _).
Proof. induction fuel as [|fuel IH]; intros k; cbn [ngx_nsoc_read_negotiation]; keeps. Qed.

Lemma keeps_noise_msg fuel : keeps stage (ngx_nsoc_read_noise_msg fuel : ST _).
Proof. induction fuel as [|fuel IH]; cbn [ngx_nsoc_read_noise_msg]; keeps. Qed.

Lemma keeps_send_loop fuel : forall b k mem, keeps stage (send_loop fuel b k mem : ST _).
Proof. induction fuel as [|fuel IH]; intros; cbn [send_loop]; keeps. Qed.

Lemma keeps_write_packet off k mem : keeps stage (write_packet off k mem : ST _).
Proof. unfold write_packet. keeps. Qed.
Local Hint Resolve keeps_negotiation keeps_noise_msg keeps_send_loop keeps_write_packet : keeps.

Lemma keeps_write_nc off k mem : keeps stage (write_nc off k mem : ST _).
Proof. unfold write_nc. keeps. Qed.
Local Hint Resolve keeps_write_nc : keeps.

Lemma keeps_c_send b : keeps stage (c_send b : ST _).
Proof. unfold c_send. keeps. Qed.
Local Hint Resolve keeps_c_send : keeps.

Lemma keeps_send_flight b : keeps stage (send_flight b : ST _).
Proof. unfold send_flight, free_buf. keeps. Qed.

Lemma keeps_start_message k stores : keeps stage (start_message k stores : ST _).
Proof. unfold start_message. keeps. Qed.

Lemma keeps_finish_message k mem : keeps stage (finish_message k mem : ST _).
Proof. unfold finish_message. keeps. Qed.
Local Hint Resolve keeps_send_flight keeps_start_message keeps_finish_message : keeps.

Lemma keeps_write_message : keeps stage (ngx_nsoc_handshake_start_action_write_message : ST _).
Proof. unfold ngx_nsoc_handshake_start_action_write_message. keeps. Qed.

Lemma keeps_read_message_loop fuel : forall k, keeps stage (read_message_loop fuel k : ST _).
Proof. induction fuel as [|fuel IH]; intros; cbn [read_message_loop]; keeps. Qed.
Local Hint Resolve keeps_write_message keeps_read_message_loop : keeps.

Lemma keeps_read_message fuel : keeps stage (ngx_nsoc_handshake_start_action_read_message fuel : ST _).
Proof. unfold ngx_nsoc_handshake_start_action_read_message, free_buf. keeps. Qed.

Lemma keeps_write_action : keeps stage (write_action : ST _).
Proof. unfold write_action. keeps. Qed.
End KeepsProgram.
#[export] Hint Resolve keeps_read_message keeps_write_action keeps_negotiation : keeps.

(** A step of a liberal proof; an operation whose result does not matter is
    passed over. *)
Ltac wlp_step :=
  cbn zeta; cbv beta;
  lazymatch goal with
  | |- wlp (mbind _ _) _ _ => apply wlp_bind
  | |- wlp (mret _) _ _ => apply wlp_ret
  | |- wlp (gets _) _ _ => apply wlp_gets
  | |- wlp (on_nc _) _ _ => apply wlp_modify
  | |- wlp (on_c _) _ _ => apply wlp_modify
  | |- wlp (modify _) _ _ => apply wlp_modify
  | |- wlp (mderef _) _ _ => apply wlp_mderef; intros ? ?
  | |- wlp (if ?b then _ else _) _ _ => destruct b eqn:?
  | |- wlp (match ?x with _ => _ end) _ _ => destruct x eqn:?
  end.

(** The same, through a whole body: a call with a known result uses it. *)
Create HintDb codes.
Ltac wlp_go :=
  repeat first
    [ wlp_step
    | eapply wlp_mono; [solve [eauto with codes nocore] | cbv beta; intros; simplify_eq]
    | apply wlp_any; intros ];
  cbv beta iota; repeat (case_match; simplify_eq); try done; try lia;
  try (match goal with H : (?n =? NGX_ERROR) = true |- _ => apply Z.eqb_eq in H; by subst end);
  try (match goal with H : negb _ = true |- _ => apply negb_true_iff in H; solve [eauto | by apply Z.eqb_neq] end).

Section Sound.
Context {HS CS W : Type} {NL : NoiseLib HS CS} {OS : NgxOs W} {PO : NgxPool W}
  {NLaw : NoiseLaws HS CS}.
Implicit Types s : hs HS CS W.

(** The transport phase may begin. *)
Definition established s : Prop :=
  handshake_phase (nc s) = END_PHASE /\ handshaked (nc s) = true /\ io (c s) = NsocIo /\
  is_Some (NoiseSendCipherObj (noise_connection (nc s))) /\
  is_Some (NoiseRecvCipherObj (noise_connection (nc s))) /\
  NoiseHandshakeObj (noise_connection (nc s)) = None.

(** Where the server's first read may stand: no length yet, half of it, or the
    expected one. *)
Definition expects_hello s : Prop :=
  neg_data_recv_size (nc s) = NGX_NSOC_SIZE_UNSET \/ neg_data_size_reading (nc s) = true \/
  neg_data_recv_size (nc s) = NGX_NSOC_1MSG_NEG_DATA_SIZE.

Lemma read_again_nonzero s : wlp read_again (fun r _ => r <> 0) s.
Proof. unfold read_again. wlp_go. Qed.

Lemma read_complete_nonzero n k s : 0 < k -> wlp (read_complete n k) (fun r _ => r <> 0) s.
Proof. intros. unfold read_complete. wlp_go. Qed.

Lemma hello_nonzero fuel : forall s, expects_hello s ->
  wlp (ngx_nsoc_read_negotiation fuel NGX_NSOC_1MSG_NEG_DATA_SIZE) (fun r _ => r <> 0) s.
Proof.
  induction fuel as [|fuel IH]; intros s Hexp; [done|]. cbn [ngx_nsoc_read_negotiation].
  do 2 wlp_step.
  assert (Hafter : forall n s1,
    wlp (if n =? NGX_AGAIN then read_again else
         size ← gets (fun s => neg_data_recv_size (nc s));
         if negb (n =? NGX_ERROR)
         then if size =? NGX_NSOC_1MSG_NEG_DATA_SIZE
              then ngx_nsoc_read_negotiation fuel NGX_NSOC_1MSG_NEG_DATA_SIZE else mret NGX_ERROR
         else mret n) (fun r _ => r <> 0) s1).
  { intros n s1. wlp_step; [apply read_again_nonzero|]. do 2 wlp_step. wlp_step; [wlp_step|].
    - apply IH. right. right. by apply Z.eqb_eq.
    - by wlp_step.
    - wlp_step. apply negb_false_iff, Z.eqb_eq in Heqb0. by subst. }
  wlp_step.
  - wlp_step. apply wlp_any. intros _ s1. wlp_step. apply wlp_any. intros n s2. apply Hafter.
  - apply orb_false_iff in Heqb as [Hu Hr]. apply Z.eqb_neq in Hu.
    assert (Hsz : neg_data_recv_size (nc s) = NGX_NSOC_1MSG_NEG_DATA_SIZE)
      by (destruct Hexp as [?|[?|?]]; congruence).
    wlp_step. apply wlp_any. intros n s1. wlp_step.
    + apply read_complete_nonzero. rewrite Hsz. done.
    + apply Hafter.
Qed.

Lemma send_flight_codes b s :
  wlp (send_flight b) (fun '(n, sent) _ => sent = false -> n <> NGX_OK) s.
Proof. unfold send_flight. wlp_go. Qed.

Lemma refuse_version_codes s : wlp refuse_version (fun r _ => r <> NGX_OK) s.
Proof. pose proof send_flight_codes. unfold refuse_version. wlp_go. Qed.

Lemma none_phase_codes fuel s :
  expects_hello s ->
  wlp (none_phase fuel) (fun r s' => match r with
    | inl n => n <> NGX_OK
    | inr _ => handshake_phase (nc s') = PROCESS_PHASE
    end) s.
Proof.
  intros Hexp. pose proof (hello_nonzero fuel). pose proof refuse_version_codes.
  unfold none_phase. wlp_go.
Qed.

Lemma split_action_codes s : wlp split_action (fun r s' => r = NGX_OK -> established s') s.
Proof.
  unfold split_action. wlp_step. wlp_step. wlp_step. wlp_step. destruct (hs_split _) as [[err cs] h'] eqn:Hsp.
  wlp_go. intros _. apply negb_false_iff, Z.eqb_eq in Heqb. rewrite Heqb in Hsp.
  destruct (hs_split_some _ _ _ Hsp) as [[k1 k2] ->]. unfold established. cbn. split_and!; eauto.
Qed.

Lemma split_action_flag s : wlp split_action (fun r s' =>
  handshaked (nc s') = true -> handshaked (nc s) = false -> r = NGX_OK) s.
Proof.
  unfold split_action. wlp_step. wlp_step. wlp_step. wlp_step. destruct (hs_split _) as [[err cs] h'].
  wlp_step. wlp_step. wlp_step; [wlp_step; cbn; congruence|]. wlp_step. wlp_step.
  wlp_step; [wlp_step; cbn; congruence|]. by wlp_go.
Qed.

Lemma write_action_codes s :
  wlp write_action (fun r _ => match r with inl n => n <> NGX_OK | inr _ => True end) s.
Proof. pose proof send_flight_codes. unfold write_action. wlp_go. Qed.

Lemma process_phase_codes fuel s :
  wlp (process_phase fuel) (fun r s' => match r with
    | inl n => n = NGX_OK -> established s'
    | inr _ => handshake_phase (nc s') = handshake_phase (nc s)
    end) s.
Proof.
  unfold process_phase. do 3 wlp_step.
  apply (wlp_mono _ (fun _ s' => s' = s)); [by repeat wlp_step|]. intros act s1 ->. wlp_step.
  { eapply wlp_mono; [apply wlp_conj; [apply write_action_codes|apply keeps_write_action]|].
    intros [n|[]] s' [H1 [= H2 _]]; done. }
  wlp_step.
  { do 3 wlp_step. eapply wlp_mono; [apply keeps_read_message|]. intros n s' [= Hph _].
    wlp_step; wlp_step; [|exact Hph]. by apply negb_true_iff, Z.eqb_neq in Heqb1. }
  wlp_step; [|by wlp_step]. wlp_step. eapply wlp_mono; [apply split_action_codes|].
  intros n s' Hn. by wlp_step.
Qed.

Lemma handshake_codes fuel : forall s,
  (handshake_phase (nc s) = NONE_PHASE -> expects_hello s) ->
  wlp (ngx_nsoc_do_handshake_process fuel) (fun r s' => r = NGX_OK -> established s') s.
Proof.
  induction fuel as [|fuel IH]; intros s Hexp; [done|]. cbn [ngx_nsoc_do_handshake_process].
  do 3 wlp_step.
  apply (wlp_mono _ (fun r s' => match r with
    | inl n => n = NGX_OK -> established s'
    | inr _ => handshake_phase (nc s') <> NONE_PHASE
    end)).
  - destruct (handshake_phase (nc s)) eqn:Hph.
    + wlp_step. eapply wlp_mono; [by apply none_phase_codes, Hexp|]. intros [n|[]] s1 H1; [by wlp_step|].
      eapply wlp_mono; [apply process_phase_codes|]. intros [n|[]] s2 H2; [done|]. by rewrite H2, H1.
    + eapply wlp_mono; [apply process_phase_codes|]. intros [n|[]] s2 H2; [done|]. by rewrite H2, Hph.
    + wlp_step. by rewrite Hph.
  - intros [n|[]] s1 H1; [by wlp_step|]. apply IH. done.
Qed.

(** The handshake reports success only when it is complete: NGX_OK means the
    library has split into a send and a receive cipher, the phase is over, the
    connection is marked and its I/O functions are the encrypting ones.  Before
    that they are never installed by a run that started in the clear. *)
Theorem handshake_ok_established fuel s s'
    (Hexp : handshake_phase (nc s) = NONE_PHASE -> expects_hello s)
    (Hrun : ngx_nsoc_do_handshake_process fuel s = Done (NGX_OK, s')) :
  established s'.
Proof. exact (wlp_inv _ _ _ _ _ (handshake_codes fuel s Hexp) Hrun eq_refl). Qed.
(** ** The flag [handshaked] *)

Lemma keeps_flag {A} (m : M (hs HS CS W) A) : keeps stage m -> keeps handshaked m.
Proof. intros Hm s. eapply wlp_mono; [apply Hm|]. by intros a s' [= _ ?]. Qed.
Local Hint Resolve keeps_flag keeps_send_flight keeps_write_message : keeps.

Lemma flag_init_handshake : keeps handshaked (ngx_noise_protocol_init_handshake : M (hs HS CS W) _).
Proof.
  unfold ngx_noise_protocol_init_handshake. do 2 (apply keeps_bind; [keeps|intros ?]).
  destruct (_ && _); [keeps|]. destruct (negb _); [keeps|]. cbn zeta. destruct (hs_new_by_id _ _ _ _ _ _ _) as [err h].
  apply keeps_bind; [keeps|intros _]. destruct (negb _); [keeps|]. apply keeps_bind; [keeps|intros h'].
  destruct (hs_set_prologue _ _) as [err' h'']. apply keeps_bind; [keeps|intros _]. destruct (negb _); [keeps|].
  apply keeps_bind; [|intros [rc h3]; keeps]. intros s. unfold wlp, lift. by destruct (set_static_keys _ _).
Qed.
Local Hint Resolve flag_init_handshake : keeps.

Lemma flag_none_phase fuel : keeps handshaked (none_phase fuel : M (hs HS CS W) _).
Proof.
  unfold none_phase, refuse_version, free_buf. keeps. intros s. by apply wlp_modify.
Qed.

Lemma process_phase_flag fuel s :
  wlp (process_phase fuel) (fun r s' => handshaked (nc s') = true -> handshaked (nc s) = false ->
    r = inl NGX_OK /\ established s') s.
Proof.
  unfold process_phase. do 3 wlp_step.
  apply (wlp_mono _ (fun _ s' => s' = s)); [by repeat wlp_step|]. intros act s1 ->. wlp_step.
  { eapply wlp_mono; [apply keeps_flag, keeps_write_action|]. intros r s' Hf. congruence. }
  wlp_step.
  { do 3 wlp_step. eapply wlp_mono; [apply keeps_flag, keeps_read_message|]. intros n s' Hf.
    cbn in Hf. wlp_step; wlp_step; congruence. }
  wlp_step; [|wlp_step; congruence]. wlp_step.
  eapply wlp_mono; [apply wlp_conj; [apply split_action_codes|apply split_action_flag]|].
  intros n s' [H1 H2]. wlp_step. intros H3 H4. specialize (H2 H3 H4). subst. auto.
Qed.

Lemma handshake_flag fuel : forall s,
  wlp (ngx_nsoc_do_handshake_process fuel) (fun r s' => handshaked (nc s') = true -> handshaked (nc s) = false ->
    r = NGX_OK /\ established s') s.
Proof.
  induction fuel as [|fuel IH]; intros s; [done|]. cbn [ngx_nsoc_do_handshake_process]. do 3 wlp_step.
  apply (wlp_mono _ (fun r s' => handshaked (nc s') = true -> handshaked (nc s) = false ->
    r = inl NGX_OK /\ established s')).
  - destruct (handshake_phase (nc s)).
    + wlp_step. eapply wlp_mono; [apply flag_none_phase|]. intros [n|[]] s1 H1.
      * wlp_step. congruence.
      * eapply wlp_mono; [apply process_phase_flag|]. intros r s2 H2 H3 H4. apply H2; congruence.
    + apply process_phase_flag.
    + wlp_step. congruence.
  - intros [n|[]] s1 H1.
    + wlp_step. intros H2 H3. destruct (H1 H2 H3) as [[= ->] He]. done.
    + eapply wlp_mono; [apply IH|]. intros r s2 H2 H3 H4. apply H2; [done|].
      destruct (handshaked (nc s1)) eqn:Hf; [|done]. by destruct (H1 eq_refl H4).
Qed.

(** C4: the flag that lets a session pass is sound: whatever the network and the
    peer do, a call that sets [handshaked] is one that returns NGX_OK with the
    connection established.  No failed, refused or suspended handshake has it. *)
Theorem handshaked_means_established fuel s r s'
    (Hbefore : handshaked (nc s) = false)
    (Hrun : ngx_nsoc_do_handshake_process fuel s = Done (r, s'))
    (Hafter : handshaked (nc s') = true) :
  r = NGX_OK /\ established s'.
Proof. exact (wlp_inv _ _ _ _ _ (handshake_flag fuel s) Hrun Hafter Hbefore). Qed.
End Sound.

(** ** Which codes a handshake can return *)

Section Codes.
Context {HS CS W : Type} {NL : NoiseLib HS CS} {OS : NgxOs W} {PO : NgxPool W}.
Implicit Types s : hs HS CS W.

(** The codes a caller of [ngx_nsoc_handshake] distinguishes. *)
Definition hs_code (r : Z) : Prop := r = NGX_OK \/ r = NGX_AGAIN \/ r = NGX_ERROR.

(** An error of the library while it writes a message. *)
Definition write_error (r : Z) : Prop :=
  r <> NOISE_ERROR_NONE /\ exists h m h', hs_write_message h NOISE_PROTOCOL_MAX_HANDSHAKE_LEN = (r, m, h').

(** The codes of the readers: a count, NGX_AGAIN or NGX_ERROR. *)
Definition read_code (r : Z) : Prop := 0 <= r \/ r = NGX_AGAIN \/ r = NGX_ERROR.

Ltac codes := unfold hs_code, read_code in *;
  repeat match goal with H : (_ =? _) = true |- _ => apply Z.eqb_eq in H; subst end;
  repeat match goal with H : negb _ = true |- _ => apply negb_true_iff in H
                       | H : negb _ = false |- _ => apply negb_false_iff in H end;
  repeat match goal with H : (_ =? _) = true |- _ => apply Z.eqb_eq in H; subst end;
  repeat match goal with H : (_ <? _) = true |- _ => apply Z.ltb_lt in H
                       | H : (_ <? _) = false |- _ => apply Z.ltb_ge in H
                       | H : (_ <=? _) = true |- _ => apply Z.leb_le in H end;
  first [by auto | by left | lia | tauto].

Lemma read_again_code s : wlp read_again (fun r _ => read_code r) s.
Proof. unfold read_again. wlp_go; codes. Qed.

Lemma read_complete_code n k s : 0 <= n -> wlp (read_complete n k) (fun r _ => read_code r) s.
Proof. intros. unfold read_complete. wlp_go; codes. Qed.

Lemma read_negotiation_code fuel : forall k s,
  wlp (ngx_nsoc_read_negotiation fuel k) (fun r _ => read_code r) s.
Proof.
  induction fuel as [|fuel IH]; intros k s; [done|]. pose proof read_again_code. pose proof read_complete_code.
  cbn [ngx_nsoc_read_negotiation]. wlp_step. wlp_step.
  assert (Hafter : forall n s1, wlp (if n =? NGX_AGAIN then read_again else
      size ← gets (fun s => neg_data_recv_size (nc s));
      if negb (n =? NGX_ERROR) then if size =? k then ngx_nsoc_read_negotiation fuel k else mret NGX_ERROR
      else mret n) (fun r _ => read_code r) s1).
  { intros n s1. wlp_step; [auto|]. wlp_step. wlp_step. wlp_step; [wlp_step; [auto|]|]; wlp_step; codes. }
  wlp_step.
  - wlp_step. apply wlp_any. intros. wlp_step. apply wlp_any. intros. apply Hafter.
  - wlp_step. apply wlp_any. intros n s1. wlp_step; [|apply Hafter]. apply read_complete_code. lia.
Qed.

Lemma read_noise_msg_code fuel : forall s,
  wlp (ngx_nsoc_read_noise_msg fuel) (fun r _ => read_code r) s.
Proof.
  induction fuel as [|fuel IH]; intros s; [done|]. pose proof read_again_code.
  cbn [ngx_nsoc_read_noise_msg]. wlp_step. wlp_step.
  assert (Hafter : forall n s1, wlp (if n =? NGX_AGAIN then read_again else
      if negb (n =? NGX_ERROR) then ngx_nsoc_read_noise_msg fuel else mret n) (fun r _ => read_code r) s1).
  { intros n s1. wlp_step; [auto|]. wlp_step; [auto|]. wlp_step; codes. }
  wlp_step.
  - wlp_step. apply wlp_any. intros. wlp_step. apply wlp_any. intros. apply Hafter.
  - wlp_step. apply wlp_any. intros n s1. wlp_step; [|apply Hafter]. apply read_complete_code. lia.
Qed.

Lemma read_message_loop_code fuel : forall k s,
  wlp (read_message_loop fuel k) (fun r _ => match r with inl n => n = NGX_ERROR | inr n => read_code n end) s.
Proof.
  induction fuel as [|fuel IH]; intros k s; [done|]. cbn [read_message_loop].
  assert (Hneg : forall k s1, wlp (n ← ngx_nsoc_read_negotiation fuel k;
      if n <? 0 then mret (inr n) else read_message_loop fuel k)
      (fun r _ => match r with inl n => n = NGX_ERROR | inr n => read_code n end) s1).
  { intros k' s1. wlp_step. eapply wlp_mono; [apply read_negotiation_code|]. intros n s2 Hn.
    wlp_step; [by wlp_step|apply IH]. }
  wlp_step. wlp_step. wlp_step; [wlp_go; codes|].
  wlp_step; [wlp_step; [apply Hneg|wlp_step; [wlp_go; codes|]]|].
  { do 4 wlp_step. wlp_step; [by wlp_step|]. wlp_step; [by wlp_step|apply Hneg]. }
  wlp_step; [wlp_step; [apply Hneg|wlp_go; codes]|]. by wlp_step.
Qed.

Lemma read_message_code fuel s :
  wlp (ngx_nsoc_handshake_start_action_read_message fuel) (fun r _ => hs_code r) s.
Proof.
  unfold ngx_nsoc_handshake_start_action_read_message. wlp_step.
  eapply wlp_mono; [apply read_message_loop_code|]. intros [n|n] s1 Hn; cbv beta iota.
  { wlp_step. codes. }
  unfold free_buf. wlp_step. wlp_step. wlp_step; [wlp_step; codes|]. wlp_step.
  eapply wlp_mono; [apply read_noise_msg_code|]. intros m s2 Hm. wlp_step; [wlp_step; codes|]. wlp_go; codes.
Qed.

Lemma write_message_code s :
  wlp ngx_nsoc_handshake_start_action_write_message (fun '(r, _) _ => hs_code r \/ write_error r) s.
Proof.
  assert (Hfin : forall k mem s1, wlp (finish_message k mem) (fun '(r, _) _ => hs_code r \/ write_error r) s1).
  { intros k mem s1. unfold finish_message. do 4 wlp_step.
    destruct (hs_write_message _ _) as [[n m] h'] eqn:Hw. wlp_step. wlp_step. wlp_step.
    - wlp_step. right. split; [by apply negb_true_iff, Z.eqb_neq in Heqb|by eauto].
    - wlp_go; left; codes. }
  unfold ngx_nsoc_handshake_start_action_write_message. wlp_step. apply wlp_any. intros ok s1.
  wlp_step; [wlp_step; left; codes|]. wlp_step. wlp_step. wlp_step. wlp_step.
  repeat (wlp_step; [wlp_step; apply wlp_any; intros; wlp_step; wlp_step; first [apply Hfin | wlp_step; left; codes]|]).
  wlp_step. left. codes.
Qed.

Lemma send_flight_code b s : wlp (send_flight b) (fun '(r, _) _ => hs_code r) s.
Proof. unfold send_flight. wlp_go; codes. Qed.

Lemma write_action_code s :
  wlp write_action (fun r _ => match r with inl n => hs_code n \/ write_error n | inr _ => True end) s.
Proof.
  unfold write_action. wlp_step. wlp_step. wlp_step.
  apply (wlp_mono _ (fun '(r, _) _ => hs_code r \/ write_error r)).
  { wlp_step; [apply write_message_code|]. wlp_step. left. codes. }
  intros [n b] s1 Hn. wlp_step; [by wlp_step|]. wlp_step. wlp_step. wlp_step. wlp_step. wlp_step.
  eapply wlp_mono; [apply send_flight_code|]. intros [m ok] s2 Hm. wlp_step; [wlp_step; by left|].
  wlp_go; left; codes.
Qed.

Lemma none_phase_code fuel s :
  wlp (none_phase fuel) (fun r _ => match r with inl n => hs_code n \/ write_error n | inr _ => True end) s.
Proof.
  unfold none_phase. wlp_step. wlp_step. wlp_step.
  apply (wlp_mono _ (fun r _ => match r with inl n => hs_code n \/ write_error n | inr _ => True end)).
  { wlp_step; [|by wlp_step]. wlp_step. eapply wlp_mono; [apply read_negotiation_code|]. intros n s1 Hn.
    wlp_step.
    { wlp_step. left. destruct Hn as [Hn|Hn]; [|unfold hs_code; tauto]. left. unfold NGX_OK. lia. }
    do 6 wlp_step. wlp_step; [|by do 2 wlp_step]. wlp_step. unfold refuse_version. wlp_step. wlp_step. wlp_step.
    eapply wlp_mono; [apply write_message_code|]. intros [m b] s2 Hm. wlp_step; [do 2 wlp_step; exact Hm|].
    wlp_step. wlp_step. wlp_step. eapply wlp_mono; [apply send_flight_code|]. intros [k ok] s3 Hk.
    destruct ok; do 2 wlp_step; left; codes. }
  intros [n|[]] s1 Hn; [by wlp_step|]. wlp_go; left; codes.
Qed.

Lemma process_phase_code fuel s :
  wlp (process_phase fuel) (fun r _ => match r with inl n => hs_code n \/ write_error n | inr _ => True end) s.
Proof.
  unfold process_phase. do 3 wlp_step. apply wlp_any. intros act s1. wlp_step; [apply write_action_code|].
  wlp_step.
  { do 3 wlp_step. eapply wlp_mono; [apply read_message_code|]. intros n s2 Hn. wlp_step; wlp_step; [by left|done]. }
  wlp_step; [|wlp_step; left; codes]. unfold split_action. wlp_go; left; codes.
Qed.

Lemma do_handshake_code fuel : forall s,
  wlp (ngx_nsoc_do_handshake_process fuel) (fun r _ => hs_code r \/ write_error r) s.
Proof.
  induction fuel as [|fuel IH]; intros s; [done|]. cbn [ngx_nsoc_do_handshake_process]. do 3 wlp_step.
  apply (wlp_mono _ (fun r _ => match r with inl n => hs_code n \/ write_error n | inr _ => True end)).
  - destruct (handshake_phase (nc s)).
    + wlp_step. eapply wlp_mono; [apply none_phase_code|]. intros [n|[]] s1 Hn; [by wlp_step|apply process_phase_code].
    + apply process_phase_code.
    + by wlp_step.
  - intros [n|[]] s1 Hn; [by wlp_step|apply IH].
Qed.
End Codes.

(** ** A first Noise message that comes late *)

Section Late.
Context {HS CS W : Type} {NL : NoiseLib HS CS} {OS : NgxOs W} {PO : NgxPool W}.
Abbreviation ST := (M (hs HS CS W)).
Implicit Types s : hs HS CS W.

(** Where the readers stand in the sequence of messages. *)
Definition cursor (n : nconn HS CS) : Z * Z * bool :=
  (msg_num n, neg_data_recv_size n, neg_data_size_reading n).

(** The server expects the second message although it has the negotiation data
    of the first one, and only these. *)
Definition overtaken s : Prop :=
  cursor (nc s) = (NGX_NSOC_2MSG_OK, NGX_NSOC_1MSG_NEG_DATA_SIZE, false).

Lemma cursor_create_temp_buf n : keeps cursor (create_temp_buf n : ST _).
Proof. unfold create_temp_buf. keeps. Qed.
Local Hint Resolve cursor_create_temp_buf : keeps.

Lemma cursor_read_data n : keeps cursor (ngx_nsoc_read_handshake_data n : ST _).
Proof. unfold ngx_nsoc_read_handshake_data. keeps. Qed.

Lemma cursor_size_loop fuel : forall ptr len arr, keeps cursor (read_size_loop fuel ptr len arr : ST _).
Proof. induction fuel as [|fuel IH]; intros; cbn [read_size_loop]; keeps. Qed.
Local Hint Resolve cursor_read_data cursor_size_loop : keeps.

Lemma cursor_msg_len : keeps cursor (ngx_nsoc_read_noise_msg_len : ST _).
Proof. unfold ngx_nsoc_read_noise_msg_len, byte_at. keeps. Qed.

Lemma cursor_handlers : keeps cursor (set_handshake_handlers : ST _).
Proof. unfold set_handshake_handlers. keeps. Qed.

Lemma cursor_read_again : keeps cursor (read_again : ST _).
Proof. unfold read_again. keeps. Qed.

Lemma cursor_read_complete n k : keeps cursor (read_complete n k : ST _).
Proof. unfold read_complete. keeps. Qed.
Local Hint Resolve cursor_msg_len cursor_handlers cursor_read_again cursor_read_complete : keeps.

Lemma cursor_read_noise_msg fuel : keeps cursor (ngx_nsoc_read_noise_msg fuel : ST _).
Proof. induction fuel as [|fuel IH]; cbn [ngx_nsoc_read_noise_msg]; keeps. Qed.

Lemma overtaken_negotiation fuel s :
  overtaken s -> wlp (ngx_nsoc_read_negotiation fuel 0) (fun _ s' => overtaken s') s.
Proof.
  intros Hs. destruct fuel as [|fuel]; [done|]. cbn [ngx_nsoc_read_negotiation]. wlp_step. wlp_step.
  pose proof Hs as [= Hm Hk Hr]. rewrite Hk, Hr. zlit. cbn [orb negb]. wlp_step.
  eapply wlp_mono; [apply cursor_read_data|]. intros n s1 H1.
  assert (Ho1 : overtaken s1) by (unfold overtaken; by rewrite H1).
  wlp_step; [|wlp_step].
  - eapply wlp_mono; [apply cursor_read_complete|]. intros z s2 H2. unfold overtaken. by rewrite H2.
  - eapply wlp_mono; [apply cursor_read_again|]. intros z s2 H2. unfold overtaken. by rewrite H2.
  - wlp_step. wlp_step. pose proof Ho1 as [= Hm1 Hk1 Hr1]. rewrite Hk1. zlit. wlp_go.
Qed.

Lemma overtaken_loop fuel : forall size s,
  overtaken s -> size = NGX_NSOC_SIZE_UNSET \/ size = 0 ->
  wlp (read_message_loop fuel size) (fun r _ => match r with inl n => n = NGX_ERROR | inr n => n < 0 end) s.
Proof.
  induction fuel as [|fuel IH]; intros size s Hs Hsize; [done|]. cbn [read_message_loop]. wlp_step. wlp_step.
  pose proof Hs as [= Hm Hk Hr]. rewrite Hm, Hk. zlit.
  assert (Hneg : wlp (n ← ngx_nsoc_read_negotiation fuel 0;
    if n <? 0 then mret (inr n) else read_message_loop fuel 0)
    (fun r _ => match r with inl n => n = NGX_ERROR | inr n => n < 0 end) s).
  { wlp_step. eapply wlp_mono; [by apply overtaken_negotiation|]. intros n s1 H1. wlp_step.
    - wlp_step. lia.
    - apply IH; [done|by right]. }
  destruct Hsize as [-> | ->]; zlit; [exact Hneg|]. do 4 wlp_step. wlp_step; [by wlp_step|]. wlp_step; [by wlp_step|exact Hneg].
Qed.

Lemma overtaken_message fuel s :
  overtaken s -> wlp (ngx_nsoc_handshake_start_action_read_message fuel) (fun n _ => n < 0) s.
Proof.
  intros Hs. unfold ngx_nsoc_handshake_start_action_read_message. wlp_step.
  eapply wlp_mono; [apply overtaken_loop; [done|by left]|]. intros [n|n] s1 Hn; cbv beta iota.
  - wlp_step. by subst.
  - unfold free_buf. wlp_step. wlp_step. rewrite (proj2 (Z.ltb_lt n 0) Hn). by wlp_step.
Qed.

Lemma first_message_overtakes fuel s :
  cursor (nc s) = (NGX_NSOC_1MSG, NGX_NSOC_1MSG_NEG_DATA_SIZE, false) ->
  wlp (ngx_nsoc_handshake_start_action_read_message fuel) (fun n s' => n = NGX_AGAIN -> overtaken s') s.
Proof.
  intros [= Hm Hk Hr]. unfold ngx_nsoc_handshake_start_action_read_message. wlp_step.
  destruct fuel as [|fuel]; [done|]. cbn [read_message_loop]. wlp_step. wlp_step. rewrite Hm. zlit.
  unfold free_buf. do 5 wlp_step. wlp_step; [done|]. wlp_step.
  eapply wlp_mono; [apply cursor_read_noise_msg|]. intros n s1 H1.
  assert (Ho : overtaken s1) by (unfold overtaken; rewrite H1; unfold cursor; cbn; by rewrite Hk, Hr).
  wlp_go.
Qed.

(** A server whose client's first Noise message has not all arrived when the
    negotiation data have gives that handshake up: [msg_num] has already moved to
    the second message when the reader returns NGX_AGAIN, so the resumed reader
    takes the Noise message for negotiation data of the second message, and no
    later call returns NGX_OK, whatever the peer sends. *)
Theorem late_message_fails fuel s s1 fuel' s2 n s3
    (Hfirst : cursor (nc s) = (NGX_NSOC_1MSG, NGX_NSOC_1MSG_NEG_DATA_SIZE, false))
    (Hagain : ngx_nsoc_handshake_start_action_read_message fuel s = Done (NGX_AGAIN, s1))
    (Hsame : nc s2 = nc s1)
    (Hresume : ngx_nsoc_handshake_start_action_read_message fuel' s2 = Done (n, s3)) :
  n < 0.
Proof.
  pose proof (wlp_inv _ _ _ _ _ (first_message_overtakes fuel s Hfirst) Hagain eq_refl) as Ho.
  refine (wlp_inv _ _ _ _ _ (overtaken_message fuel' s2 _) Hresume). unfold overtaken. by rewrite Hsame.
Qed.
End Late.

(** ** Witnesses *)

Lemma net_pool_gives n (w : net) : exists bs w', pool_bytes n w = (Some bs, w').
Proof. by do 2 eexists. Qed.

(** A server about to write the second message. *)
Definition writing_state : hs toy_hs Z net :=
  let s := demo_state SERVER_ROLE [] [] in
  s <| nc := set_hs (Some (ToyHs false 1 [])) ((nc s) <| msg_num := NGX_NSOC_2MSG_OK |>) |>.


(** A hello of version 2. *)
Definition foreign_hello : list chunk := [Data [0; 6; 0; 2; 1; 2; 3; 9]].

Definition out_state (o : outcome (Z * hs toy_hs Z net)) : hs toy_hs Z net :=
  match o with Done (_, s) => s | _ => demo_state SERVER_ROLE [] [] end.

Definition foreign_read : hs toy_hs Z net :=
  Eval vm_compute in
    out_state (ngx_nsoc_read_negotiation 5 NGX_NSOC_1MSG_NEG_DATA_SIZE (demo_state SERVER_ROLE foreign_hello [])).

Lemma foreign_read_ok :
  ngx_nsoc_read_negotiation 5 NGX_NSOC_1MSG_NEG_DATA_SIZE (demo_state SERVER_ROLE foreign_hello []) =
  Done (6, foreign_read).
Proof. by vm_compute. Qed.

Lemma version_refused_witness :
  exists r s2, none_phase 5 (demo_state SERVER_ROLE foreign_hello []) = Done (inl r, s2) /\
    outbox s2 = [0; 3; 0; 1; 255; 0; 0].
Proof.
  destruct (version_refused net_pool_gives 5 (demo_state SERVER_ROLE foreign_hello []) 6 foreign_read
              (NBuf [0; 2; 1; 2; 3; 9] 0 6) (FirstHdr 512 1 2 3 9) eq_refl foreign_read_ok eq_refl
              eq_refl eq_refl ltac:(done) eq_refl) as (r & s2 & k & Hrun & _).
  exists r, s2. split; [exact Hrun|]. vm_compute in Hrun. by injection Hrun as _ <-.
Defined.

(** The server of [server_runs] before the client's last message. *)
Definition awaiting_final : hs toy_hs Z net :=
  then_feed [Data client_final]
    (ngx_nsoc_do_handshake_process 20 (demo_state SERVER_ROLE [Data client_hello] [])).

Lemma handshake_ok_established_witness :
  established (out_state (ngx_nsoc_do_handshake_process 20 awaiting_final)).
Proof.
  apply (handshake_ok_established 20 awaiting_final); [by vm_compute|by vm_compute].
Defined.

Lemma handshaked_means_established_witness :
  established (out_state (ngx_nsoc_do_handshake_process 20 awaiting_final)).
Proof.
  refine (proj2 (handshaked_means_established 20 awaiting_final NGX_OK _ _ _ _)); by vm_compute.
Defined.

(** The server of [server_late]. *)
Definition hello_alone : hs toy_hs Z net :=
  let s := demo_state SERVER_ROLE [WouldBlock; Data (frame (replicate 32 0))] [] in
  s <| nc := (nc s) <| neg_data_recv_size := 6 |> |>.

Lemma late_message_fails_witness :
  exists n s', ngx_nsoc_handshake_start_action_read_message 9
    (out_state (ngx_nsoc_handshake_start_action_read_message 9 hello_alone)) = Done (n, s') /\ n < 0.
Proof.
  eexists _, _. split; [vm_compute; reflexivity|].
  eapply (late_message_fails 9 hello_alone
            (out_state (ngx_nsoc_handshake_start_action_read_message 9 hello_alone)) 9
            (out_state (ngx_nsoc_handshake_start_action_read_message 9 hello_alone)));
    [by vm_compute|by vm_compute|reflexivity|by vm_compute].
Defined.
