(* ===== verification/Exchange.v ===== *)
(** * Two endpoints: the handshake from both sides

    The state machine of Handshake run by a client and by a server that are connected:
    what one side sends arrives at the other in one piece, and nginx calls the other's
    handler again.  [handshake_completes]: the exchange ends with both sides encrypted,
    and the ciphers of the two sides belong together.

    That a message arrives in one piece matters: with the negotiation data alone the
    code fails ([late_message_fails]), and so does a payload in two pieces
    ([read_noise_msg_split_fails]). *)

From stdpp Require Import prelude list numbers.
From S2P Require Import Prelude NoiseConn Net HsRead Record Handshake.

(** ** A network that delivers whole *)

(** [arrive bs]: the bytes come in at the socket.  [prompt]: all that is pending has come
    in, the socket takes what it is given, and there is memory. *)
Class NgxArrival (W : Type) := { arrive : list Z -> W -> W; prompt : W -> Prop }.

(** Documented behaviour: a read of no more than what has come in is answered in full, no
    end of file appears meanwhile, and events are registered. *)
Class NgxArrivalLaws (W : Type) `{NgxOs W} `{NgxPool W} `{NgxStream W} `{NgxArrival W} : Prop := {
  arrive_law bs w : bytes_ok bs -> prompt w -> pending w = [] ->
    prompt (arrive bs w) /\ pending (arrive bs w) = bs /\ wire (arrive bs w) = wire w;
  prompt_recv n e w : prompt w -> 0 < n <= zlen (pending w) ->
    exists bs e' w', os_recv n e w = (n, bs, e', w') /\ prompt w' /\ eof e' = eof e;
  prompt_send bs e k w : prompt w -> 0 < zlen bs ->
    exists e' k' w', os_send bs e k w = (zlen bs, e', k', w') /\ prompt w';
  prompt_handle_read e w : prompt w ->
    exists e' w', os_handle_read e w = (NGX_OK, e', w') /\ prompt w' /\ eof e' = eof e;
  prompt_add_timer e ms w e' w' :
    os_add_timer e ms w = (e', w') -> prompt w -> prompt w' /\ eof e' = eof e;
  prompt_del_timer e w e' w' :
    os_del_timer e w = (e', w') -> prompt w -> prompt w' /\ eof e' = eof e;
  prompt_object w : prompt w -> exists w', pool_object w = (true, w') /\ prompt w';
  prompt_bytes n w : 0 <= n -> prompt w -> exists bs w', pool_bytes n w = (Some bs, w') /\ prompt w';
}.

(** ** Calls on a live connection *)

Section Live.
Context {HS CS W : Type} {NL : NoiseLib HS CS} {OS : NgxOs W} {PO : NgxPool W} {SM : NgxStream W}
  {OL : NgxOsLaws W} {PL : NgxPoolLaws W} {NLaw : NoiseLaws HS CS} {AR : NgxArrival W} {AL : NgxArrivalLaws W}.
Implicit Types (s : hs HS CS W) (n : nconn HS CS) (p : prologue_data) (st ob : list Z).

(** The socket has not seen its end, and the network is prompt. *)
Definition live s : Prop := prompt (world s) /\ eof (read (c s)) = false.

(** The state of a handshake: the Noise connection, the prologue, the bytes that have come in
    and those that went out; nginx's own I/O functions are in place. *)
Record here s n p st ob : Prop := Here {
  he_nc : nc s = n;
  he_pro : prologue s = p;
  he_io : io (c s) = OsIo;
  he_in : stream s = st;
  he_out : outbox s = ob;
  he_live : live s;
}.

Lemma here_on_nc f (Q : unit -> hs HS CS W -> Prop) s n p st ob :
  here s n p st ob -> (forall s', here s' (f n) p st ob -> Q tt s') -> wp (on_nc f) Q s.
Proof. intros [<- ? ? ? ? ?] HQ. apply wp_modify. by apply HQ. Qed.

Lemma here_on_read f (Q : unit -> hs HS CS W -> Prop) s n p st ob :
  (forall e, eof (f e) = eof e) ->
  here s n p st ob -> (forall s', here s' n p st ob -> Q tt s') -> wp (on_read f) Q s.
Proof.
  intros Hf [? ? ? ? ? [Hp He]] HQ. apply wp_modify. apply HQ. split; try done. split; [done|]. cbn. by rewrite Hf.
Qed.

Lemma here_on_write f (Q : unit -> hs HS CS W -> Prop) s n p st ob :
  here s n p st ob -> (forall s', here s' n p st ob -> Q tt s') -> wp (on_write f) Q s.
Proof. intros [? ? ? ? ? ?] HQ. apply wp_modify. by apply HQ. Qed.

Lemma here_prologue q s n p st ob : here s n p st ob -> here (s <| prologue := q |>) n q st ob.
Proof. by intros [? ? ? ? ? ?]. Qed.

Lemma here_recv k (Q : Z * list Z -> hs HS CS W -> Prop) s n p st ob bs rest :
  here s n p st ob -> st = bs ++ rest -> zlen bs = k -> 0 < k ->
  (forall s', here s' n p rest ob -> bytes_ok bs -> Q (k, bs) s') -> wp (ngx_recv k) Q s.
Proof.
  intros [Hn Hp Hi Hst Ho [Hpr He]] -> Hk Hpos HQ. unfold wp, ngx_recv.
  destruct (prompt_recv k (read (c s)) (world s) Hpr) as (bs' & e' & w' & Hr & Hpr' & He').
  { fold (stream s). rewrite Hst, zlen_app. pose proof (zlen_nonneg rest). lia. }
  rewrite Hr. destruct (os_recv_stream _ _ _ _ _ _ _ Hr) as (Hs' & Ho' & _).
  destruct (os_recv_result _ _ _ _ _ _ _ Hr) as [(_ & Hl & Hok)|(_ & Hbad)].
  2: { exfalso. unfold NGX_AGAIN, NGX_ERROR in Hbad. lia. }
  fold (stream s) in Hs'. rewrite Hst in Hs'. apply app_inj_1 in Hs' as [<- Hrest]; [|unfold zlen in *; lia].
  apply HQ; [|done]. split; try done; unfold stream, outbox in *; cbn; [congruence|].
  split; [done|]. cbn. congruence.
Qed.

Lemma here_send bs (Q : Z -> hs HS CS W -> Prop) s n p st ob :
  here s n p st ob -> 0 < zlen bs ->
  (forall s', here s' n p st (ob ++ bs) -> Q (zlen bs) s') -> wp (ngx_send bs) Q s.
Proof.
  intros [Hn Hp Hi Hst Ho [Hpr He]] Hpos HQ. unfold wp, ngx_send.
  destruct (prompt_send bs (write (c s)) (sent (c s)) (world s) Hpr Hpos) as (e' & k' & w' & Hr & Hpr').
  rewrite Hr. destruct (os_send_stream _ _ _ _ _ _ _ _ Hr) as (Hs' & Ho' & _). rewrite ztake_all in Ho' by done.
  apply HQ. split; try done; unfold stream, outbox in *; cbn; congruence.
Qed.

(** A call that changes an event and the world. *)
Lemma here_events s n p st ob x w :
  here s n p st ob -> io x = io (c s) -> eof (read x) = eof (read (c s)) -> same_streams (world s) w -> prompt w ->
  here (Hs x (nc s) (prologue s) w) n p st ob.
Proof.
  intros [Hn Hp Hi Hst Ho [Hpr He]] Hio Heof (Hs' & Ho' & _) Hpr'.
  split; try done; unfold stream, outbox, live in *; cbn; [congruence..|]. split; [done|congruence].
Qed.

Lemma here_handle_read (Q : Z -> hs HS CS W -> Prop) s n p st ob :
  here s n p st ob -> (forall s', here s' n p st ob -> Q NGX_OK s') -> wp handle_read_event Q s.
Proof.
  intros Hh HQ. unfold wp, handle_read_event.
  destruct (prompt_handle_read (read (c s)) (world s) (proj1 (he_live _ _ _ _ _ Hh))) as (e' & w' & Hr & Hpr & He).
  rewrite Hr. apply HQ. eapply (here_events s n p st ob); [exact Hh|done|exact He| |done]. by eapply os_handle_read_stream.
Qed.

Lemma here_add_read_timer (Q : unit -> hs HS CS W -> Prop) s n p st ob :
  here s n p st ob -> (forall s', here s' n p st ob -> Q tt s') -> wp add_read_timer Q s.
Proof.
  intros Hh HQ. unfold wp, add_read_timer. destruct (timer_set _); [by apply HQ|].
  destruct (os_add_timer _ _ _) as [e w] eqn:Hr.
  destruct (prompt_add_timer _ _ _ _ _ Hr (proj1 (he_live _ _ _ _ _ Hh))) as [Hpr He].
  apply HQ. eapply (here_events s n p st ob); [exact Hh|done|exact He|by eapply os_add_timer_law|done].
Qed.

Lemma here_del_read_timer (Q : unit -> hs HS CS W -> Prop) s n p st ob :
  here s n p st ob -> (forall s', here s' n p st ob -> Q tt s') -> wp del_read_timer Q s.
Proof.
  intros Hh HQ. unfold wp, del_read_timer. destruct (timer_set _); [|by apply HQ].
  destruct (os_del_timer _ _) as [e w] eqn:Hr.
  destruct (prompt_del_timer _ _ _ _ Hr (proj1 (he_live _ _ _ _ _ Hh))) as [Hpr He].
  apply HQ. eapply (here_events s n p st ob); [exact Hh|done|exact He|by eapply os_del_timer_law|done].
Qed.

Lemma here_del_write_timer (Q : unit -> hs HS CS W -> Prop) s n p st ob :
  here s n p st ob -> (forall s', here s' n p st ob -> Q tt s') -> wp del_write_timer Q s.
Proof.
  intros Hh HQ. unfold wp, del_write_timer. destruct (timer_set _); [|by apply HQ].
  destruct (os_del_timer _ _) as [e w] eqn:Hr.
  destruct (prompt_del_timer _ _ _ _ Hr (proj1 (he_live _ _ _ _ _ Hh))) as [Hpr He].
  apply HQ. eapply (here_events s n p st ob); [exact Hh|done|done|by eapply os_del_timer_law|done].
Qed.

Lemma here_alloc (Q : bool -> hs HS CS W -> Prop) s n p st ob :
  here s n p st ob -> (forall s', here s' n p st ob -> Q true s') -> wp alloc_object Q s.
Proof.
  intros Hh HQ. unfold wp, alloc_object.
  destruct (prompt_object (world s) (proj1 (he_live _ _ _ _ _ Hh))) as (w' & Hr & Hpr). rewrite Hr.
  apply HQ. eapply (here_events s n p st ob); [exact Hh|done|done|by eapply pool_object_stream|done].
Qed.

Lemma here_palloc k (Q : option (list Z) -> hs HS CS W -> Prop) s n p st ob :
  here s n p st ob -> 0 <= k ->
  (forall mem s', zlen mem = k -> here s' n p st ob -> Q (Some mem) s') -> wp (palloc k) Q s.
Proof.
  intros Hh Hk HQ. unfold wp, palloc.
  destruct (prompt_bytes k (world s) Hk (proj1 (he_live _ _ _ _ _ Hh))) as (bs & w' & Hr & Hpr). rewrite Hr.
  apply (HQ bs); [by eapply pool_bytes_length|].
  eapply (here_events s n p st ob); [exact Hh|done|done|by eapply pool_bytes_stream|done].
Qed.

Lemma here_temp_buf k (Q : option nbuf -> hs HS CS W -> Prop) s n p st ob :
  here s n p st ob -> 0 <= k ->
  (forall mem s', zlen mem = k -> here s' n p st ob -> Q (Some (NBuf mem 0 0)) s') -> wp (create_temp_buf k) Q s.
Proof.
  intros Hh Hk HQ. unfold create_temp_buf. hs_step. eapply here_alloc; [exact Hh|]. intros s1 H1.
  hs_step. eapply here_palloc; [exact H1|done|]. intros mem s2 Hm H2. hs_step. by apply HQ.
Qed.

Lemma here_handlers (Q : unit -> hs HS CS W -> Prop) s n p st ob :
  here s n p st ob -> (forall s', here s' n p st ob -> Q tt s') -> wp set_handshake_handlers Q s.
Proof.
  intros Hh HQ. unfold set_handshake_handlers. hs_step. eapply here_on_read; [done|exact Hh|].
  intros s1 H1. by eapply here_on_write.
Qed.

(** ** Reading what has come in *)

Lemma here_size_loop fuel a b (Q : list Z + Z * Z * list Z -> hs HS CS W -> Prop) s n p st ob :
  here s n p (a :: b :: st) ob ->
  (forall s', here s' n p st ob -> is_byte a -> is_byte b -> Q (inl [a; b]) s') ->
  wp (read_size_loop (S fuel) 0 2 [0; 0]) Q s.
Proof.
  intros Hh HQ. cbn [read_size_loop]. hs_step. eapply here_on_read; [done|exact Hh|]. intros s1 H1.
  hs_step. eapply (here_recv 2 _ _ _ _ _ _ [a; b] st); [exact H1|done..|]. intros s2 H2 Hok.
  change (0 <? 2) with true. cbv iota. hs_step. eapply wp_mderef; [reflexivity|].
  change (u8 (2 - 2) =? 0) with true. cbv iota. hs_step.
  apply Forall_cons_1 in Hok as [Ha [Hb _]%Forall_cons_1]. by apply HQ.
Qed.

(** No length has been read yet. *)
Definition no_length (LF : LenField HS CS) n : Prop :=
  lf_reading n = false /\ lf_size n = NGX_NSOC_SIZE_UNSET.

Lemma here_len (LF : LenField HS CS) k (Q : Z -> hs HS CS W -> Prop) s n p st ob :
  here s n p (be16 k ++ st) ob -> 0 <= k < 65536 -> lf_reading n = false ->
  (forall s', here s' (lf_set_reading false (lf_set_size k n)) p st ob -> Q NGX_OK s') ->
  wp (read_len LF) Q s.
Proof.
  intros Hh Hk Hrd HQ. unfold read_len. do 2 hs_step. rewrite (he_nc _ _ _ _ _ Hh), Hrd. cbn [negb].
  do 2 hs_step. eapply here_on_nc; [exact Hh|]. intros s1 H1.
  eapply here_size_loop; [exact H1|]. intros s2 H2 Ha Hb.
  hs_step. eapply wp_mderef; [reflexivity|]. hs_step. eapply wp_mderef; [reflexivity|].
  rewrite (dec16_be16 k Hk). hs_step. eapply here_on_nc; [exact H2|]. intros s3 H3. hs_step.
  apply HQ. replace (lf_set_reading false (lf_set_size k n)) with
    (lf_set_size k (lf_set_reading false (lf_set_size NGX_NSOC_SIZE_UNSET n))); [done|].
  by rewrite !lf_comm, lf_set_set.
Qed.

Lemma here_data size bs (Q : Z -> hs HS CS W -> Prop) s n p st ob :
  here s n p (bs ++ st) ob -> zlen bs = size -> 0 < size -> buf n = None ->
  (forall s', here s' (n <| buf := Some (NBuf bs 0 size) |>) p st ob -> bytes_ok bs -> Q size s') ->
  wp (ngx_nsoc_read_handshake_data size) Q s.
Proof.
  intros Hh Hl Hpos Hnone HQ. unfold ngx_nsoc_read_handshake_data. do 2 hs_step.
  rewrite (he_nc _ _ _ _ _ Hh), Hnone. hs_step. eapply here_temp_buf; [exact Hh|lia|]. intros mem s1 Hm H1.
  hs_step. eapply here_on_nc; [exact H1|]. intros s2 H2. cbn [b_mem b_last b_pos]. cbn zeta.
  rewrite Hm, Z.sub_0_r, (proj2 (Z.eqb_neq size 0)) by lia. do 2 hs_step.
  rewrite (proj2 (he_live _ _ _ _ _ H2)). hs_step. eapply here_on_read; [done|exact H2|]. intros s3 H3.
  hs_step. eapply here_recv; [exact H3|done|done|lia|]. intros s4 H4 Hok.
  rewrite (proj2 (Z.leb_le 0 size)) by lia. hs_step. eapply (wp_mderef _ bs).
  { pose proof (store_app [] mem [] bs) as Hst. rewrite !app_nil_r in Hst. apply Hst. lia. }
  hs_step. eapply here_on_nc; [exact H4|]. intros s5 H5. hs_step.
  eapply here_del_read_timer; [exact H5|]. intros s6 H6. hs_step. by apply HQ.
Qed.

(** The buffer after a part was read: an empty part is not read at all. *)
Definition part_buf (bs : list Z) : option nbuf :=
  match bs with [] => None | _ => Some (NBuf bs 0 (zlen bs)) end.

(** The part of both readers behind the length. *)
Lemma here_payload size bs (after : Z -> M (hs HS CS W) Z) (Q : Z -> hs HS CS W -> Prop) s n p st ob :
  here s n p (bs ++ st) ob -> zlen bs = size -> buf n = None ->
  (forall s', here s' (n <| buf := part_buf bs |>) p st ob -> bytes_ok bs -> Q size s') ->
  wp (r ← (if negb (size =? 0) then ngx_nsoc_read_handshake_data size else mret 0);
      if 0 <=? r then read_complete r size else after r) Q s.
Proof.
  intros Hh Hl Hnone HQ. hs_step. destruct bs as [|x bs].
  - change (zlen (@nil Z)) with 0 in Hl. subst size. change (negb (0 =? 0)) with false. cbv iota. hs_step.
    change (0 <=? 0) with true. cbv iota. apply wp_read_complete; [lia|]. intros _. apply HQ; [|constructor].
    destruct Hh. split; try done. by destruct n; cbn in *; subst.
  - assert (Hpos : 0 < size) by (rewrite zlen_cons in Hl; pose proof (zlen_nonneg bs); lia).
    rewrite (proj2 (Z.eqb_neq size 0)) by lia. cbn [negb].
    eapply here_data; [exact Hh|done|done|done|]. intros s1 H1 Hok.
    rewrite (proj2 (Z.leb_le 0 size)) by lia. apply wp_read_complete; [lia|]. intros _.
    apply HQ; [|done]. cbn [part_buf]. by rewrite Hl.
Qed.

Lemma here_negotiation fuel k bs (Q : Z -> hs HS CS W -> Prop) s n p st ob :
  here s n p (be16 k ++ bs ++ st) ob -> zlen bs = k -> 0 <= k < 65536 -> no_length (neg_field HS CS) n -> buf n = None ->
  (forall s', here s' (n <| neg_data_recv_size := k |> <| neg_data_size_reading := false |> <| buf := part_buf bs |>) p st ob ->
     bytes_ok bs -> Q k s') ->
  wp (ngx_nsoc_read_negotiation (S (S fuel)) k) Q s.
Proof.
  intros Hh Hl Hk [Hrd Hsz] Hnone HQ. cbn [ngx_nsoc_read_negotiation]. do 2 hs_step.
  rewrite (he_nc _ _ _ _ _ Hh). cbn in Hrd, Hsz. rewrite Hsz. zlit. cbn [orb]. hs_step.
  eapply here_handlers; [exact Hh|]. intros s1 H1. hs_step.
  rewrite read_negotiation_data_len_generic. eapply here_len; [exact H1|done|done|]. intros s2 H2.
  zlit. cbn [negb]. do 2 hs_step. rewrite (he_nc _ _ _ _ _ H2). cbn [neg_data_recv_size lf_set_reading lf_set_size neg_field].
  change (neg_data_recv_size (lf_set_reading false (lf_set_size k n))) with k. rewrite Z.eqb_refl.
  do 2 hs_step. rewrite (he_nc _ _ _ _ _ H2).
  change (neg_data_recv_size (lf_set_reading false (lf_set_size k n))) with k.
  change (neg_data_size_reading (lf_set_reading false (lf_set_size k n))) with false.
  rewrite (proj2 (Z.eqb_neq k NGX_NSOC_SIZE_UNSET)) by (unfold NGX_NSOC_SIZE_UNSET; lia). cbn [orb].
  by eapply here_payload.
Qed.

Lemma here_noise_msg fuel m (Q : Z -> hs HS CS W -> Prop) s n p st ob :
  here s n p (frame m ++ st) ob -> 0 < zlen m < 65536 -> no_length (msg_field HS CS) n -> buf n = None ->
  (forall s', here s' (n <| noise_msg_recv_size := zlen m |> <| noise_msg_size_reading := false |>
       <| buf := Some (NBuf m 0 (zlen m)) |>) p st ob -> Q (zlen m) s') ->
  wp (ngx_nsoc_read_noise_msg (S (S fuel))) Q s.
Proof.
  intros Hh Hm [Hrd Hsz] Hnone HQ. unfold frame in Hh. rewrite <- app_assoc in Hh. cbn [ngx_nsoc_read_noise_msg]. do 2 hs_step.
  rewrite (he_nc _ _ _ _ _ Hh). cbn in Hrd, Hsz. rewrite Hsz. zlit. cbn [orb]. hs_step.
  eapply here_handlers; [exact Hh|]. intros s1 H1. hs_step.
  rewrite read_noise_msg_len_generic. eapply here_len; [exact H1|lia|done|]. intros s2 H2.
  zlit. cbn [negb]. do 2 hs_step. rewrite (he_nc _ _ _ _ _ H2).
  change (noise_msg_recv_size (lf_set_reading false (lf_set_size (zlen m) n))) with (zlen m).
  change (noise_msg_size_reading (lf_set_reading false (lf_set_size (zlen m) n))) with false.
  rewrite (proj2 (Z.eqb_neq (zlen m) NGX_NSOC_SIZE_UNSET)) by (unfold NGX_NSOC_SIZE_UNSET; lia). cbn [orb].
  eapply here_payload; [exact H2|done|done|]. intros s3 H3 _. apply HQ.
  destruct m as [|x m]; [by destruct Hm as [? _]|]. exact H3.
Qed.

(** ** Writing and sending *)

Lemma here_start_message size stores mem' (Q : list Z -> hs HS CS W -> Prop) s n p st ob :
  here s n p st ob -> 0 <= size ->
  (forall mem, zlen mem = size ->
     exists mem1, foldl (fun m '(off, bs) => m ≫= store off bs) (Some mem) stores = Some mem1 /\ mem' mem mem1) ->
  (forall mem mem1 s', mem' mem mem1 -> here s' n p st ob -> Q mem1 s') ->
  wp (start_message size stores) Q s.
Proof.
  intros Hh Hsz Hst HQ. unfold start_message. hs_step. eapply here_palloc; [exact Hh|done|].
  intros mem s1 Hl H1. hs_step. eapply wp_mderef; [done|]. destruct (Hst mem Hl) as (mem1 & Hf & Hm).
  rewrite Hf. by eapply HQ.
Qed.

Lemma here_finish neg l0 l1 room h m h' (Q : Z * option nbuf -> hs HS CS W -> Prop) s n p st ob :
  here s n p st ob -> NoiseHandshakeObj (noise_connection n) = Some h ->
  zlen room = NOISE_PROTOCOL_MAX_HANDSHAKE_LEN ->
  hs_write_message h NOISE_PROTOCOL_MAX_HANDSHAKE_LEN = (NOISE_ERROR_NONE, m, h') ->
  (forall b s', flight b = Some (neg ++ frame m) -> zlen (neg ++ frame m) = b_last b - b_pos b ->
     here s' (set_hs (Some h') n) p st ob -> Q (NGX_OK, Some b) s') ->
  wp (finish_message (zlen neg + 2) (neg ++ [l0; l1] ++ room)) Q s.
Proof.
  intros Hh Hobj Hroom Hw HQ.
  apply (finish_message_correct neg l0 l1 room s _ h); [by rewrite (he_nc _ _ _ _ _ Hh)|done| |].
  - intros r s' Hr Hbad. by rewrite Hw in Hbad.
  - intros m' h1 b Hw' Hf Hp Hla. rewrite Hw in Hw'. injection Hw' as <- <-. apply HQ; [done|lia|].
    destruct Hh as [<- ? ? ? ? ?]. by split.
Qed.

(** The message of this number, with the Noise message [m] of the library. *)
Lemma here_write_message h m h' (Q : Z * option nbuf -> hs HS CS W -> Prop) s n p st ob :
  here s n p st ob -> NoiseHandshakeObj (noise_connection n) = Some h ->
  msg_num n = NGX_NSOC_1MSG \/ msg_num n = NGX_NSOC_2MSG_OK \/ msg_num n = NGX_NSOC_3MSG ->
  hs_write_message h NOISE_PROTOCOL_MAX_HANDSHAKE_LEN = (NOISE_ERROR_NONE, m, h') ->
  (forall b s', flight b = Some (message_head p (msg_num n) ++ frame m) ->
     zlen (message_head p (msg_num n) ++ frame m) = b_last b - b_pos b ->
     here s' (set_hs (Some h') (n <| msg_num := next_msg (msg_num n) |>)) p st ob -> Q (NGX_OK, Some b) s') ->
  wp ngx_nsoc_handshake_start_action_write_message Q s.
Proof.
  intros Hh Hobj Hk Hw HQ. unfold ngx_nsoc_handshake_start_action_write_message. hs_step.
  eapply here_alloc; [exact Hh|]. intros s1 H1. cbn [negb]. do 4 hs_step.
  rewrite (he_nc _ _ _ _ _ H1), (he_pro _ _ _ _ _ H1). cbn zeta.
  set (head := message_head p (msg_num n)) in *.
  assert (Hend : wp (mem ← start_message (zlen head + 2 + NOISE_PROTOCOL_MAX_HANDSHAKE_LEN) [(0, head)];
      on_nc (fun x => x <| msg_num := next_msg (msg_num n) |>);; finish_message (zlen head + 2) mem) Q s1).
  { hs_step. eapply (here_start_message _ _ (headed head)); [exact H1| |..].
    { pose proof (zlen_nonneg head). unfold NOISE_PROTOCOL_MAX_HANDSHAKE_LEN. lia. }
    { intros mem Hm. apply headed_store. by rewrite Hm. }
    intros mem mem1 s2 (l0 & l1 & room & -> & Hr) H2. hs_step. eapply here_on_nc; [exact H2|]. intros s3 H3.
    by eapply here_finish. }
  unfold head, message_head, next_msg in Hend |- *. destruct Hk as [Hk|[Hk|Hk]]; rewrite Hk in *; exact Hend.
Qed.

Lemma here_send_flight b bs (Q : Z * bool -> hs HS CS W -> Prop) s n p st ob :
  here s n p st ob -> flight b = Some bs -> zlen bs = b_last b - b_pos b -> 0 < zlen bs ->
  (forall s', here s' (n <| buf := None |>) p st (ob ++ bs) -> Q (NGX_OK, true) s') ->
  wp (send_flight b) Q s.
Proof.
  intros Hh Hf Hl Hpos HQ. unfold send_flight, c_send. cbn zeta. repeat hs_step.
  rewrite (he_io _ _ _ _ _ Hh). hs_step. eapply wp_mderef; [exact Hf|]. hs_step.
  eapply here_send; [exact Hh|done|]. intros s1 H1. do 2 hs_step.
  eapply here_handlers; [exact H1|]. intros s2 H2.
  rewrite <- Hl, (proj2 (Z.ltb_ge _ _) (Z.le_refl _)), (proj2 (Z.eqb_neq (zlen bs) NGX_AGAIN)) by (unfold NGX_AGAIN; lia).
  cbn [orb]. hs_step. eapply here_on_read; [done|exact H2|]. intros s3 H3.
  unfold free_buf. hs_step. eapply here_on_nc; [exact H3|]. intros s4 H4. hs_step. by apply HQ.
Qed.

(** ** One call of the state machine *)

(** Between two messages: the library's state is [h], the message to come is [k]. *)
Record talking (r : role) (h : HS) (k : Z) n : Prop := {
  tk_phase : handshake_phase n = PROCESS_PHASE;
  tk_role : noise_role n = r;
  tk_obj : NoiseHandshakeObj (noise_connection n) = Some h;
  tk_num : msg_num n = k;
  tk_last : last n = 0;
  tk_buf : buf n = None;
  tk_msg : no_length (msg_field HS CS) n;
  tk_neg : (r = SERVER_ROLE /\ k = NGX_NSOC_1MSG) \/ no_length (neg_field HS CS) n;
}.

(** Message [k] with the library's [m], as it travels. *)
Definition travels p (k : Z) (m : list Z) : list Z := message_head p k ++ frame m.

Lemma travels_pos p k m : 0 < zlen (travels p k m).
Proof.
  unfold travels, frame. rewrite !zlen_app, zlen_be16. pose proof (zlen_nonneg m).
  pose proof (zlen_nonneg (message_head p k)). lia.
Qed.

Lemma next_talks k : k = NGX_NSOC_1MSG \/ k = NGX_NSOC_2MSG_OK -> next_msg k <> NGX_NSOC_1MSG.
Proof. by intros [->| ->]. Qed.

(** A message is written and sent; then the code waits for the answer, or goes on. *)
Lemma here_write_action r h k m h' s n p st ob :
  here s n p st ob -> talking r h k n -> no_length (neg_field HS CS) n ->
  k = NGX_NSOC_1MSG \/ k = NGX_NSOC_2MSG_OK \/ k = NGX_NSOC_3MSG ->
  hs_write_message h NOISE_PROTOCOL_MAX_HANDSHAKE_LEN = (NOISE_ERROR_NONE, m, h') ->
  wp write_action (fun x s' => x = (if hs_action h' =? NOISE_ACTION_READ_MESSAGE then inl NGX_AGAIN else inr tt) /\
    exists n', here s' n' p st (ob ++ travels p k m) /\ talking r h' (next_msg k) n') s.
Proof.
  intros Hh [T1 T2 T3 T4 T5 T6 T7 _] Hneg Hk Hw. unfold write_action. do 2 hs_step.
  rewrite (he_nc _ _ _ _ _ Hh), T5. change (0 =? 0) with true. cbv iota. hs_step. rewrite <- T4 in Hk.
  eapply here_write_message; [exact Hh|exact T3|exact Hk|exact Hw|]. intros b s1 Hf Hl H1. rewrite T4 in *.
  change (negb (NGX_OK =? NGX_OK)) with false. cbv iota. hs_step. eapply here_on_nc; [exact H1|]. intros s2 H2.
  hs_step. eapply wp_mderef; [reflexivity|]. hs_step.
  eapply here_send_flight; [exact H2|exact Hf|exact Hl|apply travels_pos|]. intros s3 H3. cbn [negb].
  do 2 hs_step. rewrite (he_nc _ _ _ _ _ H3). hs_step. eapply (wp_mderef _ h'); [done|].
  assert (Ht : talking r h' (next_msg k) ((set_hs (Some h') n <| msg_num := next_msg k |>) <| last := 0 |> <| buf := None |>)).
  { split; try done. by right. }
  destruct (_ =? _).
  - hs_step. eapply here_on_read; [done|exact H3|]. intros s4 H4. hs_step. eapply here_handle_read; [exact H4|]. intros s5 H5.
    change (negb (NGX_OK =? NGX_OK)) with false. cbv iota. hs_step. eapply here_add_read_timer; [exact H5|]. intros s6 H6.
    hs_step. eapply here_del_write_timer; [exact H6|]. intros s7 H7. hs_step. split; [done|]. by eexists.
  - hs_step. eapply here_del_read_timer; [exact H3|]. intros s4 H4. hs_step. split; [done|]. by eexists.
Qed.

(** The negotiation data in front of the message to come, as far as it is still to be read. *)
Definition neg_front (k : Z) : list Z := if k =? NGX_NSOC_1MSG then [] else be16 0.

Lemma here_message_loop fuel r h k s n p st ob :
  here s n p (neg_front k ++ st) ob -> talking r h k n ->
  k = NGX_NSOC_1MSG \/ k = NGX_NSOC_2MSG_OK \/ k = NGX_NSOC_3MSG ->
  wp (read_message_loop (S (S (S fuel))) NGX_NSOC_SIZE_UNSET) (fun x s' => x = inr NGX_OK /\
    exists n', here s' n' p st ob /\ noise_role n' = r /\ handshake_phase n' = PROCESS_PHASE /\ buf n' = None /\
      NoiseHandshakeObj (noise_connection n') = Some h /\ msg_num n' = next_msg k /\ no_length (msg_field HS CS) n') s.
Proof.
  intros Hh [T1 T2 T3 T4 T5 T6 T7 T8] Hk. cbn [read_message_loop]. do 2 hs_step.
  rewrite (he_nc _ _ _ _ _ Hh), T4. cbn zeta. unfold neg_front in Hh. destruct Hk as [->|[->| ->]]; zlit; cbn in Hh.
  - hs_step. eapply here_on_nc; [exact Hh|]. intros s1 H1. hs_step. split; [done|]. by eexists.
  - destruct T8 as [[_ ?]|T8]; [done|]. hs_step.
    eapply (here_negotiation fuel 0 []); [exact Hh|done|done|done|done|]. intros s1 H1 _. change (0 <? 0) with false. cbv iota.
    cbn [read_message_loop]. do 2 hs_step. rewrite (he_nc _ _ _ _ _ H1). cbn zeta.
    change (msg_num (n <| neg_data_recv_size := 0 |> <| neg_data_size_reading := false |> <| buf := part_buf [] |>)) with (msg_num n).
    rewrite T4. zlit. hs_step. eapply here_on_nc; [exact H1|]. intros s2 H2. hs_step. split; [done|]. by eexists.
  - destruct T8 as [[_ ?]|T8]; [done|]. hs_step.
    eapply (here_negotiation fuel 0 []); [exact Hh|done|done|done|done|]. intros s1 H1 _. change (0 <? 0) with false. cbv iota.
    cbn [read_message_loop]. do 2 hs_step. rewrite (he_nc _ _ _ _ _ H1). cbn zeta.
    change (msg_num (n <| neg_data_recv_size := 0 |> <| neg_data_size_reading := false |> <| buf := part_buf [] |>)) with (msg_num n).
    rewrite T4. zlit. hs_step. eapply here_on_nc; [exact H1|]. intros s2 H2. hs_step. split; [done|]. by eexists.
Qed.

(** A message is read: the library takes it, and the lengths are fresh again. *)
Lemma here_read_message fuel r h k m h' s n p st ob :
  here s n p (neg_front k ++ frame m ++ st) ob -> talking r h k n ->
  k = NGX_NSOC_1MSG \/ k = NGX_NSOC_2MSG_OK \/ k = NGX_NSOC_3MSG -> 0 < zlen m < 65536 ->
  hs_read_message h m = (NOISE_ERROR_NONE, h') ->
  wp (ngx_nsoc_handshake_start_action_read_message (S (S (S fuel)))) (fun x s' => x = NGX_OK /\
    exists n', here s' n' p st ob /\ talking r h' (next_msg k) n' /\ no_length (neg_field HS CS) n') s.
Proof.
  intros Hh Ht Hk Hm Hr. unfold ngx_nsoc_handshake_start_action_read_message. hs_step.
  eapply wp_mono; [by eapply here_message_loop|]. cbv beta.
  intros x s1 (-> & n1 & H1 & R1 & R2 & R3 & R4 & R5 & R6). unfold free_buf. hs_step.
  eapply here_on_nc; [exact H1|]. intros s2 H2. change (NGX_OK <? 0) with false. cbv iota. hs_step.
  eapply here_noise_msg; [exact H2|done|exact R6|done|]. intros s3 H3.
  rewrite (proj2 (Z.ltb_ge (zlen m) 0)) by lia. do 2 hs_step. rewrite (he_nc _ _ _ _ _ H3). hs_step.
  eapply (wp_mderef _ (NBuf m 0 (zlen m))); [done|]. hs_step. eapply (wp_mderef _ m).
  { cbn [b_mem]. pose proof (load_app [] m []) as Hl. cbn [app] in Hl. rewrite app_nil_r in Hl. exact Hl. }
  hs_step. eapply (wp_mderef _ h); [exact R4|]. rewrite Hr. hs_step. eapply here_on_nc; [exact H3|]. intros s4 H4.
  change (negb (NOISE_ERROR_NONE =? NOISE_ERROR_NONE)) with false. cbv iota. hs_step.
  eapply here_on_nc; [exact H4|]. intros s5 H5. hs_step. eapply here_on_nc; [exact H5|]. intros s6 H6. hs_step.
  split; [done|]. eexists. split; [exact H6|]. split; [|done]. split; try done. by right.
Qed.

(** The ciphers are there and the connection is encrypted. *)
Definition encrypted (snd rcv : CS) s : Prop :=
  established s /\ NoiseSendCipherObj (noise_connection (nc s)) = Some snd /\
  NoiseRecvCipherObj (noise_connection (nc s)) = Some rcv.

Lemma here_split h snd rcv h' s n p st ob :
  here s n p st ob -> NoiseHandshakeObj (noise_connection n) = Some h ->
  hs_split h = (NOISE_ERROR_NONE, Some (snd, rcv), h') -> hs_free h' = NOISE_ERROR_NONE ->
  wp split_action (fun x s' => x = NGX_OK /\ encrypted snd rcv s' /\ stream s' = st /\ outbox s' = ob /\
    live s' /\ prologue s' = p) s.
Proof.
  intros Hh Hobj Hs Hf. unfold split_action. do 2 hs_step. rewrite (he_nc _ _ _ _ _ Hh). hs_step.
  eapply wp_mderef; [exact Hobj|]. rewrite Hs. hs_step. eapply here_on_nc; [exact Hh|]. intros s1 H1.
  change (negb (NOISE_ERROR_NONE =? NOISE_ERROR_NONE)) with false. cbv iota. rewrite Hf. hs_step.
  eapply here_on_nc; [exact H1|]. intros s2 H2.
  change (negb (NOISE_ERROR_NONE =? NOISE_ERROR_NONE)) with false. cbv iota. hs_step.
  eapply here_on_nc; [exact H2|]. intros s3 [H3 Hp Hi Hst Ho Hl]. hs_step. unfold on_c. hs_step. hs_step.
  split; [done|]. unfold encrypted, established. cbn. rewrite H3. cbn. split_and!; try done; by eexists.
Qed.

(** ** Setting up the library *)

Definition set_up (r : Z) (hdr : first_hdr) (pro : list Z) (ctx : option noise_ctx) (h : HS) : Prop :=
  exists h0 h1 h2,
    hs_new_by_id NOISE_PREFIX_STANDARD (Z.land (NOISE_ID 80 (pattern_id hdr)) 0xFFFF)
      (Z.land (NOISE_ID 68 (dh_id hdr)) 0xFFFF) (Z.land (NOISE_ID 67 (cipher_id hdr)) 0xFFFF)
      (Z.land (NOISE_ID 72 (hash_id hdr)) 0xFFFF) 0 r = (NOISE_ERROR_NONE, Some h0) /\
    hs_set_prologue h0 pro = (NOISE_ERROR_NONE, h1) /\ set_static_keys ctx h1 = Done (NGX_OK, h2) /\
    hs_start h2 = (NOISE_ERROR_NONE, h).

Definition lib_role (r : role) : Z :=
  if role_eqb r CLIENT_ROLE then NOISE_ROLE_INITIATOR else NOISE_ROLE_RESPONDER.

(** The end of the first phase. *)
Lemma here_init r h s n p st ob (Q : Z + unit -> hs HS CS W -> Prop) :
  here s n p st ob -> noise_role n = r -> r <> UNSET_ROLE -> noise_init = NOISE_ERROR_NONE ->
  set_up (lib_role r) (header p) (prologue_bytes p) (nc_ctx n) h ->
  (forall s', here s' (set_hs (Some h) n <| buf := None |> <| handshake_phase := PROCESS_PHASE |> <| last := 0 |>) p st ob ->
     Q (inr tt) s') ->
  wp (x ← ngx_noise_protocol_init_handshake;
      free_buf;;
      if x =? NGX_ERROR then mret (inl x) else
      n1 ← gets nc;
      h ← mderef (NoiseHandshakeObj (noise_connection n1));
      let '(x, h') := hs_start h in
      on_nc (set_hs (Some h'));;
      if x =? NGX_ERROR then mret (inl x) else
      on_nc (fun n => n <| handshake_phase := PROCESS_PHASE |> <| last := 0 |>);;
      mret (inr tt)) Q s.
Proof.
  intros Hh Hr Hset Hinit (h0 & h1 & h2 & L0 & L1 & L2 & L3) HQ. unfold ngx_noise_protocol_init_handshake. do 3 hs_step.
  hs_step. hs_step. rewrite (he_nc _ _ _ _ _ Hh), (he_pro _ _ _ _ _ Hh), Hr.
  replace (negb (role_eqb r CLIENT_ROLE) && negb (role_eqb r SERVER_ROLE)) with false by (by destruct r).
  rewrite Hinit. change (negb (NOISE_ERROR_NONE =? NOISE_ERROR_NONE)) with false. cbv iota. cbn zeta.
  fold (lib_role r). rewrite L0. hs_step. eapply here_on_nc; [exact Hh|]. intros s1 H1.
  change (negb (NOISE_ERROR_NONE =? NOISE_ERROR_NONE)) with false. cbv iota. hs_step. eapply wp_mderef; [reflexivity|].
  rewrite L1. hs_step. eapply here_on_nc; [exact H1|]. intros s2 H2.
  change (negb (NOISE_ERROR_NONE =? NOISE_ERROR_NONE)) with false. cbv iota. hs_step.
  eapply done_wp; [unfold lift; rewrite L2; reflexivity|]. cbv beta iota. hs_step. eapply here_on_nc; [exact H2|]. intros s3 H3. hs_step.
  unfold free_buf. hs_step. eapply here_on_nc; [exact H3|]. intros s4 H4. change (NGX_OK =? NGX_ERROR) with false. cbv iota.
  do 2 hs_step. rewrite (he_nc _ _ _ _ _ H4). hs_step. eapply (wp_mderef _ h2); [done|]. rewrite L3. hs_step.
  eapply here_on_nc; [exact H4|]. intros s5 H5. change (NOISE_ERROR_NONE =? NGX_ERROR) with false. cbv iota. hs_step.
  eapply here_on_nc; [exact H5|]. intros s6 H6. hs_step. by apply HQ.
Qed.

(** A connection on which nothing has happened. *)
Record starting (r : role) n : Prop := {
  sg_phase : handshake_phase n = NONE_PHASE;
  sg_role : noise_role n = r;
  sg_num : msg_num n = NGX_NSOC_1MSG;
  sg_buf : buf n = None;
  sg_msg : no_length (msg_field HS CS) n;
  sg_neg : no_length (neg_field HS CS) n;
}.

Context (Hinit : noise_init = NOISE_ERROR_NONE).

Lemma here_first_client fuel h s n p st ob :
  here s n p st ob -> starting CLIENT_ROLE n -> set_up NOISE_ROLE_INITIATOR (header p) (prologue_bytes p) (nc_ctx n) h ->
  wp (none_phase fuel) (fun x s' => x = inr tt /\ exists n', here s' n' p st ob /\
    talking CLIENT_ROLE h NGX_NSOC_1MSG n' /\ no_length (neg_field HS CS) n') s.
Proof.
  intros Hh [S1 S2 S3 S4 S5 S6] Hset. unfold none_phase. do 2 hs_step. rewrite (he_nc _ _ _ _ _ Hh), S2. cbn [role_eqb].
  hs_step. hs_step. eapply (here_init CLIENT_ROLE); [exact Hh|done|done|done|exact Hset|]. intros s1 H1.
  split; [done|]. eexists. split; [exact H1|]. split; [|done]. split; try done. by right.
Qed.

(** The server takes the algorithms of the client's header into its prologue. *)
Lemma here_first_server fuel hdr h s n p st ob :
  here s n p (be16 NGX_NSOC_1MSG_NEG_DATA_SIZE ++ first_hdr_bytes hdr ++ st) ob -> starting SERVER_ROLE n ->
  version_id hdr = NGX_NSOC_VERSION_ID ->
  set_up NOISE_ROLE_RESPONDER hdr (prologue_bytes (p <| header := hdr |>)) (nc_ctx n) h ->
  wp (none_phase (S (S fuel))) (fun x s' => x = inr tt /\ exists n', here s' n' (p <| header := hdr |>) st ob /\
    talking SERVER_ROLE h NGX_NSOC_1MSG n') s.
Proof.
  intros Hh [S1 S2 S3 S4 S5 S6] Hver Hset. unfold none_phase. do 2 hs_step. rewrite (he_nc _ _ _ _ _ Hh), S2. cbn [role_eqb].
  do 2 hs_step. eapply here_negotiation; [exact Hh|reflexivity|done|exact S6|exact S4|]. intros s1 H1 _.
  change (NGX_NSOC_1MSG_NEG_DATA_SIZE <=? 0) with false. cbv iota. do 2 hs_step. rewrite (he_nc _ _ _ _ _ H1). hs_step.
  eapply (wp_mderef _ (NBuf (first_hdr_bytes hdr) 0 6)); [reflexivity|]. hs_step.
  eapply (wp_mderef _ hdr).
  { destruct hdr as [v d ci ha pa]. cbn in Hver. subst v. by vm_compute. }
  rewrite Hver, Z.eqb_refl. cbn [negb]. do 3 hs_step.
  rewrite (he_pro _ _ _ _ _ H1). eapply (here_init SERVER_ROLE); [by eapply here_prologue|exact S2|done|done|exact Hset|].
  intros s2 H2. split; [done|]. eexists. split; [exact H2|]. split; try done. by left.
Qed.

(** ** Rounds *)

Lemma round_write fuel r h k m h' s n p st ob :
  here s n p st ob -> talking r h k n -> no_length (neg_field HS CS) n ->
  k = NGX_NSOC_1MSG \/ k = NGX_NSOC_2MSG_OK \/ k = NGX_NSOC_3MSG ->
  hs_action h = NOISE_ACTION_WRITE_MESSAGE ->
  hs_write_message h NOISE_PROTOCOL_MAX_HANDSHAKE_LEN = (NOISE_ERROR_NONE, m, h') ->
  wp (process_phase fuel) (fun x s' => x = (if hs_action h' =? NOISE_ACTION_READ_MESSAGE then inl NGX_AGAIN else inr tt) /\
    exists n', here s' n' p st (ob ++ travels p k m) /\ talking r h' (next_msg k) n') s.
Proof.
  intros Hh Ht Hneg Hk Ha Hw. unfold process_phase. do 3 hs_step. rewrite (he_nc _ _ _ _ _ Hh), (tk_last _ _ _ _ Ht).
  change (negb (0 =? 0)) with false. cbv iota. hs_step. eapply wp_mderef; [apply (tk_obj _ _ _ _ Ht)|]. hs_step.
  rewrite Ha, Z.eqb_refl. by eapply here_write_action.
Qed.

Lemma round_read fuel r h k m h' s n p st ob :
  here s n p (neg_front k ++ frame m ++ st) ob -> talking r h k n ->
  k = NGX_NSOC_1MSG \/ k = NGX_NSOC_2MSG_OK \/ k = NGX_NSOC_3MSG -> 0 < zlen m < 65536 ->
  hs_action h = NOISE_ACTION_READ_MESSAGE -> hs_read_message h m = (NOISE_ERROR_NONE, h') ->
  wp (process_phase (S (S (S fuel)))) (fun x s' => x = inr tt /\
    exists n', here s' n' p st ob /\ talking r h' (next_msg k) n' /\ no_length (neg_field HS CS) n') s.
Proof.
  intros Hh Ht Hk Hm Ha Hr. unfold process_phase. do 3 hs_step. rewrite (he_nc _ _ _ _ _ Hh), (tk_last _ _ _ _ Ht).
  change (negb (0 =? 0)) with false. cbv iota. hs_step. eapply wp_mderef; [apply (tk_obj _ _ _ _ Ht)|]. hs_step.
  rewrite Ha, (proj2 (Z.eqb_neq _ _)) by (apply not_eq_sym, action_write_read). rewrite Z.eqb_refl. hs_step.
  eapply here_on_nc; [exact Hh|]. intros s1 H1. hs_step.
  assert (Ht' : talking r h k (n <| last := 0 |>)) by (by destruct Ht).
  eapply wp_mono; [by eapply here_read_message|]. cbv beta. intros x s2 (-> & n2 & H2 & T2 & N2).
  change (negb (NGX_OK =? NGX_OK)) with false. cbv iota. hs_step. split; [done|]. by exists n2.
Qed.

Lemma round_split fuel r h k snd rcv h' s n p st ob :
  here s n p st ob -> talking r h k n -> hs_action h = NOISE_ACTION_SPLIT ->
  hs_split h = (NOISE_ERROR_NONE, Some (snd, rcv), h') -> hs_free h' = NOISE_ERROR_NONE ->
  wp (process_phase fuel) (fun x s' => x = inl NGX_OK /\ encrypted snd rcv s' /\ stream s' = st /\ outbox s' = ob /\
    live s' /\ prologue s' = p) s.
Proof.
  intros Hh Ht Ha Hs Hf. unfold process_phase. do 3 hs_step. rewrite (he_nc _ _ _ _ _ Hh), (tk_last _ _ _ _ Ht).
  change (negb (0 =? 0)) with false. cbv iota. hs_step. eapply wp_mderef; [apply (tk_obj _ _ _ _ Ht)|]. hs_step.
  rewrite Ha, (proj2 (Z.eqb_neq _ _)) by (apply not_eq_sym, action_write_split).
  rewrite (proj2 (Z.eqb_neq _ _)) by (apply not_eq_sym, action_read_split). rewrite Z.eqb_refl. hs_step.
  eapply wp_mono; [eapply here_split; [exact Hh|apply (tk_obj _ _ _ _ Ht)|exact Hs|exact Hf]|].
  cbv beta. intros x s1 (-> & Hrest). hs_step. by split.
Qed.

(** A call goes on from its phase. *)
Lemma call_process fuel (Q : Z -> hs HS CS W -> Prop) s :
  handshake_phase (nc s) = PROCESS_PHASE ->
  wp (process_phase (S fuel)) (fun x s' => match x with
    | inl r => Q r s' | inr _ => wp (ngx_nsoc_do_handshake_process fuel) Q s' end) s ->
  wp (ngx_nsoc_do_handshake_process (S fuel)) Q s.
Proof.
  intros Hp Hw. cbn [ngx_nsoc_do_handshake_process]. do 3 hs_step. rewrite Hp.
  eapply wp_mono; [exact Hw|]. cbv beta. intros [r|[]] s' H; [by hs_step|done].
Qed.

Lemma call_start fuel (Q : Z -> hs HS CS W -> Prop) s :
  handshake_phase (nc s) = NONE_PHASE ->
  wp (none_phase (S fuel)) (fun x s1 => x = inr tt /\ wp (process_phase (S fuel)) (fun x s' => match x with
    | inl r => Q r s' | inr _ => wp (ngx_nsoc_do_handshake_process fuel) Q s' end) s1) s ->
  wp (ngx_nsoc_do_handshake_process (S fuel)) Q s.
Proof.
  intros Hp Hw. cbn [ngx_nsoc_do_handshake_process]. do 3 hs_step. rewrite Hp. hs_step.
  eapply wp_mono; [exact Hw|]. cbv beta. intros x s1 [-> H]. eapply wp_mono; [exact H|].
  cbv beta. intros [r|[]] s' H'; [by hs_step|done].
Qed.
End Live.

(** ** Both sides *)

(** The library's two halves of one handshake: [xx k w r], after [k] messages, with [w] about
    to write (after the third, to split).  [twin]: what the first cipher encrypts, the
    second decrypts. *)
Class NoisePartners (HS CS : Type) := {
  pattern_xx : Z;
  xx : nat -> HS -> HS -> Prop;
  twin : CS -> CS -> Prop;
}.

(** Documented behaviour of noise-c for the pattern XX: an initiator and a responder that were
    set up with the same algorithms and the same prologue exchange three messages, whatever
    their keys, and then split into ciphers that belong together. *)
Class NoisePartnerLaws (HS CS : Type) `{NoiseLib HS CS} `{NoisePartners HS CS} : Prop := {
  xx_init : noise_init = NOISE_ERROR_NONE;
  xx_start hdr pro ci cr hi hr :
    pattern_id hdr = pattern_xx ->
    set_up NOISE_ROLE_INITIATOR hdr pro ci hi -> set_up NOISE_ROLE_RESPONDER hdr pro cr hr -> xx 0 hi hr;
  xx_message k w r : (k < 3)%nat -> xx k w r ->
    hs_action w = NOISE_ACTION_WRITE_MESSAGE /\ hs_action r = NOISE_ACTION_READ_MESSAGE /\
    exists m w' r', hs_write_message w NOISE_PROTOCOL_MAX_HANDSHAKE_LEN = (NOISE_ERROR_NONE, m, w') /\
      0 < zlen m /\ hs_read_message r m = (NOISE_ERROR_NONE, r') /\ xx (S k) r' w';
  xx_split x y : xx 3 x y ->
    hs_action x = NOISE_ACTION_SPLIT /\ hs_action y = NOISE_ACTION_SPLIT /\
    exists sx rx x' sy ry y', hs_split x = (NOISE_ERROR_NONE, Some (sx, rx), x') /\ hs_free x' = NOISE_ERROR_NONE /\
      hs_split y = (NOISE_ERROR_NONE, Some (sy, ry), y') /\ hs_free y' = NOISE_ERROR_NONE /\ twin sx ry /\ twin sy rx;
  twin_step k k' m cap x k1 : twin k k' -> bytes_ok m -> cs_encrypt k m cap = (NOISE_ERROR_NONE, x, k1) ->
    exists k2, cs_decrypt k' x = (NOISE_ERROR_NONE, m, k2) /\ twin k1 k2;
}.

Section Exchange.
Context {HS CS W : Type} {NL : NoiseLib HS CS} {OS : NgxOs W} {PO : NgxPool W} {SM : NgxStream W}
  {OL : NgxOsLaws W} {PL : NgxPoolLaws W} {NLaw : NoiseLaws HS CS} {AR : NgxArrival W} {AL : NgxArrivalLaws W}
  {NP : NoisePartners HS CS} {NPL : NoisePartnerLaws HS CS}.
Implicit Types (s cl sv : hs HS CS W) (n : nconn HS CS) (p : prologue_data) (st ob : list Z).

(** The bytes a call has sent; and they arrive, if any: the read event is ready. *)
Definition sent_since s s' : list Z := zdrop (zlen (outbox s)) (outbox s').
Definition hand (bs : list Z) s : hs HS CS W :=
  match bs with
  | [] => s
  | _ => s <| c ::= fun x => x <| read ::= fun e => e <| ready := true |> |> |> <| world ::= arrive bs |>
  end.

(** [calls] calls of the handshake by turns, [me] first; the codes they return. *)
Fixpoint exchange (calls fuel : nat) me peer : outcome (list Z * hs HS CS W * hs HS CS W) :=
  match calls with
  | O => Done ([], me, peer)
  | S calls =>
      '(rc, me') ← ngx_nsoc_do_handshake_process fuel me;
      '(rcs, peer', me'') ← exchange calls fuel (hand (sent_since me me') peer) me';
      Done (rc :: rcs, me'', peer')
  end.

Lemma here_hand bs s n p ob : bytes_ok bs -> here s n p [] ob -> here (hand bs s) n p bs ob.
Proof.
  intros Hok. destruct bs as [|x bs]; [done|]. cbn [hand]. set (l := x :: bs) in *.
  intros [? ? ? Hst Ho [Hpr He]]. destruct (arrive_law l (world s) Hok Hpr Hst) as (A1 & A2 & A3).
  split; try done; unfold outbox in *; cbn; congruence.
Qed.

Lemma sent_out s s' ob bs : outbox s = ob -> outbox s' = ob ++ bs -> sent_since s s' = bs.
Proof. intros <- H2. unfold sent_since. by rewrite H2, zdrop_app_exact. Qed.

(** A turn: the call, and what it means for the rest of the exchange. *)
Lemma exchange_turn calls fuel me peer (P : list Z * hs HS CS W * hs HS CS W -> Prop) :
  wp (ngx_nsoc_do_handshake_process fuel) (fun rc me' => exists x,
    exchange calls fuel (hand (sent_since me me') peer) me' = Done x /\ P (rc :: x.1.1, x.2, x.1.2)) me ->
  exists x, exchange (S calls) fuel me peer = Done x /\ P x.
Proof.
  intros H. destruct (wp_done _ _ _ H) as (rc & me' & Hrun & [[rcs peer'] me''] & Hex & HP).
  exists (rc :: rcs, me'', peer'). split; [|done]. cbn [exchange]. rewrite Hrun. cbn. by rewrite Hex.
Qed.

Lemma travels_bytes p k m : bytes_ok (first_hdr_bytes (header p)) -> bytes_ok m -> bytes_ok (travels p k m).
Proof.
  intros Hh Hm. unfold travels, message_head, frame, le16.
  assert (He : forall x y, bytes_ok [u8 x; u8 y]) by (intros; repeat constructor; apply u8_range).
  destruct (k =? NGX_NSOC_1MSG);
    repeat first [exact Hh | exact Hm | apply be16_bytes | apply He | apply Forall_app_2].
Qed.

(** Two states whose ciphers belong together: a packet that one seals, the other opens. *)
Definition opens s s' : Prop := forall body packet k1 k,
  sealed s body packet k1 -> bytes_ok body -> NoiseRecvCipherObj (noise_connection (nc s')) = Some k ->
  exists k2, cs_decrypt k packet = (NOISE_ERROR_NONE, be16 (zlen body) ++ body, k2).

Lemma twin_opens s s' snd rcv snd' rcv' : encrypted snd rcv s -> encrypted snd' rcv' s' -> twin snd rcv' -> opens s s'.
Proof.
  intros (_ & Hs & _) (_ & _ & Hr) Ht body packet k1 k (k0 & Hk0 & Henc) Hb Hk.
  rewrite Hs in Hk0. injection Hk0 as <-. rewrite Hr in Hk. injection Hk as <-.
  destruct (twin_step _ _ _ _ _ _ Ht (Forall_app_2 _ _ _ (be16_bytes _) Hb) Henc) as (k2 & Hd & _). by exists k2.
Qed.

(** ** The four calls *)

Lemma client_opens fuel h m h' s n p st ob :
  here s n p st ob -> starting CLIENT_ROLE n -> set_up NOISE_ROLE_INITIATOR (header p) (prologue_bytes p) (nc_ctx n) h ->
  hs_action h = NOISE_ACTION_WRITE_MESSAGE -> hs_action h' = NOISE_ACTION_READ_MESSAGE ->
  hs_write_message h NOISE_PROTOCOL_MAX_HANDSHAKE_LEN = (NOISE_ERROR_NONE, m, h') ->
  wp (ngx_nsoc_do_handshake_process (S fuel)) (fun rc s' => rc = NGX_AGAIN /\
    exists n', here s' n' p st (ob ++ travels p NGX_NSOC_1MSG m) /\ talking CLIENT_ROLE h' NGX_NSOC_2MSG_OK n') s.
Proof.
  intros Hh Hst Hset Ha Ha' Hw. apply call_start; [rewrite (he_nc _ _ _ _ _ Hh); apply (sg_phase _ _ Hst)|].
  eapply wp_mono; [eapply here_first_client; [apply xx_init|exact Hh|exact Hst|exact Hset]|].
  cbv beta. intros x s1 (-> & n1 & H1 & T1 & N1). split; [done|].
  eapply wp_mono; [eapply round_write; [exact H1|exact T1|exact N1|by left|exact Ha|exact Hw]|].
  cbv beta. intros x s2 (-> & n2 & H2 & T2). rewrite Ha', Z.eqb_refl. split; [done|]. by exists n2.
Qed.

Lemma server_answers fuel hdr h0 m0 h1 m1 h2 s n p ob :
  here s n p (be16 NGX_NSOC_1MSG_NEG_DATA_SIZE ++ first_hdr_bytes hdr ++ frame m0 ++ []) ob -> starting SERVER_ROLE n ->
  version_id hdr = NGX_NSOC_VERSION_ID ->
  set_up NOISE_ROLE_RESPONDER hdr (prologue_bytes (p <| header := hdr |>)) (nc_ctx n) h0 ->
  0 < zlen m0 < 65536 -> hs_action h0 = NOISE_ACTION_READ_MESSAGE -> hs_read_message h0 m0 = (NOISE_ERROR_NONE, h1) ->
  hs_action h1 = NOISE_ACTION_WRITE_MESSAGE -> hs_action h2 = NOISE_ACTION_READ_MESSAGE ->
  hs_write_message h1 NOISE_PROTOCOL_MAX_HANDSHAKE_LEN = (NOISE_ERROR_NONE, m1, h2) ->
  wp (ngx_nsoc_do_handshake_process (S (S (S fuel)))) (fun rc s' => rc = NGX_AGAIN /\
    exists n', here s' n' (p <| header := hdr |>) [] (ob ++ travels (p <| header := hdr |>) NGX_NSOC_2MSG_OK m1) /\
      talking SERVER_ROLE h2 NGX_NSOC_3MSG n') s.
Proof.
  intros Hh Hst Hver Hset Hm0 Ha0 Hr0 Ha1 Ha2 Hw1.
  apply call_start; [rewrite (he_nc _ _ _ _ _ Hh); apply (sg_phase _ _ Hst)|].
  eapply wp_mono; [eapply here_first_server; [apply xx_init|exact Hh|exact Hst|exact Hver|exact Hset]|].
  cbv beta. intros x s1 (-> & n1 & H1 & T1). split; [done|].
  eapply wp_mono; [eapply (round_read _ _ _ NGX_NSOC_1MSG); [exact H1|exact T1|by left|exact Hm0|exact Ha0|exact Hr0]|].
  cbv beta. intros x s2 (-> & n2 & H2 & T2 & N2).
  apply call_process; [rewrite (he_nc _ _ _ _ _ H2); apply (tk_phase _ _ _ _ T2)|].
  eapply wp_mono; [eapply round_write; [exact H2|exact T2|exact N2|by right; left|exact Ha1|exact Hw1]|].
  cbv beta. intros x s3 (-> & n3 & H3 & T3). rewrite Ha2, Z.eqb_refl. split; [done|]. by exists n3.
Qed.

Lemma client_finishes fuel h0 m0 h1 m1 h2 snd rcv h3 s n p q ob :
  here s n p (travels q NGX_NSOC_2MSG_OK m0) ob -> talking CLIENT_ROLE h0 NGX_NSOC_2MSG_OK n ->
  0 < zlen m0 < 65536 -> hs_action h0 = NOISE_ACTION_READ_MESSAGE -> hs_read_message h0 m0 = (NOISE_ERROR_NONE, h1) ->
  hs_action h1 = NOISE_ACTION_WRITE_MESSAGE -> hs_action h2 = NOISE_ACTION_SPLIT ->
  hs_write_message h1 NOISE_PROTOCOL_MAX_HANDSHAKE_LEN = (NOISE_ERROR_NONE, m1, h2) ->
  hs_split h2 = (NOISE_ERROR_NONE, Some (snd, rcv), h3) -> hs_free h3 = NOISE_ERROR_NONE ->
  wp (ngx_nsoc_do_handshake_process (S (S (S fuel)))) (fun rc s' => rc = NGX_OK /\ encrypted snd rcv s' /\
    stream s' = [] /\ outbox s' = ob ++ travels p NGX_NSOC_3MSG m1 /\ live s' /\ prologue s' = p) s.
Proof.
  intros Hh Ht Hm0 Ha0 Hr0 Ha1 Ha2 Hw1 Hsp Hfr.
  replace (travels q NGX_NSOC_2MSG_OK m0) with (neg_front NGX_NSOC_2MSG_OK ++ frame m0 ++ []) in Hh by (by rewrite app_nil_r).
  apply call_process; [rewrite (he_nc _ _ _ _ _ Hh); apply (tk_phase _ _ _ _ Ht)|].
  eapply wp_mono; [eapply (round_read _ _ _ NGX_NSOC_2MSG_OK); [exact Hh|exact Ht|by right; left|exact Hm0|exact Ha0|exact Hr0]|].
  cbv beta. intros x s1 (-> & n1 & H1 & T1 & N1).
  apply call_process; [rewrite (he_nc _ _ _ _ _ H1); apply (tk_phase _ _ _ _ T1)|].
  eapply wp_mono; [eapply round_write; [exact H1|exact T1|exact N1|by right; right|exact Ha1|exact Hw1]|].
  cbv beta. intros x s2 (-> & n2 & H2 & T2). rewrite Ha2, (proj2 (Z.eqb_neq _ _)) by (apply not_eq_sym, action_read_split).
  apply call_process; [rewrite (he_nc _ _ _ _ _ H2); apply (tk_phase _ _ _ _ T2)|].
  eapply wp_mono; [eapply round_split; [exact H2|exact T2|exact Ha2|exact Hsp|exact Hfr]|].
  cbv beta. by intros x s3 (-> & H3).
Qed.

Lemma server_finishes fuel h0 m0 h1 snd rcv h2 s n p q ob :
  here s n p (travels q NGX_NSOC_3MSG m0) ob -> talking SERVER_ROLE h0 NGX_NSOC_3MSG n ->
  0 < zlen m0 < 65536 -> hs_action h0 = NOISE_ACTION_READ_MESSAGE -> hs_read_message h0 m0 = (NOISE_ERROR_NONE, h1) ->
  hs_action h1 = NOISE_ACTION_SPLIT ->
  hs_split h1 = (NOISE_ERROR_NONE, Some (snd, rcv), h2) -> hs_free h2 = NOISE_ERROR_NONE ->
  wp (ngx_nsoc_do_handshake_process (S (S (S fuel)))) (fun rc s' => rc = NGX_OK /\ encrypted snd rcv s' /\
    stream s' = [] /\ outbox s' = ob /\ live s' /\ prologue s' = p) s.
Proof.
  intros Hh Ht Hm0 Ha0 Hr0 Ha1 Hsp Hfr.
  replace (travels q NGX_NSOC_3MSG m0) with (neg_front NGX_NSOC_3MSG ++ frame m0 ++ []) in Hh by (by rewrite app_nil_r).
  apply call_process; [rewrite (he_nc _ _ _ _ _ Hh); apply (tk_phase _ _ _ _ Ht)|].
  eapply wp_mono; [eapply (round_read _ _ _ NGX_NSOC_3MSG); [exact Hh|exact Ht|by right; right|exact Hm0|exact Ha0|exact Hr0]|].
  cbv beta. intros x s1 (-> & n1 & H1 & T1 & N1).
  apply call_process; [rewrite (he_nc _ _ _ _ _ H1); apply (tk_phase _ _ _ _ T1)|].
  eapply wp_mono; [eapply round_split; [exact H1|exact T1|exact Ha1|exact Hsp|exact Hfr]|].
  cbv beta. by intros x s3 (-> & H3).
Qed.

(** ** The exchange *)

(** A side before its first call. *)
Definition idle (r : role) s : Prop := starting r (nc s) /\ io (c s) = OsIo /\ stream s = [] /\ live s.

Lemma idle_here r s : idle r s -> here s (nc s) (prologue s) [] (outbox s).
Proof. by intros (_ & Hi & Hs & Hl). Qed.

(** The settings of the two sides agree: the same protocol string, and a header of this version with
    the pattern XX. *)
Record agree cl sv : Prop := {
  ag_string : strPrologue (prologue sv) = strPrologue (prologue cl);
  ag_len_cl : header_len (prologue cl) = swapw NGX_NSOC_1MSG_NEG_DATA_SIZE;
  ag_len_sv : header_len (prologue sv) = swapw NGX_NSOC_1MSG_NEG_DATA_SIZE;
  ag_version : version_id (header (prologue cl)) = NGX_NSOC_VERSION_ID;
  ag_bytes : bytes_ok (first_hdr_bytes (header (prologue cl)));
  ag_pattern : pattern_id (header (prologue cl)) = pattern_xx;
}.

Lemma agreed_prologue cl sv :
  agree cl sv -> prologue_bytes ((prologue sv) <| header := header (prologue cl) |>) = prologue_bytes (prologue cl).
Proof. intros Ha. unfold prologue_bytes. cbn. by rewrite (ag_string _ _ Ha), (ag_len_sv _ _ Ha), (ag_len_cl _ _ Ha). Qed.

(** The first message as the server reads it. *)
Lemma first_travels cl sv m :
  agree cl sv -> travels (prologue cl) NGX_NSOC_1MSG m =
    be16 NGX_NSOC_1MSG_NEG_DATA_SIZE ++ first_hdr_bytes (header (prologue cl)) ++ frame m ++ [].
Proof.
  intros Ha. unfold travels, message_head. zlit. rewrite (ag_len_cl _ _ Ha), app_nil_r, <- app_assoc. done.
Qed.

(** A message of the library fits its field. *)
Lemma message_fits h m h' :
  hs_write_message h NOISE_PROTOCOL_MAX_HANDSHAKE_LEN = (NOISE_ERROR_NONE, m, h') -> 0 < zlen m ->
  0 < zlen m < 65536 /\ bytes_ok m.
Proof.
  intros Hw Hp. destruct (hs_write_length _ _ _ _ Hw) as [Hl Hb]. unfold NOISE_PROTOCOL_MAX_HANDSHAKE_LEN in Hl.
  split; [lia|done].
Qed.

(** The secured connection: both sides are encrypted with nothing left over, each opens what the other
    seals, and the server has taken the client's algorithms. *)
Record secured cl sv : Prop := {
  se_client : established cl;
  se_server : established sv;
  se_there : opens cl sv;
  se_back : opens sv cl;
  se_rest_cl : stream cl = [];
  se_rest_sv : stream sv = [];
  se_header : header (prologue sv) = header (prologue cl);
}.

End Exchange.

(** ** A concrete exchange *)

Definition whole_net (w : net) : Prop :=
  (inbox w = [] \/ exists bs, inbox w = [Data bs]) /\ send_script w = [].

#[local] Instance net_arrival : NgxArrival net := {|
  arrive bs w := Net [Data bs] (sent_bytes w) (send_script w);
  prompt := whole_net;
|}.

#[local] Instance net_arrival_laws : NgxArrivalLaws net.
Proof.
  split.
  - intros bs w Hok [_ Hs] _. split; [split; [right; by exists bs|done]|]. cbn.
    by rewrite app_nil_r, (map_u8_fix bs Hok).
  - intros n e w [Hi Hs] Hn. destruct Hi as [Hi|[bs Hi]]; cbn in Hn; rewrite Hi in Hn; cbn in Hn;
      [exfalso; unfold zlen in Hn; cbn in Hn; lia|]. rewrite app_nil_r in Hn.
    cbn. unfold net_recv. rewrite Hi. cbn zeta. rewrite Z.min_l, (proj2 (Z.leb_gt n 0)) by lia.
    do 3 eexists. split; [reflexivity|]. split; [|done]. split; [|done].
    destruct (n =? zlen (map u8 bs)); cbn; [by left|right; by eexists].
  - intros bs e k w [Hi Hs] Hp. cbn. unfold net_send. rewrite Hs. cbn zeta.
    rewrite Z.min_id, (proj2 (Z.leb_gt (zlen bs) 0)) by lia. do 3 eexists. split; [reflexivity|]. by split.
  - intros e w Hw. by do 2 eexists.
  - by intros e ms w e' w' [= <- <-].
  - by intros e w e' w' [= <- <-].
  - intros w Hw. by exists w.
  - intros n w Hn Hw. by do 2 eexists.
Qed.

#[local] Instance toy_partners : NoisePartners toy_hs Z := {|
  pattern_xx := 9;
  xx k w r := toy_step w = k /\ toy_step r = k /\ toy_initiator w = Nat.even k /\ toy_initiator r = negb (Nat.even k);
  twin := eq;
|}.

Lemma toy_set_up r hdr pro ctx (h : toy_hs) :
  set_up (CS := Z) r hdr pro ctx h -> toy_step h = 0%nat /\ toy_initiator h = (r =? 1).
Proof.
  intros (h0 & h1 & h2 & [= <-] & [= <-] & Hk & [= <-]). unfold set_static_keys in Hk. cbn in Hk.
  destruct ctx as [x|]; [|done]. cbn in Hk. destruct (private_keys x) as [a|]; [|done]. cbn in Hk.
  destruct (load 0 32 (ka_elts a)); [|done]. cbn in Hk. by injection Hk as <-.
Qed.

Lemma toy_turns (w r : toy_hs) k : (k < 3)%nat -> toy_step w = k -> toy_step r = k ->
  exists w' r', hs_write_message w NOISE_PROTOCOL_MAX_HANDSHAKE_LEN = (NOISE_ERROR_NONE, toy_message w, w') /\
    0 < zlen (toy_message w) /\ hs_read_message r (toy_message w) = (NOISE_ERROR_NONE, r') /\
    w' = toy_next w /\ r' = toy_next r.
Proof.
  intros Hk Hw Hr. exists (toy_next w), (toy_next r).
  assert (Hm : toy_message w = toy_message r) by (unfold toy_message; by rewrite Hw, Hr).
  assert (Hl : 0 < zlen (toy_message w) <= 96).
  { unfold toy_message. rewrite Hw. destruct k as [|[|[|k]]]; [by vm_compute..|lia]. }
  split_and!; try done; [cbn|lia|].
  - rewrite (proj2 (Z.leb_le (zlen (toy_message w)) NOISE_PROTOCOL_MAX_HANDSHAKE_LEN)); [done|]. exact (proj2 Hl).
  - cbn. rewrite Hm. by rewrite decide_True.
Qed.

#[local] Instance toy_partner_laws : NoisePartnerLaws toy_hs Z.
Proof.
  split.
  - done.
  - intros hdr pro ci cr hi hr _ [Si Ii]%toy_set_up [Sr Ir]%toy_set_up. by cbn in *.
  - intros k w r Hk (Sw & Sr & Iw & Ir). destruct (toy_turns w r k Hk Sw Sr) as (w' & r' & Hw & Hp & Hr & -> & ->).
    cbn. unfold toy_action. rewrite Sw, Sr, Iw, Ir. split_and!; [destruct k as [|[|[|k]]]; [done..|lia]| |].
    + destruct k as [|[|[|k]]]; [done..|lia].
    + exists (toy_message w), (toy_next w), (toy_next r). split_and!; try done; cbn; try congruence.
      * rewrite Ir. destruct k as [|[|[|k]]]; [done..|lia].
      * rewrite Iw. destruct k as [|[|[|k]]]; [done..|lia].
  - intros x y (Sx & Sy & _). cbn. unfold toy_action. rewrite Sx, Sy. split_and!; [done..|]. by do 6 eexists.
  - intros k k' m cap x k1 <- Hm Henc. cbn -[toy_mac] in Henc |- *. destruct (Z.leb_spec (zlen m + 16) cap); [|done].
    injection Henc as <- <-. exists (k + 1). split; [|done]. pose proof (zlen_nonneg m).
    assert (Hl : zlen (m ++ toy_mac k) = zlen m + 16) by (by rewrite zlen_app).
    rewrite Hl, (proj2 (Z.leb_le 16 (zlen m + 16))) by lia. cbn [andb].
    replace (zlen m + 16 - 16) with (zlen m) by lia. rewrite zdrop_app_exact, ztake_app_exact by done.
    by rewrite bool_decide_true.
Qed.

Definition demo_set_up (r : role) : toy_hs :=
  ToyHs (role_eqb r CLIENT_ROLE) 0 (prologue_bytes demo_prologue).

