(* ===== verification/Session.v ===== *)
(** * Sessions and phases: ngx_nsoc.c, ngx_nsoc_core_module.c, ngx_nsoc_handler.c

    A session runs the handlers of seven phases.  [ngx_nsoc_init_phase_handlers]
    flattens the phases into one table with jump targets and
    [ngx_nsoc_core_run_phases] interprets the table, resuming at
    [s->phase_handler]; the checkers decide from a handler's code whether to go
    on, to skip the rest of the phase, to wait or to finalize the session.

    Phase, log and content handlers are function pointers and so arguments here:
    any function on sessions.  [s_closed] says that the connection was closed and
    its pool destroyed; the engine's reads of a closed session are undefined. *)

From stdpp Require Import prelude list numbers.
From S2P Require Import Prelude NoiseConn Net HsRead Record Handshake.

(** ** The session *)

(** [ngx_nsoc_noiseserver_conf_t]: the part of [s->srv_conf] that belongs to the
    Noise server module.  [None] is a NULL pointer. *)
Record noiseserver_conf := NoiseserverConf {
  ns_handshake_timeout : Z;
  server_private_key_file : conf_str;
  client_public_key_file : conf_str;
  ns_noise : option noise_t;
}.
#[export] Instance eta_noiseserver_conf : Eta noiseserver_conf := fun r =>
  NoiseserverConf (ns_handshake_timeout r) (server_private_key_file r) (client_public_key_file r) (ns_noise r).

Record session (HS CS W : Type) := Session {
  s_io : sess HS CS W;
  s_srv : noiseserver_conf;
  s_phase_handler : Z;
  s_status : Z;
  s_buffer : option nbuf;
  s_timedout : bool;
  s_sock_stream : bool;
  s_nodelay_set : bool;
  s_received : Z;
  s_closed : bool;
}.
Arguments Session {HS CS W}.
Arguments s_io {HS CS W}.
Arguments s_srv {HS CS W}.
Arguments s_phase_handler {HS CS W}.
Arguments s_status {HS CS W}.
Arguments s_buffer {HS CS W}.
Arguments s_timedout {HS CS W}.
Arguments s_sock_stream {HS CS W}.
Arguments s_nodelay_set {HS CS W}.
Arguments s_received {HS CS W}.
Arguments s_closed {HS CS W}.
#[export] Instance eta_session HS CS W : Eta (session HS CS W) := fun r =>
  Session (s_io r) (s_srv r) (s_phase_handler r) (s_status r) (s_buffer r) (s_timedout r) (s_sock_stream r)
    (s_nodelay_set r) (s_received r) (s_closed r).

(** [ngx_nsoc_handler_pt] *)
Abbreviation handler_pt HS CS W := (M (session HS CS W) Z).

(** [ngx_nsoc_phases] *)
Definition NGX_NSOC_PROTECT_PHASE : nat := 3.
Definition NGX_NSOC_PREREAD_PHASE : nat := 4.
Definition NGX_NSOC_CONTENT_PHASE : nat := 5.
Definition NGX_NSOC_LOG_PHASE : nat := 6.

Definition NGX_NSOC_OK : Z := 200.
Definition NGX_NSOC_BAD_REQUEST : Z := 400.
Definition NGX_NSOC_FORBIDDEN : Z := 403.
Definition NGX_NSOC_INTERNAL_SERVER_ERROR : Z := 500.
Definition NGX_NSOC_BAD_GATEWAY : Z := 502.
Definition NGX_NSOC_SERVICE_UNAVAILABLE : Z := 503.

Inductive checker := GenericPhase | PrereadPhase | ContentPhase.

(** [ngx_nsoc_phase_handler_t]; [None] is a NULL pointer. *)
Record phase_entry (HS CS W : Type) := PhaseEntry {
  ph_checker : option checker;
  ph_handler : option (handler_pt HS CS W);
  ph_next : Z;
}.
Arguments PhaseEntry {HS CS W}.
Arguments ph_checker {HS CS W}.
Arguments ph_handler {HS CS W}.
Arguments ph_next {HS CS W}.

Section Session.
Context {HS CS W : Type} {NL : NoiseLib HS CS} {OS : NgxOs W} {PO : NgxPool W}.
Abbreviation SM := (M (session HS CS W)).
Abbreviation H := (handler_pt HS CS W).

(** ** The table of handlers *)

(** The body of the loop for a phase other than content: its handlers, the last
    registered first. *)
Definition phase_entries (ck : checker) (hs : list H) (next : Z) : list (phase_entry HS CS W) :=
  map (fun h => PhaseEntry (Some ck) (Some h) next) (rev hs).

(** The loop from phase [i] on, [n] entries being filled. *)
Fixpoint fill_phases (i : nat) (phases : list (list H)) (n : Z) : list (phase_entry HS CS W) :=
  match phases with
  | [] => []
  | hs :: phases =>
      if (i =? NGX_NSOC_LOG_PHASE)%nat then []
      else if (i =? NGX_NSOC_CONTENT_PHASE)%nat then
        PhaseEntry (Some ContentPhase) None 0 :: fill_phases (S i) phases (n + 1)
      else
        let ck := if (i =? NGX_NSOC_PREREAD_PHASE)%nat then PrereadPhase else GenericPhase in
        let n := n + zlen hs in
        phase_entries ck hs n ++ fill_phases (S i) phases n
  end.

Definition null_entry : phase_entry HS CS W := PhaseEntry None None 0.

(** [cmcf->phases] has an array per phase; the memory behind the entries that are
    filled is zero. *)
Definition ngx_nsoc_init_phase_handlers (phases : list (list H)) (w : W)
    : Z * option (list (phase_entry HS CS W)) * W :=
  let n := foldl (fun k hs => (k + length hs)%nat) 1%nat (take NGX_NSOC_LOG_PHASE phases) in
  let '(ok, w) := pool_object w in
  if negb ok then (NGX_ERROR, None, w)
  else
    let filled := fill_phases 0 phases 0 in
    (NGX_OK, Some (filled ++ replicate (S (n - length filled)) null_entry), w).

(** [ngx_nsoc_init_phases]: an empty array for each phase but content; [inl] is
    an error. *)
Fixpoint init_arrays (k : nat) (w : W) : Z * W :=
  match k with
  | O => (NGX_OK, w)
  | S k => let '(ok, w) := pool_object w in if (ok : bool) then init_arrays k w else (NGX_ERROR, w)
  end.

Definition ngx_nsoc_init_phases (w : W) : Z * list (list H) * W :=
  let '(rc, w) := init_arrays 6 w in
  (rc, replicate (S NGX_NSOC_LOG_PHASE) [], w).

(** ** The end of a session *)

Definition on_io {A} (m : M (sess HS CS W) A) : SM A := fun s =>
  match m (s_io s) with
  | Done (a, st) => Done (a, s <| s_io := st |>)
  | Undefined => Undefined
  | OutOfFuel => OutOfFuel
  end.

Definition ngx_nsoc_log_session (log_handlers : list H) : SM unit :=
  foldr (fun (h : H) (k : SM unit) => h;; k) (mret tt) log_handlers.

(** A session with [noise_on] whose connection has no Noise connection is not
    closed; [ngx_nsoc_shutdown] never asks for more time. *)
Definition ngx_nsoc_close_connection : SM unit :=
  st ← gets s_io;
  if noise_on (ss st) && bool_decide (find_nc (c_id (sc st)) (ss st) = None) then mret tt
  else if noise_on (ss st) && (ngx_nsoc_shutdown =? NGX_AGAIN) then mret tt
  else modify (fun s => s <| s_closed := true |>).

Definition ngx_nsoc_finalize_session (log_handlers : list H) (rc : Z) : SM unit :=
  modify (fun s => s <| s_status := rc |>);;
  ngx_nsoc_log_session log_handlers;;
  ngx_nsoc_close_connection.

(** ** The checkers *)

(** [ngx_nsoc_core_srv_conf_t] as far as the phases use it; [setsockopt] is the
    system call that turns TCP_NODELAY on. *)
Record core_srv_conf := CoreSrvConf {
  nsoc_preread_buffer_size : Z;
  preread_timeout : Z;
  tcp_nodelay : bool;
  content_handler : M (session HS CS W) unit;
}.

Context (cscf : core_srv_conf) (log_handlers : list H) (setsockopt : W -> bool * W).

(** What the code of a handler means, the end of both checkers; [ph] is the
    entry, the value is the checker's. *)
Definition conclude (next rc : Z) : SM Z :=
  if rc =? NGX_OK then modify (fun s => s <| s_phase_handler := next |>);; mret NGX_AGAIN
  else if rc =? NGX_DECLINED then
    modify (fun s => s <| s_phase_handler := s_phase_handler s + 1 |>);; mret NGX_AGAIN
  else
    let rc := if rc =? NGX_ERROR then NGX_NSOC_INTERNAL_SERVER_ERROR else rc in
    ngx_nsoc_finalize_session log_handlers rc;; mret NGX_OK.

Definition ngx_nsoc_core_generic_phase (ph : phase_entry HS CS W) : SM Z :=
  h ← mderef (ph_handler ph);
  rc ← h;
  if (rc =? NGX_AGAIN) || (rc =? NGX_DONE) then mret NGX_OK else conclude (ph_next ph) rc.

(** [c->recv(c, c->buffer->last, size)] through the connection's function
    pointer, and [c->buffer->last += n] when it read something. *)
Definition buffer_recv (b : nbuf) : SM Z :=
  let size := zlen (b_mem b) - b_last b in
  st ← gets s_io;
  match io (sc st) with
  | OsIo =>
      let '(n, bs, e, w) := os_recv size (read (sc st)) (sw st) in
      modify (fun s => s <| s_io := st <| sc := (sc st) <| read := e |> |> <| sw := w |> |>);;
      if 0 <? n then
        mem ← mderef (store (b_last b) bs (b_mem b));
        modify (fun s => s <| s_buffer := Some (NBuf mem (b_pos b) (b_last b + n)) |>);; mret n
      else mret n
  | NsocIo =>
      '(n, mem) ← on_io (ngx_nsoc_recv (Some (b_last b)) size (b_mem b));
      modify (fun s => s <| s_buffer :=
        Some (NBuf mem (b_pos b) (if 0 <? n then b_last b + n else b_last b)) |>);;
      mret n
  end.

(** [c->buffer], allocated on first use. *)
Definition preread_buffer : SM (option nbuf) :=
  s ← gets id;
  match s_buffer s with
  | Some b => mret (Some b)
  | None =>
      let size := nsoc_preread_buffer_size cscf in
      let w := sw (s_io s) in
      let '(ok, w) := pool_object w in
      let '(bs, w) := if (ok : bool) then pool_bytes size w else (None, w) in
      let b := (fun m => NBuf m 0 0) <$> bs in
      modify (fun s => s <| s_io := (s_io s) <| sw := w |> |> <| s_buffer := b |>);;
      mret b
  end.

(** No data yet: wait for them.  [inl] leaves the loop with a code, [inr] is the
    return of NGX_OK. *)
Definition preread_wait : SM (Z + unit) :=
  st ← gets s_io;
  let '(r, e, w) := os_handle_read (read (sc st)) (sw st) in
  modify (fun s => s <| s_io := st <| sc := (sc st) <| read := e |> |> <| sw := w |> |>);;
  if negb (r =? NGX_OK) then mret (inl NGX_ERROR) else
  let '(e, w) := if timer_set e then (e, w) else os_add_timer e (preread_timeout cscf) w in
  modify (fun s => s <| s_io :=
    (s_io s) <| sc := (sc (s_io s)) <| read := e <| handler := OtherHandler |> |> |> <| sw := w |> |>);;
  mret (inr tt).

(** [while (rc == NGX_AGAIN)] *)
Fixpoint preread_loop (fuel : nat) (h : H) (rc : Z) : SM (Z + unit) :=
  match fuel with
  | O => out_of_fuel
  | S fuel =>
      if negb (rc =? NGX_AGAIN) then mret (inl rc) else
      b ← preread_buffer;
      match b with
      | None => mret (inl NGX_ERROR)
      | Some b =>
          if zlen (b_mem b) - b_last b =? 0 then mret (inl NGX_NSOC_BAD_REQUEST) else
          e ← gets (fun s => read (sc (s_io s)));
          if eof e then mret (inl NGX_NSOC_OK) else
          if negb (ready e) then preread_wait else
          n ← buffer_recv b;
          if n =? NGX_ERROR then mret (inl NGX_NSOC_OK) else
          rc ← h;
          preread_loop fuel h rc
      end
  end.

Definition del_preread_timer : SM unit :=
  st ← gets s_io;
  if timer_set (read (sc st)) then
    let '(e, w) := os_del_timer (read (sc st)) (sw st) in
    modify (fun s => s <| s_io := st <| sc := (sc st) <| read := e |> |> <| sw := w |> |>)
  else mret tt.

Definition ngx_nsoc_core_preread_phase (fuel : nat) (ph : phase_entry HS CS W) : SM Z :=
  s ← gets id;
  rc ← (if s_timedout s then mret NGX_NSOC_OK
        else if timer_set (read (sc (s_io s))) then mret NGX_AGAIN
        else h ← mderef (ph_handler ph); h);
  h ← mderef (ph_handler ph);
  r ← preread_loop fuel h rc;
  match r with
  | inr _ => mret NGX_OK
  | inl rc =>
      del_preread_timer;;
      if rc =? NGX_DONE then mret NGX_OK else conclude (ph_next ph) rc
  end.

Definition ngx_nsoc_core_content_phase : SM Z :=
  s ← gets id;
  if s_sock_stream s && tcp_nodelay cscf && negb (s_nodelay_set s) then
    let '(ok, w) := setsockopt (sw (s_io s)) in
    modify (fun s => s <| s_io := (s_io s) <| sw := w |> |>);;
    if negb ok then
      ngx_nsoc_finalize_session log_handlers NGX_NSOC_INTERNAL_SERVER_ERROR;; mret NGX_OK
    else
      modify (fun s => s <| s_nodelay_set := true |>);;
      content_handler cscf;; mret NGX_OK
  else content_handler cscf;; mret NGX_OK.

(** ** The engine *)

Definition run_checker (fuel : nat) (ck : checker) (ph : phase_entry HS CS W) : SM Z :=
  match ck with
  | GenericPhase => ngx_nsoc_core_generic_phase ph
  | PrereadPhase => ngx_nsoc_core_preread_phase fuel ph
  | ContentPhase => ngx_nsoc_core_content_phase
  end.

(** [fuel] bounds the loop and [pfuel] the loop of a preread handler. *)
Fixpoint ngx_nsoc_core_run_phases (fuel pfuel : nat) (table : list (phase_entry HS CS W)) : SM unit :=
  match fuel with
  | O => out_of_fuel
  | S fuel =>
      s ← gets id;
      if s_closed s then undefined else
      ph ← mderef (if s_phase_handler s <? 0 then None else table !! Z.to_nat (s_phase_handler s));
      match ph_checker ph with
      | None => mret tt
      | Some ck =>
          rc ← run_checker pfuel ck ph;
          if rc =? NGX_OK then mret tt else ngx_nsoc_core_run_phases fuel pfuel table
      end
  end.

(** [ngx_nsoc_session_handler] *)
Definition ngx_nsoc_session_handler := ngx_nsoc_core_run_phases.
End Session.
Arguments core_srv_conf : clear implicits.

(** ** What the phases mean: nested lists instead of a table *)

Inductive verdict := StopSession | SkipPhase | NextHandler.

Section Reference.
Context {HS CS W : Type} {NL : NoiseLib HS CS} {OS : NgxOs W} {PO : NgxPool W}.
Abbreviation SM := (M (session HS CS W)).
Abbreviation H := (handler_pt HS CS W).
Context (cscf : core_srv_conf HS CS W) (log_handlers : list H) (setsockopt : W -> bool * W) (pfuel : nat).

(** A final code: NGX_OK ends the phase, NGX_DECLINED asks the next handler,
    anything else ends the session with a status. *)
Definition judge_code (rc : Z) : SM verdict :=
  if rc =? NGX_OK then mret SkipPhase
  else if rc =? NGX_DECLINED then mret NextHandler
  else ngx_nsoc_finalize_session log_handlers
         (if rc =? NGX_ERROR then NGX_NSOC_INTERNAL_SERVER_ERROR else rc);; mret StopSession.

Definition judge (ck : checker) (h : H) : SM verdict :=
  match ck with
  | PrereadPhase =>
      s ← gets id;
      rc ← (if s_timedout s then mret NGX_NSOC_OK
            else if timer_set (read (sc (s_io s))) then mret NGX_AGAIN else h);
      r ← preread_loop cscf pfuel h rc;
      match r with
      | inr _ => mret StopSession
      | inl rc => del_preread_timer;; if rc =? NGX_DONE then mret StopSession else judge_code rc
      end
  | _ =>
      rc ← h;
      if (rc =? NGX_AGAIN) || (rc =? NGX_DONE) then mret StopSession else judge_code rc
  end.

(** One phase from its handler number [i] of the whole sequence; [k] is the rest
    of the session. *)
Fixpoint run_group (ck : checker) (hs : list H) (i next : Z) (k : SM unit) : SM unit :=
  match hs with
  | [] => k
  | h :: hs =>
      v ← judge ck h;
      match v with
      | StopSession => mret tt
      | SkipPhase => modify (fun s => s <| s_phase_handler := next |>);; k
      | NextHandler =>
          modify (fun s => s <| s_phase_handler := i + 1 |>);; run_group ck hs (i + 1) next k
      end
  end.

Fixpoint run_groups (gs : list (checker * list H)) (i : Z) : SM unit :=
  match gs with
  | [] => ngx_nsoc_core_content_phase cscf log_handlers setsockopt;; mret tt
  | (ck, hs) :: gs => run_group ck hs i (i + zlen hs) (run_groups gs (i + zlen hs))
  end.

(** The phases before content, each with its handlers in the order they run. *)
Definition groups_of (phases : list (list H)) : list (checker * list H) :=
  imap (fun i hs => (if (i =? NGX_NSOC_PREREAD_PHASE)%nat then PrereadPhase else GenericPhase, rev hs))
    (take NGX_NSOC_CONTENT_PHASE phases).

(** The groups without the first [i] handlers. *)
Fixpoint skip_handlers (i : nat) (gs : list (checker * list H)) : list (checker * list H) :=
  match gs with
  | [] => []
  | (ck, hs) :: gs =>
      if (i <=? length hs)%nat then (ck, drop i hs) :: gs else skip_handlers (i - length hs) gs
  end.

Definition handler_count (gs : list (checker * list H)) : nat := length (concat (map snd gs)).

(** A handler leaves [phase_handler] to the engine, and returns to it only with
    the session alive unless it says that it is done with it. *)
Definition good_handler (ck : checker) (h : H) : Prop := forall s rc s',
  h s = Done (rc, s') -> s_phase_handler s' = s_phase_handler s /\
  (s_closed s = false -> s_closed s' = true -> rc = NGX_DONE \/ (rc = NGX_AGAIN /\ ck <> PrereadPhase)).

(** The entries of the groups, from index [i] of the table on. *)
Fixpoint flat_entries (gs : list (checker * list H)) (i : Z) : list (phase_entry HS CS W) :=
  match gs with
  | [] => []
  | (ck, hs) :: gs =>
      map (fun h => PhaseEntry (Some ck) (Some h) (i + zlen hs)) hs ++ flat_entries gs (i + zlen hs)
  end.

(** The checkers are [judge] with the engine's bookkeeping. *)
Definition bookkeep (next : Z) (v : verdict) : SM Z :=
  match v with
  | StopSession => mret NGX_OK
  | SkipPhase => modify (fun s => s <| s_phase_handler := next |>);; mret NGX_AGAIN
  | NextHandler => modify (fun s => s <| s_phase_handler := s_phase_handler s + 1 |>);; mret NGX_AGAIN
  end.

Lemma conclude_judge next rc s :
  conclude log_handlers next rc s = (v ← judge_code rc; bookkeep next v) s.
Proof.
  unfold conclude, judge_code. destruct (rc =? NGX_OK); [done|]. destruct (rc =? NGX_DECLINED); [done|].
  unfold mbind, M_bind. by destruct (ngx_nsoc_finalize_session _ _ s) as [[[] s2]| |].
Qed.

Lemma run_checker_judge ck h next s :
  ck <> ContentPhase ->
  run_checker cscf log_handlers setsockopt pfuel ck (PhaseEntry (Some ck) (Some h) next) s =
  (v ← judge ck h; bookkeep next v) s.
Proof.
  intros Hck. destruct ck; [| |done]; cbn [run_checker judge].
  - unfold ngx_nsoc_core_generic_phase. cbn [ph_handler ph_next mderef].
    unfold mbind, M_bind, mret, M_ret. destruct (h s) as [[rc s1]| |]; try done.
    destruct ((rc =? NGX_AGAIN) || (rc =? NGX_DONE)); [done|]. apply conclude_judge.
  - assert (Htail : forall rc s1,
      (r ← preread_loop cscf pfuel h rc;
       match r with
       | inr _ => mret NGX_OK
       | inl rc => del_preread_timer;; if rc =? NGX_DONE then mret NGX_OK else conclude log_handlers next rc
       end) s1 =
      (v ← (r ← preread_loop cscf pfuel h rc;
        match r with
        | inr _ => mret StopSession
        | inl rc => del_preread_timer;;
                    if rc =? NGX_DONE then mret StopSession else judge_code rc
        end); bookkeep next v) s1).
    { intros rc s1. unfold mbind, M_bind. destruct (preread_loop cscf pfuel h rc s1) as [[[rc2|[]] s2]| |]; try done.
      destruct (del_preread_timer s2) as [[[] s3]| |]; try done. destruct (rc2 =? NGX_DONE); [done|].
      apply conclude_judge. }
    unfold ngx_nsoc_core_preread_phase. cbn [ph_handler ph_next mderef].
    unfold gets, mbind, M_bind, mret, M_ret, id in *. cbn.
    destruct (s_timedout s); [apply Htail|]. destruct (timer_set _); [apply Htail|].
    destruct (h s) as [[rc s1]| |]; [apply Htail|done..].
Qed.

(** The end of a session, and the codes with which the engine goes on. *)
Lemma judge_code_goes_on rc s v s' :
  judge_code rc s = Done (v, s') -> v <> StopSession ->
  s' = s /\ (rc = NGX_OK \/ rc = NGX_DECLINED).
Proof.
  unfold judge_code. destruct (Z.eqb_spec rc NGX_OK) as [->|]; [intros [= <- <-]; auto|].
  destruct (Z.eqb_spec rc NGX_DECLINED) as [->|]; [intros [= <- <-]; auto|].
  intros (u & s1 & _ & [= <- <-])%bind_done_inv. done.
Qed.

(** The operations of the preread phase leave the engine's fields alone. *)
Definition same_ctl (s s' : session HS CS W) : Prop :=
  s_phase_handler s' = s_phase_handler s /\ s_closed s' = s_closed s.

Lemma preread_buffer_ctl s : wlp (preread_buffer cscf) (fun _ s' => same_ctl s s') s.
Proof.
  unfold preread_buffer. do 2 wlp_step. unfold id. destruct (s_buffer s); [by wlp_step|].
  destruct (pool_object _) as [ok w]. destruct (if ok then _ else _) as [bs w']. by repeat wlp_step.
Qed.

Lemma on_io_ctl {A} (m : M (sess HS CS W) A) s : wlp (on_io m) (fun _ s' => same_ctl s s') s.
Proof. unfold wlp, on_io. by destruct (m (s_io s)) as [[a st]| |]. Qed.

Lemma buffer_recv_ctl b s : wlp (buffer_recv b) (fun _ s' => same_ctl s s') s.
Proof.
  unfold buffer_recv. do 2 wlp_step. destruct (io _).
  - destruct (os_recv _ _ _) as [[[n bs] e] w]. by repeat wlp_step.
  - wlp_step. eapply wlp_mono; [apply on_io_ctl|]. intros [n mem] s1 H1. by repeat wlp_step.
Qed.

Lemma preread_wait_ctl s : wlp (preread_wait cscf) (fun _ s' => same_ctl s s') s.
Proof.
  unfold preread_wait. do 2 wlp_step. destruct (os_handle_read _ _) as [[r e] w]. do 3 wlp_step; [by wlp_step|].
  destruct (if timer_set e then _ else _) as [e' w']. by repeat wlp_step.
Qed.

Lemma del_timer_ctl s : wlp del_preread_timer (fun _ s' => same_ctl s s') s.
Proof.
  unfold del_preread_timer. do 3 wlp_step; [|by wlp_step].
  destruct (os_del_timer _ _) as [e w]. by wlp_step.
Qed.

(** What the engine needs of a code and the state it comes with. *)
Definition code_alive (p rc : Z) (s : session HS CS W) : Prop :=
  s_phase_handler s = p /\ (s_closed s = true -> rc = NGX_DONE).

Lemma preread_loop_alive p fuel h (Hh : good_handler PrereadPhase h) : forall rc s,
  code_alive p rc s ->
  wlp (preread_loop cscf fuel h rc) (fun r s' => match r with
    | inl rc' => code_alive p rc' s' | inr _ => True end) s.
Proof.
  induction fuel as [|fuel IH]; intros rc s [Hp Hc]; [done|]. cbn [preread_loop].
  destruct (Z.eqb_spec rc NGX_AGAIN) as [->|Hne]; cbn [negb]; [|by wlp_step].
  assert (Hopen : s_closed s = false) by (destruct (s_closed s); [by specialize (Hc eq_refl)|done]).
  assert (Hany : forall rc s', same_ctl s s' -> code_alive p rc s').
  { intros rc s' [H1 H2]. split; [congruence|]. by rewrite H2, Hopen. }
  wlp_step. eapply wlp_mono; [apply preread_buffer_ctl|]. intros [b|] s1 H1; [|wlp_step; by apply Hany].
  wlp_step; [wlp_step; by apply Hany|]. do 3 wlp_step; [wlp_step; by apply Hany|].
  wlp_step.
  { eapply wlp_mono; [apply preread_wait_ctl|]. intros [rc|[]] s2 H2; [|done].
    apply Hany. destruct H1, H2. split; congruence. }
  wlp_step. eapply wlp_mono; [apply buffer_recv_ctl|]. intros n s2 H2.
  assert (H02 : same_ctl s s2) by (destruct H1, H2; split; congruence).
  wlp_step; [wlp_step; by apply Hany|]. wlp_step. unfold wlp at 1. destruct (h s2) as [[rc s3]| |] eqn:Hrun; try done.
  destruct (Hh _ _ _ Hrun) as [Hp3 Hc3]. apply IH. destruct H02 as [Hp2 Hc2]. split; [congruence|].
  intros Hcl. destruct Hc3 as [?|[_ ?]]; [congruence|done..].
Qed.

Lemma judge_goes_on ck h s v s' (Hh : good_handler ck h) :
  ck <> ContentPhase -> s_closed s = false ->
  judge ck h s = Done (v, s') -> v <> StopSession ->
  s_phase_handler s' = s_phase_handler s /\ s_closed s' = false.
Proof.
  intros Hck Hopen Hj Hv. destruct ck; [| |done]; cbn [judge] in Hj.
  - apply bind_done_inv in Hj as (rc & s1 & Hrun & Hj). destruct (Hh _ _ _ Hrun) as [Hp Hc].
    destruct ((rc =? NGX_AGAIN) || (rc =? NGX_DONE)); [by injection Hj as <- _|].
    destruct (judge_code_goes_on _ _ _ _ Hj Hv) as [-> Hrc]. split; [done|].
    destruct (s_closed s1); [|done]. destruct (Hc Hopen eq_refl) as [->|[-> _]]; by destruct Hrc.
  - apply bind_done_inv in Hj as (s0 & ? & [= <- <-] & Hj). apply bind_done_inv in Hj as (rc & s1 & H1 & Hj).
    assert (Hal : code_alive (s_phase_handler s) rc s1).
    { unfold id in H1. destruct (s_timedout s); [injection H1 as <- <-; split; [done|by rewrite Hopen]|].
      destruct (timer_set _); [injection H1 as <- <-; split; [done|by rewrite Hopen]|].
      destruct (Hh _ _ _ H1) as [Hp Hc]. split; [done|]. intros Hcl. by destruct (Hc Hopen Hcl) as [?|[_ ?]]. }
    apply bind_done_inv in Hj as (r & s2 & H2 & Hj).
    pose proof (wlp_inv _ _ _ _ _ (preread_loop_alive _ pfuel h Hh rc s1 Hal) H2) as Hal2. cbv beta in Hal2.
    destruct r as [rc2|[]]; [|by injection Hj as <- _].
    apply bind_done_inv in Hj as ([] & s3 & H3 & Hj).
    destruct (wlp_inv _ _ _ _ _ (del_timer_ctl s2) H3) as [Hp3 Hc3]. destruct Hal2 as [Hp2 Hc2].
    destruct (Z.eqb_spec rc2 NGX_DONE) as [->|Hnd]; [by injection Hj as <- _|].
    destruct (judge_code_goes_on _ _ _ _ Hj Hv) as [-> Hrc]. split; [congruence|]. rewrite Hc3.
    destruct (s_closed s2); [|done]. by specialize (Hc2 eq_refl).
Qed.

Abbreviation run := (ngx_nsoc_core_run_phases cscf log_handlers setsockopt).
Abbreviation content := (@PhaseEntry HS CS W (Some ContentPhase) None 0).

Lemma lookup_zlen {A} (l : list A) x r : (l ++ x :: r) !! Z.to_nat (zlen l) = Some x.
Proof. unfold zlen. rewrite Nat2Z.id. by rewrite list_lookup_middle. Qed.

(** One round of the engine, at the entry it stands on. *)
Lemma run_entry fuel pre ck h next post s :
  ck <> ContentPhase -> s_phase_handler s = zlen pre -> s_closed s = false ->
  run (S fuel) pfuel (pre ++ PhaseEntry (Some ck) (Some h) next :: post) s =
  (v ← judge ck h; rc ← bookkeep next v;
   if rc =? NGX_OK then mret tt
   else run fuel pfuel (pre ++ PhaseEntry (Some ck) (Some h) next :: post)) s.
Proof.
  intros Hck Hp Hc. cbn [ngx_nsoc_core_run_phases]. unfold gets at 1, mbind at 1, M_bind at 1. unfold id.
  rewrite Hc, Hp, (proj2 (Z.ltb_ge (zlen pre) 0)) by apply zlen_nonneg. rewrite lookup_zlen.
  cbn [mderef ph_checker]. unfold mbind, M_bind, mret at 1, M_ret at 1. cbn [ph_checker].
  rewrite run_checker_judge by done.
  unfold mbind, M_bind. by destruct (judge ck h s) as [[v s1]| |].
Qed.

(** The content phase always ends the loop. *)
Lemma content_ok s : wlp (ngx_nsoc_core_content_phase cscf log_handlers setsockopt) (fun rc _ => rc = NGX_OK) s.
Proof.
  unfold ngx_nsoc_core_content_phase. do 3 wlp_step.
  - destruct (setsockopt _) as [ok w]. do 2 wlp_step. destruct ok; cbn [negb].
    + do 3 wlp_step. apply wlp_any. intros _ ?. by wlp_step.
    + wlp_step. apply wlp_any. intros _ ?. by wlp_step.
  - wlp_step. apply wlp_any. intros _ ?. by wlp_step.
Qed.

Lemma run_content fuel pre post s :
  s_phase_handler s = zlen pre -> s_closed s = false ->
  run (S fuel) pfuel (pre ++ content :: post) s = run_groups [] (zlen pre) s.
Proof.
  intros Hp Hc. cbn [ngx_nsoc_core_run_phases run_groups]. unfold gets at 1, mbind at 1, M_bind at 1. unfold id.
  rewrite Hc, Hp, (proj2 (Z.ltb_ge (zlen pre) 0)) by apply zlen_nonneg. rewrite lookup_zlen.
  cbn [mderef]. unfold mbind, M_bind, mret, M_ret. cbn [ph_checker run_checker].
  pose proof (content_ok s) as Hok. unfold wlp in Hok.
  destruct (ngx_nsoc_core_content_phase _ _ _ s) as [[rc s1]| |]; [|done|done]. by subst rc.
Qed.

Definition good_groups (gs : list (checker * list H)) : Prop :=
  Forall (fun '(ck, hs) => ck <> ContentPhase /\ Forall (good_handler ck) hs) gs.

Lemma modify_ph p (s : session HS CS W) :
  s_phase_handler (s <| s_phase_handler := p |>) = p /\ s_closed (s <| s_phase_handler := p |>) = s_closed s.
Proof. done. Qed.

(** One phase of the table, [K] being what the rest of the table does. *)
Lemma run_group_table ck next (rest : list (phase_entry HS CS W)) (K : SM unit) m
    (Hck : ck <> ContentPhase) : forall hs pre s fuel,
  Forall (good_handler ck) hs -> next = zlen pre + zlen hs ->
  (forall fuel s, (m < fuel)%nat -> s_phase_handler s = next -> s_closed s = false ->
     run fuel pfuel (pre ++ map (fun h => PhaseEntry (Some ck) (Some h) next) hs ++ rest) s = K s) ->
  (length hs + m < fuel)%nat -> s_phase_handler s = zlen pre -> s_closed s = false ->
  run fuel pfuel (pre ++ map (fun h => PhaseEntry (Some ck) (Some h) next) hs ++ rest) s =
  run_group ck hs (zlen pre) next K s.
Proof.
  induction hs as [|h hs IH]; intros pre s fuel Hgood Hnext HK Hfuel Hp Hc; cbn [length] in *.
  { cbn [run_group]. apply HK; [lia| |done]. rewrite Hp, Hnext, zlen_nil. lia. }
  destruct fuel as [|fuel]; [lia|]. apply Forall_cons_iff in Hgood as [Hh Hgood].
  cbn [map app] in *. rewrite run_entry by done. cbn [run_group].
  unfold mbind at 1 3, M_bind at 1 3. destruct (judge ck h s) as [[v s1]| |] eqn:Hj; try done.
  destruct v; [done|..].
  - destruct (judge_goes_on _ _ _ _ _ Hh Hck Hc Hj ltac:(done)) as [Hp1 Hc1].
    cbn [bookkeep]. unfold mbind, M_bind, modify, mret, M_ret. zlit. apply HK; [lia|done|done].
  - destruct (judge_goes_on _ _ _ _ _ Hh Hck Hc Hj ltac:(done)) as [Hp1 Hc1].
    cbn [bookkeep]. unfold mbind, M_bind, modify, mret, M_ret. zlit. rewrite Hp1, Hp.
    assert (Hl : zlen pre + 1 = zlen (pre ++ [PhaseEntry (Some ck) (Some h) next])) by (rewrite zlen_app; done).
    rewrite Hl, cons_middle, app_assoc. apply IH; try done.
    + rewrite <- Hl, Hnext, zlen_cons. lia.
    + intros f' s' H1 H2 H3. rewrite <- app_assoc. by apply HK.
    + lia.
Qed.

Lemma run_groups_table post : forall gs pre s fuel,
  good_groups gs -> (handler_count gs < fuel)%nat -> s_phase_handler s = zlen pre -> s_closed s = false ->
  run fuel pfuel (pre ++ flat_entries gs (zlen pre) ++ content :: post) s = run_groups gs (zlen pre) s.
Proof.
  induction gs as [|[ck hs] gs IH]; intros pre s fuel Hg Hfuel Hp Hc.
  { destruct fuel; [lia|]. by apply run_content. }
  apply Forall_cons_iff in Hg as [[Hck Hh] Hg]. cbn [flat_entries run_groups]. rewrite <- (app_assoc (map _ _)).
  unfold handler_count in Hfuel. cbn [map concat snd] in Hfuel. rewrite length_app in Hfuel.
  apply (run_group_table ck _ _ _ (handler_count gs)); try done. intros fuel' s' Hf' Hp' Hc'.
  set (es := map _ hs). replace (zlen pre + zlen hs) with (zlen (pre ++ es)).
  2:{ subst es. unfold zlen. rewrite length_app, length_map. lia. }
  rewrite app_assoc. apply IH; try done. rewrite Hp'. subst es. unfold zlen. rewrite length_app, length_map. lia.
Qed.

(** Resuming inside the sequence. *)
Lemma skip_flat : forall gs k i, (k <= handler_count gs)%nat ->
  exists pre, length pre = k /\
    flat_entries gs i = pre ++ flat_entries (skip_handlers k gs) (i + Z.of_nat k).
Proof.
  induction gs as [|[ck hs] gs IH]; intros k i Hk; cbn [flat_entries skip_handlers].
  { exists []. unfold handler_count in Hk. cbn in *. split; [lia|done]. }
  destruct (Nat.leb_spec k (length hs)) as [Hle|Hgt].
  - exists (map (fun h => PhaseEntry (Some ck) (Some h) (i + zlen hs)) (take k hs)).
    split; [rewrite length_map, length_take; lia|]. cbn [flat_entries].
    replace (i + Z.of_nat k + zlen (drop k hs)) with (i + zlen hs) by (unfold zlen; rewrite length_drop; lia).
    by rewrite app_assoc, <- map_app, take_drop.
  - unfold handler_count in *. cbn [map concat snd] in Hk. rewrite length_app in Hk.
    destruct (IH (k - length hs)%nat (i + zlen hs)) as (pre & Hl & Hf); [lia|].
    exists (map (fun h => PhaseEntry (Some ck) (Some h) (i + zlen hs)) hs ++ pre).
    split; [rewrite length_app, length_map; lia|]. rewrite Hf, <- app_assoc. do 3 f_equal. unfold zlen. lia.
Qed.

Lemma skip_count gs : forall k, (handler_count (skip_handlers k gs) <= handler_count gs)%nat.
Proof.
  induction gs as [|[ck hs] gs IH]; intros k; cbn [skip_handlers]; [done|].
  destruct (Nat.leb_spec k (length hs)); unfold handler_count in *; cbn [map concat snd]; rewrite !length_app.
  - rewrite length_drop. lia.
  - specialize (IH (k - length hs)%nat). lia.
Qed.

Lemma skip_good gs : forall k, good_groups gs -> good_groups (skip_handlers k gs).
Proof.
  induction gs as [|[ck hs] gs IH]; intros k Hg; cbn [skip_handlers]; [done|].
  apply Forall_cons_iff in Hg as [[Hck Hh] Hg]. destruct (Nat.leb k (length hs)); [|by apply IH].
  constructor; [|done]. split; [done|]. by apply Forall_drop.
Qed.

Lemma fill_phase i hs phases n :
  (i < NGX_NSOC_CONTENT_PHASE)%nat ->
  let ck := if (i =? NGX_NSOC_PREREAD_PHASE)%nat then PrereadPhase else GenericPhase in
  fill_phases i (hs :: phases) n =
  map (fun h => @PhaseEntry HS CS W (Some ck) (Some h) (n + zlen (rev hs))) (rev hs) ++
  fill_phases (S i) phases (n + zlen (rev hs)).
Proof.
  intros Hi. cbn [fill_phases]. unfold NGX_NSOC_CONTENT_PHASE, NGX_NSOC_LOG_PHASE in *.
  rewrite (proj2 (Nat.eqb_neq i 6)), (proj2 (Nat.eqb_neq i 5)) by lia. unfold phase_entries.
  by replace (zlen (rev hs)) with (zlen hs) by (unfold zlen; by rewrite length_rev).
Qed.

Lemma fill_phases_flat phases :
  length phases = S NGX_NSOC_LOG_PHASE -> fill_phases 0 phases 0 = flat_entries (groups_of phases) 0 ++ [content].
Proof.
  intros Hlen. do 7 (destruct phases as [|? phases]; [done|]). destruct phases; [|done].
  do 5 (rewrite fill_phase by (unfold NGX_NSOC_CONTENT_PHASE; lia)). cbn [groups_of take NGX_NSOC_CONTENT_PHASE imap].
  cbn [flat_entries compose]. rewrite <- !app_assoc. done.
Qed.

(** C5: the table and the engine run the phases as they are meant: each phase's
    handlers from the last registered to the first, NGX_OK skipping the rest of
    the phase, NGX_DECLINED asking the next handler, NGX_AGAIN and NGX_DONE
    stopping so that a later call resumes at the same handler, any other code
    ending the session with a status; after the last phase the content handler
    runs.  The engine needs at most one round per handler and one for the content
    phase, and never reads a closed session.  It holds from any handler [i] on,
    so also for a session that resumes. *)
Theorem engine_runs_phases phases w table w' fuel i s
    (Hlen : length phases = S NGX_NSOC_LOG_PHASE)
    (Hinit : ngx_nsoc_init_phase_handlers phases w = (NGX_OK, Some table, w'))
    (Hgood : good_groups (groups_of phases))
    (Hfuel : (handler_count (groups_of phases) < fuel)%nat)
    (Hi : (i <= handler_count (groups_of phases))%nat)
    (Hpos : s_phase_handler s = Z.of_nat i) (Hopen : s_closed s = false) :
  ngx_nsoc_core_run_phases cscf log_handlers setsockopt fuel pfuel table s =
  run_groups (skip_handlers i (groups_of phases)) (Z.of_nat i) s.
Proof.
  unfold ngx_nsoc_init_phase_handlers in Hinit. destruct (pool_object w) as [[|] w1]; [|done].
  injection Hinit as <- <-. rewrite (fill_phases_flat phases Hlen), <- app_assoc.
  destruct (skip_flat (groups_of phases) i 0 Hi) as (pre & Hl & Hf).
  rewrite Hf, <- app_assoc, Z.add_0_l. replace (Z.of_nat i) with (zlen pre) in * by (unfold zlen; lia).
  apply run_groups_table; [by apply skip_good| |done|done].
  pose proof (skip_count (groups_of phases) i). lia.
Qed.
End Reference.

(** ** Prereading *)

Section Preread.
Context {HS CS W : Type} {NL : NoiseLib HS CS} {OS : NgxOs W} {PO : NgxPool W} {SM : NgxStream W}
  {OL : NgxOsLaws W} {PL : NgxPoolLaws W}.
Context (cscf : core_srv_conf HS CS W).
Implicit Types s : session HS CS W.

Definition buf_wf (b : nbuf) : Prop := 0 <= b_pos b <= b_last b /\ b_last b <= zlen (b_mem b).

(** What a buffer holds. *)
Definition buf_data (b : nbuf) : list Z := ztake (b_last b - b_pos b) (zdrop (b_pos b) (b_mem b)).

Definition buffered_data s : list Z := match s_buffer s with Some b => buf_data b | None => [] end.

(** The bytes the client sent that no one has taken: in [c->buffer], then in the
    socket. *)
Definition client_data s : list Z := buffered_data s ++ pending (sw (s_io s)).

(** The buffer is sound, and reads go to the socket. *)
Definition preread_ok s : Prop :=
  match s_buffer s with Some b => buf_wf b | None => True end /\ io (sc (s_io s)) = OsIo.

(** Room left in the buffer, its size when there is none yet. *)
Definition room_left s : Z :=
  match s_buffer s with
  | Some b => zlen (b_mem b) - b_last b
  | None => nsoc_preread_buffer_size cscf
  end.

Lemma buf_data_extend b bs mem n :
  buf_wf b -> zlen bs = n -> store (b_last b) bs (b_mem b) = Some mem ->
  buf_wf (NBuf mem (b_pos b) (b_last b + n)) /\ zlen mem = zlen (b_mem b) /\
  buf_data (NBuf mem (b_pos b) (b_last b + n)) = buf_data b ++ bs.
Proof.
  intros [H1 H2] Hn (H3 & H4 & ->)%store_Some. pose proof (zlen_nonneg bs).
  assert (Hl : zlen (ztake (b_last b) (b_mem b)) = b_last b) by (rewrite zlen_ztake; lia).
  assert (Hz : zlen (ztake (b_last b) (b_mem b) ++ bs ++ zdrop (b_last b + zlen bs) (b_mem b)) = zlen (b_mem b)).
  { rewrite !zlen_app, Hl, zlen_zdrop; lia. }
  split_and!; [|done|].
  - unfold buf_wf. cbn [b_pos b_last b_mem]. rewrite Hz. lia.
  - unfold buf_data. cbn [b_pos b_last b_mem].
    set (post := zdrop (b_last b + zlen bs) (b_mem b)). destruct (ztake_split (b_pos b) (ztake (b_last b) (b_mem b))) as (Hs & Hl1 & Hl2); [lia|].
    rewrite Hs at 1. rewrite <- (app_assoc (ztake (b_pos b) _)).
    rewrite zdrop_app_exact by (by rewrite Hl1). rewrite app_assoc.
    rewrite ztake_app_exact by (rewrite zlen_app, Hl2, Hl; lia). f_equal.
    unfold ztake, zdrop. rewrite skipn_firstn_comm. f_equal. lia.
Qed.

(** [recv] appends to the buffer what it takes from the socket. *)
Lemma buffer_recv_run b s (Q : Z -> session HS CS W -> Prop) :
  preread_ok s -> s_buffer s = Some b -> 0 < zlen (b_mem b) - b_last b ->
  (forall n s', preread_ok s' -> client_data s' = client_data s ->
     (0 < n /\ room_left s' = room_left s - n) \/
     (n = NGX_ERROR \/ (room_left s' = room_left s /\
       (ready (read (sc (s_io s'))) = false \/ eof (read (sc (s_io s'))) = true))) -> Q n s') ->
  wp (buffer_recv b) Q s.
Proof.
  intros [Hwf Hio] Hb Hroom HQ. unfold buffer_recv. repeat wp_step. rewrite Hio. rewrite Hb in Hwf.
  destruct (os_recv _ _ _) as [[[n bs] e] w] eqn:Hr.
  destruct (os_recv_stream _ _ _ _ _ _ _ Hr) as (Hpend & _ & _).
  repeat wp_step. destruct (Z.ltb_spec 0 n) as [Hpos|Hneg].
  - destruct (os_recv_result _ _ _ _ _ _ _ Hr) as [(Hle & Hl & _)|[_ Hz]].
    2:{ unfold NGX_AGAIN, NGX_ERROR in Hz. lia. }
    destruct (store (b_last b) bs (b_mem b)) as [mem|] eqn:Hst.
    2:{ unfold store in Hst. destruct Hwf. rewrite (proj2 (Z.leb_le 0 (b_last b))) in Hst by lia.
        by rewrite (proj2 (Z.leb_le _ _)) in Hst by lia. }
    wp_step. eapply wp_mderef; [done|]. repeat wp_step.
    destruct (buf_data_extend b bs mem n Hwf Hl Hst) as (Hwf' & Hz & Hd). apply HQ.
    + split; [exact Hwf'|exact Hio].
    + unfold client_data, buffered_data. cbn -[buf_data]. rewrite Hd, Hb, Hpend. by rewrite <- app_assoc.
    + left. split; [done|]. unfold room_left. cbn. rewrite Hb, Hz. lia.
  - wp_step. destruct (os_recv_result _ _ _ _ _ _ _ Hr) as [?|[-> Hz]]; [lia|].
    destruct (os_recv_ready _ _ _ _ _ _ _ Hroom Hr) as [Hag Heof]. apply HQ.
    + split; [cbn; by rewrite Hb|exact Hio].
    + unfold client_data, buffered_data. cbn -[buf_data]. by rewrite Hpend.
    + right. destruct Hz as [-> | [-> | ->]]; [right..|by left]; (split; [by unfold room_left; cbn; rewrite Hb|]).
      * right. by apply Heof.
      * left. by apply Hag.
Qed.

(** A handler that looks at the data without taking them. *)
Definition spectator (h : handler_pt HS CS W) : Prop := forall s,
  exists rc s', h s = Done (rc, s') /\ s_io s' = s_io s /\ s_buffer s' = s_buffer s.

Lemma spectator_wp h s (Q : Z -> session HS CS W -> Prop) :
  spectator h ->
  (forall rc s', s_io s' = s_io s -> s_buffer s' = s_buffer s -> Q rc s') -> wp h Q s.
Proof. intros Hh HQ. destruct (Hh s) as (rc & s' & Hrun & H1 & H2). eapply done_wp; [exact Hrun|]. by apply HQ. Qed.

Lemma preread_buffer_run s (Q : option nbuf -> session HS CS W -> Prop) :
  0 <= nsoc_preread_buffer_size cscf -> preread_ok s ->
  (forall s', preread_ok s' -> client_data s' = client_data s -> Q None s') ->
  (forall b s', preread_ok s' -> client_data s' = client_data s -> s_buffer s' = Some b ->
     read (sc (s_io s')) = read (sc (s_io s)) -> room_left s' = room_left s -> Q (Some b) s') ->
  wp (preread_buffer cscf) Q s.
Proof.
  intros Hsize [Hwf Hio] HQ1 HQ2. unfold preread_buffer. repeat wp_step. unfold id.
  destruct (s_buffer s) as [b|] eqn:Hb.
  { wp_step. apply HQ2; try done. split; [by rewrite Hb|done]. }
  destruct (pool_object _) as [ok w] eqn:Ho. destruct (pool_object_stream _ _ _ Ho) as (Hp1 & _ & _).
  assert (Hnone : forall w', pending w' = pending (sw (s_io s)) ->
    preread_ok (s <| s_io := (s_io s) <| sw := w' |> |> <| s_buffer := None |>) /\
    client_data (s <| s_io := (s_io s) <| sw := w' |> |> <| s_buffer := None |>) = client_data s).
  { intros w' Hw'. split; [by split|]. unfold client_data, buffered_data. cbn. by rewrite Hb, Hw'. }
  destruct ok.
  2:{ repeat wp_step. cbn [fmap option_fmap option_map]. destruct (Hnone w Hp1). by apply HQ1. }
  destruct (pool_bytes _ w) as [bs w'] eqn:Hbs. destruct (pool_bytes_stream _ _ _ _ Hbs) as (Hp2 & _ & _).
  destruct bs as [bs|]; repeat wp_step; cbn [fmap option_fmap option_map].
  2:{ destruct (Hnone w') as [? ?]; [congruence|]. by apply HQ1. }
  destruct (pool_bytes_length _ _ _ _ Hsize Hbs) as [Hl _]. apply HQ2; try done.
  - split; [|done]. unfold buf_wf. cbn. lia.
  - unfold client_data, buffered_data. cbn. rewrite Hb. unfold buf_data. cbn.
    change (ztake (0 - 0) (zdrop 0 bs)) with (@nil Z). cbn. congruence.
  - unfold room_left. cbn. rewrite Hb, Hl. lia.
Qed.

Lemma preread_wait_run s (Q : Z + unit -> session HS CS W -> Prop) :
  preread_ok s -> (forall r s', preread_ok s' -> client_data s' = client_data s -> Q r s') ->
  wp (preread_wait cscf) Q s.
Proof.
  intros [Hwf Hio] HQ. unfold preread_wait. repeat wp_step.
  destruct (os_handle_read _ _) as [[r e] w] eqn:Hr. destruct (os_handle_read_stream _ _ _ _ _ Hr) as (Hp & _ & _).
  repeat wp_step. destruct (negb (r =? NGX_OK)).
  { wp_step. apply HQ; [done|]. unfold client_data, buffered_data. cbn -[buf_data]. by rewrite Hp. }
  destruct (timer_set e).
  - repeat wp_step. apply HQ; [done|]. unfold client_data, buffered_data. cbn -[buf_data]. by rewrite Hp.
  - destruct (os_add_timer _ _ _) as [e' w'] eqn:Ha. destruct (os_add_timer_law _ _ _ _ _ Ha) as (_ & Hp' & _ & _).
    repeat wp_step. apply HQ; [done|]. unfold client_data, buffered_data. cbn -[buf_data]. by rewrite Hp', Hp.
Qed.

Lemma preread_loop_run h (Hh : spectator h) (Hsize : 0 <= nsoc_preread_buffer_size cscf) : forall fuel rc s,
  preread_ok s ->
  (Z.to_nat (room_left s) + (if ready (read (sc (s_io s))) && negb (eof (read (sc (s_io s)))) then 1 else 0) + 2 <= fuel)%nat ->
  wp (preread_loop cscf fuel h rc) (fun _ s' => preread_ok s' /\ client_data s' = client_data s) s.
Proof.
  induction fuel as [|fuel IH]; intros rc s Hok Hfuel; [lia|]. cbn [preread_loop].
  destruct (negb (rc =? NGX_AGAIN)); [by wp_step|]. wp_step. apply preread_buffer_run; try done.
  intros b s1 Hok1 Hd1 Hb1 He1 Hr1. rewrite <- Hd1, <- He1, <- Hr1 in *. clear Hd1 He1 Hr1.
  destruct (Z.eqb_spec (zlen (b_mem b) - b_last b) 0) as [|Hne]; [by wp_step|]. repeat wp_step.
  destruct (eof (read (sc (s_io s1)))) eqn:Heof; [by wp_step|].
  destruct (ready (read (sc (s_io s1)))) eqn:Hready; cbn [negb andb] in *.
  2:{ apply preread_wait_run; [done|]. by intros. }
  wp_step. assert (Hroom : room_left s1 = zlen (b_mem b) - b_last b) by (unfold room_left; by rewrite Hb1).
  assert (0 < room_left s1).
  { destruct Hok1 as [Hwf _]. rewrite Hb1 in Hwf. destruct Hwf. lia. }
  apply buffer_recv_run; [done|done|lia|]. intros n s2 Hok2 Hd2 Hn.
  destruct (Z.eqb_spec n NGX_ERROR) as [|Hnerr]; [by wp_step|]. wp_step. apply spectator_wp; [done|].
  intros rc2 s3 Hio3 Hb3. assert (Hok3 : preread_ok s3) by (unfold preread_ok in *; by rewrite Hio3, Hb3).
  assert (Hd3 : client_data s3 = client_data s1)
    by (unfold client_data, buffered_data in *; rewrite Hio3, Hb3; congruence).
  rewrite <- Hd3. apply IH; [done|]. unfold room_left in *. rewrite Hb3, Hio3.
  destruct Hn as [[Hpos Hleft]|[?|[Hleft Hflag]]]; [|done|].
  - destruct (_ && _); lia.
  - destruct Hflag as [-> | ->]; rewrite ?andb_false_r; cbn [andb negb] in *; rewrite ?andb_false_r; lia.
Qed.

End Preread.

(** ** Witnesses *)

Abbreviation demo_session_t := (session toy_hs Z net).

Definition demo_session (script : list chunk) : demo_session_t :=
  Session (Sess (demo_conn <| read := idle_event <| ready := true |> |>) (NsocSession None None false)
             demo_prologue (Net script [] []))
    (NoiseserverConf 60000 None None None) 0 0 None false true false 0 false.

(** Handlers that answer a fixed code, and a content handler that leaves a mark. *)
Definition answers (rc : Z) : handler_pt toy_hs Z net := mret rc.
Definition demo_conf : core_srv_conf toy_hs Z net :=
  CoreSrvConf 4 30000 true (modify (fun s => s <| s_received := 77 |>)).

Definition demo_phases : list (list (handler_pt toy_hs Z net)) :=
  [[]; [answers NGX_OK; answers NGX_DECLINED]; [answers NGX_OK]; []; [answers NGX_DECLINED]; []; []].

Lemma answers_good ck rc : good_handler ck (answers rc).
Proof. intros s rc' s' [= <- <-]. split; [done|]. congruence. Qed.

Definition demo_table : list (phase_entry toy_hs Z net) :=
  fill_phases 0 demo_phases 0 ++ [null_entry].

Lemma engine_runs_phases_witness :
  exists s', ngx_nsoc_core_run_phases demo_conf [] (fun w => (true, w)) 6 3 demo_table (demo_session []) =
    Done (tt, s') /\ s_received s' = 77 /\ s_phase_handler s' = 4.
Proof.
  assert (Hrun := engine_runs_phases demo_conf [] (fun w => (true, w)) 3 demo_phases (Net [] [] []) demo_table
                    (Net [] [] []) 6 0 (demo_session []) eq_refl eq_refl).
  rewrite Hrun; try done; cbn.
  - eexists. by vm_compute.
  - repeat (apply Forall_cons_2; [by split; [|repeat (apply Forall_cons_2; [apply answers_good|])]|]).
    by constructor.
  - lia.
  - lia.
Defined.

