(* ===== verification/NoiseServer.v ===== *)
(** * The Noise server module: ngx_nsoc_noiseserver_module.c

    The handler of the protect phase.  It loads the key files on first use,
    creates the Noise connection of the accepted connection and starts the
    handshake.  The settings are shared by the sessions of a server, so the
    handler's effect on them ([s_srv]) persists.

    The file system is a parameter: [fopen] gives the characters of a file.  A
    key array is one [ngx_str_t]; [behind] is what a reader finds after its length
    field, that is the bytes of the [data] pointer and of the memory behind the
    array, which the allocator chooses. *)

From stdpp Require Import prelude list numbers.
From S2P Require Import Prelude KeyFiles NoiseConn Net HsRead Record Handshake Session.

Section NoiseServer.
Context {HS CS W : Type} {NL : NoiseLib HS CS} {OS : NgxOs W} {PO : NgxPool W} {CM : NgxConfMerge}.
Context (fopen : list Z -> option (list Z)) (behind : W -> list Z).
Abbreviation SM := (M (session HS CS W)).

(** ** Configuration *)

(** Whether the next object can be allocated. *)
Definition new_object : M W bool := fun w => Done (pool_object w).

Definition ngx_nsoc_noiseserver_create_conf (w : W) : option noiseserver_conf * W :=
  let '(ok, w) := pool_object w in
  if (ok : bool) then (Some (NoiseserverConf NGX_CONF_UNSET_MSEC None None None), w) else (None, w).

(** "NoiseSocketInit1" *)
Definition prologue_text : list Z := [78; 111; 105; 115; 101; 83; 111; 99; 107; 101; 116; 73; 110; 105; 116; 49].

(** [ngx_pcalloc] leaves the fields of the header zero.  [false] is
    NGX_CONF_ERROR. *)
Definition ngx_nsoc_noiseserver_merge_conf (preread_buffer_size : Z) (prev conf : noiseserver_conf)
    : M W (bool * noiseserver_conf) :=
  let conf := conf <| ns_handshake_timeout :=
                        conf_merge (Z.eqb NGX_CONF_UNSET_MSEC) (ns_handshake_timeout conf) (ns_handshake_timeout prev) 60000 |>
                   <| server_private_key_file :=
                        conf_merge is_unset (server_private_key_file conf) (server_private_key_file prev) (Some []) |>
                   <| client_public_key_file :=
                        conf_merge is_unset (client_public_key_file conf) (client_public_key_file prev) (Some []) |> in
  ok ← new_object;
  if negb ok then mret (false, conf <| ns_noise := None |>) else
  let noise := NoiseT None (PrologueData prologue_text (swapw NGX_NSOC_1MSG_NEG_DATA_SIZE)
                              (FirstHdr 0 0 0 0 0)) 0 (ns_handshake_timeout conf) in
  '(rc, noise) ← ngx_nsoc_create noise preread_buffer_size;
  let conf := conf <| ns_noise := Some noise |> in
  if negb (rc =? NGX_OK) then mret (false, conf) else
  ok ← new_object;
  mret (ok, conf).

(** ** Keys *)

(** An array with one key, read from a file.  The results of [ngx_array_create]
    and [ngx_pnalloc] are not tested: writing through a NULL pointer is
    undefined.  [None] is an error of the reader. *)
Definition read_key (load : option (list Z) -> list Z -> Z -> outcome load_result) (name : list Z)
    : M W (option key_array) := fun w =>
  let '(ok, w) := pool_object w in
  if negb ok then Undefined else
  let '(data, w) := pool_bytes NOISE_PROTOCOL_CURVE25519_KEY_LEN w in
  match load (fopen name) (default [] data) NOISE_PROTOCOL_CURVE25519_KEY_LEN with
  | Done r =>
      Done (if lr_rc r =? NGX_OK
            then Some (KeyArray (le64 NOISE_PROTOCOL_CURVE25519_KEY_LEN ++ behind w) [lr_key r])
            else None, w)
  | Undefined => Undefined
  | OutOfFuel => OutOfFuel
  end.

Definition on_world {A} (m : M W A) : SM A := fun s =>
  match m (sw (s_io s)) with
  | Done (a, w) => Done (a, s <| s_io := (s_io s) <| sw := w |> |>)
  | Undefined => Undefined
  | OutOfFuel => OutOfFuel
  end.

Definition noise_of : SM noise_t := n ← gets (fun s => ns_noise (s_srv s)); mderef n.
Definition set_noise (n : noise_t) : SM unit :=
  modify (fun s => s <| s_srv := (s_srv s) <| ns_noise := Some n |> |>).
Definition set_ctx (x : noise_ctx) : SM unit :=
  n ← noise_of; set_noise (n <| n_ctx := Some x |>).

(** ** Starting the handshake *)

(** The handshake reads and writes the prologue of the settings. *)
Definition ngx_nsoc_noiseserver_init_connection (fuel : nat) : SM Z :=
  noise ← noise_of;
  st ← gets s_io;
  '(rc, session') ← on_world (ngx_nsoc_create_connection noise (sc st) 0 (ss st));
  modify (fun s => s <| s_io := (s_io s) <| ss := session' |> <| sp := n_prologue noise |> |>);;
  if rc =? NGX_ERROR then mret NGX_ERROR else
  rc ← on_io (ngx_nsoc_handshake fuel);
  p ← gets (fun s => sp (s_io s));
  set_noise (noise <| n_prologue := p |>);;
  if rc =? NGX_ERROR then mret NGX_ERROR
  else if rc =? NGX_AGAIN then mret NGX_AGAIN
  else mret NGX_OK.

(** A key is loaded once; [none] is whether a missing file name is an error.  The
    value says that the handler fails. *)
Definition load_key_once (keys : noise_ctx -> option key_array)
    (set_keys : key_array -> noise_ctx -> noise_ctx) (none : bool)
    (load : option (list Z) -> list Z -> Z -> outcome load_result) (name : list Z) : SM bool :=
  noise ← noise_of;
  x ← mderef (n_ctx noise);
  match keys x, name with
  | Some _, _ => mret false
  | None, [] => mret none
  | None, _ =>
      k ← on_world (read_key load name);
      match k with
      | None => mret true
      | Some k => set_ctx (set_keys k x);; mret false
      end
  end.

Definition ngx_nsoc_noiseserver_handler (fuel : nat) : SM Z :=
  s ← gets id;
  if negb (noise_on (ss (s_io s))) then mret NGX_OK else
  failed ← load_key_once private_keys (fun k x => x <| private_keys := Some k |>) true
             ngx_noise_protocol_load_private_key (str_text (server_private_key_file (s_srv s)));
  if (failed : bool) then mret NGX_ERROR else
  failed ← load_key_once public_keys (fun k x => x <| public_keys := Some k |>) false
             ngx_noise_protocol_load_public_key (str_text (client_public_key_file (s_srv s)));
  if (failed : bool) then mret NGX_ERROR else
  s ← gets id;
  match server_noise_connection (ss (s_io s)) with
  | Some _ => mret NGX_OK
  | None =>
      rv ← ngx_nsoc_noiseserver_init_connection fuel;
      if negb (rv =? NGX_OK) then mret rv else mret NGX_OK
  end.

(** ** The end of the handshake *)

(** [run] is [ngx_nsoc_core_run_phases]. *)
Definition ngx_nsoc_noiseserver_handshake_handler (log_handlers : list (handler_pt HS CS W))
    (run : SM unit) : SM unit :=
  s ← gets id;
  nc ← mderef (server_noise_connection (ss (s_io s)));
  if negb (handshaked nc) then ngx_nsoc_finalize_session log_handlers NGX_NSOC_INTERNAL_SERVER_ERROR
  else
    del_preread_timer;;
    st ← gets s_io;
    let '(r, e, w) := os_handle_read (read (sc st)) (sw st) in
    modify (fun s => s <| s_io := st <| sc := (sc st) <| read := e |> |> <| sw := w |> |>);;
    if negb (r =? NGX_OK) then mret tt else run.

(** [ngx_nsoc_noiseserver_init]: the handler is registered in the protect phase. *)
Definition ngx_nsoc_noiseserver_init (fuel : nat) (phases : list (list (handler_pt HS CS W))) (w : W)
    : Z * list (list (handler_pt HS CS W)) * W :=
  let '(ok, w) := pool_object w in
  if negb ok then (NGX_ERROR, phases, w)
  else (NGX_OK, alter (fun hs => hs ++ [ngx_nsoc_noiseserver_handler fuel]) NGX_NSOC_PROTECT_PHASE phases, w).

(** ** The settings of a proxied upstream: ngx_nsoc_proxy_set_noiselink *)

(** Identifiers of noise-c. *)
Record noise_ids := NoiseIds { CIPHER_AESGCM : Z; DH_CURVE25519 : Z; HASH_BLAKE2b : Z; PATTERN_XX : Z }.

Record proxy_noise_conf := ProxyNoiseConf {
  p_noise : option noise_t;
  p_buffer_size : Z;
  p_connect_timeout : Z;
  client_private_key_file : conf_str;
  server_public_key_file : conf_str;
}.
#[export] Instance eta_proxy_noise_conf : Eta proxy_noise_conf := fun r =>
  ProxyNoiseConf (p_noise r) (p_buffer_size r) (p_connect_timeout r) (client_private_key_file r)
    (server_public_key_file r).

Definition link_prologue (ids : noise_ids) : prologue_data :=
  let low x := u8 (Z.land x 0x0F) in
  PrologueData prologue_text (swapw NGX_NSOC_1MSG_NEG_DATA_SIZE)
    (FirstHdr NGX_NSOC_VERSION_ID (low (DH_CURVE25519 ids)) (low (CIPHER_AESGCM ids))
       (low (HASH_BLAKE2b ids)) (low (PATTERN_XX ids))).

Definition ngx_nsoc_proxy_set_noiselink (ids : noise_ids) (pscf : proxy_noise_conf)
    : M W (Z * proxy_noise_conf) :=
  ok ← new_object;
  if negb ok then mret (NGX_ERROR, pscf <| p_noise := None |>) else
  let blank := NoiseT None (PrologueData (replicate 16 0) 0 (FirstHdr 0 0 0 0 0)) 0 0 in
  '(rc, noise) ← ngx_nsoc_create blank (p_buffer_size pscf);
  let pscf := pscf <| p_noise := Some noise |> in
  if negb (rc =? NGX_OK) then mret (NGX_ERROR, pscf) else
  ok ← new_object;
  if negb ok then mret (NGX_ERROR, pscf) else
  match str_text (client_private_key_file pscf) with
  | [] => mret (NGX_ERROR, pscf)
  | private_file =>
      x ← mderef (n_ctx noise);
      r ← (match str_text (server_public_key_file pscf) with
           | [] => mret (Some x)
           | name =>
               k ← read_key ngx_noise_protocol_load_public_key name;
               mret ((fun k => x <| public_keys := Some k |>) <$> k)
           end);
      match r with
      | None => mret (NGX_ERROR, pscf)
      | Some x =>
          let noise := noise <| n_ctx := Some x |> in
          k ← read_key ngx_noise_protocol_load_private_key private_file;
          match k with
          | None => mret (NGX_ERROR, pscf <| p_noise := Some noise |>)
          | Some k =>
              mret (NGX_OK, pscf <| p_noise := Some
                (noise <| n_ctx := Some (x <| private_keys := Some k |>) |>
                       <| n_handshake_timeout := p_connect_timeout pscf |>
                       <| n_prologue := link_prologue ids |>) |>)
          end
      end
  end.
End NoiseServer.

(** ** What the protect phase promises *)

Section Protect.
Context {HS CS W : Type} {NL : NoiseLib HS CS} {OS : NgxOs W} {PO : NgxPool W} {NLaw : NoiseLaws HS CS}.
Context (fopen : list Z -> option (list Z)) (behind : W -> list Z).
Implicit Types s : session HS CS W.

(** The client's connection is encrypted. *)
Definition protected s : Prop :=
  exists x, server_noise_connection (ss (s_io s)) = Some x /\ handshaked x = true /\
    io (sc (s_io s)) = NsocIo /\
    is_Some (NoiseSendCipherObj (noise_connection x)) /\ is_Some (NoiseRecvCipherObj (noise_connection x)).

(** A session whose handshake has not begun. *)
Definition fresh s : Prop :=
  noise_on (ss (s_io s)) = true /\ client_noise_connection (ss (s_io s)) = None /\
  server_noise_connection (ss (s_io s)) = None.

Lemma on_world_wlp {A} (m : M W A) s (Q : A -> session HS CS W -> Prop) :
  (forall a w, Q a (s <| s_io := (s_io s) <| sw := w |> |>)) -> wlp (on_world m) Q s.
Proof. intros HQ. unfold wlp, on_world. by destruct (m _) as [[a w]| |]. Qed.

Lemma create_connection_wlp noise c0 x0 w (Q : Z * nsoc_session HS CS -> W -> Prop) :
  (forall w', Q (NGX_ERROR, x0) w') ->
  (forall w', Q (NGX_OK, x0 <| server_noise_connection := Some (new_nconn noise (c_id c0) 0 SERVER_ROLE) |>) w') ->
  wlp (ngx_nsoc_create_connection noise c0 0 x0) Q w.
Proof.
  intros H1 H2. unfold wlp, ngx_nsoc_create_connection. destruct (pool_object w) as [[|] w1]; [|apply H1].
  destruct (pool_object w1) as [[|] w2]; [apply H2|apply H1].
Qed.

Lemma init_connection_protects fuel s :
  fresh s ->
  wlp (ngx_nsoc_noiseserver_init_connection fuel) (fun r s' =>
    r = NGX_OK -> protected s' \/ exists r, @write_error HS CS NL r) s.
Proof.
  intros (Hon & Hcl & Hsv). unfold ngx_nsoc_noiseserver_init_connection, noise_of.
  wlp_step. wlp_step. wlp_step. wlp_step. wlp_step. wlp_step. wlp_step.
  unfold wlp at 1, on_world. pose proof (create_connection_wlp a (sc (s_io s)) (ss (s_io s)) (sw (s_io s))
    (fun r _ => r = (NGX_ERROR, ss (s_io s)) \/ r = (NGX_OK, (ss (s_io s)) <| server_noise_connection :=
       Some (new_nconn a (c_id (sc (s_io s))) 0 SERVER_ROLE) |>))) as Hcr.
  unfold wlp in Hcr. destruct (ngx_nsoc_create_connection _ _ _ _ _) as [[r w]| |]; [|done|done].
  specialize (Hcr ltac:(auto) ltac:(auto)). destruct Hcr as [-> | ->]; cbv beta iota.
  { do 2 wlp_step. zlit. by wlp_step. }
  do 2 wlp_step. zlit. wlp_step. set (x := new_nconn a _ 0 SERVER_ROLE) in *.
  match goal with |- wlp _ _ ?s1 => set (st := s_io s1) end.
  assert (Hat : at_side ServerSide x st).
  { split; [|done]. subst st x. unfold find_nc. cbn. rewrite Hcl. by rewrite Z.eqb_refl. }
  unfold wlp, on_io. fold st.
  destruct (ngx_nsoc_do_handshake_process fuel (view x st)) as [[rc h1]| |] eqn:Hrun.
  2:{ destruct Hat as [Hf Hn]. unfold ngx_nsoc_handshake, with_nc. rewrite Hf, Hn. unfold view in Hrun. by rewrite Hrun. }
  2:{ destruct Hat as [Hf Hn]. unfold ngx_nsoc_handshake, with_nc. rewrite Hf, Hn. unfold view in Hrun. by rewrite Hrun. }
  unfold ngx_nsoc_handshake. rewrite (with_nc_done _ _ _ _ _ _ _ Hat Hrun).
  pose proof (wlp_inv _ _ _ _ _ (do_handshake_code fuel (view x st)) Hrun) as Hcode.
  pose proof (wlp_inv _ _ _ _ _ (handshake_codes fuel (view x st) (fun _ => or_introl eq_refl)) Hrun) as Hest.
  cbv beta in Hcode, Hest. destruct Hcode as [Hcode|Hw].
  2:{ unfold gets, mbind, M_bind, set_noise, modify. cbn.
      destruct (rc =? NGX_ERROR); [done|]. destruct (rc =? NGX_AGAIN); [done|]. intros _. right. by exists rc. }
  unfold gets, mbind, M_bind, set_noise, modify, mret, M_ret. cbn.
  destruct Hcode as [-> | [-> | ->]]; zlit; [|done..]. intros _. left.
  destruct (Hest eq_refl) as (_ & Hd & Hi & Hs & Hr & _). by exists (nc h1).
Qed.

(** Loading keys leaves the session's connections alone. *)
Lemma load_key_once_wlp keys set_keys none load name s (Q : bool -> session HS CS W -> Prop) :
  (forall b s', ss (s_io s') = ss (s_io s) -> sc (s_io s') = sc (s_io s) -> Q b s') ->
  wlp (load_key_once fopen behind keys set_keys none load name) Q s.
Proof.
  intros HQ. unfold load_key_once, set_ctx, set_noise, noise_of. do 6 wlp_step.
  destruct (keys _); [wlp_step; by apply HQ|]. destruct name; [wlp_step; by apply HQ|].
  wlp_step. apply on_world_wlp. intros [k|] w; repeat wlp_step; by apply HQ.
Qed.

(** A session whose client connection is encrypted passes. *)
Lemma handler_passes fuel s :
  protected s -> wlp (ngx_nsoc_noiseserver_handler fopen behind fuel) (fun r s' => r = NGX_OK -> protected s') s.
Proof.
  intros (x & Hx & Hrest). unfold ngx_nsoc_noiseserver_handler. wlp_step. wlp_step. wlp_step; [wlp_step; intros _; by exists x|].
  wlp_step. apply load_key_once_wlp. intros b s1 H1 C1. wlp_step; [by wlp_step|].
  wlp_step. apply load_key_once_wlp. intros b2 s2 H2 C2. wlp_step; [by wlp_step|]. do 2 wlp_step.
  unfold id. rewrite H2, H1, Hx. wlp_step. intros _. exists x. by rewrite H2, H1, C2, C1.
Qed.

(** The codes of the handler: it never declines. *)
Lemma handler_codes fuel s : wlp (ngx_nsoc_noiseserver_handler fopen behind fuel) (fun r _ => r <> NGX_DECLINED) s.
Proof.
  unfold ngx_nsoc_noiseserver_handler. wlp_step. wlp_step. wlp_step; [by wlp_step|]. wlp_step. apply wlp_any. intros b s1.
  wlp_step; [by wlp_step|]. wlp_step. apply wlp_any. intros b2 s2. wlp_step; [by wlp_step|]. do 2 wlp_step.
  wlp_step; [by wlp_step|]. wlp_step.
  assert (Hi : wlp (ngx_nsoc_noiseserver_init_connection fuel) (fun r _ => r <> NGX_DECLINED) s2).
  { unfold ngx_nsoc_noiseserver_init_connection. wlp_step. apply wlp_any. intros n s3. do 3 wlp_step. apply wlp_any.
    intros [rc x] s4. do 2 wlp_step. wlp_step; [by wlp_step|]. wlp_step. apply wlp_any. intros rc2 s5. do 3 wlp_step.
    apply wlp_any. intros [] s6. repeat wlp_step; done. }
  eapply wlp_mono; [exact Hi|]. intros rv s3 Hrv. by repeat wlp_step.
Qed.

(** The handler's promise, in its liberal form. *)
Lemma handler_protects fuel s :
  fresh s -> wlp (ngx_nsoc_noiseserver_handler fopen behind fuel) (fun r s' =>
    r = NGX_OK -> protected s' \/ exists r, @write_error HS CS NL r) s.
Proof.
  intros (Hon & Hcl & Hsv). unfold ngx_nsoc_noiseserver_handler. wlp_step. wlp_step.
  unfold id. rewrite Hon. cbn [negb]. wlp_step. apply load_key_once_wlp. intros b s1 H1 _.
  wlp_step; [by wlp_step|]. wlp_step. apply load_key_once_wlp. intros b2 s2 H2 _.
  wlp_step; [by wlp_step|]. wlp_step. wlp_step. rewrite H2, H1, Hsv. wlp_step.
  eapply wlp_mono; [apply init_connection_protects; unfold fresh; by rewrite H2, H1|].
  intros rv s3 Hrv. destruct (Z.eqb_spec rv NGX_OK) as [->|Hne]; cbn [negb]; wlp_step; [|done].
  intros _. by apply Hrv.
Qed.


(** C36: the static key of the server never reaches the library: what
    [ngx_noise_protocol_init_handshake] passes as the private key are the first
    bytes of the array's element structure, that is the number 32 (the length
    field of the [ngx_str_t]) and 24 bytes of the pointer and of the memory behind
    the array, whatever the key file says. *)
Theorem static_key_is_array_header loader name w k w' h public
    (Hread : read_key fopen behind loader name w = Done (Some k, w'))
    (Hneeds : hs_needs_local_keypair h = true) (Hlen : hs_local_private_len h = 32)
    (Hremote : forall key, hs_needs_remote_public (hs_set_local_private h key).2 = false)
    (Hbehind : 24 <= zlen (behind w')) :
  let '(err, h') := hs_set_local_private h ([32; 0; 0; 0; 0; 0; 0; 0] ++ ztake 24 (behind w')) in
  set_static_keys (Some (NoiseCtx (Some k) public)) h =
  Done (if err =? NOISE_ERROR_NONE then NGX_OK else NGX_ERROR, h').
Proof.
  assert (Hk : ka_elts k = [32; 0; 0; 0; 0; 0; 0; 0] ++ behind w').
  { unfold read_key in Hread. destruct (pool_object w) as [[|] w1]; [|done].
    destruct (pool_bytes _ w1) as [data w2]. destruct (loader _ _ _) as [r| |]; [|done|done].
    destruct (lr_rc r =? NGX_OK); [|done]. by injection Hread as <- <-. }
  set (key := [32; 0; 0; 0; 0; 0; 0; 0] ++ ztake 24 (behind w')).
  assert (Hl : load 0 32 (ka_elts k) = Some key).
  { rewrite Hk. apply load_Some. split_and!; [done|done| |done]. rewrite zlen_app.
    change (zlen [32; 0; 0; 0; 0; 0; 0; 0]) with 8. lia. }
  unfold set_static_keys. rewrite Hneeds, Hlen. cbn [deref private_keys mbind outcome_bind]. rewrite Hl. cbn [deref mbind outcome_bind].
  specialize (Hremote key). destruct (hs_set_local_private h key) as [err h']. cbn in Hremote |- *.
  destruct (err =? NOISE_ERROR_NONE); cbn; [|done]. by rewrite Hremote.
Qed.
End Protect.

(** ** Runs *)

(** A raw key file of 32 bytes and nothing else. *)
Definition demo_fopen (name : list Z) : option (list Z) :=
  if decide (name = [107]) then Some (replicate 32 5) else None.
Definition demo_behind (w : net) : list Z := replicate 24 9.

Definition demo_srv_conf : noiseserver_conf := NoiseserverConf 60000 (Some [107]) (Some []) (Some
  (NoiseT (Some (NoiseCtx None None)) demo_prologue NOISE_PROTOCOL_PAYLOAD_SIZE 60000)).

Definition noise_session (script : list chunk) : demo_session_t :=
  let s := demo_session script in
  s <| s_srv := demo_srv_conf |>
    <| s_io := (s_io s) <| ss := NsocSession None None true |> |>.

Abbreviation demo_handler := (ngx_nsoc_noiseserver_handler demo_fopen demo_behind 20).

(** The whole table: the Noise handler alone in its phase. *)
Definition noise_table (h : handler_pt toy_hs Z net) : list (phase_entry toy_hs Z net) :=
  fill_phases 0 [[]; []; []; [h]; []; []; []] 0 ++ [null_entry].

(** Both client messages in time: the handshake ends and the content handler runs. *)
Example noise_session_runs :
  match demo_handler (noise_session [Data client_hello; Data client_final]) with
  | Done (rc, s) => rc = NGX_AGAIN /\
      match on_io (ngx_nsoc_handshake 20) s with
      | Done (rc, s) => rc = NGX_OK /\
          match ngx_nsoc_noiseserver_handshake_handler []
                  (ngx_nsoc_core_run_phases demo_conf [] (fun w => (true, w)) 5 5 (noise_table demo_handler)) s with
          | Done (_, s) => s_received s = 77 /\ io (sc (s_io s)) = NsocIo
          | _ => False
          end
      | _ => False
      end
  | _ => False
  end.
Proof. by vm_compute. Qed.

(** A library with a pattern of two messages, and one that cannot write.  Both
    are the library of [Net] otherwise. *)
Definition pair_action (h : toy_hs) : Z :=
  match toy_step h with
  | 0%nat => if toy_initiator h then 1 else 2
  | 1%nat => if toy_initiator h then 2 else 1
  | _ => 3
  end.

Definition lib_with (action : toy_hs -> Z) (wr : toy_hs -> Z -> Z * list Z * toy_hs) : NoiseLib toy_hs Z := {|
  noise_init := noise_init;
  NOISE_ROLE_INITIATOR := NOISE_ROLE_INITIATOR;
  NOISE_ROLE_RESPONDER := NOISE_ROLE_RESPONDER;
  NOISE_ACTION_WRITE_MESSAGE := 1;
  NOISE_ACTION_READ_MESSAGE := 2;
  NOISE_ACTION_SPLIT := 3;
  NOISE_PREFIX_STANDARD := NOISE_PREFIX_STANDARD;
  hs_new_by_id := hs_new_by_id;
  hs_set_prologue := hs_set_prologue;
  hs_needs_local_keypair := hs_needs_local_keypair;
  hs_set_local_private := hs_set_local_private;
  hs_local_private_len := hs_local_private_len;
  hs_needs_remote_public := hs_needs_remote_public;
  hs_set_remote_public := hs_set_remote_public;
  hs_remote_public_len := hs_remote_public_len;
  hs_start := hs_start;
  hs_action := action;
  hs_write_message := wr;
  hs_read_message := hs_read_message;
  hs_split := hs_split;
  hs_free := hs_free;
  cs_encrypt := cs_encrypt;
  cs_decrypt := cs_decrypt;
|}.

Definition pair_lib : NoiseLib toy_hs Z := lib_with pair_action hs_write_message.
Definition mute_lib : NoiseLib toy_hs Z := lib_with toy_action (fun h _ => (NOISE_ID 69 1, [], h)).

Lemma pair_laws : @NoiseLaws toy_hs Z pair_lib.
Proof. destruct toy_laws. by split. Qed.

Lemma mute_laws : @NoiseLaws toy_hs Z mute_lib.
Proof. destruct toy_laws. by split. Qed.

Abbreviation pair_handler := (@ngx_nsoc_noiseserver_handler _ _ _ pair_lib _ _ demo_fopen demo_behind 20).

Definition pair_end : demo_session_t :=
  Eval vm_compute in
    match pair_handler (noise_session [Data client_hello]) with Done (_, s) => s | _ => noise_session [] end.

Lemma pair_run : pair_handler (noise_session [Data client_hello]) = Done (NGX_OK, pair_end).
Proof. by vm_compute. Qed.


Definition demo_key : key_array :=
  KeyArray ([32; 0; 0; 0; 0; 0; 0; 0] ++ replicate 24 9) [replicate 32 5].

Lemma demo_key_read :
  read_key demo_fopen demo_behind ngx_noise_protocol_load_private_key [107] (Net [] [] []) =
  Done (Some demo_key, Net [] [] []).
Proof. by vm_compute. Qed.

Lemma static_key_is_array_header_witness :
  set_static_keys (Some (NoiseCtx (Some demo_key) None)) (ToyHs false 0 []) = Done (NGX_OK, ToyHs false 0 []).
Proof.
  exact (static_key_is_array_header demo_fopen demo_behind ngx_noise_protocol_load_private_key [107]
           (Net [] [] []) demo_key (Net [] [] []) (ToyHs false 0 []) None demo_key_read eq_refl eq_refl
           (fun _ => eq_refl) (Z.le_refl 24)).
Defined.

