(* ===== verification/Ports.v ===== *)
(** * Ports and addresses: ngx_nsoc.c and the start of a session

    The configuration gathers the [listen] directives by port
    ([ngx_nsoc_add_ports]), turns each port into as few listening sockets as
    possible ([ngx_nsoc_optimize_servers]), and gives each socket the table of the
    addresses it answers for; [ngx_nsoc_init_connection] looks the local address
    of an accepted connection up in that table.

    [C] is the server context a directive belongs to.  [ngx_sort] and the
    creation of listening sockets belong to nginx core. *)

From stdpp Require Import prelude list numbers sorting.
From S2P Require Import Prelude NoiseConn Net HsRead Record Handshake Session.

(** The address part of a [sockaddr]: [s_addr], the sixteen bytes of an IPv6
    address, or a path. *)
Inductive inet_addr := In4 (a : Z) | In6 (a : list Z) | Unix (path : list Z).

#[export] Instance inet_addr_eq_dec : EqDecision inet_addr.
Proof. solve_decision. Defined.

Inductive family := AF_INET | AF_INET6 | AF_UNIX.
#[export] Instance family_eq_dec : EqDecision family.
Proof. solve_decision. Defined.

Definition sa_family (a : inet_addr) : family := match a with In4 _ => AF_INET | In6 _ => AF_INET6 | Unix _ => AF_UNIX end.

(** The socket options of [ngx_nsoc_listen_t], carried along together. *)
Record sock_options := SockOptions {
  o_ipv6only : bool;
  o_reuseport : bool;
  o_so_keepalive : Z;
  o_keepidle : Z;
  o_keepintvl : Z;
  o_keepcnt : Z;
  o_backlog : Z;
}.
#[export] Instance eta_sock_options : Eta sock_options := fun r =>
  SockOptions (o_ipv6only r) (o_reuseport r) (o_so_keepalive r) (o_keepidle r) (o_keepintvl r) (o_keepcnt r) (o_backlog r).

Definition no_options : sock_options := SockOptions false false 0 0 0 0 0.

(** [ngx_nsoc_listen_t] *)
Record listen_opt (C : Type) := ListenOpt {
  l_addr : inet_addr;
  l_port : Z;
  l_type : Z;
  l_ctx : C;
  l_bind : bool;
  l_wildcard : bool;
  l_noise_on : bool;
  l_proxy_protocol : bool;
  l_options : sock_options;
}.
Arguments ListenOpt {C}.
Arguments l_addr {C}.
Arguments l_port {C}.
Arguments l_type {C}.
Arguments l_ctx {C}.
Arguments l_bind {C}.
Arguments l_wildcard {C}.
Arguments l_noise_on {C}.
Arguments l_proxy_protocol {C}.
Arguments l_options {C}.
#[export] Instance eta_listen_opt C : Eta (listen_opt C) := fun r =>
  ListenOpt (l_addr r) (l_port r) (l_type r) (l_ctx r) (l_bind r) (l_wildcard r) (l_noise_on r)
    (l_proxy_protocol r) (l_options r).

(** [ngx_nsoc_conf_port_t] *)
Record conf_port (C : Type) := ConfPort {
  cp_family : family;
  cp_type : Z;
  cp_port : Z;
  cp_addrs : list (listen_opt C);
}.
Arguments ConfPort {C}.
Arguments cp_family {C}.
Arguments cp_type {C}.
Arguments cp_port {C}.
Arguments cp_addrs {C}.
#[export] Instance eta_conf_port C : Eta (conf_port C) := fun r =>
  ConfPort (cp_family r) (cp_type r) (cp_port r) (cp_addrs r).

(** [ngx_nsoc_addr_conf_t] without the text of the address, which only the log
    shows, and [ngx_nsoc_in_addr_t] or [ngx_nsoc_in6_addr_t]. *)
Record addr_conf (C : Type) := AddrConf { ac_ctx : C; ac_noise_on : bool }.
Arguments AddrConf {C}.
Arguments ac_ctx {C}.
Arguments ac_noise_on {C}.

Definition in_addr (C : Type) : Type := (inet_addr * addr_conf C)%type.

(** [ngx_listening_t] as far as it is set here; [ls_servers] is the
    [ngx_nsoc_port_t]: its addresses, [naddrs] of them. *)
Record listening (C : Type) := Listening {
  ls_addr : inet_addr;
  ls_type : Z;
  ls_log_ctx : C;
  ls_wildcard : bool;
  ls_options : sock_options;
  ls_servers : list (in_addr C);
}.
Arguments Listening {C}.
Arguments ls_addr {C}.
Arguments ls_type {C}.
Arguments ls_log_ctx {C}.
Arguments ls_wildcard {C}.
Arguments ls_options {C}.
Arguments ls_servers {C}.

Section Ports.
Context {C : Type} {W : Type} {PO : NgxPool W}.

(** ** Gathering the ports *)

Definition same_port (l : listen_opt C) (p : conf_port C) : bool :=
  (l_port l =? cp_port p) && (l_type l =? cp_type p) &&
  bool_decide (sa_family (l_addr l) = cp_family p).

(** The search for the port and the push to its addresses; [None] when there is
    no such port. *)
Fixpoint push_addr (l : listen_opt C) (ports : list (conf_port C)) : option (list (conf_port C)) :=
  match ports with
  | [] => None
  | p :: ports =>
      if same_port l p then Some (p <| cp_addrs := cp_addrs p ++ [l] |> :: ports)
      else (fun ps => p :: ps) <$> push_addr l ports
  end.

(** Each [ngx_array_push] and [ngx_array_init] can fail; a port that was pushed
    stays. *)
Definition ngx_nsoc_add_ports (ports : list (conf_port C)) (l : listen_opt C) (w : W)
    : Z * list (conf_port C) * W :=
  match push_addr l ports with
  | Some ports' =>
      let '(ok, w) := pool_object w in
      if (ok : bool) then (NGX_OK, ports', w) else (NGX_ERROR, ports, w)
  | None =>
      let '(ok, w) := pool_object w in
      if negb ok then (NGX_ERROR, ports, w) else
      let blank := ConfPort (sa_family (l_addr l)) (l_type l) (l_port l) [] in
      let '(ok, w) := pool_object w in
      if negb ok then (NGX_ERROR, ports ++ [blank], w) else
      let '(ok, w) := pool_object w in
      if negb ok then (NGX_ERROR, ports ++ [blank], w)
      else (NGX_OK, ports ++ [blank <| cp_addrs := [l] |>], w)
  end.

(** ** Listening sockets *)

Definition ngx_nsoc_cmp_conf_addrs (first second : listen_opt C) : Z :=
  if l_wildcard first then 1
  else if l_wildcard second then -1
  else if l_bind first && negb (l_bind second) then -1
  else if negb (l_bind first) && l_bind second then 1
  else 0.

(** The table of a socket: the first [n] addresses.  Each entry's text is
    allocated. *)
Fixpoint add_addr_entries (addrs : list (listen_opt C)) (w : W) : option (list (in_addr C)) * W :=
  match addrs with
  | [] => (Some [], w)
  | a :: addrs =>
      let '(ok, w) := pool_object w in
      if negb ok then (None, w) else
      let '(rest, w) := add_addr_entries addrs w in
      ((fun r => (l_addr a, AddrConf (l_ctx a) (l_noise_on a)) :: r) <$> rest, w)
  end.

(** [ngx_nsoc_add_addrs] for IPv4 and [ngx_nsoc_add_addrs6] for IPv6 do the same
    on their own structures.  The table of a path is filled by the former; it has one
    entry, which is not searched. *)
Definition ngx_nsoc_add_addrs (naddrs : nat) (addr : list (listen_opt C)) (w : W)
    : option (list (in_addr C)) * W :=
  let '(ok, w) := pool_object w in
  if negb ok then (None, w) else add_addr_entries (take naddrs addr) w.

Definition ngx_nsoc_add_addrs6 := ngx_nsoc_add_addrs.

(** One socket, for [addr[i]]; [None] is NGX_CONF_ERROR. *)
Definition create_listening (addr : list (listen_opt C)) (i : nat) (w : W)
    : option (listening C) * W :=
  match addr, addr !! i with
  | a0 :: _, Some a =>
      let '(ok, w) := pool_object w in
      if negb ok then (None, w) else
      let '(ok, w) := pool_object w in
      if negb ok then (None, w) else
      let '(servers, w) := match sa_family (l_addr a) with
                           | AF_INET6 => ngx_nsoc_add_addrs6 (S i) addr w
                           | _ => ngx_nsoc_add_addrs (S i) addr w
                           end in
      match servers with
      | None => (None, w)
      | Some t =>
          let '(ok, w) := pool_object w in
          if negb ok then (None, w)
          else (Some (Listening (l_addr a) (l_type a) (l_ctx a0) (l_wildcard a) (l_options a) t), w)
      end
  | _, _ => (None, w)
  end.

(** [while (i < last)], with [addr] the part of the array from the pointer [addr]
    on; [last] is its length. *)
Fixpoint optimize_loop (fuel : nat) (bind_wildcard : bool) (addr : list (listen_opt C)) (i : nat) (w : W)
    : option (list (listening C)) * W :=
  match fuel with
  | O => (None, w)
  | S fuel =>
      match addr !! i with
      | None => (Some [], w)
      | Some a =>
          if bind_wildcard && negb (l_bind a) then optimize_loop fuel bind_wildcard addr (S i) w
          else
            let '(ls, w) := create_listening addr i w in
            match ls with
            | None => (None, w)
            | Some ls =>
                let '(rest, w) := optimize_loop fuel bind_wildcard (tail addr) i w in
                ((fun r => ls :: r) <$> rest, w)
            end
      end
  end.

(** The wildcard, if there is one, is last: it is bound. *)
Definition bind_last (addr : list (listen_opt C)) : bool * list (listen_opt C) :=
  match List.rev addr with
  | a :: front =>
      if l_wildcard a then (true, List.rev front ++ [a <| l_bind := true |>]) else (false, addr)
  | [] => (false, addr)
  end.

Context (ngx_sort : (listen_opt C -> listen_opt C -> Z) -> list (listen_opt C) -> list (listen_opt C)).

Definition optimize_port (p : conf_port C) (w : W) : option (list (listening C)) * W :=
  let '(bw, addr) := bind_last (ngx_sort ngx_nsoc_cmp_conf_addrs (cp_addrs p)) in
  optimize_loop (S (2 * length addr)) bw addr 0 w.

(** The sockets of all ports; [None] is NGX_CONF_ERROR. *)
Fixpoint ngx_nsoc_optimize_servers (ports : list (conf_port C)) (w : W) : option (list (listening C)) * W :=
  match ports with
  | [] => (Some [], w)
  | p :: ports =>
      let '(ls, w) := optimize_port p w in
      match ls with
      | None => (None, w)
      | Some ls =>
          let '(rest, w) := ngx_nsoc_optimize_servers ports w in
          ((fun r => ls ++ r) <$> rest, w)
      end
  end.

(** ** Accepting a connection *)

(** The loop over the addresses but the last, which is "*". *)
Fixpoint search_addr (addrs : list (in_addr C)) (local : inet_addr) : option (addr_conf C) :=
  match addrs with
  | [] => None
  | [(_, conf)] => Some conf
  | (a, conf) :: addrs => if bool_decide (a = local) then Some conf else search_addr addrs local
  end.

(** The server's settings for a connection accepted on [servers]: with more than
    one address the local one is compared. *)
Definition find_addr_conf (servers : list (in_addr C)) (local : inet_addr) : option (addr_conf C) :=
  if (1 <? length servers)%nat then search_addr servers local else snd <$> head servers.

(** ** The start of a session *)

Context {HS CS : Type}.

(** [local] is the address of this end, which [ngx_connection_local_sockaddr]
    finds when the port has several; [srv_of] follows [ctx->srv_conf].  When a
    step fails before [c->data] is set, [ngx_nsoc_close_connection] follows a NULL
    pointer.  The value is the session, after its phases have run when the event
    is not posted. *)
Definition ngx_nsoc_init_connection (srv_of : C -> noiseserver_conf) (getsockname : W -> bool * W)
    (accept_mutex : bool) (servers : list (in_addr C)) (x : conn) (local : inet_addr)
    (buf0 : option nbuf) (sock_stream : bool) (session_handler : M (session HS CS W) unit) (w : W)
    : outcome (session HS CS W) :=
  let '(ok, w) := if (1 <? length servers)%nat then getsockname w else (true, w) in
  if negb ok then Undefined else
  conf ← deref (find_addr_conf servers local);
  let '(ok, w) := pool_object w in
  if negb ok then Undefined else
  let srv := srv_of (ac_ctx conf) in
  let pro := match ns_noise srv with
             | Some n => n_prologue n
             | None => PrologueData [] 0 (FirstHdr 0 0 0 0 0)
             end in
  let received := match buf0 with Some b => b_last b - b_pos b | None => 0 end in
  let start w := Session (Sess x (NsocSession None None (ac_noise_on conf)) pro w) srv 0 0 buf0 false
                   sock_stream false received false in
  let '(ok, w) := pool_object w in
  if negb ok then '(_, s) ← ngx_nsoc_close_connection (start w); Done s else
  let '(ok, w) := pool_object w in
  if negb ok then '(_, s) ← ngx_nsoc_close_connection (start w); Done s else
  let s := start w in
  let s := s <| s_io := (s_io s) <| sc := x <| read := (read x) <| handler := OtherHandler |> |> |> |> in
  if accept_mutex then Done s else '(_, s) ← session_handler s; Done s.
End Ports.

(** ** Every address reaches its own server *)

Section Dispatch.
Context {C W : Type} {PO : NgxPool W}.
Implicit Types a b : listen_opt C.

Definition conf_of a : addr_conf C := AddrConf (l_ctx a) (l_noise_on a).

(** Which directive is meant for a connection to [x]: the one for that address,
    else the wildcard. *)
Definition serves (x : inet_addr) a : bool := negb (l_wildcard a) && bool_decide (l_addr a = x).

Definition configured (addrs : list (listen_opt C)) (x : inet_addr) : option (listen_opt C) :=
  match List.find (serves x) addrs with
  | Some a => Some a
  | None => List.find l_wildcard addrs
  end.

(** Which socket the system gives a connection to [x] to: the one bound to the
    address, else the one bound to "*". *)
Definition accepts (lss : list (listening C)) (x : inet_addr) : option (listening C) :=
  match List.find (fun ls => negb (ls_wildcard ls) && bool_decide (ls_addr ls = x)) lss with
  | Some ls => Some ls
  | None => List.find ls_wildcard lss
  end.

(** The directives of a port name each address once; one of them may be the
    wildcard. *)
Record port_ok (addrs : list (listen_opt C)) : Prop := {
  ok_nodup : NoDup addrs;
  ok_wild a b : a ∈ addrs -> b ∈ addrs -> l_wildcard a = true -> l_wildcard b = true -> a = b;
  ok_addr x a b : a ∈ addrs -> b ∈ addrs -> serves x a = true -> serves x b = true -> a = b;
}.

Lemma find_perm {A} (f : A -> bool) (l l' : list A) :
  l ≡ₚ l' -> (forall a b : A, a ∈ l -> b ∈ l -> f a = true -> f b = true -> a = b) ->
  List.find f l = List.find f l'.
Proof.
  intros Hp Hu. destruct (List.find f l) as [a|] eqn:H1; destruct (List.find f l') as [b|] eqn:H2; [| | |done].
  - apply List.find_some in H1 as [H1 H1'], H2 as [H2 H2']. rewrite <- list_elem_of_In in H1, H2. f_equal.
    apply Hu; try done. by rewrite Hp.
  - apply List.find_some in H1 as [H1 H1']. rewrite (List.find_none _ _ H2) in H1'; [done|].
    apply list_elem_of_In. rewrite <- Hp. by apply list_elem_of_In.
  - apply List.find_some in H2 as [H2 H2']. rewrite (List.find_none _ _ H1) in H2'; [done|].
    apply list_elem_of_In. rewrite Hp. by apply list_elem_of_In.
Qed.

Definition in_order a b : Prop := ngx_nsoc_cmp_conf_addrs a b <= 0.

(** Sorting by [ngx_nsoc_cmp_conf_addrs] puts bound addresses first and the
    wildcard last. *)
Lemma sorted_shape l : StronglySorted in_order l ->
  exists bs ns ws, l = bs ++ ns ++ ws /\
    Forall (fun a => l_wildcard a = false /\ l_bind a = true) bs /\
    Forall (fun a => l_wildcard a = false /\ l_bind a = false) ns /\
    Forall (fun a => l_wildcard a = true) ws /\ (length ws <= 1)%nat.
Proof.
  induction 1 as [|a l Hs IH Ha]; [exists [], [], []; split_and!; first [done | by repeat constructor]|].
  destruct IH as (bs & ns & ws & -> & Hb & Hn & Hw & Hl).
  destruct (l_wildcard a) eqn:Hwa.
  - assert (Hnil : bs ++ ns ++ ws = []).
    { destruct (bs ++ ns ++ ws) as [|b r]; [done|]. apply Forall_cons_iff in Ha as [Ha _].
      unfold in_order, ngx_nsoc_cmp_conf_addrs in Ha. by rewrite Hwa in Ha. }
    rewrite Hnil. exists [], [], [a]. split_and!; first [done | by repeat constructor].
  - destruct (l_bind a) eqn:Hba.
    + exists (a :: bs), ns, ws. split_and!; first [done | by repeat constructor].
    + destruct bs as [|b bs].
      * exists [], (a :: ns), ws. split_and!; first [done | by repeat constructor].
      * apply Forall_cons_iff in Ha as [Ha _], Hb as [[Hwb Hbb] _].
        unfold in_order, ngx_nsoc_cmp_conf_addrs in Ha. by rewrite Hwa, Hwb, Hba, Hbb in Ha.
Qed.

(** ** The sockets of a port, with memory enough *)

Context (Hpool : forall w : W, (pool_object w).1 = true).

Definition entry a : in_addr C := (l_addr a, conf_of a).

Definition socket a (ctx : C) (table : list (listen_opt C)) : listening C :=
  Listening (l_addr a) (l_type a) ctx (l_wildcard a) (l_options a) (map entry table).

Lemma pool_ok w : exists w', pool_object w = (true, w').
Proof. pose proof (Hpool w). destruct (pool_object w) as [ok w']. exists w'. cbn in *. by subst. Qed.

Lemma add_entries_ok addrs : forall w, exists w', add_addr_entries addrs w = (Some (map entry addrs), w').
Proof.
  induction addrs as [|a addrs IH]; intros w; cbn [add_addr_entries map]; [eauto|].
  destruct (pool_ok w) as [w1 ->]. cbn [negb]. destruct (IH w1) as [w2 ->]. cbn. eauto.
Qed.

Lemma create_listening_ok a0 addr i a w :
  (a0 :: addr) !! i = Some a ->
  exists w', create_listening (a0 :: addr) i w = (Some (socket a (l_ctx a0) (take (S i) (a0 :: addr))), w').
Proof.
  intros Hi. unfold create_listening. rewrite Hi. destruct (pool_ok w) as [w1 ->]. cbn [negb].
  destruct (pool_ok w1) as [w2 ->]. cbn [negb].
  assert (Ht : exists w3, ngx_nsoc_add_addrs (S i) (a0 :: addr) w2 = (Some (map entry (take (S i) (a0 :: addr))), w3)).
  { unfold ngx_nsoc_add_addrs. destruct (pool_ok w2) as [w3 ->]. cbn [negb]. apply add_entries_ok. }
  destruct Ht as [w3 Ht]. unfold ngx_nsoc_add_addrs6.
  destruct (sa_family (l_addr a)); rewrite Ht; destruct (pool_ok w3) as [w4 ->]; cbn [negb]; eauto.
Qed.

(** Addresses that are bound each get a socket of their own. *)
Lemma loop_singles bw rest (Q : option (list (listening C)) -> Prop) n : forall bs fuel w,
  Forall (fun a => bw && negb (l_bind a) = false) bs -> (length bs + n <= fuel)%nat ->
  (forall fuel w, (n <= fuel)%nat -> exists r w', optimize_loop fuel bw rest 0 w = (r, w') /\ Q r) ->
  exists r w', optimize_loop fuel bw (bs ++ rest) 0 w =
    ((fun r => map (fun a => socket a (l_ctx a) [a]) bs ++ r) <$> r, w') /\ Q r.
Proof.
  induction bs as [|a bs IH]; intros fuel w Hb Hf Hrest; cbn [length app] in *.
  { destruct (Hrest fuel w ltac:(lia)) as (r & w' & -> & HQ). exists r, w'. split; [|done].
    by destruct r. }
  apply Forall_cons_iff in Hb as [Ha Hb]. destruct fuel as [|fuel]; [lia|]. cbn [optimize_loop lookup list_lookup].
  rewrite Ha. destruct (create_listening_ok a (bs ++ rest) 0 a w eq_refl) as [w1 ->].
  destruct (IH fuel w1 Hb ltac:(lia) Hrest) as (r & w' & Hr & HQ). cbn [tail]. rewrite Hr.
  exists r, w'. split; [|done]. by destruct r.
Qed.

(** The others are left to the wildcard's socket, whose table they begin. *)
Lemma loop_wildcard ns wa : forall fuel w,
  Forall (fun a => l_bind a = false) ns -> l_bind wa = true -> (length ns + 2 <= fuel)%nat ->
  exists w', optimize_loop fuel true (ns ++ [wa]) 0 w =
    (Some [socket wa (l_ctx (hd wa ns)) (ns ++ [wa])], w').
Proof.
  assert (H : forall k fuel w, Forall (fun a => l_bind a = false) ns -> l_bind wa = true ->
    (k <= length ns)%nat -> (length ns - k + 2 <= fuel)%nat ->
    exists w', optimize_loop fuel true (ns ++ [wa]) k w =
      (Some [socket wa (l_ctx (hd wa ns)) (ns ++ [wa])], w')).
  2:{ intros fuel w Hn Hw Hf. apply (H 0%nat); try done; lia. }
  intros k fuel. revert k. induction fuel as [|fuel IH]; intros k w Hn Hw Hk Hf; [lia|]. cbn [optimize_loop].
  destruct (decide (k = length ns)) as [->|Hne].
  - rewrite list_lookup_middle by done. rewrite Hw. cbn [andb negb].
    destruct ns as [|a ns].
    + cbn [app length]. destruct (create_listening_ok wa [] 0 wa w eq_refl) as [w1 ->]. cbn [tail app]. destruct fuel; [lia|]. by exists w1.
    + cbn [app]. destruct (create_listening_ok a (ns ++ [wa]) (length (a :: ns)) wa w) as [w1 ->].
      { change ((a :: ns ++ [wa]) !! length (a :: ns) = Some wa). by apply (list_lookup_middle (a :: ns)). }
      cbn [tail]. destruct fuel; [cbn in Hf; lia|]. cbn [optimize_loop].
      rewrite lookup_ge_None_2 by (rewrite length_app; cbn; lia). exists w1. cbn [fmap option_fmap option_map hd].
      do 3 f_equal. unfold socket. do 2 f_equal. apply take_ge. cbn. rewrite length_app. cbn. lia.
  - destruct (lookup_lt_is_Some_2 ns k) as [a Ha]; [lia|]. rewrite lookup_app_l by lia. rewrite Ha.
    rewrite Forall_lookup in Hn. rewrite (Hn _ _ Ha). cbn [andb negb]. apply IH; try done; try lia.
    by apply Forall_lookup.
Qed.

Lemma find_app {A} (f : A -> bool) (l1 l2 : list A) :
  List.find f (l1 ++ l2) = match List.find f l1 with Some a => Some a | None => List.find f l2 end.
Proof. induction l1 as [|a l1 IH]; [done|]. cbn. by destruct (f a). Qed.

Lemma find_map {A B} (g : A -> B) (f : B -> bool) l :
  List.find f (map g l) = g <$> List.find (fun a : A => f (g a)) l.
Proof. induction l as [|a l IH]; [done|]. cbn. by destruct (f (g a)). Qed.

Lemma find_false {A} (f : A -> bool) l : Forall (fun a : A => f a = false) l -> List.find f l = None.
Proof. induction 1 as [|a l Ha Hl IH]; [done|]. cbn. by rewrite Ha. Qed.

Definition single a : listening C := socket a (l_ctx a) [a].

(** The lookup in the table of the wildcard's socket. *)
Lemma table_conf ns wa x :
  Forall (fun a => l_wildcard a = false) ns ->
  find_addr_conf (map entry (ns ++ [wa])) x =
  Some (match List.find (serves x) ns with Some a => conf_of a | None => conf_of wa end).
Proof.
  intros Hn. assert (Hs : search_addr (map entry (ns ++ [wa])) x =
    Some (match List.find (serves x) ns with Some a => conf_of a | None => conf_of wa end)).
  { induction Hn as [|a ns Ha Hn IH]; [done|]. cbn [app map search_addr List.find]. unfold serves at 1.
    rewrite Ha. cbn [negb andb]. change (entry a) with (l_addr a, conf_of a).
    destruct (map entry (ns ++ [wa])) as [|e t] eqn:Ht; [by destruct ns|].
    case_bool_decide; [done|exact IH]. }
  unfold find_addr_conf. rewrite length_map, length_app. cbn [length].
  destruct ns as [|a ns]; [done|]. cbn [length]. by rewrite (proj2 (Nat.ltb_lt _ _)) by lia.
Qed.

Lemma accepts_singles bs rest x :
  accepts (map single bs ++ rest) x =
  match List.find (serves x) bs with
  | Some b => Some (single b)
  | None => match List.find (fun ls => negb (ls_wildcard ls) && bool_decide (ls_addr ls = x)) rest with
            | Some ls => Some ls
            | None => match List.find l_wildcard bs with Some b => Some (single b) | None => List.find ls_wildcard rest end
            end
  end.
Proof.
  unfold accepts. rewrite !find_app, !find_map. change (fun a => negb (ls_wildcard (single a)) &&
    bool_decide (ls_addr (single a) = x)) with (serves x). change (fun a => ls_wildcard (single a)) with (@l_wildcard C).
  destruct (List.find (serves x) bs); [done|]. cbn. destruct (List.find _ rest); [done|]. by destruct (List.find _ bs).
Qed.

Context (ngx_sort : (listen_opt C -> listen_opt C -> Z) -> list (listen_opt C) -> list (listen_opt C)).

(** What [ngx_sort] does to a list. *)
Definition sorts (l : list (listen_opt C)) : Prop :=
  ngx_sort ngx_nsoc_cmp_conf_addrs l ≡ₚ l /\ StronglySorted in_order (ngx_sort ngx_nsoc_cmp_conf_addrs l).

Lemma bind_last_plain l : Forall (fun a => l_wildcard a = false) l -> bind_last l = (false, l).
Proof.
  intros Hl. unfold bind_last. destruct (List.rev l) as [|a r] eqn:Hr; [done|].
  assert (Ha : a ∈ l) by (apply list_elem_of_In, in_rev; rewrite Hr; by left).
  by rewrite (proj1 (Forall_forall _ l) Hl a Ha).
Qed.

Lemma bind_last_wild l (wa : listen_opt C) : l_wildcard wa = true -> bind_last (l ++ [wa]) = (true, l ++ [wa <| l_bind := true |>]).
Proof. intros Hw. unfold bind_last. rewrite List.rev_app_distr. cbn [List.rev app]. by rewrite Hw, List.rev_involutive. Qed.

Lemma configured_perm l l' x : port_ok l -> l' ≡ₚ l -> configured l x = configured l' x.
Proof.
  intros Hok Hp. unfold configured. rewrite (find_perm (serves x) l l'), (find_perm l_wildcard l l'); try done.
  - intros; by eapply ok_wild.
  - intros; by eapply ok_addr.
Qed.

Lemma forall_impl2 (P Q : listen_opt C -> Prop) l : Forall P l -> (forall a, P a -> Q a) -> Forall Q l.
Proof. intros. by eapply Forall_impl. Qed.

(** The sockets of one port. *)
Lemma port_dispatch p w (Hok : port_ok (cp_addrs p)) (Hsort : sorts (cp_addrs p)) :
  exists lss w', optimize_port ngx_sort p w = (Some lss, w') /\
    forall x, (ls ← accepts lss x; find_addr_conf (ls_servers ls) x) = conf_of <$> configured (cp_addrs p) x.
Proof.
  unfold optimize_port. destruct Hsort as [Hperm Hsorted].
  destruct (sorted_shape _ Hsorted) as (bs & ns & ws & Hl & Hb & Hn & Hw & Hlen).
  assert (Hconf : forall x, configured (cp_addrs p) x = configured (bs ++ ns ++ ws) x)
    by (intros x; rewrite <- Hl; by apply configured_perm).
  rewrite Hl. destruct ws as [|wa [|? ?]]; [| |cbn in Hlen; lia].
  - rewrite app_nil_r in *. assert (Hplain : Forall (fun a => l_wildcard a = false) (bs ++ ns)).
    { apply Forall_app. split; [apply (forall_impl2 _ _ _ Hb)|apply (forall_impl2 _ _ _ Hn)]; tauto. }
    rewrite (bind_last_plain _ Hplain).
    destruct (loop_singles false [] (fun r => r = Some []) 1 (bs ++ ns) (S (2 * length (bs ++ ns))) w)
      as (r & w' & Hrun & ->); [by apply Forall_true|lia|intros [|f] ? ?; [lia|by eauto]|].
    rewrite app_nil_r in Hrun. eexists _, w'. split; [exact Hrun|]. intros x. rewrite Hconf. unfold configured.
    change (fun a => socket a (l_ctx a) [a]) with single. rewrite accepts_singles.
    rewrite (find_false l_wildcard) by done. by destruct (List.find (serves x) (bs ++ ns)).
  - apply Forall_cons_iff in Hw as [Hwa _]. rewrite app_assoc, (bind_last_wild _ _ Hwa), <- app_assoc.
    set (wb := wa <| l_bind := true |>).
    set (last := socket wb (l_ctx (hd wb ns)) (ns ++ [wb])).
    destruct (loop_singles true (ns ++ [wb]) (fun r => r = Some [last]) (length ns + 2) bs
                (S (2 * length (bs ++ ns ++ [wb]))) w) as (r & w' & Hrun & ->).
    + apply (forall_impl2 _ _ _ Hb). intros a [_ Ha]. by rewrite Ha.
    + rewrite !length_app. cbn. lia.
    + intros f w1 Hf. destruct (loop_wildcard ns wb f w1) as [w2 Hr]; try done; [|by eauto].
      apply (forall_impl2 _ _ _ Hn). tauto.
    + eexists _, w'. split; [exact Hrun|]. intros x. rewrite Hconf. unfold configured.
      change (fun a => socket a (l_ctx a) [a]) with single. rewrite accepts_singles, !find_app.
      destruct (List.find (serves x) bs) as [b|]; [done|]. cbn [List.find].
      rewrite (find_false l_wildcard bs) by (apply (forall_impl2 _ _ _ Hb); tauto).
      rewrite (find_false l_wildcard ns) by (apply (forall_impl2 _ _ _ Hn); tauto).
      unfold serves at 2. rewrite Hwa. change (ls_wildcard last) with (l_wildcard wa). rewrite Hwa. cbn [negb andb].
      cbn [mbind option_bind]. change (ls_servers last) with (map entry (ns ++ [wb])).
      rewrite table_conf by (apply (forall_impl2 _ _ _ Hn); tauto). by destruct (List.find (serves x) ns).
Qed.

(** What the sockets [lss] do for a connection to [x]. *)
Definition dispatches (addrs : list (listen_opt C)) (lss : list (listening C)) : Prop :=
  forall x, (ls ← accepts lss x; find_addr_conf (ls_servers ls) x) = conf_of <$> configured addrs x.

(** All ports, one after the other. *)
Lemma ports_dispatch ports : forall w,
  Forall (fun p => port_ok (cp_addrs p) /\ sorts (cp_addrs p)) ports ->
  exists parts w', ngx_nsoc_optimize_servers ngx_sort ports w = (Some (concat parts), w') /\
    Forall2 (fun p part => dispatches (cp_addrs p) part) ports parts.
Proof.
  induction ports as [|p ports IH]; intros w Hp; cbn [ngx_nsoc_optimize_servers]; [by exists [], w|].
  apply Forall_cons in Hp as [[Hok Hs] Hp]. destruct (port_dispatch p w Hok Hs) as (lss & w1 & -> & Hx).
  destruct (IH w1 Hp) as (parts & w2 & -> & Hparts). exists (lss :: parts), w2. split; [done|]. by constructor.
Qed.

(** C6: every connection gets the settings of the directive meant for its local
    address, [noise_on] included: the sockets a port is reduced to (one per
    explicitly bound address, and one for the wildcard that answers for all
    others) together with the lookup at accept time choose the directive for that
    very address, or the wildcard's if there is none; where neither exists no
    socket takes the connection. *)
Theorem dispatch_correct p w (Hok : port_ok (cp_addrs p)) (Hsort : sorts (cp_addrs p)) :
  exists lss w', optimize_port ngx_sort p w = (Some lss, w') /\
    forall x, (ls ← accepts lss x; find_addr_conf (ls_servers ls) x) = conf_of <$> configured (cp_addrs p) x.
Proof. by apply port_dispatch. Qed.
End Dispatch.

(** ** Gathering *)

Section Gather.
Context {C W : Type} {PO : NgxPool W} (Hpool : forall w : W, (pool_object w).1 = true).

Definition port_key : Type := (family * Z * Z)%type.
Definition key_of (l : listen_opt C) : port_key := (sa_family (l_addr l), l_type l, l_port l).
Definition key_of_port (p : conf_port C) : port_key := (cp_family p, cp_type p, cp_port p).

Definition addrs_at (k : port_key) (ports : list (conf_port C)) : list (listen_opt C) :=
  concat (map cp_addrs (filter (fun p => key_of_port p = k) ports)).

(** [ngx_nsoc_add_ports] for each directive, as [ngx_nsoc_block] calls it. *)
Fixpoint add_all (ls : list (listen_opt C)) (ports : list (conf_port C)) (w : W) : Z * list (conf_port C) * W :=
  match ls with
  | [] => (NGX_OK, ports, w)
  | l :: ls =>
      let '(rc, ports, w) := ngx_nsoc_add_ports ports l w in
      if negb (rc =? NGX_OK) then (rc, ports, w) else add_all ls ports w
  end.

Lemma same_port_key l p : same_port l p = true <-> key_of l = key_of_port p.
Proof.
  unfold same_port, key_of, key_of_port. rewrite !andb_true_iff, !Z.eqb_eq, bool_decide_eq_true.
  split; [by intros [[-> ->] ->]|by intros [= -> -> ->]].
Qed.

(** A port's addresses are those of its key; the ports have different keys and
    are not empty. *)
Definition ports_wf (ports : list (conf_port C)) : Prop :=
  NoDup (map key_of_port ports) /\ Forall (fun p => cp_addrs p <> []) ports.

Lemma addrs_at_cons k p ports :
  addrs_at k (p :: ports) = (if decide (key_of_port p = k) then cp_addrs p else []) ++ addrs_at k ports.
Proof. unfold addrs_at. rewrite filter_cons. by destruct (decide _). Qed.

Lemma push_addr_none l ports :
  push_addr l ports = None -> key_of l ∉ map key_of_port ports.
Proof.
  induction ports as [|p ports IH]; cbn; [set_solver|]. destruct (same_port l p) eqn:Hp; [done|].
  destruct (push_addr l ports); [done|]. intros _ [He|He]%elem_of_cons; [|by apply IH].
  apply same_port_key in He. congruence.
Qed.

Lemma addrs_at_absent k ports : k ∉ map key_of_port ports -> addrs_at k ports = [].
Proof.
  induction ports as [|p ports IH]; [done|]. cbn [map]. intros [Hne Hin]%not_elem_of_cons.
  rewrite addrs_at_cons, IH by done. by rewrite decide_False by congruence.
Qed.

Lemma push_addr_some l ports : forall ports', push_addr l ports = Some ports' ->
  NoDup (map key_of_port ports) ->
  map key_of_port ports' = map key_of_port ports /\
  (Forall (fun p => cp_addrs p <> []) ports -> Forall (fun p => cp_addrs p <> []) ports') /\
  forall k, addrs_at k ports' = addrs_at k ports ++ (if decide (key_of l = k) then [l] else []).
Proof.
  induction ports as [|p ports IH]; intros ports'; cbn [push_addr map]; [done|]. destruct (same_port l p) eqn:Hp.
  - intros [= <-] [Hnot Hnd]%NoDup_cons. apply same_port_key in Hp. split_and!; [done| |].
    + intros [? ?]%Forall_cons_iff. constructor; [cbn; by destruct (cp_addrs p)|done].
    + intros k. rewrite !addrs_at_cons. change (key_of_port (upd _ _ p)) with (key_of_port p).
      rewrite Hp. destruct (decide (key_of_port p = k)) as [<-|]; [|by rewrite app_nil_r].
      by rewrite (addrs_at_absent _ _ Hnot), !app_nil_r.
  - destruct (push_addr l ports) as [ps|]; [|done]. intros [= <-] [Hnot Hnd]%NoDup_cons.
    destruct (IH ps eq_refl Hnd) as (H1 & H2 & H3). split_and!.
    + cbn [map]. by rewrite H1.
    + intros [? ?]%Forall_cons_iff. constructor; auto.
    + intros k. by rewrite !addrs_at_cons, H3, app_assoc.
Qed.

Lemma add_port_ok ports l w : ports_wf ports ->
  exists ports' w', ngx_nsoc_add_ports ports l w = (NGX_OK, ports', w') /\ ports_wf ports' /\
    forall k, addrs_at k ports' = addrs_at k ports ++ (if decide (key_of l = k) then [l] else []).
Proof.
  intros [Hnd Hne]. unfold ngx_nsoc_add_ports. destruct (push_addr l ports) as [ps|] eqn:Hp.
  - destruct (pool_ok Hpool w) as [w1 ->]. destruct (push_addr_some _ _ _ Hp Hnd) as (H1 & H2 & H3).
    exists ps, w1. split_and!; [done| |done]. split; [by rewrite H1|by apply H2].
  - destruct (pool_ok Hpool w) as [w1 ->]. cbn [negb]. destruct (pool_ok Hpool w1) as [w2 ->]. cbn [negb].
    destruct (pool_ok Hpool w2) as [w3 ->]. cbn [negb]. eexists _, w3. split; [done|].
    pose proof (push_addr_none _ _ Hp) as Hnot. split; [split|].
    + rewrite map_app. apply NoDup_app. split_and!; [done| |by apply NoDup_singleton].
      intros k Hk ->%list_elem_of_singleton. by apply Hnot.
    + apply Forall_app. split; [done|]. by repeat constructor.
    + intros k. unfold addrs_at at 1. rewrite filter_app, map_app, concat_app. f_equal.
      rewrite filter_cons.
      match goal with |- context [decide (key_of_port ?q = k)] => change (key_of_port q) with (key_of l) end.
      by destruct (decide _).
Qed.

(** Gathering directives into ports that are well formed. *)
Lemma add_all_ok ls : forall ports w, ports_wf ports ->
  exists ports' w', add_all ls ports w = (NGX_OK, ports', w') /\ ports_wf ports' /\
    forall k, addrs_at k ports' = addrs_at k ports ++ filter (fun l => key_of l = k) ls.
Proof.
  induction ls as [|l ls IH]; intros ports w Hwf; cbn [add_all].
  - exists ports, w. split_and!; [done|done|]. intros k. by rewrite app_nil_r.
  - destruct (add_port_ok ports l w Hwf) as (ps & w1 & -> & Hwf1 & H1). zlit. cbn [negb].
    destruct (IH ps w1 Hwf1) as (ps2 & w2 & -> & Hwf2 & H2). exists ps2, w2. split_and!; [done|done|].
    intros k. rewrite H2, H1, <- app_assoc, filter_cons. by destruct (decide _).
Qed.

Lemma ports_wf_nil : ports_wf [].
Proof. split; [apply NoDup_nil_2|apply Forall_nil_2]. Qed.

(** The addresses of a port are those of its key. *)
Lemma addrs_at_port p ports : ports_wf ports -> p ∈ ports -> addrs_at (key_of_port p) ports = cp_addrs p.
Proof.
  intros [Hnd _]. induction ports as [|q ports IH]; intros Hp; [by apply not_elem_of_nil in Hp|].
  cbn [map] in Hnd. apply NoDup_cons in Hnd as [Hq Hnd]. rewrite addrs_at_cons.
  apply elem_of_cons in Hp as [->|Hp]; [rewrite decide_True by done; by rewrite addrs_at_absent, app_nil_r|].
  rewrite decide_False; [by apply IH|]. intros He. apply Hq. rewrite He. by apply list_elem_of_fmap_2.
Qed.

(** The directives are gathered by family, socket type and port: each such
    key has one port, whose addresses are exactly the directives with that key in
    the order they were given, and no port is without an address (so that
    [ngx_nsoc_optimize_servers] may look at the last one). *)
Theorem ports_gathered ls w :
  exists ports w', add_all ls [] w = (NGX_OK, ports, w') /\ ports_wf ports /\
    forall k, addrs_at k ports = filter (fun l => key_of l = k) ls.
Proof. exact (add_all_ok ls [] w ports_wf_nil). Qed.
End Gather.

(** ** Witnesses *)

(** The insertion sort of nginx: each element moves left past the greater ones. *)
Fixpoint insert_right {A} (cmp : A -> A -> Z) (x : A) (rprefix : list A) : list A :=
  match rprefix with
  | [] => [x]
  | y :: r => if 0 <? cmp y x then y :: insert_right cmp x r else x :: y :: r
  end.
Definition insertion_sort {A} (cmp : A -> A -> Z) (l : list A) : list A :=
  List.rev (foldl (fun r x => insert_right cmp x r) [] l).

(** Its order: bound addresses, the others, the wildcard. *)
Definition rank {C} (a : listen_opt C) : Z := if l_wildcard a then 2 else if l_bind a then 0 else 1.

Lemma cmp_rank {C} (a b : listen_opt C) :
  (0 < ngx_nsoc_cmp_conf_addrs a b -> rank b <= rank a) /\ (~ 0 < ngx_nsoc_cmp_conf_addrs a b -> rank a <= rank b) /\
  (rank a <= rank b -> l_wildcard a = false \/ l_wildcard b = false -> ngx_nsoc_cmp_conf_addrs a b <= 0).
Proof.
  unfold ngx_nsoc_cmp_conf_addrs, rank. destruct (l_wildcard a), (l_wildcard b), (l_bind a), (l_bind b); cbn;
    split_and!; try lia; intros ?; try lia; intros [|]; lia || done.
Qed.

Section InsertionSort.
Context {C : Type}.
Implicit Types a x : listen_opt C.
Abbreviation descending := (StronglySorted (fun a b : listen_opt C => rank b <= rank a)).
Abbreviation insert := (insert_right (@ngx_nsoc_cmp_conf_addrs C)).

Lemma insert_right_perm x r : insert x r ≡ₚ x :: r.
Proof. induction r as [|y r IH]; cbn; [done|]. destruct (_ <? _); [|done]. rewrite IH. by apply Permutation_swap. Qed.

Lemma insert_right_sorted x r : descending r -> descending (insert x r).
Proof.
  induction 1 as [|y r Hs IH Hy]; cbn; [by repeat constructor|]. destruct (cmp_rank y x) as (H1 & H2 & _).
  destruct (Z.ltb_spec 0 (ngx_nsoc_cmp_conf_addrs y x)) as [Hlt|Hge].
  - apply SSorted_cons; [done|]. rewrite list.Forall_forall in *. intros z. rewrite insert_right_perm.
    intros [->|Hz]%elem_of_cons; [by apply H1|by apply Hy].
  - specialize (H2 ltac:(lia)). apply SSorted_cons; [by apply SSorted_cons|]. apply Forall_cons_2; [done|].
    eapply Forall_impl; [exact Hy|]. cbv beta. lia.
Qed.

Lemma insertion_sort_steps l : forall r, descending r ->
  let r' := foldl (fun r x => insert x r) r l in descending r' /\ r' ≡ₚ r ++ l.
Proof.
  induction l as [|x l IH]; intros r Hr; cbn [foldl]; [by rewrite app_nil_r|].
  destruct (IH _ (insert_right_sorted x r Hr)) as [Hd Hp]. split; [done|]. rewrite Hp, insert_right_perm.
  by rewrite <- Permutation_middle.
Qed.

(** The order of the ranks is that of the comparison when there is one wildcard. *)
Lemma descending_in_order r :
  descending r -> NoDup r -> (forall a b, a ∈ r -> b ∈ r -> l_wildcard a = true -> l_wildcard b = true -> a = b) ->
  StronglySorted in_order (List.rev r).
Proof.
  induction 1 as [|y r Hs IH Hy]; intros Hnd Hw; cbn [List.rev]; [apply SSorted_nil|].
  apply NoDup_cons in Hnd as [Hyr Hnd].
  assert (Hs' : StronglySorted in_order (List.rev r)) by (apply IH; [done|]; intros; apply Hw; auto using list_elem_of_further).
  apply StronglySorted_app_2; [|done|by repeat constructor]. intros a b Ha ->%list_elem_of_singleton.
  rewrite <- Permutation_rev in Ha. apply cmp_rank; [by apply (proj1 (list.Forall_forall _ _) Hy)|].
  destruct (l_wildcard a) eqn:Hwa; [|by left]. destruct (l_wildcard y) eqn:Hwy; [|by right].
  exfalso. apply Hyr. rewrite (Hw y a); [done|apply list_elem_of_here|by apply list_elem_of_further|done..].
Qed.

Lemma insertion_sort_sorts (l : list (listen_opt C)) : port_ok l -> sorts (@insertion_sort (listen_opt C)) l.
Proof.
  intros [Hnd Hw _]. destruct (insertion_sort_steps l [] (SSorted_nil _)) as [Hd Hp]. cbn [app] in Hp.
  unfold sorts, insertion_sort. split; [by rewrite <- Permutation_rev|].
  apply descending_in_order; [done|by rewrite Hp|]. intros a b. rewrite Hp. apply Hw.
Qed.
End InsertionSort.

(** A port with a bound address, an address that is not, and the wildcard. *)
Definition demo_listen (a : Z) (ctx : Z) (bind wild noise : bool) : listen_opt Z :=
  ListenOpt (In4 a) 1986 1 ctx bind wild noise false no_options.
Definition demo_listens : list (listen_opt Z) :=
  [demo_listen 0 10 false true false; demo_listen 7 20 false false true; demo_listen 9 30 true false false].
Definition demo_port : conf_port Z := ConfPort AF_INET 1 1986 demo_listens.

Lemma demo_listens_ok : port_ok demo_listens.
Proof.
  split.
  - repeat (apply NoDup_cons_2; [rewrite ?not_elem_of_cons; split_and?; try done; apply not_elem_of_nil|]).
    apply NoDup_nil_2.
  - intros a b Ha Hb. unfold demo_listens in *. set_unfold. by destruct_or!; subst.
  - intros x a b Ha Hb. unfold demo_listens in *. set_unfold. unfold serves. cbn.
    rewrite !andb_true_iff, !bool_decide_eq_true. intros [_ H1] [_ H2]. by destruct_or!; subst; cbn in *.
Qed.

Lemma demo_sorts : sorts (@insertion_sort (listen_opt Z)) demo_listens.
Proof. apply insertion_sort_sorts, demo_listens_ok. Qed.

Lemma dispatch_correct_witness :
  exists lss, optimize_port (@insertion_sort (listen_opt Z)) demo_port (Net [] [] []) = (Some lss, Net [] [] []) /\
    length lss = 2%nat /\
    (ls ← accepts lss (In4 7); find_addr_conf (ls_servers ls) (In4 7)) = Some (AddrConf 20 true).
Proof.
  destruct (dispatch_correct (W := net) (PO := net_pool) (fun _ => eq_refl) (@insertion_sort (listen_opt Z)) demo_port
              (Net [] [] []) demo_listens_ok demo_sorts) as (lss & w' & Hrun & Hx).
  exists lss. rewrite Hx. vm_compute in Hrun. injection Hrun as <- <-. done.
Defined.

Lemma ports_gathered_witness :
  exists ports, add_all (W := net) demo_listens [] (Net [] [] []) = (NGX_OK, ports, Net [] [] []) /\
    addrs_at (AF_INET, 1, 1986) ports = demo_listens.
Proof.
  destruct (ports_gathered (W := net) (PO := net_pool) (fun _ => eq_refl) demo_listens (Net [] [] [])) as (ports & w' & Hrun & _ & Hk).
  exists ports. rewrite Hk. vm_compute in Hrun. injection Hrun as <- <-. done.
Defined.
