(* ===== verification/Chain.v ===== *)
(** * Buffers and chains

    The data the output path of the program works on.  A buffer descriptor
    ([cbuf], nginx's [ngx_buf_t]) points into a byte object; several descriptors
    may point into the same object, and several chain links may carry the same
    descriptor.  Both are kept: the [heap] maps buffer addresses to descriptors and
    object addresses to bytes.  A chain is the list of the links that following
    [next] visits; a link is its own address and that of its buffer.

    The functions that send and receive chains are in WriteFilter and ChainIo. *)

From stdpp Require Import prelude list numbers gmap.
From S2P Require Import Prelude NoiseConn.

(** ** Data *)

(** The fields of [ngx_buf_t] the program uses.  [cb_obj] is the object that
    [start], [pos], [last] and [end] point into; they are offsets. *)
Record cbuf := CBuf {
  cb_obj : Z;
  cb_start : Z;
  cb_pos : Z;
  cb_last : Z;
  cb_end : Z;
  temporary : bool;
  memory : bool;
  recycled : bool;
  in_file : bool;
  flush : bool;
  sync : bool;
  last_buf : bool;
  file_pos : Z;
  file_last : Z;
}.
#[export] Instance eta_cbuf : Eta cbuf := fun r =>
  CBuf (cb_obj r) (cb_start r) (cb_pos r) (cb_last r) (cb_end r) (temporary r) (memory r)
    (recycled r) (in_file r) (flush r) (sync r) (last_buf r) (file_pos r) (file_last r).

(** [ngx_chain_t]: the address of the link and [cl->buf]. *)
Record link := Link { l_id : Z; l_buf : Z }.

Record heap := Heap { objs : gmap Z (list Z); bufs : gmap Z cbuf }.
#[export] Instance eta_heap : Eta heap := fun r => Heap (objs r) (bufs r).

(** The macros [ngx_buf_size] and [ngx_buf_special] of nginx's ngx_buf.h. *)
Class NgxBuf := {
  ngx_buf_size : cbuf -> Z;
  ngx_buf_special : cbuf -> bool;
}.

(** Documented behaviour: the size of a buffer in memory is the distance from
    [pos] to [last], and such a buffer is not special; a special buffer carries no
    data but one of the three flags, whatever its pointers. *)
Class NgxBufLaws `{NgxBuf} : Prop := {
  buf_size_memory b : temporary b = true -> in_file b = false ->
    ngx_buf_size b = cb_last b - cb_pos b;
  buf_special_memory b : temporary b = true -> ngx_buf_special b = false;
  buf_special_size b : ngx_buf_special b = true -> ngx_buf_size b = 0;
  buf_special_flag b : ngx_buf_special b = true -> flush b || sync b || last_buf b = true;
  buf_special_only b : temporary b = false -> memory b = false -> in_file b = false ->
    flush b = true -> ngx_buf_special b = true;
  buf_special_pos b p q : ngx_buf_special (b <| cb_pos := p |> <| cb_last := q |>) = ngx_buf_special b;
}.

(** The descriptor a link carries. *)
Definition buf_of (h : heap) (l : link) : option cbuf := bufs h !! l_buf l.

(** The bytes between [pos] and [last]. *)
Definition buf_bytes (h : heap) (b : cbuf) : option (list Z) :=
  objs h !! cb_obj b ≫= load (cb_pos b) (cb_last b - cb_pos b).

Definition set_buf (i : Z) (b : cbuf) (h : heap) : heap := h <| bufs ::= insert i b |>.
Definition set_obj (i : Z) (m : list Z) (h : heap) : heap := h <| objs ::= insert i m |>.

(** ** What a chain holds

    A link is [sound] when its buffer is special, or in memory with data in it. *)

Section Holds.
Context {NB : NgxBuf}.

Definition link_bytes (h : heap) (l : link) : list Z :=
  match buf_of h l with
  | Some b => if ngx_buf_special b then [] else default [] (buf_bytes h b)
  | None => []
  end.

Definition chain_bytes (h : heap) (c : list link) : list Z := mjoin (map (link_bytes h) c).

Definition sound (h : heap) (l : link) : Prop :=
  exists b, buf_of h l = Some b /\
    (ngx_buf_special b = true \/
     temporary b = true /\ in_file b = false /\ cb_pos b < cb_last b /\ is_Some (buf_bytes h b)).

Lemma chain_bytes_app h c d : chain_bytes h (c ++ d) = chain_bytes h c ++ chain_bytes h d.
Proof. unfold chain_bytes. by rewrite map_app, join_app. Qed.

Lemma chain_bytes_cons h l c : chain_bytes h (l :: c) = link_bytes h l ++ chain_bytes h c.
Proof. done. Qed.

(** Only the buffers matter, not the links that carry them. *)
Lemma chain_bytes_bufs h c d : map l_buf c = map l_buf d -> chain_bytes h c = chain_bytes h d.
Proof.
  revert d. induction c as [|l c IH]; intros [|m d] H; try done. injection H as Hb H.
  rewrite !chain_bytes_cons, (IH d H). f_equal. unfold link_bytes, buf_of. by rewrite Hb.
Qed.

Context {NBL : NgxBufLaws}.

Lemma sound_size h l b :
  sound h l -> buf_of h l = Some b ->
  ngx_buf_size b = zlen (link_bytes h l) /\
  (ngx_buf_size b = 0 -> ngx_buf_special b = true).
Proof.
  intros (b' & Hb' & Hs) Hb. rewrite Hb in Hb'. injection Hb' as <-.
  unfold link_bytes. rewrite Hb. destruct Hs as [Hs|(Ht & Hf & Hlt & bs & Hbs)].
  - rewrite Hs. split; [by apply buf_special_size|done].
  - rewrite (buf_special_memory b Ht), Hbs. cbn. rewrite (buf_size_memory b Ht Hf). split; [|lia].
    unfold buf_bytes in Hbs. destruct (objs h !! cb_obj b) as [m|]; [|done]. cbn in Hbs.
    apply load_Some in Hbs as (H0 & _ & H1 & ->). rewrite zlen_ztake; [done|].
    rewrite zlen_zdrop by lia. lia.
Qed.
End Holds.

(** An instance that computes, for concrete runs: the macros as functions of the
    fields. *)
Definition in_memory (b : cbuf) : bool := temporary b || memory b.

Definition plain_bufs : NgxBuf := {|
  ngx_buf_size b :=
    if in_memory b then cb_last b - cb_pos b
    else if in_file b then file_last b - file_pos b else 0;
  ngx_buf_special b :=
    (flush b || last_buf b || sync b) && negb (in_memory b) && negb (in_file b);
|}.

Lemma plain_bufs_laws : @NgxBufLaws plain_bufs.
Proof.
  split; intros b; cbn; unfold in_memory.
  - by intros ->.
  - intros ->. cbn. by rewrite andb_false_r.
  - rewrite !andb_true_iff, !negb_true_iff. by intros [[_ ->] ->].
  - rewrite !andb_true_iff. intros [[H _] _]. by destruct (flush b), (last_buf b), (sync b).
  - by intros -> -> -> ->.
  - done.
Qed.

(** A buffer in memory over the whole object [o] from [pos] to [last]. *)
Definition mem_buf (o pos last size : Z) : cbuf :=
  CBuf o 0 pos last size true false false false true false false 0 0.
