(* ===== verification/ChainIo.v ===== *)
(** * Chained input and output of a Noise connection

    [ngx_nsoc_recv_chain] and [ngx_nsoc_send_chain] of ngx_nsoc_handler.c, the
    functions the handshake installs as [c->recv_chain] and [c->send_chain].  They
    work on the chains of Chain through [c->recv] and [c->send], which are nginx's or
    those of Record.

    With [nc->buffer] set, as every Noise connection of the program has it, the links
    of a chain are first copied into [nc->buf], and the whole of it is one packet. *)

From stdpp Require Import prelude list numbers gmap.
From S2P Require Import Prelude NoiseConn Net HsRead Record Handshake Chain.

(** The connection, the buffers of the chains, and [nc->buf->flush], which nothing
    else uses. *)
Record tx (HS CS W : Type) := Tx { t_hs : hs HS CS W; t_heap : heap; t_flush : bool }.
Arguments Tx {HS CS W}.
Arguments t_hs {HS CS W}.
Arguments t_heap {HS CS W}.
Arguments t_flush {HS CS W}.
#[export] Instance eta_tx HS CS W : Eta (tx HS CS W) := fun r => Tx (t_hs r) (t_heap r) (t_flush r).

Section ChainIo.
Context {HS CS W : Type} {NL : NoiseLib HS CS} {OS : NgxOs W} {PO : NgxPool W} {NB : NgxBuf}.
Context (ngx_pagesize : Z).
Abbreviation TX := (M (tx HS CS W)).

Definition on_hs {A} (m : M (hs HS CS W) A) : TX A := fun s =>
  match m (t_hs s) with
  | Done (a, x) => Done (a, s <| t_hs := x |>)
  | Undefined => Undefined
  | OutOfFuel => OutOfFuel
  end.

Definition link_buf (x : link) : TX cbuf := h ← gets t_heap; mderef (buf_of h x).
Definition link_pos (x : link) (p : Z) : TX unit :=
  modify (fun s => s <| t_heap ::= fun h => h <| bufs ::= alter (fun b => b <| cb_pos := p |>) (l_buf x) |> |>).
Definition object (o : Z) : TX (list Z) := h ← gets t_heap; mderef (objs h !! o).

(** ** Sending link by link

    [Some l] is the chain that is left, [None] is NGX_CHAIN_ERROR. *)

Fixpoint send_links (fuel : nat) (ins : list link) : TX (option (list link)) :=
  match fuel with
  | O => out_of_fuel
  | S fuel =>
      match ins with
      | [] => mret (Some [])
      | x :: rest =>
          b ← link_buf x;
          if ngx_buf_special b then send_links fuel rest else
          link_pos x (cb_start b);;
          mem ← object (cb_obj b);
          '(n, r) ← on_hs (c_send (NBuf mem (cb_start b) (cb_last b)));
          modify (fun s => s <| t_heap ::= set_obj (cb_obj b) (b_mem r) |>);;
          if n =? NGX_ERROR then mret None else
          if n =? NGX_AGAIN then mret (Some ins) else
          link_pos x (cb_start b + n);;
          send_links fuel (if cb_start b + n =? cb_last b then rest else ins)
      end
  end.

(** ** Through the connection's buffer *)

Definition get_nbuf : TX nbuf := b ← gets (fun s => buf (nc (t_hs s))); mderef b.
Definition set_nbuf (b : nbuf) : TX unit := on_hs (on_nc (fun n => n <| buf := Some b |>)).

(** [nc->buf], made on first use; the answer is whether there is one. *)
Definition chain_buf : TX bool :=
  b ← gets (fun s => buf (nc (t_hs s)));
  match b with
  | Some _ => mret true
  | None =>
      size ← gets (fun s => buffer_size (nc (t_hs s)));
      b ← on_hs (create_temp_buf (size + NOISE_PROTOCOL_MAC_DATA_SIZE + 2 * NGX_NSOC_LEN_FIELD_SIZE));
      match b with
      | None => mret false
      | Some b => set_nbuf b;; t_flush ::=! false;; mret true
      end
  end.

(** The number of bytes to copy from a link of [size], with [free] in the buffer. *)
Definition copy_size (size free send limit : Z) : Z :=
  let size := if free <? size then free else size in
  if limit <? send + size then limit - send else size.

(** The inner loop: copy while there is room. *)
Fixpoint fill_buf (fuel : nat) (ins : list link) (send : Z) (fl : bool) (limit : Z)
    : TX (list link * Z * bool) :=
  match fuel with
  | O => out_of_fuel
  | S fuel =>
      nb ← get_nbuf;
      match ins with
      | [] => mret (ins, send, fl)
      | x :: rest =>
          if negb ((b_last nb <? zlen (b_mem nb)) && (send <? limit)) then mret (ins, send, fl) else
          b ← link_buf x;
          let fl := fl || (last_buf b || flush b) in
          if ngx_buf_special b then fill_buf fuel rest send fl limit else
          let size := copy_size (cb_last b - cb_start b) (zlen (b_mem nb) - b_last nb) send limit in
          mem ← object (cb_obj b);
          bs ← mderef (load (cb_start b) size mem);
          m ← mderef (store (b_last nb) bs (b_mem nb));
          set_nbuf (nb <| b_mem := m |> <| b_last := b_last nb + size |>);;
          link_pos x (cb_start b + size);;
          fill_buf fuel (if cb_start b + size =? cb_last b then rest else ins)
            (send + (size - 2 * NGX_NSOC_LEN_FIELD_SIZE)) fl limit
      end
  end.

Definition set_nsoc_buffered (b : bool) : TX unit := on_hs (on_c (fun x => x <| buffered := b |>)).

(** The end of the function. *)
Definition end_chain (ins : list link) (fl : bool) : TX (option (list link)) :=
  t_flush ::=! fl;;
  nb ← get_nbuf;
  set_nsoc_buffered (b_pos nb <? b_last nb);;
  mret (Some ins).

(** [for (;;)] *)
Fixpoint send_rounds (fuel : nat) (ins : list link) (send : Z) (fl : bool) (limit : Z)
    : TX (option (list link)) :=
  match fuel with
  | O => out_of_fuel
  | S fuel' =>
      '(ins, send, fl) ← fill_buf fuel ins send fl limit;
      nb ← get_nbuf;
      if negb fl && (send <? limit) && (b_last nb <? zlen (b_mem nb)) then end_chain ins fl else
      let size := b_last nb - b_pos nb in
      if size =? 0 then
        t_flush ::=! false;;
        set_nsoc_buffered false;;
        mret (Some ins)
      else
        '(n, nb) ← on_hs (c_send nb);
        set_nbuf nb;;
        if n =? NGX_ERROR then mret None else
        if n =? NGX_AGAIN then end_chain ins fl else
        set_nbuf (nb <| b_pos := b_pos nb + n |>);;
        if n <? size then end_chain ins fl else
        set_nbuf (nb <| b_pos := 0 |> <| b_last := 0 |>);;
        if bool_decide (ins = []) || (send =? limit) then end_chain ins false
        else send_rounds fuel' ins send false limit
  end.

Definition NGX_MAX_INT32_VALUE : Z := 2 ^ 31 - 1.

Definition chain_limit (limit : Z) : Z :=
  if (limit =? 0) || (NGX_MAX_INT32_VALUE - ngx_pagesize <? limit)
  then NGX_MAX_INT32_VALUE - ngx_pagesize else limit.

(** The body of [ngx_nsoc_send_chain] once the Noise connection is found. *)
Definition send_chain_nc (fuel : nat) (ins : list link) (limit : Z) : TX (option (list link)) :=
  buffers ← gets (fun s => buffer (nc (t_hs s)));
  if negb buffers then send_links fuel ins else
  ok ← chain_buf;
  if negb ok then mret None else
  nb ← get_nbuf;
  fl ← gets t_flush;
  send_rounds fuel ins (b_last nb - b_pos nb) (if bool_decide (ins = []) then true else fl) (chain_limit limit).

(** On a session: [h] and [fl] are the buffers of the chains and [nc->buf->flush]. *)
Definition in_chain {A} (m : TX A) (h : heap) (fl : bool) : M (hs HS CS W) (A * heap * bool) := fun x =>
  match m (Tx x h fl) with
  | Done (a, s) => Done (a, t_heap s, t_flush s, t_hs s)
  | Undefined => Undefined
  | OutOfFuel => OutOfFuel
  end.

Definition ngx_nsoc_send_chain (fuel : nat) (ins : list link) (limit : Z) (h : heap) (fl : bool)
    : M (sess HS CS W) (option (list link) * heap * bool) :=
  with_nc (None, h, fl) (in_chain (send_chain_nc fuel ins limit) h fl).

(** ** Receiving into a chain *)

(** [c->recv(c, p, size)] with [p] at [off] of object [o]. *)
Definition c_os_recv (size : Z) : M (sess HS CS W) (Z * list Z) := fun s =>
  let '(n, bs, ev, w) := os_recv size (read (sc s)) (sw s) in
  Done (n, bs, s <| sc ::= fun c => c <| read := ev |> |> <| sw := w |>).

Definition c_recv (o off size : Z) (h : heap) : M (sess HS CS W) (Z * heap) :=
  mem ← mderef (objs h !! o);
  f ← gets (fun s : sess HS CS W => io (sc s));
  match f with
  | OsIo =>
      '(n, bs) ← c_os_recv size;
      mem ← mderef (if 0 <? n then store off bs mem else Some mem);
      mret (n, set_obj o mem h)
  | NsocIo =>
      '(n, mem) ← ngx_nsoc_recv (Some off) size mem;
      mret (n, set_obj o mem h)
  end.

(** [limit] of zero is none. *)
Definition recv_size (room bytes limit : Z) : Z :=
  if negb (limit =? 0) && (limit <? bytes + room) then limit - bytes else room.

Fixpoint recv_chain_loop (fuel : nat) (b : cbuf) (last : Z) (rest : list link) (bytes limit : Z) (h : heap)
    : M (sess HS CS W) (Z * heap) :=
  match fuel with
  | O => out_of_fuel
  | S fuel =>
      if negb (limit =? 0) && (limit <=? bytes) then mret (bytes, h) else
      '(n, h) ← c_recv (cb_obj b) last (recv_size (cb_end b - last) bytes limit) h;
      if 0 <? n then
        let last := last + n in
        let bytes := bytes + n in
        if last =? cb_end b then
          match rest with
          | [] => mret (bytes, h)
          | x :: rest => b ← mderef (buf_of h x); recv_chain_loop fuel b (cb_last b) rest bytes limit h
          end
        else recv_chain_loop fuel b last rest bytes limit h
      else if negb (bytes =? 0) then
        (if (n =? 0) || (n =? NGX_ERROR)
         then modify (fun s => s <| sc ::= fun c => c <| read ::= fun v => v <| ready := true |> |> |>) else mret tt);;
        mret (bytes, h)
      else mret (n, h)
  end.

Definition ngx_nsoc_recv_chain (fuel : nat) (cl : list link) (limit : Z) (h : heap)
    : M (sess HS CS W) (Z * heap) :=
  match cl with
  | [] => undefined
  | x :: rest => b ← mderef (buf_of h x); recv_chain_loop fuel b (cb_last b) rest 0 limit h
  end.
End ChainIo.

(** ** One link is one packet *)

Section SendOne.
Context {HS CS W : Type} {NL : NoiseLib HS CS} {OS : NgxOs W} {PO : NgxPool W} {SM : NgxStream W}
  {OL : NgxOsLaws W} {PL : NgxPoolLaws W} {NLaw : NoiseLaws HS CS} {NB : NgxBuf}.
Context (ngx_pagesize : Z).
Implicit Types s : tx HS CS W.

Lemma wp_on_hs {A} (m : M (hs HS CS W) A) (Q : A -> tx HS CS W -> Prop) s :
  wp m (fun a x => Q a (s <| t_hs := x |>)) (t_hs s) -> wp (on_hs m) Q s.
Proof. unfold wp, on_hs. by destruct (m (t_hs s)) as [[a x]| |]. Qed.

(** The link [x] carries [body] behind four bytes of head room. *)
Definition carries (h : heap) (x : link) (room body : list Z) : Prop :=
  zlen room = 4 /\ exists b mem, buf_of h x = Some b /\ ngx_buf_special b = false /\ flush b = true /\
    cb_last b = cb_start b + 4 + zlen body /\ objs h !! cb_obj b = Some mem /\
    load (cb_start b) (4 + zlen body) mem = Some (room ++ body).

(** A connection past its handshake with nothing under way: [nc->buf] is not there
    yet or empty. *)
Record idle_nc (n : nconn HS CS) : Prop := IdleNc {
  id_buffer : buffer n = true;
  id_size : 0 <= buffer_size n;
  id_send : to_send n = 0;
  id_cipher : is_Some (NoiseSendCipherObj (noise_connection n));
  id_buf : buf n = None \/ exists mem, buf n = Some (NBuf mem 0 0) /\ zlen mem = buffer_size n + 20;
}.

(** The result of sending [body]: no packet was made; or one packet, the whole of
    which went out, or a front part of it, and then [c->buffered] says so unless the
    connection failed. *)
Definition sent_one s0 (body : list Z) (r : option (list link)) s' : Prop :=
  (r = None /\ outbox (t_hs s') = outbox (t_hs s0)) \/
  exists packet k', sealed (t_hs s0) body packet k' /\
    ((r = Some [] /\ buffered (c (t_hs s')) = false /\ outbox (t_hs s') = outbox (t_hs s0) ++ Record.frame packet /\
      idle_nc (nc (t_hs s'))) \/
     exists front, stopped (Record.frame packet) front /\ outbox (t_hs s') = outbox (t_hs s0) ++ front /\
      (r = None \/ r = Some [] /\ buffered (c (t_hs s')) = true)).

(** [nc->buf] is there and empty. *)
Definition with_buf s0 s (mem : list Z) : Prop :=
  t_heap s = t_heap s0 /\ zlen mem = buffer_size (nc (t_hs s0)) + 20 /\
  outbox (t_hs s) = outbox (t_hs s0) /\ io (c (t_hs s)) = io (c (t_hs s0)) /\
  nc (t_hs s) = (nc (t_hs s0)) <| buf := Some (NBuf mem 0 0) |>.

Lemma chain_buf_spec s :
  idle_nc (nc (t_hs s)) ->
  wp chain_buf (fun ok s' => if ok then exists mem, with_buf s s' mem
    else outbox (t_hs s') = outbox (t_hs s)) s.
Proof.
  intros [_ Hsz _ _ Hbuf]. unfold chain_buf. wp_step. apply wp_gets. destruct Hbuf as [Hn|(mem & Hm & Hl)].
  - rewrite Hn. wp_step. apply wp_gets. wp_step. apply wp_on_hs.
    apply wp_create_temp_buf; [unfold NOISE_PROTOCOL_MAC_DATA_SIZE, NGX_NSOC_LEN_FIELD_SIZE; lia|].
    intros o x1 ((Q1 & Q2 & Q3 & Q4 & Q5) & _ & Ho) Hb. destruct o as [b|]; [|apply wp_ret; exact Ho].
    destruct (Hb b eq_refl) as (B1 & B2 & B3). wp_step. unfold set_nbuf. apply wp_on_hs. apply wp_modify.
    wp_step. apply wp_modify. apply wp_ret. exists (b_mem b). split_and!; try done.
    + rewrite B1. unfold NOISE_PROTOCOL_MAC_DATA_SIZE, NGX_NSOC_LEN_FIELD_SIZE. lia.
    + cbn. rewrite Q1. by destruct b; cbn in *; subst.
  - rewrite Hm. apply wp_ret. exists mem. split_and!; try done. rewrite <- Hm. by destruct (nc (t_hs s)).
Qed.

(** The copy of the link into the empty buffer. *)
Lemma fill_one fuel fl s x room body mem limit :
  carries (t_heap s) x room body -> buf (nc (t_hs s)) = Some (NBuf mem 0 0) ->
  4 + zlen body < zlen mem -> 4 + zlen body <= limit -> 0 < limit ->
  wp (fill_buf (S (S fuel)) [x] 0 fl limit) (fun r s' => r = ([], zlen body, true) /\
    t_hs s' = (t_hs s) <| nc ::= fun n => n <| buf := Some (NBuf (room ++ body ++ zdrop (4 + zlen body) mem) 0 (4 + zlen body)) |> |>) s.
Proof.
  intros (Hr & b & m & Hb & Hsp & Hfl & Hl & Ho & Hld) Hnb Hcap Hlim Hpos. pose proof (zlen_nonneg body).
  cbn [fill_buf]. wp_step. unfold get_nbuf. wp_step. apply wp_gets. rewrite Hnb. eapply wp_mderef; [done|].
  cbn [b_last b_mem]. rewrite (proj2 (Z.ltb_lt 0 (zlen mem))), (proj2 (Z.ltb_lt 0 limit)) by lia. cbn [negb andb].
  wp_step. unfold link_buf. wp_step. apply wp_gets. eapply wp_mderef; [exact Hb|]. rewrite Hsp, Hfl. cbv zeta.
  assert (Hsize : copy_size (cb_last b - cb_start b) (zlen mem - 0) 0 limit = 4 + zlen body).
  { unfold copy_size. rewrite Hl. replace (cb_start b + 4 + zlen body - cb_start b) with (4 + zlen body) by lia.
    rewrite (proj2 (Z.ltb_ge (zlen mem - 0) (4 + zlen body))) by lia.
    by rewrite (proj2 (Z.ltb_ge limit (0 + (4 + zlen body)))) by lia. }
  rewrite Hsize. wp_step. unfold object. wp_step. apply wp_gets. eapply wp_mderef; [exact Ho|].
  wp_step. eapply wp_mderef; [exact Hld|]. wp_step. eapply wp_mderef.
  { apply store_Some. split; [lia|]. split; [|reflexivity]. rewrite zlen_app. lia. }
  wp_step. unfold set_nbuf. apply wp_on_hs. apply wp_modify. wp_step. apply wp_modify.
  rewrite (proj2 (Z.eqb_eq (cb_start b + (4 + zlen body)) (cb_last b))) by lia.
  cbn [fill_buf]. wp_step. unfold get_nbuf. wp_step. apply wp_gets. eapply wp_mderef; [reflexivity|].
  apply wp_ret. split.
  - unfold NGX_NSOC_LEN_FIELD_SIZE. rewrite !orb_true_r.
    by replace (0 + (4 + zlen body - 2 * 2)) with (zlen body) by lia.
  - cbn. rewrite <- app_assoc. rewrite zlen_app, Hr. done.
Qed.

Lemma end_chain_run ins fl s nb :
  buf (nc (t_hs s)) = Some nb ->
  wp (end_chain ins fl) (fun r s' => r = Some ins /\
    t_hs s' = (t_hs s) <| c ::= fun x => x <| buffered := b_pos nb <? b_last nb |> |>) s.
Proof.
  intros Hb. unfold end_chain. wp_step. apply wp_modify. wp_step. unfold get_nbuf. wp_step. apply wp_gets.
  eapply wp_mderef; [exact Hb|]. wp_step. unfold set_nsoc_buffered. apply wp_on_hs. apply wp_modify. by apply wp_ret.
Qed.

Lemma sealed_same s0 (x : hs HS CS W) body packet k' :
  noise_connection (nc x) = noise_connection (nc (t_hs s0)) -> sealed x body packet k' -> sealed (t_hs s0) body packet k'.
Proof. intros He (k & Hk & Hen). exists k. by rewrite <- He. Qed.

(** The round that makes the packet. *)
Lemma round_one fuel fl s0 s x room body mem limit :
  carries (t_heap s0) x room body -> idle_nc (nc (t_hs s0)) -> io (c (t_hs s0)) = NsocIo ->
  bytes_ok body -> zlen body <= buffer_size (nc (t_hs s0)) ->
  4 + zlen body < limit -> with_buf s0 s mem ->
  wp (send_rounds (S (S fuel)) [x] 0 fl limit) (sent_one s0 body) s.
Proof.
  intros Hx Hid Hio Hok Hsz Hlim (W1 & W2 & W3 & W4 & W5). pose proof (zlen_nonneg body) as Hz.
  pose proof Hx as (Hr & _). cbn [send_rounds].
  wp_step. eapply wp_mono.
  { apply (fill_one fuel fl s x room body mem limit); [by rewrite W1|by rewrite W5|lia|lia|lia]. }
  intros r s1 [-> Hs1]. cbn [negb andb].
  set (tail := zdrop (4 + zlen body) mem) in *.
  assert (Htail : zlen tail = buffer_size (nc (t_hs s0)) + 16 - zlen body) by (unfold tail; rewrite zlen_zdrop; lia).
  assert (Hbuf : buf (nc (t_hs s1)) = Some (NBuf (room ++ body ++ tail) 0 (4 + zlen body))) by (by rewrite Hs1).
  assert (Hio1 : io (c (t_hs s1)) = NsocIo) by (rewrite Hs1, <- Hio, <- W4; done).
  assert (Hnc1 : nc (t_hs s1) = (nc (t_hs s0)) <| buf := Some (NBuf (room ++ body ++ tail) 0 (4 + zlen body)) |>)
    by (rewrite Hs1; cbn; by rewrite W5).
  assert (Ho1 : outbox (t_hs s1) = outbox (t_hs s0)) by (rewrite Hs1, <- W3; done).
  clear Hs1. wp_step. unfold get_nbuf at 1. wp_step. apply wp_gets. rewrite Hbuf.
  eapply wp_mderef; [reflexivity|]. cbn [b_last b_pos b_mem]. cbv zeta.
  rewrite (proj2 (Z.eqb_neq (4 + zlen body - 0) 0)) by lia.
  wp_step. apply wp_on_hs. unfold c_send. cbn [b_last b_pos b_mem]. wp_step. apply wp_gets. rewrite Hio1.
  rewrite (proj2 (Z.ltb_ge _ _)) by (unfold NGX_NSOC_LEN_FIELD_SIZE; lia).
  assert (Hsplit : room ++ body ++ tail = [] ++ room ++ body ++ ztake 16 tail ++ zdrop 16 tail).
  { cbn [app]. by rewrite ztake_zdrop. }
  replace (4 + zlen body - 0) with (zlen body + 4) by lia. rewrite Hsplit.
  assert (Hnc : noise_connection (nc (t_hs s1)) = noise_connection (nc (t_hs s0))) by (by rewrite Hnc1).
  wp_step. eapply wp_mono.
  { apply (write_nc_run [] room body (ztake 16 tail) (zdrop 16 tail) (t_hs s1)); try done.
    - rewrite zlen_ztake; lia.
    - by rewrite Hnc1.
    - rewrite Hnc1. apply (id_send _ Hid).
    - rewrite Hnc. apply (id_cipher _ Hid). }
  intros [n mem'] x2 [Hend Hlen]. cbn [fst snd] in *. apply wp_ret. wp_step. unfold set_nbuf at 1. apply wp_on_hs. apply wp_modify.
  rewrite <- Hsplit in *. inversion Hend as [y Ho Hs Hy1 Hy2|packet k' y Hse Hpl Ho Hn Hy1 Hy2|r packet k' front y Hr0 Hse Hst Ho Hn Hc Hy1 Hy2]; subst.
  - apply wp_ret. left. split; [done|]. transitivity (outbox x2); [done|by rewrite Ho, Ho1].
  - rewrite (proj2 (Z.eqb_neq (zlen body + 4) NGX_ERROR)) by (unfold NGX_ERROR; lia).
    rewrite (proj2 (Z.eqb_neq (zlen body + 4) NGX_AGAIN)) by (unfold NGX_AGAIN; lia).
    wp_step. unfold set_nbuf at 1. apply wp_on_hs. apply wp_modify. cbn [b_last b_pos b_mem].
    rewrite (proj2 (Z.ltb_ge (zlen body + 4) (zlen body + 4))) by lia.
    wp_step. unfold set_nbuf at 1. apply wp_on_hs. apply wp_modify. rewrite bool_decide_eq_true_2 by done. cbn [orb].
    eapply wp_mono; [eapply end_chain_run; reflexivity|]. intros res s3 [-> Hs3]. cbn [b_last b_pos b_mem] in Hs3.
    right. exists packet, k'. split; [by eapply sealed_same|left]. rewrite Hs3. split_and!; try done.
    + transitivity (outbox x2); [done|by rewrite Ho, Ho1].
    + cbn. rewrite Hn, Hnc1. destruct Hid as [I1 I2 I3 I4 I5]. split; cbn; try done.
      right. exists mem'. split; [done|]. rewrite Hlen, !zlen_app. unfold tail in *. lia.
  - assert (Hfin : forall res s3, outbox (t_hs s3) = outbox x2 ->
      (res = None \/ res = Some [] /\ buffered (c (t_hs s3)) = true) -> sent_one s0 body res s3).
    { intros res s3 Ho3 Hres. right. exists packet, k'. split; [by eapply sealed_same|right].
      exists front. split; [done|]. split; [by rewrite Ho3, Ho, Ho1|done]. }
    destruct (Z.eqb_spec n NGX_ERROR) as [->|Hne]; [apply wp_ret, Hfin; [done|by left]|].
    destruct (n =? NGX_AGAIN).
    + eapply wp_mono; [eapply end_chain_run; reflexivity|]. intros res s3 [-> Hs3]. cbn [b_last b_pos b_mem] in Hs3.
      apply Hfin; rewrite Hs3; [done|right]. split; [done|]. apply (Z.ltb_lt 0). change (0 < 4 + zlen body). lia.
    + wp_step. unfold set_nbuf at 1. apply wp_on_hs. apply wp_modify. cbn [b_last b_pos b_mem].
      rewrite (proj2 (Z.ltb_lt n (zlen body + 4))) by lia.
      eapply wp_mono; [eapply end_chain_run; reflexivity|]. intros res s3 [-> Hs3]. cbn [b_last b_pos b_mem] in Hs3.
      apply Hfin; rewrite Hs3; [done|right]. split; [done|]. apply (Z.ltb_lt (0 + n)). change (0 + n < 4 + zlen body). lia.
Qed.

(** C27: a link is one packet.  On a connection past its handshake with nothing under
    way, [ngx_nsoc_send_chain] of one link that has four bytes of head room before its
    body returns: either no packet was made and the chain failed, or the body was sealed
    into one packet under the connection's send cipher.  The wire then has all of that
    packet, nothing is buffered and the connection is as before; or a front part of it,
    and the connection failed or [c->buffered] says that data is left. *)
Theorem send_chain_one_packet fuel st d n x room body h fl :
  at_side d n st -> idle_nc n -> io (sc st) = NsocIo -> carries h x room body ->
  bytes_ok body -> zlen body <= buffer_size n -> 4 + zlen body < NGX_MAX_INT32_VALUE - ngx_pagesize ->
  exists r s', ngx_nsoc_send_chain ngx_pagesize (S (S fuel)) [x] 0 h fl st =
      Done (r, t_heap s', t_flush s', unview d (t_hs s') st) /\
    sent_one (Tx (view n st) h fl) body r s'.
Proof.
  intros Hat Hid Hio Hx Hok Hsz Hlim. set (s0 := Tx (view n st) h fl).
  assert (Hwp : wp (send_chain_nc ngx_pagesize (S (S fuel)) [x] 0) (sent_one s0 body) s0).
  { unfold send_chain_nc. wp_step. apply wp_gets. cbn. rewrite (id_buffer _ Hid). cbn [negb].
    apply wp_bind. eapply wp_mono; [by apply chain_buf_spec|]. intros [|] s1 H1; cbn [negb].
    - destruct H1 as (mem & H1). pose proof H1 as (_ & _ & _ & _ & Hn1).
      wp_step. unfold get_nbuf. wp_step. apply wp_gets. rewrite Hn1. eapply wp_mderef; [reflexivity|].
      wp_step. apply wp_gets. by eapply round_one.
    - apply wp_ret. by left. }
  apply wp_done in Hwp as (r & s' & Hrun & Hs). exists r, s'. split; [|done].
  unfold ngx_nsoc_send_chain. eapply with_nc_done; [exact Hat|]. unfold in_chain. change (Tx (view n st) h fl) with s0.
  by rewrite Hrun.
Qed.
End SendOne.

(** ** Concrete runs *)

Section Demo.
#[local] Existing Instance plain_bufs.

(** A connection past its handshake that writes through the Noise functions. *)
Definition small_nc : nconn toy_hs Z := ready_nc <| buffer_size := 100 |>.
Definition noise_sess (sends : list Z) : sess toy_hs Z net :=
  Sess (demo_conn <| io := NsocIo |>) (NsocSession None (Some small_nc) true) demo_prologue (Net [] [] sends).

(** A link of the pump: its buffer starts where the direction's memory starts. *)
Definition pump_link (pos last : Z) : cbuf := (mem_buf 1 pos last 100) <| cb_start := 0 |> <| flush := true |>.
Definition one_link : heap := Heap (list_to_map [(1, [0; 0; 0; 0; 1; 2; 3])]) (list_to_map [(5, pump_link 4 7)]).

Lemma one_carries : carries one_link (Link 1 5) [0; 0; 0; 0] [1; 2; 3].
Proof. split; [done|]. by eexists _, _. Qed.

Lemma ready_idle : idle_nc small_nc.
Proof. split; try done. by left. Qed.

Lemma send_chain_one_packet_witness :
  exists r s', ngx_nsoc_send_chain 4096 3 [Link 1 5] 0 one_link false (noise_sess []) =
      Done (r, t_heap s', t_flush s', unview ServerSide (t_hs s') (noise_sess [])) /\
    sent_one (Tx (view small_nc (noise_sess [])) one_link false) [1; 2; 3] r s'.
Proof.
  apply (send_chain_one_packet 4096 1 (noise_sess []) ServerSide small_nc (Link 1 5) [0; 0; 0; 0] [1; 2; 3]
           one_link false).
  - done.
  - apply ready_idle.
  - reflexivity.
  - apply one_carries.
  - repeat (apply Forall_cons_2; [done|]). constructor.
  - done.
  - done.
Defined.

(** Two links of the pump: [a b c], then [x y]. *)
Definition two_links (r0 r1 r2 r3 a b c x y : Z) : heap :=
  Heap (list_to_map [(1, [r0; r1; r2; r3; a; b; c; x; y])])
    (list_to_map [(5, pump_link 4 7); (6, pump_link 7 9)]).

(** Two links in one packet carry the first data twice.  Every link of the
    pump has [start] at the start of its direction's memory, and
    [ngx_nsoc_send_chain] copies from [start], not from [pos]; only the first head room
    is skipped.  For the links [a b c] and [x y] the peer decrypts
    [a b c], then four bytes of head room, then [a b c x y]. *)
Theorem coalesced_links_repeat r0 r1 r2 r3 a b c x y :
  exists h fl st, ngx_nsoc_send_chain 4096 4 [Link 1 5; Link 2 6] 0 (two_links r0 r1 r2 r3 a b c x y) false
      (noise_sess []) = Done (Some [], h, fl, st) /\
    sent_bytes (sw st) = Record.frame (be16 12 ++ [a; b; c; r0; r1; r2; r3; a; b; c; x; y] ++ toy_mac 0).
Proof. eexists _, _, _. split; vm_compute; reflexivity. Qed.
End Demo.
