(* ===== verification/WriteFilter.v ===== *)
(** * The write filter: ngx_nsoc_write_filter_module.c

    A session keeps two chains of data that its connections did not take yet, one
    per direction.  [ngx_nsoc_write_filter] appends a copy of the incoming chain to
    the saved one, hands the whole to the connection's [send_chain], frees the links
    that were sent and saves the rest.  A chain under construction ends in the
    unset [next] of its newest link: [s_wild] says so, and following it is
    undefined.

    The link allocator of nginx's pool and the [send_chain] a connection has
    installed are parameters ([NgxChains]); [NgxChainsLaws] is their documented
    behaviour. *)

From stdpp Require Import prelude list numbers gmap.
From S2P Require Import Prelude NoiseConn Chain.

(** ** State *)

Definition NGX_LOWLEVEL_BUFFERED : Z := 0x0f.
Definition NGX_NSOC_WRITE_BUFFERED : Z := 0x10.

(** The fields of [ngx_connection_t] the filter uses; [w_buffered] is the bit set
    [c->buffered]. *)
Record wconn := WConn {
  w_error : bool;
  w_buffered : Z;
  need_last_buf : bool;
  shared : bool;
}.
#[export] Instance eta_wconn : Eta wconn := fun r =>
  WConn (w_error r) (w_buffered r) (need_last_buf r) (shared r).

Record saved := Saved { s_links : list link; s_wild : bool }.

(** [ngx_nsoc_write_filter_ctx_t] *)
Record write_filter_ctx := WriteFilterCtx { from_upstream : saved; from_downstream : saved }.
#[export] Instance eta_write_filter_ctx : Eta write_filter_ctx := fun r =>
  WriteFilterCtx (from_upstream r) (from_downstream r).

(** The session: its context of this module, the client's connection, that of
    the peer, the buffers and the rest of the world. *)
Record wf (W : Type) := Wf {
  wf_ctx : option write_filter_ctx;
  wf_down : wconn;
  wf_up : option wconn;
  wf_heap : heap;
  wf_world : W;
}.
Arguments Wf {W}.
Arguments wf_ctx {W}.
Arguments wf_down {W}.
Arguments wf_up {W}.
Arguments wf_heap {W}.
Arguments wf_world {W}.
#[export] Instance eta_wf W : Eta (wf W) := fun r =>
  Wf (wf_ctx r) (wf_down r) (wf_up r) (wf_heap r) (wf_world r).

(** [ngx_alloc_chain_link], [ngx_free_chain] and [c->send_chain], the latter of
    the connection data from upstream goes to ([true]) or of the other one.  [None]
    is NGX_CHAIN_ERROR. *)
Class NgxChains (W : Type) := {
  alloc_chain_link : W -> option Z * W;
  free_chain : Z -> W -> W;
  conn_send_chain : bool -> list link -> Z -> M (wconn * heap * W) (option (list link));
}.

(** ** The filter *)

Section Filter.
Context {W : Type} {PO : NgxPool W} {NB : NgxBuf} {CH : NgxChains W}.
Abbreviation WF := (M (wf W)).
Implicit Types (d : bool) (s : wf W).

(** [c] and [out], chosen by the direction. *)
Definition filter_conn d : WF wconn :=
  if d then gets wf_down else c ← gets wf_up; mderef c.
Definition on_conn d (f : wconn -> wconn) : WF unit :=
  modify (fun s => if d then s <| wf_down ::= f |> else s <| wf_up ::= fmap f |>).
Definition out_at d (c : write_filter_ctx) : saved :=
  if d then from_upstream c else from_downstream c.
Definition put_out d (x : saved) (c : write_filter_ctx) : write_filter_ctx :=
  if d then c <| from_upstream := x |> else c <| from_downstream := x |>.
Definition set_out d (x : saved) : WF unit :=
  modify (fun s => s <| wf_ctx ::= fmap (put_out d x) |>).
Definition get_out d : WF saved := c ← gets wf_ctx; c ← mderef c; mret (out_at d c).
Definition get_buf (l : link) : WF cbuf := h ← gets wf_heap; mderef (buf_of h l).

(** The context of the session, made on first use. *)
Definition filter_ctx : WF bool :=
  c ← gets wf_ctx;
  match c with
  | Some _ => mret true
  | None => fun s =>
      let '(ok, w) := pool_object (wf_world s) in
      let s := s <| wf_world := w |> in
      if (ok : bool)
      then Done (true, s <| wf_ctx := Some (WriteFilterCtx (Saved [] false) (Saved [] false)) |>)
      else Done (false, s)
  end.

(** [size], [flush], [sync] and [last]. *)
Record totals := Totals { t_size : Z; t_flush : bool; t_sync : bool; t_last : bool }.

Definition add_totals (b : cbuf) (t : totals) : totals :=
  Totals (t_size t + ngx_buf_size b)
    (t_flush t || (flush b || recycled b)) (t_sync t || sync b) (t_last t || last_buf b).

(** One link of either loop; [None] is the alert for a buffer of size zero. *)
Definition visit (b : cbuf) (t : totals) : option totals :=
  if (ngx_buf_size b =? 0) && negb (ngx_buf_special b) then None else Some (add_totals b t).

Fixpoint scan_saved (l : list link) (t : totals) : WF (option totals) :=
  match l with
  | [] => mret (Some t)
  | cl :: l =>
      b ← get_buf cl;
      match visit b t with
      | None => mret None
      | Some t => scan_saved l t
      end
  end.

Definition alloc_link : WF (option Z) := fun s =>
  let '(i, w) := alloc_chain_link (wf_world s) in Done (i, s <| wf_world := w |>).

(** The new chain, link by link, at the end of the saved one. *)
Fixpoint add_new d (l : list link) (t : totals) : WF (option totals) :=
  match l with
  | [] => mret (Some t)
  | ln :: l =>
      i ← alloc_link;
      match i with
      | None => mret None
      | Some i =>
          let cl := Link i (l_buf ln) in
          x ← get_out d;
          set_out d (Saved (s_links x ++ [cl]) true);;
          b ← get_buf cl;
          match visit b t with
          | None => mret None
          | Some t => add_new d l t
          end
      end
  end.

Definition free_link (l : link) : WF unit :=
  modify (fun s => s <| wf_world ::= free_chain (l_id l) |>).

(** [for (cl = out; cl && cl != chain; )] free the link. *)
Fixpoint free_until (stop : list link) (l : list link) : WF unit :=
  match l with
  | [] => mret tt
  | cl :: l =>
      if (match stop with [] => false | x :: _ => l_id cl =? l_id x end) then mret tt
      else free_link cl;; free_until stop l
  end.

Definition call_send_chain d (l : list link) (limit : Z) : WF (option (list link)) := fun s =>
  match (if d then Some (wf_down s) else wf_up s) with
  | None => Undefined
  | Some c =>
      match conn_send_chain d l limit (c, wf_heap s, wf_world s) with
      | Done (r, (c, h, w)) =>
          let s := if d then s <| wf_down := c |> else s <| wf_up := Some c |> in
          Done (r, s <| wf_heap := h |> <| wf_world := w |>)
      | Undefined => Undefined
      | OutOfFuel => OutOfFuel
      end
  end.

Definition set_buffered d (bit : Z) : WF unit :=
  on_conn d (fun c => c <| w_buffered ::= fun x => Z.lor x bit |>).
Definition clear_buffered d (bit : Z) : WF unit :=
  on_conn d (fun c => c <| w_buffered ::= fun x => Z.land x (Z.lnot bit) |>).
Definition lowlevel_buffered (c : wconn) : bool :=
  negb (Z.land (w_buffered c) NGX_LOWLEVEL_BUFFERED =? 0).

(** Nothing to send: a chain of flags only is dropped. *)
Definition write_nothing d (t : totals) : WF Z :=
  if t_last t || t_flush t || t_sync t then
    x ← get_out d;
    free_until [] (s_links x);;
    set_out d (Saved [] false);;
    clear_buffered d NGX_NSOC_WRITE_BUFFERED;;
    mret NGX_OK
  else mret NGX_ERROR.

(** What is left after [send_chain] decides the result. *)
Definition finish_write d (chain : list link) : WF Z :=
  c ← filter_conn d;
  match chain with
  | _ :: _ =>
      if shared c then mret NGX_ERROR
      else set_buffered d NGX_NSOC_WRITE_BUFFERED;; mret NGX_AGAIN
  | [] =>
      clear_buffered d NGX_NSOC_WRITE_BUFFERED;;
      c ← filter_conn d;
      mret (if lowlevel_buffered c then NGX_AGAIN else NGX_OK)
  end.

Definition write_chain d : WF Z :=
  x ← get_out d;
  chain ← call_send_chain d (s_links x) 0;
  match chain with
  | None => on_conn d (fun c => c <| w_error := true |>);; mret NGX_ERROR
  | Some chain =>
      free_until chain (s_links x);;
      set_out d (Saved chain false);;
      finish_write d chain
  end.

(** [ngx_nsoc_write_filter(s, in, from_upstream)] *)
Definition ngx_nsoc_write_filter (ins : list link) d : WF Z :=
  ok ← filter_ctx;
  if negb ok then mret NGX_ERROR else
  c ← filter_conn d;
  if w_error c then mret NGX_ERROR else
  x ← get_out d;
  t ← scan_saved (s_links x) (Totals 0 false false false);
  match t with
  | None => mret NGX_ERROR
  | Some t =>
      if s_wild x then undefined else
      t ← add_new d ins t;
      match t with
      | None => mret NGX_ERROR
      | Some t =>
          x ← get_out d;
          set_out d (Saved (s_links x) false);;
          c ← filter_conn d;
          if (t_size t =? 0) && negb (lowlevel_buffered c) && negb (t_last t && need_last_buf c)
          then write_nothing d t
          else write_chain d
      end
  end.
End Filter.

(** ** What the parameters promise

    [accepted d w]: the bytes the connection of direction [d] has taken so far;
    [link_live w i]: link [i] is allocated. *)

Class NgxChainsSpec (W : Type) := {
  accepted : bool -> W -> list Z;
  link_live : W -> Z -> Prop;
}.

Section Spec.
Context {W : Type} {PO : NgxPool W} {NB : NgxBuf} {CH : NgxChains W} {SP : NgxChainsSpec W}.

(** The objects the buffers of a chain point into. *)
Definition objs_of (h : heap) (l : list link) : list Z :=
  omap (fun x => cb_obj <$> buf_of h x) l.

(** Two chains that share neither buffers nor the bytes behind them. *)
Definition apart (h : heap) (a b : list link) : Prop :=
  (forall i, i ∈ map l_buf a -> ~ i ∈ map l_buf b) /\
  (forall o, o ∈ objs_of h a -> ~ o ∈ objs_of h b).

(** Only buffers of [l] and the bytes behind them may differ, and no buffer was
    moved to another object. *)
Definition untouched (l : list link) (h h' : heap) : Prop :=
  (forall i, cb_obj <$> bufs h' !! i = cb_obj <$> bufs h !! i) /\
  (forall i, ~ i ∈ map l_buf l -> bufs h' !! i = bufs h !! i) /\
  (forall o, ~ o ∈ objs_of h l -> objs h' !! o = objs h !! o).

Definition same_links (w w' : W) : Prop := forall i, link_live w' i <-> link_live w i.
Definition same_accepted (w w' : W) : Prop := forall d, accepted d w' = accepted d w.

(** After [send_chain]: a front part of the chain was taken, the rest is returned,
    and its buffers say what is left of it. *)
Definition front_sent (d : bool) (l : list link) (h : heap) (w : W) (l' : list link)
    (h' : heap) (w' : W) : Prop :=
  (exists front, l = front ++ l') /\ Forall (sound h') l' /\
  accepted d w' ++ chain_bytes h' l' = accepted d w ++ chain_bytes h l.
End Spec.

(** Documented behaviour: an allocated link is none that is in use; [send_chain]
    returns the chain of what it could not send, and when it fails it has sent a
    front part of the data; it does not touch [c->shared]. *)
Class NgxChainsLaws (W : Type) `{NgxPool W} `{NgxBuf} `{NgxChains W} `{NgxChainsSpec W} : Prop := {
  pool_object_chains w ok w' : pool_object w = (ok, w') -> same_links w w' /\ same_accepted w w';
  alloc_link_some w i w' : alloc_chain_link w = (Some i, w') ->
    ~ link_live w i /\ (forall j, link_live w' j <-> j = i \/ link_live w j) /\ same_accepted w w';
  alloc_link_none w w' : alloc_chain_link w = (None, w') -> same_links w w' /\ same_accepted w w';
  free_chain_law i w :
    (forall j, link_live (free_chain i w) j <-> j <> i /\ link_live w j) /\
    same_accepted w (free_chain i w);
  send_chain_law d l c h w :
    Forall (sound h) l -> NoDup (map l_buf l) ->
    exists r c' h' w', conn_send_chain d l 0 (c, h, w) = Done (r, (c', h', w')) /\
      untouched l h h' /\ same_links w w' /\ accepted (negb d) w' = accepted (negb d) w /\
      shared c' = shared c /\
      match r with
      | Some l' => front_sent d l h w l' h' w'
      | None => accepted d w' `prefix_of` accepted d w ++ chain_bytes h l
      end;
}.

(** ** Chains that are left alone *)

Section Framed.
Context {NB : NgxBuf}.
Implicit Types (h : heap) (l m : list link).

Lemma objs_of_cons h x l :
  objs_of h (x :: l) =
  match cb_obj <$> bufs h !! l_buf x with Some o => o :: objs_of h l | None => objs_of h l end.
Proof. done. Qed.

Lemma objs_of_same h h' l :
  (forall i, cb_obj <$> bufs h' !! i = cb_obj <$> bufs h !! i) -> objs_of h' l = objs_of h l.
Proof.
  intros H. induction l as [|x l IH]; [done|]. by rewrite !objs_of_cons, H, IH.
Qed.

Lemma objs_of_elem h l x b : x ∈ l -> buf_of h x = Some b -> cb_obj b ∈ objs_of h l.
Proof. intros Hx Hb. apply list_elem_of_omap. exists x. by rewrite Hb. Qed.

Lemma framed_link l h h' m x :
  untouched l h h' -> apart h l m -> x ∈ m ->
  buf_of h' x = buf_of h x /\ forall b, buf_of h x = Some b -> buf_bytes h' b = buf_bytes h b.
Proof.
  intros (_ & Hb & Ho) [Ha1 Ha2] Hx.
  assert (Hbuf : buf_of h' x = buf_of h x).
  { unfold buf_of. apply Hb. intros Hl. apply (Ha1 _ Hl). by apply list_elem_of_fmap_2. }
  split; [done|]. intros b Hxb. unfold buf_bytes. rewrite Ho; [done|].
  intros Hl. apply (Ha2 _ Hl). by eapply objs_of_elem.
Qed.

Lemma framed_bytes l h h' m : untouched l h h' -> apart h l m -> chain_bytes h' m = chain_bytes h m.
Proof.
  intros Hu Ha. unfold chain_bytes. f_equal. apply map_ext_in. intros x Hx%list_elem_of_In.
  destruct (framed_link l h h' m x Hu Ha Hx) as [H1 H2]. unfold link_bytes. rewrite H1.
  destruct (buf_of h x) as [b|]; [|done]. by rewrite (H2 b eq_refl).
Qed.

Lemma framed_sound l h h' m :
  untouched l h h' -> apart h l m -> Forall (sound h) m -> Forall (sound h') m.
Proof.
  intros Hu Ha. rewrite !list.Forall_forall. intros Hs x Hx.
  destruct (Hs x Hx) as (b & Hb & Hx'). destruct (framed_link l h h' m x Hu Ha Hx) as [H1 H2].
  exists b. split; [by rewrite H1|]. by rewrite (H2 b Hb).
Qed.

Lemma apart_sym h l m : apart h l m -> apart h m l.
Proof. intros [H1 H2]. split; intros i Hi Hj; [by apply (H1 i)|by apply (H2 i)]. Qed.

Lemma apart_same h h' l m : untouched l h h' -> apart h l m -> apart h' l m.
Proof. intros (Ho & _) [H1 H2]. split; [done|]. by rewrite !(objs_of_same h h'). Qed.

(** Apartness only looks at the buffers. *)
Lemma objs_of_bufs h l m : map l_buf l = map l_buf m -> objs_of h l = objs_of h m.
Proof.
  revert m. induction l as [|x l IH]; intros [|y m] H; try done. injection H as Hb H.
  by rewrite !objs_of_cons, Hb, (IH m H).
Qed.

Lemma apart_bufs h l m l' :
  map l_buf l = map l_buf l' -> apart h l m -> apart h l' m.
Proof. intros Hl [H1 H2]. split; [by rewrite <- Hl|by rewrite <- (objs_of_bufs h l l' Hl)]. Qed.

Lemma objs_of_app h l m : objs_of h (l ++ m) = objs_of h l ++ objs_of h m.
Proof. unfold objs_of. by rewrite omap_app. Qed.

Lemma apart_app h l l' m : apart h (l ++ l') m <-> apart h l m /\ apart h l' m.
Proof.
  unfold apart. rewrite map_app, objs_of_app. setoid_rewrite elem_of_app. firstorder.
Qed.
End Framed.

Section FilterProofs.
Context {W : Type} {PO : NgxPool W} {NB : NgxBuf} {CH : NgxChains W} {SP : NgxChainsSpec W}
  {NBL : NgxBufLaws} {CL : NgxChainsLaws W}.
Implicit Types (d : bool) (s : wf W).

(** ** Views of the state *)

Definition out_chain d s : saved :=
  match wf_ctx s with Some c => out_at d c | None => Saved [] false end.
Definition pend d s : list link := s_links (out_chain d s).
Definition pend_bytes d s : list Z := chain_bytes (wf_heap s) (pend d s).
Definition taken_bytes d s : list Z := accepted d (wf_world s).
Definition conn_at d s : option wconn := if d then Some (wf_down s) else wf_up s.

(** Every link is allocated and the two chains have no link in common. *)
Definition links_ok s : Prop := forall d,
  NoDup (map l_id (pend d s) ++ map l_id (pend (negb d) s)) /\
  (forall l, l ∈ pend d s -> link_live (wf_world s) (l_id l)).

(** The invariant of a session between two calls. *)
Record wf_ok s : Prop := WfOk {
  ok_links : links_ok s;
  ok_tame d : s_wild (out_chain d s) = false;
  ok_sound d : Forall (sound (wf_heap s)) (pend d s);
  ok_bufs d : NoDup (map l_buf (pend d s));
  ok_apart d : apart (wf_heap s) (pend d s) (pend (negb d) s);
}.

Lemma out_at_put d e x c : out_at e (put_out d x c) = if bool_decide (e = d) then x else out_at e c.
Proof. by destruct d, e. Qed.

(** Rules of the small steps. *)
Lemma run_get_out d s c : wf_ctx s = Some c -> get_out d s = Done (out_chain d s, s).
Proof. intros Hc. unfold get_out, out_chain, gets, mbind, M_bind. by rewrite Hc. Qed.

Lemma run_get_buf l b s : buf_of (wf_heap s) l = Some b -> get_buf l s = Done (b, s).
Proof. intros H. unfold get_buf, gets, mbind, M_bind. by rewrite H. Qed.

Lemma run_filter_conn d c s : conn_at d s = Some c -> filter_conn d s = Done (c, s).
Proof.
  unfold filter_conn, conn_at, gets, mbind, M_bind. destruct d; [by intros [= <-]|]. by intros ->.
Qed.

Lemma out_chain_set d e x s s' :
  is_Some (wf_ctx s) -> wf_ctx s' = put_out d x <$> wf_ctx s ->
  out_chain e s' = if bool_decide (e = d) then x else out_chain e s.
Proof. intros [c Hc] Hs. unfold out_chain. rewrite Hs, Hc. apply out_at_put. Qed.

(** The totals of a chain of sound links. *)
Definition totals_of (h : heap) (l : list link) (t : totals) : totals :=
  foldl (fun t x => match buf_of h x with Some b => add_totals b t | None => t end) t l.

Lemma totals_of_cons h x l t :
  totals_of h (x :: l) t =
  totals_of h l (match buf_of h x with Some b => add_totals b t | None => t end).
Proof. done. Qed.

Definition flagged (t : totals) : bool := t_last t || t_flush t || t_sync t.

Lemma sound_visit h x b t :
  sound h x -> buf_of h x = Some b -> visit b t = Some (add_totals b t).
Proof.
  intros Hs Hb. destruct (sound_size h x b Hs Hb) as [_ Hz]. unfold visit.
  destruct (Z.eqb_spec (ngx_buf_size b) 0) as [He|]; [|done]. by rewrite (Hz He).
Qed.

Lemma scan_saved_run l t s :
  Forall (sound (wf_heap s)) l ->
  scan_saved l t s = Done (Some (totals_of (wf_heap s) l t), s).
Proof.
  revert t. induction l as [|x l IH]; intros t Hs; [done|].
  apply list.Forall_cons in Hs as [Hx Hs]. destruct (Hx) as (b & Hb & _).
  cbn [scan_saved]. rewrite (bind_done _ _ _ _ _ (run_get_buf x b s Hb)).
  rewrite (sound_visit _ x b t Hx Hb), IH by done. by rewrite totals_of_cons, Hb.
Qed.

Lemma totals_size h l t :
  Forall (sound h) l -> t_size (totals_of h l t) = t_size t + zlen (chain_bytes h l).
Proof.
  revert t. induction l as [|x l IH]; intros t Hs; [symmetry; apply Z.add_0_r|].
  apply list.Forall_cons in Hs as [Hx Hs]. destruct (Hx) as (b & Hb & _).
  destruct (sound_size h x b Hx Hb) as [Hz _].
  rewrite totals_of_cons, Hb, IH by done.
  rewrite chain_bytes_cons, zlen_app. cbn. lia.
Qed.

Lemma flagged_mono h l t : flagged t = true -> flagged (totals_of h l t) = true.
Proof.
  revert t. induction l as [|x l IH]; intros t Ht; [done|]. rewrite totals_of_cons.
  apply IH. destruct (buf_of h x) as [b|]; [|done]. unfold flagged, add_totals in *. cbn.
  repeat rewrite orb_true_iff in *. tauto.
Qed.

(** A chain with links but without bytes consists of special buffers. *)
Lemma totals_flagged h l t :
  Forall (sound h) l -> l <> [] -> chain_bytes h l = [] -> flagged (totals_of h l t) = true.
Proof.
  destruct l as [|x l]; [done|]. intros Hs _ Hz. apply list.Forall_cons in Hs as [Hx Hs].
  destruct (Hx) as (b & Hb & _). destruct (sound_size h x b Hx Hb) as [Hsz Hsp].
  rewrite chain_bytes_cons in Hz. apply app_eq_nil in Hz as [Hz _].
  rewrite totals_of_cons, Hb. apply flagged_mono.
  assert (Hf : ngx_buf_special b = true) by (apply Hsp; rewrite Hsz, Hz; done).
  apply buf_special_flag in Hf. unfold flagged, add_totals. cbn.
  repeat rewrite orb_true_iff in *. tauto.
Qed.

(** ** Appending *)

(** [new] was appended to the saved chain of direction [d], nothing else. *)
Record appended d s (new : list link) s' : Prop := Appended {
  ap_heap : wf_heap s' = wf_heap s;
  ap_conn e : conn_at e s' = conn_at e s;
  ap_accepted : same_accepted (wf_world s) (wf_world s');
  ap_ctx : is_Some (wf_ctx s');
  ap_pend : pend d s' = pend d s ++ new;
  ap_other : out_chain (negb d) s' = out_chain (negb d) s;
  ap_links : links_ok s';
}.

Lemma appended_trans d s1 s2 s3 new1 new2 :
  appended d s1 new1 s2 -> appended d s2 new2 s3 -> appended d s1 (new1 ++ new2) s3.
Proof.
  intros [] []. split; try done.
  - by rewrite ap_heap1.
  - intros e. by rewrite ap_conn1.
  - intros e. by rewrite ap_accepted1.
  - by rewrite ap_pend1, ap_pend0, app_assoc.
  - by rewrite ap_other1.
Qed.

Lemma negb_cases d e : e = d \/ e = negb d.
Proof. destruct d, e; auto. Qed.

Lemma bool_decide_negb d : bool_decide (negb d = d) = false.
Proof. by destruct d. Qed.

(** [links_ok] for one direction and its opposite. *)
Lemma links_ok_sides d s :
  NoDup (map l_id (pend d s) ++ map l_id (pend (negb d) s)) ->
  (forall l, l ∈ pend d s ++ pend (negb d) s -> link_live (wf_world s) (l_id l)) -> links_ok s.
Proof.
  intros Hn Hl e. destruct (negb_cases d e) as [-> | ->].
  - split; [done|]. intros l H. apply Hl, elem_of_app. by left.
  - rewrite negb_involutive. split.
    + by rewrite Permutation_app_comm.
    + intros l H. apply Hl, elem_of_app. by right.
Qed.

Lemma links_ok_live s d l : links_ok s -> l ∈ pend d s ++ pend (negb d) s -> link_live (wf_world s) (l_id l).
Proof.
  intros Hs [H|H]%elem_of_app; [by apply (Hs d)|by apply (Hs (negb d))].
Qed.

(** One link, taken from the pool and put at the end. *)
Lemma append_link d s i w (b : Z) wild :
  links_ok s -> is_Some (wf_ctx s) -> alloc_chain_link (wf_world s) = (Some i, w) ->
  appended d s [Link i b]
    (s <| wf_world := w |> <| wf_ctx ::= fmap (put_out d (Saved (pend d s ++ [Link i b]) wild)) |>).
Proof.
  intros Hs Hc Ha. destruct (alloc_link_some _ _ _ Ha) as (Hfresh & Hlive & Hacc).
  set (s' := _ <| wf_ctx ::= _ |>).
  assert (Ho : forall e, out_chain e s' =
    if bool_decide (e = d) then Saved (pend d s ++ [Link i b]) wild else out_chain e s)
    by (intros e; by apply out_chain_set).
  assert (Hd : pend d s' = pend d s ++ [Link i b])
    by (unfold pend at 1; rewrite Ho, bool_decide_true by done; done).
  assert (Hn : out_chain (negb d) s' = out_chain (negb d) s) by (by rewrite Ho, bool_decide_negb).
  assert (Hpn : pend (negb d) s' = pend (negb d) s) by (unfold pend; by rewrite Hn).
  split; try done.
  - destruct Hc as [c Hc]. exists (put_out d (Saved (pend d s ++ [Link i b]) wild) c).
    cbn. by rewrite Hc.
  - apply (links_ok_sides d); rewrite Hd, Hpn.
    + rewrite map_app, (Permutation_app_comm (map l_id (pend d s))). cbn. constructor.
      * intros Hin. apply Hfresh. rewrite <- map_app in Hin.
        apply list_elem_of_fmap in Hin as (l & -> & Hl). by apply (links_ok_live s d).
      * apply (Hs d).
    + intros l Hl. apply Hlive. rewrite !elem_of_app, list_elem_of_singleton in Hl.
      destruct Hl as [[Hl | ->] | Hl]; [right|by left|right];
        apply (links_ok_live s d); try done; apply elem_of_app; auto.
Qed.

Lemma world_same_links s w :
  same_links (wf_world s) w -> links_ok s -> links_ok (s <| wf_world := w |>).
Proof.
  intros Hw Hs d. destruct (Hs d) as [H1 H2]. split; [done|]. intros l Hl. apply Hw. by apply H2.
Qed.

(** The pool runs out at some time. *)
Definition pool_fails : Prop :=
  (exists w w', pool_object w = (false, w')) \/ (exists w w', alloc_chain_link w = (None, w')).

Lemma add_new_spec d ins t s :
  links_ok s -> is_Some (wf_ctx s) -> Forall (sound (wf_heap s)) ins ->
  wp (add_new d ins t) (fun r s' => exists new, appended d s new s' /\
      match r with
      | Some t' => map l_buf new = map l_buf ins /\ t' = totals_of (wf_heap s) ins t
      | None => pool_fails
      end) s.
Proof.
  revert t s. induction ins as [|x ins IH]; intros t s Hs Hc Hi.
  { exists []. split; [|done]. by split; rewrite ?app_nil_r. }
  apply list.Forall_cons in Hi as [Hx Hi]. destruct (Hx) as (b & Hb & _).
  cbn [add_new]. wp_step. unfold alloc_link, wp at 1.
  destruct (alloc_chain_link (wf_world s)) as [[i|] w] eqn:Ha.
  - destruct (Hc) as [c Hc'].
    apply wp_bind. eapply done_wp; [eapply run_get_out; exact Hc'|]. cbv beta.
    wp_step. apply wp_modify. cbv beta.
    pose proof (append_link d s i w (l_buf x) true Hs Hc Ha) as Hap.
    change (s_links (out_chain d (s <| wf_world := w |>))) with (pend d s).
    set (s2 := _ <| wf_ctx ::= _ |>) in *.
    apply wp_bind. eapply done_wp; [apply (run_get_buf _ b); exact Hb|]. cbv beta.
    rewrite (sound_visit (wf_heap s) x b t Hx Hb).
    eapply wp_mono; [apply IH; [apply Hap|apply Hap|by rewrite (ap_heap _ _ _ _ Hap)]|].
    intros r s3 (new & Hnew & Hr). exists ([Link i (l_buf x)] ++ new).
    split; [by eapply appended_trans|]. rewrite (ap_heap _ _ _ _ Hap) in Hr.
    destruct r as [t'|]; [|done]. destruct Hr as [Hm ->]. split; [cbn; by rewrite Hm|].
    by rewrite totals_of_cons, Hb.
  - apply wp_ret. exists []. split; [|by right; eexists _, _].
    destruct (alloc_link_none _ _ Ha) as [Hl Hacc]. split; try done; [by rewrite app_nil_r|by apply world_same_links].
Qed.

(** ** Freeing what was sent *)

Definition free_all (l : list link) (w : W) : W := foldl (fun w x => free_chain (l_id x) w) w l.

Lemma free_all_law l w :
  (forall j, link_live (free_all l w) j <-> ~ j ∈ map l_id l /\ link_live w j) /\
  same_accepted w (free_all l w).
Proof.
  revert w. induction l as [|x l IH]; intros w.
  { split; [|done]. intros j. cbn. rewrite elem_of_nil. tauto. }
  destruct (IH (free_chain (l_id x) w)) as [H1 H2], (free_chain_law (l_id x) w) as [H3 H4].
  split.
  - intros j. cbn [free_all foldl]. fold (free_all l (free_chain (l_id x) w)).
    rewrite H1, H3. cbn [map]. rewrite elem_of_cons. tauto.
  - intros e. cbn [free_all foldl]. fold (free_all l (free_chain (l_id x) w)). by rewrite H2, H4.
Qed.

Lemma free_until_run front stop s :
  NoDup (map l_id (front ++ stop)) ->
  free_until stop (front ++ stop) s = Done (tt, s <| wf_world ::= free_all front |>).
Proof.
  revert s. induction front as [|x front IH]; intros s Hn.
  - destruct s as [c dn up h w]. destruct stop as [|x stop]; [done|]. cbn. by rewrite Z.eqb_refl.
  - cbn [app map] in Hn. apply NoDup_cons in Hn as [Hx Hn]. cbn [app free_until].
    assert (He : (match stop with [] => false | y :: _ => l_id x =? l_id y end) = false).
    { destruct stop as [|y stop]; [done|]. apply Z.eqb_neq. intros Heq. apply Hx.
      rewrite Heq. apply list_elem_of_fmap_2, elem_of_app. right. left. }
    rewrite He. unfold free_link, modify, mbind, M_bind. rewrite IH by done. by destruct s.
Qed.

(** ** The last step *)

(** What every call leaves alone: the other direction, and the order of bytes. *)
Definition sent_in_order d (total : list Z) s s' : Prop :=
  taken_bytes d s' `prefix_of` total /\
  pend (negb d) s' = pend (negb d) s /\ pend_bytes (negb d) s' = pend_bytes (negb d) s /\
  taken_bytes (negb d) s' = taken_bytes (negb d) s.

(** What a call that does not fail establishes, with [total] the bytes taken so
    far, saved and new. *)
Record settled d (total : list Z) (r : Z) s' : Prop := Settled {
  st_ok : wf_ok s';
  st_bytes : taken_bytes d s' ++ pend_bytes d s' = total;
  st_conn : exists c, conn_at d s' = Some c /\
    Z.testbit (w_buffered c) 4 = bool_decide (pend d s' <> []) /\
    r = if bool_decide (pend d s' <> []) || lowlevel_buffered c then NGX_AGAIN else NGX_OK;
}.

Lemma testbit_set x : Z.testbit (Z.lor x NGX_NSOC_WRITE_BUFFERED) 4 = true.
Proof. rewrite Z.lor_spec. by apply orb_true_r. Qed.

Lemma testbit_clear x : Z.testbit (Z.land x (Z.lnot NGX_NSOC_WRITE_BUFFERED)) 4 = false.
Proof. rewrite Z.land_spec. by apply andb_false_r. Qed.

(** Freeing a front part and saving the rest. *)
Lemma keep_rest d front rest c s :
  links_ok s -> wf_ctx s = Some c -> pend d s = front ++ rest ->
  let s' := s <| wf_world ::= free_all front |> <| wf_ctx ::= fmap (put_out d (Saved rest false)) |> in
  links_ok s' /\ is_Some (wf_ctx s') /\ pend d s' = rest /\
  out_chain (negb d) s' = out_chain (negb d) s /\ s_wild (out_chain d s') = false /\
  same_accepted (wf_world s) (wf_world s').
Proof.
  intros Hs Hc Hp s'. destruct (free_all_law front (wf_world s)) as [Hl Ha].
  assert (Ho : forall e, out_chain e s' = if bool_decide (e = d) then Saved rest false else out_chain e s)
    by (intros e; apply out_chain_set; [by rewrite Hc|done]).
  assert (Hd : pend d s' = rest) by (unfold pend; by rewrite Ho, bool_decide_true).
  assert (Hn : out_chain (negb d) s' = out_chain (negb d) s) by (by rewrite Ho, bool_decide_negb).
  assert (Hpn : pend (negb d) s' = pend (negb d) s) by (unfold pend; by rewrite Hn).
  destruct (Hs d) as [Hnd _]. rewrite Hp, map_app, <- app_assoc in Hnd.
  split_and!; try done; [|by cbn; rewrite Hc|by rewrite Ho, bool_decide_true].
  apply (links_ok_sides d); rewrite Hd, Hpn.
  - by apply list.NoDup_app in Hnd as (_ & _ & ?).
  - intros l Hin. apply Hl. split.
    + intros Hf. apply list.NoDup_app in Hnd as (_ & Hdis & _). apply (Hdis _ Hf).
      rewrite <- map_app. by apply list_elem_of_fmap_2.
    + apply (links_ok_live s d); [done|]. rewrite Hp, <- app_assoc. apply elem_of_app. by right.
Qed.

(** A connection of which only [error] and [buffered] changed. *)
Lemma conn_at_on d f s c s' : conn_at d s = Some c -> on_conn d f s = Done (tt, s') -> conn_at d s' = Some (f c).
Proof.
  unfold on_conn, modify, conn_at. intros Hc [= <-]. destruct d; cbn in *; [by injection Hc as ->|].
  by rewrite Hc.
Qed.

Lemma on_conn_run d f s : exists s', on_conn d f s = Done (tt, s') /\
  wf_ctx s' = wf_ctx s /\ wf_heap s' = wf_heap s /\ wf_world s' = wf_world s /\
  (forall c, conn_at d s = Some c -> conn_at d s' = Some (f c)).
Proof.
  eexists. split; [reflexivity|]. destruct d; cbn; split_and!; try done.
  - by intros c [= ->].
  - intros c Hc. unfold conn_at in *. cbn. by rewrite Hc.
Qed.

(** Only the connection differs. *)
Definition same_but_conn s s' : Prop :=
  wf_ctx s' = wf_ctx s /\ wf_heap s' = wf_heap s /\ wf_world s' = wf_world s.

(** The invariant only looks at the chains, the buffers and the live links. *)
Lemma wf_ok_views s s' :
  (forall e, out_chain e s' = out_chain e s) -> wf_heap s' = wf_heap s ->
  same_links (wf_world s) (wf_world s') -> wf_ok s -> wf_ok s'.
Proof.
  intros Ho H2 H3 [Hl Ht Hs Hb Ha].
  assert (Hp : forall e, pend e s' = pend e s) by (intros e; unfold pend; by rewrite Ho).
  split.
  - intros e. destruct (Hl e) as [N1 N2]. rewrite !Hp. split; [done|]. intros l Hin. by apply H3, N2.
  - intros e. by rewrite Ho.
  - intros e. by rewrite Hp, H2.
  - intros e. by rewrite Hp.
  - intros e. by rewrite !Hp, H2.
Qed.

Lemma wf_ok_conn s s' : same_but_conn s s' -> wf_ok s -> wf_ok s'.
Proof.
  intros (H1 & H2 & H3). apply wf_ok_views; [|done|by rewrite H3].
  intros e. unfold out_chain. by rewrite H1.
Qed.

Lemma views_conn s s' : same_but_conn s s' ->
  forall e, pend e s' = pend e s /\ pend_bytes e s' = pend_bytes e s /\ taken_bytes e s' = taken_bytes e s.
Proof.
  intros (H1 & H2 & H3) e. unfold pend_bytes, taken_bytes, pend, out_chain. by rewrite H1, H2, H3.
Qed.

Lemma sent_in_order_conn d total s s' s'' :
  sent_in_order d total s s' -> same_but_conn s' s'' -> sent_in_order d total s s''.
Proof.
  intros (H1 & H2 & H3 & H4) Hc. unfold sent_in_order.
  destruct (views_conn s' s'' Hc d) as (Hp1 & Hp2 & Hp3).
  destruct (views_conn s' s'' Hc (negb d)) as (Hn1 & Hn2 & Hn3).
  rewrite Hp3, Hn1, Hn2, Hn3. done.
Qed.

(** The two ways a call that did not fail ends. *)
Lemma finish_settled d total s s' c (bit : bool) :
  wf_ok s -> taken_bytes d s ++ pend_bytes d s = total -> same_but_conn s s' ->
  conn_at d s' = Some c -> Z.testbit (w_buffered c) 4 = bit -> bit = bool_decide (pend d s <> []) ->
  settled d total (if bit || lowlevel_buffered c then NGX_AGAIN else NGX_OK) s'.
Proof.
  intros Hok Ht Hs Hc Hb ->. destruct (views_conn s s' Hs d) as (Hp1 & Hp2 & Hp3). split.
  - by eapply wf_ok_conn.
  - by rewrite Hp2, Hp3.
  - exists c. by rewrite Hp1.
Qed.

(** [send_chain] fails at some time. *)
Definition send_fails : Prop := exists d l x x', conn_send_chain d l 0 x = Done (None, x').

Lemma call_send_run d c s :
  wf_ok s -> conn_at d s = Some c ->
  exists r c' s', call_send_chain d (pend d s) 0 s = Done (r, s') /\
    wf_ctx s' = wf_ctx s /\ conn_at d s' = Some c' /\ shared c' = shared c /\
    untouched (pend d s) (wf_heap s) (wf_heap s') /\ same_links (wf_world s) (wf_world s') /\
    taken_bytes (negb d) s' = taken_bytes (negb d) s /\
    match r with
    | Some l' => front_sent d (pend d s) (wf_heap s) (wf_world s) l' (wf_heap s') (wf_world s')
    | None => send_fails /\ taken_bytes d s' `prefix_of` taken_bytes d s ++ pend_bytes d s
    end.
Proof.
  intros Hok Hc.
  destruct (send_chain_law d (pend d s) c (wf_heap s) (wf_world s) (ok_sound s Hok d) (ok_bufs s Hok d))
    as (r & c' & h' & w' & Hrun & Hu & Hl & Hn & Hsh & Hr).
  unfold call_send_chain. unfold conn_at in Hc. rewrite Hc, Hrun.
  assert (Hf : r = None -> send_fails) by (intros ->; by eexists _, _, _, _).
  exists r, c'. destruct d; eexists; split_and!; try reflexivity; try done; destruct r; try done; auto.
Qed.

(** The other direction after the call: neither its buffers nor the bytes behind
    them were touched. *)
Lemma other_side d s s' :
  wf_ok s -> wf_ctx s' = wf_ctx s -> untouched (pend d s) (wf_heap s) (wf_heap s') ->
  pend (negb d) s' = pend (negb d) s /\ pend_bytes (negb d) s' = pend_bytes (negb d) s.
Proof.
  intros Hok Hc Hu. assert (Hp : pend (negb d) s' = pend (negb d) s) by (unfold pend, out_chain; by rewrite Hc).
  split; [done|]. unfold pend_bytes. rewrite Hp. eapply framed_bytes; [done|]. apply (ok_apart s Hok d).
Qed.

(** A pair of opposite directions determines the invariant. *)
Lemma wf_ok_sides d s :
  links_ok s -> s_wild (out_chain d s) = false -> s_wild (out_chain (negb d) s) = false ->
  Forall (sound (wf_heap s)) (pend d s) -> Forall (sound (wf_heap s)) (pend (negb d) s) ->
  NoDup (map l_buf (pend d s)) -> NoDup (map l_buf (pend (negb d) s)) ->
  apart (wf_heap s) (pend d s) (pend (negb d) s) -> wf_ok s.
Proof.
  intros. split; [done|intros e; destruct (negb_cases d e) as [-> | ->]; try done..].
  rewrite negb_involutive. by apply apart_sym.
Qed.

(** Saving the rest of a chain whose front part was sent. *)
Lemma rest_saved d front rest s s1 s2 :
  wf_ok s -> pend d s = front ++ rest -> wf_ctx s1 = wf_ctx s ->
  untouched (pend d s) (wf_heap s) (wf_heap s1) -> Forall (sound (wf_heap s1)) rest ->
  links_ok s2 -> pend d s2 = rest -> out_chain (negb d) s2 = out_chain (negb d) s1 ->
  s_wild (out_chain d s2) = false -> wf_heap s2 = wf_heap s1 -> wf_ok s2.
Proof.
  intros Hok Hp Hc Hu Hr Hl Hd Hn Hw Hh.
  assert (Ho : out_chain (negb d) s2 = out_chain (negb d) s) by (rewrite Hn; unfold out_chain; by rewrite Hc).
  assert (Hpn : pend (negb d) s2 = pend (negb d) s) by (unfold pend; by rewrite Ho).
  pose proof (ok_apart s Hok d) as Ha. pose proof (ok_bufs s Hok d) as Hb.
  apply (wf_ok_sides d); rewrite ?Hd, ?Hpn, ?Hh; try done.
  - rewrite Ho. apply (ok_tame s Hok).
  - eapply framed_sound; [done..|]. apply (ok_sound s Hok).
  - rewrite Hp, map_app in Hb. by apply list.NoDup_app in Hb as (_ & _ & ?).
  - apply (ok_bufs s Hok).
  - pose proof (apart_same _ _ _ _ Hu Ha) as Ha'. rewrite Hp in Ha'. by apply apart_app in Ha' as [_ ?].
Qed.

Lemma finish_write_spec d rest total c s0 s :
  wf_ok s -> taken_bytes d s ++ pend_bytes d s = total -> pend d s = rest ->
  sent_in_order d total s0 s -> conn_at d s = Some c ->
  wp (finish_write d rest) (fun r s' => sent_in_order d total s0 s' /\
    (r = NGX_ERROR /\ shared c = true \/ settled d total r s')) s.
Proof.
  intros Hok Ht Hp Hs Hc. unfold finish_write.
  apply wp_bind. eapply done_wp; [by apply run_filter_conn|]. cbv beta. destruct rest as [|x rest].
  - apply wp_bind. destruct (on_conn_run d (fun c => c <| w_buffered ::=
      fun x => Z.land x (Z.lnot NGX_NSOC_WRITE_BUFFERED) |>) s) as (s3 & R1 & R2 & R3 & R4 & R5).
    eapply done_wp; [exact R1|]. cbv beta. specialize (R5 _ Hc).
    apply wp_bind. eapply done_wp; [by apply run_filter_conn|]. cbv beta. apply wp_ret.
    split; [by eapply sent_in_order_conn|right].
    apply (finish_settled d total s s3 _ false Hok Ht ltac:(done) R5 (testbit_clear _)). by rewrite Hp.
  - destruct (shared c) eqn:Hsh; [apply wp_ret; split; [done|by left]|].
    apply wp_bind. destruct (on_conn_run d (fun c => c <| w_buffered ::=
      fun x => Z.lor x NGX_NSOC_WRITE_BUFFERED |>) s) as (s3 & R1 & R2 & R3 & R4 & R5).
    eapply done_wp; [exact R1|]. cbv beta. specialize (R5 _ Hc). apply wp_ret.
    split; [by eapply sent_in_order_conn|right].
    apply (finish_settled d total s s3 _ true Hok Ht ltac:(done) R5 (testbit_set _)). by rewrite Hp.
Qed.

Lemma write_chain_spec d c s :
  wf_ok s -> is_Some (wf_ctx s) -> conn_at d s = Some c ->
  let total := taken_bytes d s ++ pend_bytes d s in
  wp (write_chain d) (fun r s' => sent_in_order d total s s' /\
    (r = NGX_ERROR /\ (shared c = true \/ send_fails) \/ settled d total r s')) s.
Proof.
  intros Hok [c0 Hctx] Hc total. unfold write_chain. apply wp_bind.
  eapply done_wp; [by eapply run_get_out|]. cbv beta. fold (pend d s). apply wp_bind.
  destruct (call_send_run d c s Hok Hc) as (r & c1 & s1 & Hrun & Hctx1 & Hc1 & Hsh & Hu & Hl & Hn & Hr).
  destruct (other_side d s s1 Hok Hctx1 Hu) as [Ho1 Ho2].
  eapply done_wp; [exact Hrun|]. cbv beta. destruct r as [rest|].
  - destruct Hr as ((front & Hp) & Hsound & Hbytes).
    assert (Hp1 : pend d s1 = front ++ rest) by (unfold pend, out_chain; rewrite Hctx1; apply Hp).
    assert (Hl1 : links_ok s1).
    { intros e. destruct (ok_links s Hok e) as [H1 H2]. unfold pend, out_chain. rewrite Hctx1.
      split; [done|]. intros x Hx. apply Hl. by apply H2. }
    rewrite Hp. apply wp_bind. eapply done_wp.
    { apply free_until_run. rewrite <- Hp1. destruct (Hl1 d) as [Hnd _].
      by apply list.NoDup_app in Hnd as [? _]. }
    cbv beta. apply wp_bind, wp_modify. cbv beta.
    destruct (keep_rest d front rest c0 s1 Hl1) as (K1 & K2 & K3 & K4 & K5 & K6);
      [by rewrite Hctx1|done|].
    set (s2 := _ <| wf_ctx ::= _ |>) in *.
    assert (Ht2 : taken_bytes d s2 ++ pend_bytes d s2 = total).
    { unfold taken_bytes, pend_bytes. rewrite (K6 d), K3. exact Hbytes. }
    eapply wp_mono; [apply (finish_write_spec d rest total c1 s); try done|].
    + by apply (rest_saved d front rest s s1).
    + split_and!; [by exists (pend_bytes d s2)| | |].
      * unfold pend at 1. by rewrite K4.
      * unfold pend_bytes at 1, pend. by rewrite K4.
      * unfold taken_bytes at 1. rewrite (K6 (negb d)). exact Hn.
    + intros r s' [Ho [[-> Hs']|Hs']]; (split; [done|]); [left; rewrite <- Hsh; auto|by right].
  - apply wp_bind. destruct (on_conn_run d (fun c => c <| w_error := true |>) s1)
      as (s3 & R1 & R2 & R3 & R4 & _).
    destruct Hr as [Hf Hr].
    eapply done_wp; [exact R1|]. cbv beta. apply wp_ret. split; [|left; auto].
    by eapply sent_in_order_conn.
Qed.

Lemma lowlevel_clear c :
  lowlevel_buffered (c <| w_buffered ::= fun x => Z.land x (Z.lnot NGX_NSOC_WRITE_BUFFERED) |>)
  = lowlevel_buffered c.
Proof.
  unfold lowlevel_buffered. cbn. rewrite <- Z.land_assoc, (Z.land_comm (Z.lnot _)), Z.land_assoc.
  change NGX_LOWLEVEL_BUFFERED with (Z.land 15 (Z.lnot 16)) at 2. by rewrite Z.land_assoc.
Qed.

Lemma write_nothing_spec d c t s :
  wf_ok s -> is_Some (wf_ctx s) -> conn_at d s = Some c ->
  pend_bytes d s = [] -> lowlevel_buffered c = false ->
  let total := taken_bytes d s ++ pend_bytes d s in
  wp (write_nothing d t) (fun r s' => sent_in_order d total s s' /\
    (r = NGX_ERROR /\ flagged t = false \/ settled d total r s')) s.
Proof.
  intros Hok [c0 Hctx] Hc Hz Hlow total. unfold write_nothing.
  assert (Hsame : sent_in_order d total s s) by (split_and!; try done; by exists (pend_bytes d s)).
  fold (flagged t). destruct (flagged t) eqn:Hfl; [|apply wp_ret; split; [done|by left]].
  apply wp_bind. eapply done_wp; [by eapply run_get_out|]. cbv beta. fold (pend d s).
  apply wp_bind. eapply done_wp.
  { rewrite <- (app_nil_r (pend d s)). apply free_until_run. rewrite app_nil_r.
    destruct (ok_links s Hok d) as [Hnd _]. by apply list.NoDup_app in Hnd as [? _]. }
  cbv beta. apply wp_bind, wp_modify. cbv beta.
  destruct (keep_rest d (pend d s) [] c0 s (ok_links s Hok)) as (K1 & K2 & K3 & K4 & K5 & K6);
    [done|by rewrite app_nil_r|].
  set (s2 := _ <| wf_ctx ::= _ |>) in *.
  assert (Hok2 : wf_ok s2) by (apply (rest_saved d (pend d s) [] s s); rewrite ?app_nil_r; done).
  assert (Ht2 : taken_bytes d s2 ++ pend_bytes d s2 = total).
  { unfold total, pend_bytes. rewrite K3. unfold taken_bytes. rewrite (K6 d).
    unfold pend_bytes in Hz. by rewrite Hz. }
  assert (Hc2 : conn_at d s2 = Some c) by (rewrite <- Hc; by destruct d).
  apply wp_bind. destruct (on_conn_run d (fun c => c <| w_buffered ::=
    fun x => Z.land x (Z.lnot NGX_NSOC_WRITE_BUFFERED) |>) s2) as (s3 & R1 & R2 & R3 & R4 & R5).
  eapply done_wp; [exact R1|]. cbv beta. specialize (R5 _ Hc2). apply wp_ret. split.
  - eapply sent_in_order_conn; [|done]. split_and!; [by exists (pend_bytes d s2)| | |].
    + unfold pend at 1. by rewrite K4.
    + unfold pend_bytes at 1, pend. by rewrite K4.
    + unfold taken_bytes. by rewrite (K6 (negb d)).
  - right. replace NGX_OK with (if false || lowlevel_buffered
      (c <| w_buffered ::= fun x => Z.land x (Z.lnot NGX_NSOC_WRITE_BUFFERED) |>)
      then NGX_AGAIN else NGX_OK) by (by rewrite lowlevel_clear, Hlow).
    apply (finish_settled d total s2 s3 _ false Hok2 Ht2 ltac:(done) R5 (testbit_clear _)). by rewrite K3.
Qed.

(** ** A whole call *)

(** The chain a caller passes in: its buffers have data or a flag, and neither
    they nor the bytes behind them are in a saved chain already. *)
Definition input_ok d (ins : list link) s : Prop :=
  Forall (sound (wf_heap s)) ins /\ NoDup (map l_buf (pend d s ++ ins)) /\
  apart (wf_heap s) ins (pend (negb d) s).

(** Nothing a caller can see changed, except that the context may be new. *)
Definition unseen s s' : Prop :=
  wf_heap s' = wf_heap s /\ (forall e, out_chain e s' = out_chain e s) /\
  (forall e, conn_at e s' = conn_at e s) /\ same_accepted (wf_world s) (wf_world s').

Lemma unseen_views s s' : unseen s s' -> forall e,
  pend e s' = pend e s /\ pend_bytes e s' = pend_bytes e s /\ taken_bytes e s' = taken_bytes e s.
Proof.
  intros (H1 & H2 & _ & H4) e. unfold pend_bytes, pend, taken_bytes. by rewrite H1, H2, H4.
Qed.

Lemma filter_ctx_spec s :
  wf_ok s -> wp filter_ctx (fun ok s' => unseen s s' /\ wf_ok s' /\
    if (ok : bool) then is_Some (wf_ctx s') else pool_fails) s.
Proof.
  intros Hok. unfold filter_ctx. apply wp_bind, wp_gets. destruct (wf_ctx s) as [c|] eqn:Hc.
  { apply wp_ret. split; [done|split; [done|]]. by rewrite Hc. }
  unfold wp, pool_fails. destruct (pool_object (wf_world s)) as [ok w] eqn:Hp.
  destruct (pool_object_chains _ _ _ Hp) as [Hl Ha].
  destruct ok; [|split; [done|split; [by apply (wf_ok_views s)|by left; eexists _, _]]].
  assert (Ho : forall e, out_chain e (s <| wf_world := w |> <| wf_ctx :=
    Some (WriteFilterCtx (Saved [] false) (Saved [] false)) |>) = out_chain e s).
  { intros e. unfold out_chain. rewrite Hc. by destruct e. }
  split; [by split_and!|]. split; [by apply (wf_ok_views s)|by eexists].
Qed.

Lemma sent_in_order_trans d total s s1 s2 :
  (forall e, e = negb d -> pend e s1 = pend e s /\ pend_bytes e s1 = pend_bytes e s /\
    taken_bytes e s1 = taken_bytes e s) ->
  sent_in_order d total s1 s2 -> sent_in_order d total s s2.
Proof.
  intros Hv (H1 & H2 & H3 & H4). destruct (Hv (negb d) eq_refl) as (V1 & V2 & V3).
  unfold sent_in_order. by rewrite H2, H3, H4, V1, V2, V3.
Qed.

Lemma appended_views d s new s' :
  appended d s new s' -> forall e, e = negb d ->
  pend e s' = pend e s /\ pend_bytes e s' = pend_bytes e s /\ taken_bytes e s' = taken_bytes e s.
Proof.
  intros [H1 _ H3 _ _ H6 _] e ->. unfold pend_bytes, pend, taken_bytes. by rewrite H1, H6, H3.
Qed.

(** Ending the chain ([ll = NULL]) restores the invariant. *)
Lemma chain_ended d ins new s s1 :
  wf_ok s -> input_ok d ins s -> appended d s new s1 -> map l_buf new = map l_buf ins ->
  exists s2, set_out d (Saved (pend d s1) false) s1 = Done (tt, s2) /\
    wf_ok s2 /\ is_Some (wf_ctx s2) /\ (forall e, conn_at e s2 = conn_at e s) /\
    pend d s2 = pend d s ++ new /\ wf_heap s2 = wf_heap s /\
    (forall e, taken_bytes e s2 = taken_bytes e s) /\ out_chain (negb d) s2 = out_chain (negb d) s.
Proof.
  intros Hok (Hi & Hnd & Ha) [H1 H2 H3 H4 H5 H6 H7] Hm. eexists. split; [reflexivity|].
  set (s2 := _ <| wf_ctx ::= _ |>).
  assert (Ho : forall e, out_chain e s2 = if bool_decide (e = d) then Saved (pend d s1) false
    else out_chain e s1) by (intros e; by apply out_chain_set).
  assert (Hd : pend d s2 = pend d s ++ new) by (unfold pend at 1; rewrite Ho, bool_decide_true by done; done).
  assert (Hn : out_chain (negb d) s2 = out_chain (negb d) s) by (by rewrite Ho, bool_decide_negb).
  assert (Hpn : pend (negb d) s2 = pend (negb d) s) by (unfold pend; by rewrite Hn).
  assert (Hh : wf_heap s2 = wf_heap s) by done.
  assert (Hsn : Forall (sound (wf_heap s)) new).
  { clear -Hi Hm. revert ins Hi Hm. induction new as [|x new IH]; intros [|y ins] Hi Hm; try done.
    injection Hm as Hb Hm. apply list.Forall_cons in Hi as [(b & Hy & Hs) Hi].
    constructor; [|by eapply IH]. exists b. split; [|done]. unfold buf_of in *. by rewrite Hb. }
  split_and!; try done; [|destruct H4 as [c Hc]; cbn; by rewrite Hc].
  apply (wf_ok_sides d); rewrite ?Hd, ?Hpn, ?Hn, ?Hh.
  - apply (links_ok_sides d); rewrite Hd, Hpn.
    + generalize (proj1 (H7 d)). unfold pend at 2. rewrite H6. by rewrite H5.
    + intros l Hl. apply (links_ok_live s1 d); [done|]. unfold pend at 2. by rewrite H5, H6.
  - unfold out_chain in *. by rewrite Ho, bool_decide_true.
  - apply (ok_tame s Hok).
  - apply list.Forall_app. split; [apply (ok_sound s Hok)|done].
  - apply (ok_sound s Hok).
  - by rewrite map_app, Hm, <- map_app.
  - apply (ok_bufs s Hok).
  - apply apart_app. split; [apply (ok_apart s Hok)|]. by eapply apart_bufs.
Qed.

(** The causes of NGX_ERROR: memory, the connection, or nothing to do. *)
Definition refusal d (ins : list link) c s : Prop :=
  pool_fails \/ send_fails \/ w_error c = true \/ shared c = true \/
  (pend d s ++ ins = [] /\ lowlevel_buffered c = false).

Lemma nothing_flagged d ins new s :
  Forall (sound (wf_heap s)) (pend d s) -> Forall (sound (wf_heap s)) ins ->
  map l_buf new = map l_buf ins ->
  let t := totals_of (wf_heap s) ins (totals_of (wf_heap s) (pend d s) (Totals 0 false false false)) in
  t_size t = zlen (chain_bytes (wf_heap s) (pend d s ++ new)) /\
  (flagged t = false -> chain_bytes (wf_heap s) (pend d s ++ new) = [] -> pend d s ++ ins = []).
Proof.
  intros H1 H2 Hm t. set (h := wf_heap s) in *.
  rewrite chain_bytes_app, (chain_bytes_bufs h new ins Hm). split.
  - unfold t. rewrite !totals_size, zlen_app by done. cbn. lia.
  - intros Hf [Hz1 Hz2]%app_eq_nil. unfold t in Hf.
    destruct (pend d s) as [|x l] eqn:Hp; [destruct ins as [|y ins]; [done|]|].
    + by rewrite totals_flagged in Hf.
    + rewrite flagged_mono in Hf; [done|]. by apply totals_flagged.
Qed.

Lemma filter_tail d ins c t s s2 new :
  wf_ok s2 -> is_Some (wf_ctx s2) -> conn_at d s2 = Some c ->
  pend d s2 = pend d s ++ new -> wf_heap s2 = wf_heap s ->
  t_size t = zlen (chain_bytes (wf_heap s) (pend d s ++ new)) ->
  (flagged t = false -> chain_bytes (wf_heap s) (pend d s ++ new) = [] -> pend d s ++ ins = []) ->
  wp (c ← filter_conn d;
      if (t_size t =? 0) && negb (lowlevel_buffered c) && negb (t_last t && need_last_buf c)
      then write_nothing d t else write_chain d)
    (fun r s' => sent_in_order d (taken_bytes d s2 ++ pend_bytes d s2) s2 s' /\
      (r = NGX_ERROR /\ refusal d ins c s \/
       settled d (taken_bytes d s2 ++ pend_bytes d s2) r s')) s2.
Proof.
  intros Hok Hctx Hc Hp Hh Hz Hfl. apply wp_bind. eapply done_wp; [by apply run_filter_conn|]. cbv beta.
  destruct (_ && _) eqn:Hcase.
  - apply andb_true_iff in Hcase as [[Hsz%Z.eqb_eq Hlow%negb_true_iff]%andb_true_iff _].
    rewrite Hsz in Hz. symmetry in Hz. apply zlen_nil_inv in Hz.
    assert (Hpb : pend_bytes d s2 = []) by (unfold pend_bytes; by rewrite Hp, Hh).
    eapply wp_mono; [by apply (write_nothing_spec d c t s2)|].
    intros r s' [Ho [[-> Hf]|Hs]]; (split; [done|]); [left|by right].
    split; [done|]. do 4 right. split; [by apply Hfl|done].
  - eapply wp_mono; [by apply (write_chain_spec d c s2)|].
    intros r s' [Ho [[-> Hf]|Hs]]; (split; [done|]); [left|by right].
    split; [done|]. unfold refusal. tauto.
Qed.

(** The bytes a call has to deal with: taken, saved and new. *)
Definition all_bytes d ins s : list Z :=
  taken_bytes d s ++ pend_bytes d s ++ chain_bytes (wf_heap s) ins.

Lemma filter_append d ins c s :
  wf_ok s -> is_Some (wf_ctx s) -> conn_at d s = Some c -> input_ok d ins s ->
  wp (t ← add_new d ins (totals_of (wf_heap s) (pend d s) (Totals 0 false false false));
      match t with
      | None => mret NGX_ERROR
      | Some t =>
          x ← get_out d;
          set_out d (Saved (s_links x) false);;
          c ← filter_conn d;
          if (t_size t =? 0) && negb (lowlevel_buffered c) && negb (t_last t && need_last_buf c)
          then write_nothing d t else write_chain d
      end)
    (fun r s' => sent_in_order d (all_bytes d ins s) s s' /\
      (r = NGX_ERROR /\ refusal d ins c s \/ settled d (all_bytes d ins s) r s')) s.
Proof.
  intros Hok Hctx Hc Hin. pose proof Hin as (Hi & Hnd & Ha).
  apply wp_bind. eapply wp_mono; [by apply add_new_spec; [apply Hok|..]|].
  intros t s1 (new & Hap & Ht). destruct t as [t|].
  - destruct Ht as [Hm ->].
    destruct (chain_ended d ins new s s1 Hok Hin Hap Hm)
      as (s2 & R & Hok2 & Hctx2 & Hc2 & Hp2 & Hh2 & Ht2 & Ho2).
    destruct (ap_ctx _ _ _ _ Hap) as [c1 Hc1].
    apply wp_bind. eapply done_wp; [by eapply run_get_out|]. cbv beta. fold (pend d s1).
    apply wp_bind. eapply done_wp; [exact R|]. cbv beta.
    destruct (nothing_flagged d ins new s (ok_sound s Hok d) Hi Hm) as [Hz Hfl].
    assert (Htot : taken_bytes d s2 ++ pend_bytes d s2 = all_bytes d ins s).
    { unfold all_bytes. rewrite Ht2. f_equal. unfold pend_bytes. rewrite Hp2, Hh2, chain_bytes_app.
      by rewrite (chain_bytes_bufs _ new ins Hm). }
    rewrite <- Htot. eapply wp_mono.
    { eapply (filter_tail d ins c); try done. by rewrite Hc2. }
    intros r s' [Ho Hr]. split; [|done]. eapply sent_in_order_trans; [|exact Ho].
    intros e ->. unfold pend_bytes, pend. by rewrite Ho2, Hh2, Ht2.
  - apply wp_ret. split; [|left; split; [done|by left]].
    split_and!; [|apply (appended_views _ _ _ _ Hap); done..].
    unfold taken_bytes at 1. rewrite (ap_accepted _ _ _ _ Hap). by eexists.
Qed.

(** The same state but for the context and the pool. *)
Lemma unseen_all d ins c s s0 :
  unseen s s0 -> all_bytes d ins s0 = all_bytes d ins s /\
  (input_ok d ins s -> input_ok d ins s0) /\ (refusal d ins c s0 -> refusal d ins c s) /\
  (forall s', sent_in_order d (all_bytes d ins s) s0 s' -> sent_in_order d (all_bytes d ins s) s s').
Proof.
  intros Hun. pose proof (unseen_views s s0 Hun) as Hv. destruct Hun as (U1 & U2 & U3 & U4).
  unfold all_bytes, input_ok, refusal. destruct (Hv d) as (V1 & V2 & V3), (Hv (negb d)) as (N1 & N2 & N3).
  rewrite V1, V2, V3, N1, U1. split_and!; try done.
  intros s'. apply sent_in_order_trans. intros e ->. apply Hv.
Qed.

(** C9: a call of the write filter keeps every byte and its order.  Whatever it
    returns, the bytes the connection has taken continue the earlier ones with the
    saved and then the new chain, and the other direction is as before.  If it does not
    fail, taken and saved bytes together are all of them, the bit of the
    connection says whether something is saved, and the result is NGX_OK exactly when
    nothing is left here or below; it fails only for lack of memory, for a failing,
    failed or shared connection, or when there was nothing to do. *)
Theorem write_filter_conserves d ins c s :
  wf_ok s -> conn_at d s = Some c -> input_ok d ins s ->
  exists r s', ngx_nsoc_write_filter ins d s = Done (r, s') /\
    sent_in_order d (all_bytes d ins s) s s' /\
    (r = NGX_ERROR /\ refusal d ins c s \/ settled d (all_bytes d ins s) r s').
Proof.
  intros Hok Hc Hin. apply wp_done. unfold ngx_nsoc_write_filter. apply wp_bind.
  eapply wp_mono; [by apply filter_ctx_spec|]. intros ok s0 (Hun & Hok0 & Hctx).
  destruct (unseen_all d ins c s s0 Hun) as (Hall & Hin0 & Hre & Ho).
  assert (Herr : refusal d ins c s -> sent_in_order d (all_bytes d ins s) s s0 /\
    (NGX_ERROR = NGX_ERROR /\ refusal d ins c s \/ settled d (all_bytes d ins s) NGX_ERROR s0)).
  { intros why. split; [|by left]. apply Ho. rewrite <- Hall. split_and!; try done. by eexists. }
  destruct ok; [|apply wp_ret, Herr; by left]. cbn [negb]. apply wp_bind.
  pose proof Hun as (U1 & U2 & U3 & U4).
  eapply done_wp; [apply run_filter_conn; by rewrite U3|]. cbv beta.
  destruct (w_error c) eqn:He; [apply wp_ret, Herr; unfold refusal; tauto|].
  destruct (Hctx) as [c0 Hctx0]. apply wp_bind. eapply done_wp; [by eapply run_get_out|]. cbv beta.
  fold (pend d s0). apply wp_bind.
  eapply done_wp; [apply scan_saved_run, (ok_sound s0 Hok0)|]. cbv beta.
  rewrite (ok_tame s0 Hok0 d). eapply wp_mono.
  { apply (filter_append d ins c s0 Hok0 Hctx); [by rewrite U3|by apply Hin0]. }
  rewrite Hall. intros r s' [H1 H2]. split; [by apply Ho|]. destruct H2 as [[-> H2]|H2]; auto.
Qed.
End FilterProofs.

(** ** A world that computes

    A pool that never runs out and connections that take [quota] links of a chain
    and no more. *)

Record dworld := DWorld { dw_live : list Z; dw_down : list Z; dw_up : list Z; dw_quota : nat }.
#[export] Instance eta_dworld : Eta dworld := fun r =>
  DWorld (dw_live r) (dw_down r) (dw_up r) (dw_quota r).

Definition fresh_id (l : list Z) : Z := 1 + foldr Z.max 0 l.

Definition give (d : bool) (bs : list Z) (w : dworld) : dworld :=
  if d then w <| dw_down ::= fun x => x ++ bs |> else w <| dw_up ::= fun x => x ++ bs |>.

Definition dw_pool : NgxPool dworld := {|
  pool_object w := (true, w);
  pool_bytes n w := (Some (replicate (Z.to_nat n) 0), w);
|}.
Definition dw_chains : NgxChains dworld := {|
  alloc_chain_link w :=
    let i := fresh_id (dw_live w) in (Some i, w <| dw_live ::= cons i |>);
  free_chain i w := w <| dw_live ::= filter (fun j => j <> i) |>;
  conn_send_chain d l _ := fun '(c, h, w) =>
    Done (Some (drop (dw_quota w) l),
      (c, h, give d (@chain_bytes plain_bufs h (take (dw_quota w) l)) w));
|}.
Definition dw_spec : NgxChainsSpec dworld := {|
  accepted d w := if d then dw_down w else dw_up w;
  link_live w i := i ∈ dw_live w;
|}.

Lemma fresh_id_fresh l : ~ fresh_id l ∈ l.
Proof.
  intros H. assert (Hle : forall i, i ∈ l -> i <= foldr Z.max 0 l).
  { clear. induction l as [|x l IH]; intros i Hi; [by apply elem_of_nil in Hi|]. cbn.
    apply elem_of_cons in Hi as [-> |Hi]; [lia|]. specialize (IH i Hi). lia. }
  specialize (Hle _ H). unfold fresh_id in Hle. lia.
Qed.

Lemma accepted_give d bs w :
  accepted (NgxChainsSpec := dw_spec) d (give d bs w) = accepted (NgxChainsSpec := dw_spec) d w ++ bs /\
  accepted (NgxChainsSpec := dw_spec) (negb d) (give d bs w) = accepted (NgxChainsSpec := dw_spec) (negb d) w /\
  dw_live (give d bs w) = dw_live w.
Proof. by destruct d. Qed.

Lemma dw_laws : @NgxChainsLaws dworld dw_pool plain_bufs dw_chains dw_spec.
Proof.
  split.
  - intros w ok w' [= _ <-]. done.
  - intros w i w' [= <- <-]. split; [apply fresh_id_fresh|]. split; [|done].
    intros j. cbn. by rewrite elem_of_cons.
  - done.
  - intros i w. split; [|done]. intros j. cbn. by rewrite list_elem_of_filter.
  - intros d l c h w Hs Hn. eexists _, _, _, _. split; [reflexivity|].
    destruct (accepted_give d (@chain_bytes plain_bufs h (take (dw_quota w) l)) w) as (A1 & A2 & A3).
    split; [by split_and!|]. split; [intros i; cbn; by rewrite A3|]. split; [exact A2|].
    split; [done|]. split; [exists (take (dw_quota w) l); by rewrite take_drop|].
    split; [by apply Forall_drop|]. rewrite A1, <- app_assoc, <- chain_bytes_app. by rewrite take_drop.
Qed.

Section Demo.
#[local] Existing Instances dw_pool plain_bufs dw_chains dw_spec plain_bufs_laws dw_laws.

(** One link is saved, [1;2;3]; another with [4;5] comes in; one can be sent. *)
Definition demo_heap : heap := Heap
  (list_to_map [(1, [0; 1; 2; 3]); (2, [4; 5])])
  (list_to_map [(1, mem_buf 1 1 4 4); (2, mem_buf 2 0 2 2)]).
Definition demo_conn : wconn := WConn false 0 false false.
Definition demo_wf : wf dworld :=
  Wf (Some (WriteFilterCtx (Saved [Link 1 1] false) (Saved [] false))) demo_conn None demo_heap
    (DWorld [1] [] [] 1).

Lemma demo_sound l : l = Link 1 1 \/ l_buf l = 2 -> sound demo_heap l.
Proof.
  intros [-> |H]; [exists (mem_buf 1 1 4 4)|exists (mem_buf 2 0 2 2)]; unfold buf_of; rewrite ?H;
    (split; [reflexivity|]); right; split_and!; try done; by eexists.
Qed.

Lemma demo_wf_ok : wf_ok demo_wf.
Proof.
  apply (wf_ok_sides true); try done.
  - apply (links_ok_sides true); [apply NoDup_singleton|].
    intros l Hl. apply list_elem_of_singleton in Hl as ->. left.
  - constructor; [|constructor]. apply demo_sound. by left.
  - apply (bool_decide_unpack _). reflexivity.
  - apply (bool_decide_unpack _). reflexivity.
  - split; intros i _ Hi; by apply elem_of_nil in Hi.
Qed.

Lemma demo_input : input_ok true [Link 9 2] demo_wf.
Proof.
  split_and!.
  - constructor; [|constructor]. apply demo_sound. by right.
  - apply (bool_decide_unpack _). reflexivity.
  - split; intros i _ Hi; by apply elem_of_nil in Hi.
Qed.

Lemma write_filter_conserves_witness :
  wf_ok demo_wf /\ conn_at true demo_wf = Some demo_conn /\ input_ok true [Link 9 2] demo_wf /\
  all_bytes true [Link 9 2] demo_wf = [1; 2; 3; 4; 5] /\
  exists r s', ngx_nsoc_write_filter [Link 9 2] true demo_wf = Done (r, s') /\
    sent_in_order true (all_bytes true [Link 9 2] demo_wf) demo_wf s' /\
    (r = NGX_ERROR /\ refusal true [Link 9 2] demo_conn demo_wf \/
     settled true (all_bytes true [Link 9 2] demo_wf) r s').
Proof.
  split; [exact demo_wf_ok|]. split; [reflexivity|]. split; [exact demo_input|].
  split; [reflexivity|].
  exact (write_filter_conserves true [Link 9 2] demo_conn demo_wf demo_wf_ok eq_refl demo_input).
Defined.

(** The run itself: three bytes are taken, two saved under a new link. *)
Example demo_filter :
  match ngx_nsoc_write_filter [Link 9 2] true demo_wf with
  | Done (r, s') => r = NGX_AGAIN /\ taken_bytes true s' = [1; 2; 3] /\
      pend_bytes true s' = [4; 5] /\ map l_buf (pend true s') = [2]
  | _ => False
  end.
Proof. vm_compute. done. Qed.
End Demo.
