(* ===== verification/Proxy.v ===== *)
(** * The proxy: connecting to a peer, trying the next one, giving up

    The part of ngx_nsoc_proxy_module.c that owns the connection to the upstream.
    Its functions call each other only as the last thing they do, so each is a
    definition that answers the call it ends with ([call]), and [run] makes these
    calls one after the other.  The data pump, [ngx_nsoc_proxy_process], is one of
    them and a parameter here; it is modelled in Pump.

    The balancer is used through the interface [Balancer], the function pointers
    [get], [free] and [notify] of [u->peer]; RoundRobin is an instance of it and of
    its laws.  Noise handshakes with a peer are those of Handshake. *)

From stdpp Require Import prelude list numbers gmap.
From S2P Require Import Prelude RoundRobin NoiseConn Handshake Session Chain WriteFilter.

(** ** The interface to a balancer *)

Class Balancer (P : Type) := {
  peer_get : Z -> M P Z;
  peer_free : Z -> Z -> M P unit;
  peer_notify : Z -> M P unit;
  peer_pc : P -> peer_connection;
  set_peer_pc : (peer_connection -> peer_connection) -> P -> P;
}.

(** ** State *)

(** What an event calls. *)
Inductive ev_fn := ConnectHandler | UpstreamHandler | DownstreamHandler | NoFn.

(** The fields of [ngx_event_t] the proxy uses besides those of [event]. *)
Record evx := Evx { timedout : bool; delayed : bool; fn : ev_fn }.
#[export] Instance eta_evx : Eta evx := fun r => Evx (timedout r) (delayed r) (fn r).

Inductive nodelay := NGX_TCP_NODELAY_UNSET | NGX_TCP_NODELAY_SET | NGX_TCP_NODELAY_DISABLED.

(** A connection: what the handshake uses of it, and the rest. *)
Record endpoint := Endpoint {
  e_conn : conn;
  e_type : Z;
  tcp_nodelay : nodelay;
  e_rx : evx;
  e_wx : evx;
}.
#[export] Instance eta_endpoint : Eta endpoint := fun r =>
  Endpoint (e_conn r) (e_type r) (tcp_nodelay r) (e_rx r) (e_wx r).

(** [ngx_nsoc_upstream_state_t] *)
Record upstream_state := UpstreamState {
  response_time : Z;
  connect_time : Z;
  first_byte_time : Z;
  bytes_sent : Z;
  bytes_received : Z;
  st_peer : option (list Z);
}.
#[export] Instance eta_upstream_state : Eta upstream_state := fun r =>
  UpstreamState (response_time r) (connect_time r) (first_byte_time r) (bytes_sent r)
    (bytes_received r) (st_peer r).

Definition SOCK_DGRAM : Z := 2.
Definition NGX_MAX_INT32_VALUE : Z := 2 ^ 31 - 1.

(** [ngx_nsoc_proxy_srv_conf_t], and [tcp_nodelay] of the core module. *)
Record proxy_conf := ProxyConf {
  connect_timeout : Z;
  proxy_timeout : Z;
  next_upstream_timeout : Z;
  proxy_buffer_size : Z;
  upload_rate : Z;
  download_rate : Z;
  conf_responses : Z;
  next_upstream_tries : Z;
  next_upstream : bool;
  proxy_noise : option noise_t;
  conf_tcp_nodelay : bool;
}.

(** A zeroed [ngx_buf_t]: its pointers are NULL, the object at address 0. *)
Definition null_buf : cbuf := CBuf 0 0 0 0 0 false false false false false false false 0 0.

(** The session as the proxy sees it.  [x_wf] holds the chains of the write
    filter, the output side of both connections, the buffers and the world; [x_bal]
    is [u->peer] with its balancer; [u->state] points at the last element of
    [x_states] when [x_state] is set; [x_final] is the code the session was
    finalized with. *)
Record px (HS CS W P : Type) := Px {
  x_wf : wf W;
  x_client : endpoint;
  x_preread : option Z;
  x_peer : option endpoint;
  x_noise : nsoc_session HS CS;
  x_prologue : prologue_data;
  x_noise_waits : bool;
  x_bal : P;
  x_start_time : Z;
  x_connected : bool;
  x_states : list upstream_state;
  x_state : bool;
  x_upstream_buf : cbuf;
  x_downstream_buf : cbuf;
  x_free : list link;
  x_upstream_out : list link;
  x_upstream_busy : list link;
  x_downstream_out : list link;
  x_downstream_busy : list link;
  x_received : Z;
  x_ureceived : Z;
  x_start_sec : Z;
  x_responses : Z;
  x_resolving : bool;
  x_final : option Z;
}.
Arguments Px {HS CS W P}.
Arguments x_wf {HS CS W P}.
Arguments x_client {HS CS W P}.
Arguments x_preread {HS CS W P}.
Arguments x_peer {HS CS W P}.
Arguments x_noise {HS CS W P}.
Arguments x_prologue {HS CS W P}.
Arguments x_noise_waits {HS CS W P}.
Arguments x_bal {HS CS W P}.
Arguments x_start_time {HS CS W P}.
Arguments x_connected {HS CS W P}.
Arguments x_states {HS CS W P}.
Arguments x_state {HS CS W P}.
Arguments x_upstream_buf {HS CS W P}.
Arguments x_downstream_buf {HS CS W P}.
Arguments x_free {HS CS W P}.
Arguments x_upstream_out {HS CS W P}.
Arguments x_upstream_busy {HS CS W P}.
Arguments x_downstream_out {HS CS W P}.
Arguments x_downstream_busy {HS CS W P}.
Arguments x_received {HS CS W P}.
Arguments x_ureceived {HS CS W P}.
Arguments x_start_sec {HS CS W P}.
Arguments x_responses {HS CS W P}.
Arguments x_resolving {HS CS W P}.
Arguments x_final {HS CS W P}.
#[export] Instance eta_px HS CS W P : Eta (px HS CS W P) := fun r =>
  Px (x_wf r) (x_client r) (x_preread r) (x_peer r) (x_noise r) (x_prologue r) (x_noise_waits r)
    (x_bal r) (x_start_time r) (x_connected r) (x_states r) (x_state r) (x_upstream_buf r)
    (x_downstream_buf r) (x_free r) (x_upstream_out r) (x_upstream_busy r) (x_downstream_out r)
    (x_downstream_busy r) (x_received r) (x_ureceived r) (x_start_sec r) (x_responses r)
    (x_resolving r) (x_final r).

(** What the proxy calls in nginx core: clocks, posted events, socket options, the
    closing of a connection, a buffer from the session's free list. *)
Class NgxCore (W : Type) := {
  now_msec : W -> Z;
  now_sec : W -> Z;
  os_post_event : event -> W -> W;
  os_set_nodelay : conn -> W -> bool * W;
  os_socket_error : conn -> W -> Z * W;
  os_close_connection : conn -> W -> W;
  get_free_buf : list link -> heap -> W -> option link * list link * heap * W;
}.

(** [ngx_event_connect_peer]: the result, the connection with its output side, the
    balancer it asked, the world. *)
Class NgxConnect (P W : Type) :=
  ngx_event_connect_peer : P -> W -> outcome (Z * option (endpoint * wconn) * P * W).

(** The calls a function can end with. *)
Inductive call :=
| CConnect
| CInitUpstream
| CNoiseInit
| CNoiseHandshake
| CProcess (from_upstream do_write : bool)
| CNextUpstream
| CFinalize (rc : Z).

(** ** The functions *)

Section Proxy.
Context {HS CS W P : Type} {NL : NoiseLib HS CS} {OS : NgxOs W} {PO : NgxPool W}
  {CO : NgxCore W} {BA : Balancer P} {CN : NgxConnect P W}.
Abbreviation PM := (M (px HS CS W P)).
Context (pscf : proxy_conf).

Definition x_world (s : px HS CS W P) : W := wf_world (x_wf s).
Definition on_world {A} (f : W -> A * W) : PM A := fun s =>
  let '(a, w) := f (x_world s) in Done (a, s <| x_wf ::= fun f => f <| wf_world := w |> |>).

Definition get_peer : PM endpoint := e ← gets x_peer; mderef e.
Definition on_peer (f : endpoint -> endpoint) : PM unit := modify (fun s => s <| x_peer ::= fmap f |>).
Definition on_bal {A} (m : M P A) : PM A := fun s =>
  match m (x_bal s) with
  | Done (a, b) => Done (a, s <| x_bal := b |>)
  | Undefined => Undefined
  | OutOfFuel => OutOfFuel
  end.

(** A timer call on the write event of the peer's connection. *)
Definition on_peer_write (f : event -> W -> event * W) : PM unit := fun s =>
  match x_peer s with
  | None => Undefined
  | Some e =>
      let '(ev, w) := f (write (e_conn e)) (x_world s) in
      Done (tt, s <| x_peer := Some (e <| e_conn ::= fun x => x <| write := ev |> |>) |>
                  <| x_wf ::= fun f => f <| wf_world := w |> |>)
  end.

(** [pc->read->handler = pc->write->handler = f]; the handler of a handshake is
    replaced. *)
Definition set_peer_handlers (f : ev_fn) : PM unit := on_peer (fun e =>
  e <| e_conn ::= fun x => x <| read ::= (fun v => v <| handler := OtherHandler |>) |>
                             <| write ::= (fun v => v <| handler := OtherHandler |>) |> |>
    <| e_rx ::= fun v => v <| fn := f |> |> <| e_wx ::= fun v => v <| fn := f |> |>).

(** [u->state->f = v]: the last element of the array, unless [u->state] is NULL. *)
Definition on_state (f : upstream_state -> upstream_state) : PM unit := fun s =>
  if x_state s then Done (tt, s <| x_states ::= fun l => alter f (length l - 1)%nat l |>)
  else Undefined.

Definition response_since (now : Z) (st : upstream_state) : Z := u64 (now - response_time st).

(** A new element of [s->upstream_states]; the answer is whether there was memory. *)
Definition proxy_new_state : PM bool :=
  x_connected ::=! false;;
  has ← gets x_state;
  now ← gets (fun s => now_msec (x_world s));
  (if (has : bool) then on_state (fun st => st <| response_time := response_since now st |>)
   else mret tt);;
  ok ← on_world pool_object;
  x_state ::=! ok;;
  (if (ok : bool)
   then modify (fun s => s <| x_states ::= fun l =>
          l ++ [UpstreamState now (2 ^ 64 - 1) (2 ^ 64 - 1) 0 0 None] |>)
   else mret tt);;
  mret ok.

Definition connect_peer : PM Z := fun s =>
  match ngx_event_connect_peer (x_bal s) (x_world s) with
  | Done (rc, o, b, w) =>
      Done (rc, s <| x_bal := b |> <| x_peer := fst <$> o |>
        <| x_wf ::= fun f => f <| wf_up := snd <$> o |> <| wf_world := w |> |>)
  | Undefined => Undefined
  | OutOfFuel => OutOfFuel
  end.

(** ngx_nsoc_proxy_connect *)
Definition ngx_nsoc_proxy_connect : PM (option call) :=
  ok ← proxy_new_state;
  if negb ok then mret (Some (CFinalize NGX_NSOC_INTERNAL_SERVER_ERROR)) else
  rc ← connect_peer;
  if rc =? NGX_ERROR then mret (Some (CFinalize NGX_NSOC_INTERNAL_SERVER_ERROR)) else
  name ← gets (fun s => pc_name (peer_pc (x_bal s)));
  on_state (fun st => st <| st_peer := name |>);;
  if rc =? NGX_BUSY then mret (Some (CFinalize NGX_NSOC_BAD_GATEWAY)) else
  if rc =? NGX_DECLINED then mret (Some CNextUpstream) else
  get_peer;;
  if negb (rc =? NGX_AGAIN) then mret (Some CInitUpstream) else
  set_peer_handlers ConnectHandler;;
  on_peer_write (fun ev w => os_add_timer ev (connect_timeout pscf) w);;
  mret None.

(** [pc->tcp_nodelay]; the answer is whether the setsockopt call succeeded. *)
Definition proxy_set_nodelay : PM bool :=
  pc ← get_peer;
  match tcp_nodelay pc with
  | NGX_TCP_NODELAY_UNSET =>
      if (e_type pc =? SOCK_STREAM) && conf_tcp_nodelay pscf then
        ok ← on_world (os_set_nodelay (e_conn pc));
        (if (ok : bool) then on_peer (fun e => e <| tcp_nodelay := NGX_TCP_NODELAY_SET |>) else mret tt);;
        mret ok
      else mret true
  | _ => mret true
  end.

(** The memory behind [u->upstream_buf]: an object of its own. *)
Definition new_addr {A} (m : gmap Z A) : Z := 1 + map_fold (fun k _ a => Z.max k a) 0 m.

Definition proxy_buf_size : Z :=
  proxy_buffer_size pscf + NOISE_PROTOCOL_MAC_DATA_SIZE + 2 * NGX_NSOC_LEN_FIELD_SIZE.

Definition alloc_upstream_buf : PM bool :=
  b ← gets x_upstream_buf;
  if negb (cb_obj b =? 0) then mret true else
  bs ← on_world (pool_bytes proxy_buf_size);
  match bs with
  | None => mret false
  | Some bs =>
      o ← gets (fun s => new_addr (objs (wf_heap (x_wf s))));
      modify (fun s => s <| x_wf ::= fun f => f <| wf_heap ::= set_obj o bs |> |>
        <| x_upstream_buf := null_buf <| cb_obj := o |> <| cb_end := proxy_buf_size |> |>);;
      mret true
  end.

(** [ngx_chain_get_free_buf(c->pool, &u->free)] *)
Definition proxy_free_buf : PM (option link) := fun s =>
  let '(cl, free, h, w) := get_free_buf (x_free s) (wf_heap (x_wf s)) (x_world s) in
  Done (cl, s <| x_free := free |> <| x_wf ::= fun f => f <| wf_heap := h |> <| wf_world := w |> |>).

(** The data read before the content phase goes out first. *)
Definition push_preread (b : cbuf) : PM bool :=
  cl ← proxy_free_buf;
  match cl with
  | None => mret false
  | Some cl =>
      ty ← gets (fun s => e_type (x_client s));
      modify (fun s => s
        <| x_wf ::= fun f => f <| wf_heap ::= set_buf (l_buf cl)
             (b <| flush := true |> <| last_buf := ty =? SOCK_DGRAM |>) |> |>
        <| x_upstream_out ::= cons cl |>);;
      mret true
  end.

Definition preread_first : PM bool :=
  o ← gets x_preread;
  match o with
  | None => mret true
  | Some i =>
      b ← gets (fun s => bufs (wf_heap (x_wf s)) !! i);
      b ← mderef b;
      if cb_pos b <? cb_last b then push_preread b else mret true
  end.

(** ngx_nsoc_proxy_init_upstream *)
Definition ngx_nsoc_proxy_init_upstream : PM (option call) :=
  ok ← proxy_set_nodelay;
  if negb ok then mret (Some CNextUpstream) else
  pc ← get_peer;
  nc ← gets (fun s => client_noise_connection (x_noise s));
  if (e_type pc =? SOCK_STREAM) && bool_decide (is_Some (proxy_noise pscf)) && bool_decide (nc = None)
  then mret (Some CNoiseInit)
  else
  now ← gets (fun s => now_msec (x_world s));
  on_state (fun st => st <| connect_time := response_since now st |>);;
  on_bal (peer_notify NGX_NSOC_UPSTREAM_NOTIFY_CONNECT);;
  ok ← alloc_upstream_buf;
  if negb ok then mret (Some (CFinalize NGX_NSOC_INTERNAL_SERVER_ERROR)) else
  ok ← preread_first;
  if negb ok then mret (Some (CFinalize NGX_NSOC_INTERNAL_SERVER_ERROR)) else
  ty ← gets (fun s => e_type (x_client s));
  (if (ty =? SOCK_DGRAM) && (conf_responses pscf =? 0)
   then on_peer (fun e => e <| e_conn ::= fun x =>
     x <| read ::= fun v => v <| ready := false |> <| eof := true |> |> |>)
   else mret tt);;
  x_connected ::=! true;;
  set_peer_handlers UpstreamHandler;;
  pc ← get_peer;
  (if ready (read (e_conn pc)) || eof (read (e_conn pc))
   then on_world (fun w => (tt, os_post_event (read (e_conn pc)) w)) else mret tt);;
  mret (Some (CProcess false true)).

(** Run a function of the Noise handler on the peer's connection. *)
Definition on_noise {A} (m : M (sess HS CS W) A) : PM A := fun s =>
  match x_peer s with
  | None => Undefined
  | Some e =>
      match m (Sess (e_conn e) (x_noise s) (x_prologue s) (x_world s)) with
      | Done (a, st) =>
          Done (a, s <| x_peer := Some (e <| e_conn := sc st |>) |> <| x_noise := ss st |>
                     <| x_prologue := sp st |> <| x_wf ::= fun f => f <| wf_world := sw st |> |>)
      | Undefined => Undefined
      | OutOfFuel => OutOfFuel
      end
  end.

(** ngx_nsoc_proxy_noise_init_connection.  [fuel] is that of the handshake. *)
Definition ngx_nsoc_proxy_noise_init_connection (fuel : nat) : PM (option call) :=
  pc ← get_peer;
  noise ← mderef (proxy_noise pscf);
  rc ← (fun s =>
    match ngx_nsoc_create_connection noise (e_conn pc)
            (Z.lor NGX_NSOC_BUFFER NGX_NSOC_CLIENT) (x_noise s) (x_world s) with
    | Done (rc, n, w) =>
        Done (rc, s <| x_noise := n |> <| x_prologue := n_prologue noise |>
                    <| x_wf ::= fun f => f <| wf_world := w |> |>)
    | Undefined => Undefined
    | OutOfFuel => OutOfFuel
    end);
  if negb (rc =? NGX_OK) then mret (Some (CFinalize NGX_NSOC_INTERNAL_SERVER_ERROR)) else
  rc ← on_noise (ngx_nsoc_handshake fuel);
  if rc =? NGX_AGAIN then x_noise_waits ::=! true;; mret None
  else mret (Some CNoiseHandshake).

(** ngx_nsoc_proxy_noise_handshake *)
Definition ngx_nsoc_proxy_noise_handshake : PM (option call) :=
  nc ← gets (fun s => client_noise_connection (x_noise s));
  nc ← mderef nc;
  if handshaked nc then
    pc ← get_peer;
    (if timer_set (write (e_conn pc)) then on_peer_write (fun ev w => os_del_timer ev w) else mret tt);;
    mret (Some CInitUpstream)
  else mret (Some CNextUpstream).

(** [u->peer.free(&u->peer, u->peer.data, state); u->peer.sockaddr = NULL] *)
Definition release_peer (state : Z) : PM unit :=
  now ← gets (fun s => now_sec (x_world s));
  on_bal (peer_free now state);;
  modify (fun s => s <| x_bal ::= set_peer_pc (fun pc => pc <| pc_sockaddr := None |>) |>).

Definition release_if_held (state : Z) : PM unit :=
  pc ← gets (fun s => peer_pc (x_bal s));
  match pc_sockaddr pc with
  | Some _ => release_peer state
  | None => mret tt
  end.

(** [ngx_close_connection(pc); u->peer.connection = NULL] *)
Definition close_peer : PM unit :=
  pc ← get_peer;
  on_world (fun w => (tt, os_close_connection (e_conn pc) w));;
  modify (fun s => s <| x_peer := None |> <| x_wf ::= fun f => f <| wf_up := None |> |>
    <| x_bal ::= set_peer_pc (fun pc => pc <| RoundRobin.connection := None |>) |>).

Definition peer_buffered (s : px HS CS W P) : bool :=
  match wf_up (x_wf s) with Some c => negb (w_buffered c =? 0) | None => false end.

(** ngx_nsoc_proxy_next_upstream *)
Definition ngx_nsoc_proxy_next_upstream : PM (option call) :=
  out ← gets x_upstream_out;
  busy ← gets x_upstream_busy;
  buffered ← gets peer_buffered;
  if negb (bool_decide (out = [])) || negb (bool_decide (busy = [])) || buffered
  then mret (Some (CFinalize NGX_NSOC_INTERNAL_SERVER_ERROR)) else
  release_if_held NGX_PEER_FAILED;;
  left_ ← gets (fun s => tries (peer_pc (x_bal s)));
  start ← gets x_start_time;
  now ← gets (fun s => now_msec (x_world s));
  let timeout := next_upstream_timeout pscf in
  if (left_ =? 0) || negb (next_upstream pscf) || (negb (timeout =? 0) && (timeout <=? u64 (now - start)))
  then mret (Some (CFinalize NGX_NSOC_BAD_GATEWAY)) else
  o ← gets x_peer;
  (match o with
   | None => mret tt
   | Some pc =>
       got ← gets x_ureceived;
       on_state (fun st => st <| bytes_received := got |> <| bytes_sent := sent (e_conn pc) |>);;
       close_peer
   end);;
  mret (Some CConnect).

(** ngx_nsoc_proxy_finalize.  What [ngx_nsoc_finalize_session] does with the session
    is in Session; here it records the code. *)
Definition ngx_nsoc_proxy_finalize (rc : Z) : PM (option call) :=
  (resolving ← gets x_resolving;
   if (resolving : bool) then x_resolving ::=! false else mret tt);;
  o ← gets x_peer;
  has ← gets x_state;
  now ← gets (fun s => now_msec (x_world s));
  got ← gets x_ureceived;
  (if (has : bool) then
     on_state (fun st => st <| response_time := response_since now st |>);;
     match o with
     | None => mret tt
     | Some pc => on_state (fun st => st <| bytes_received := got |> <| bytes_sent := sent (e_conn pc) |>)
     end
   else mret tt);;
  release_if_held 0;;
  (match o with None => mret tt | Some _ => close_peer end);;
  x_final ::=! Some rc;;
  mret None.

(** ngx_nsoc_proxy_connect_handler with ngx_nsoc_proxy_test_connect. *)
Definition ngx_nsoc_proxy_test_connect : PM Z :=
  pc ← get_peer;
  err ← on_world (os_socket_error (e_conn pc));
  mret (if err =? 0 then NGX_OK else NGX_ERROR).

Definition ngx_nsoc_proxy_connect_handler (on_write_event : bool) : PM (option call) :=
  pc ← get_peer;
  if timedout (if on_write_event then e_wx pc else e_rx pc) then mret (Some CNextUpstream) else
  on_peer_write (fun ev w => os_del_timer ev w);;
  rc ← ngx_nsoc_proxy_test_connect;
  if negb (rc =? NGX_OK) then mret (Some CNextUpstream) else mret (Some CInitUpstream).

(** ** Running the calls *)

Context (process : bool -> bool -> PM (option call)) (hs_fuel : nat).

Definition perform (c : call) : PM (option call) :=
  match c with
  | CConnect => ngx_nsoc_proxy_connect
  | CInitUpstream => ngx_nsoc_proxy_init_upstream
  | CNoiseInit => ngx_nsoc_proxy_noise_init_connection hs_fuel
  | CNoiseHandshake => ngx_nsoc_proxy_noise_handshake
  | CProcess from_upstream do_write => process from_upstream do_write
  | CNextUpstream => ngx_nsoc_proxy_next_upstream
  | CFinalize rc => ngx_nsoc_proxy_finalize rc
  end.

Fixpoint run (fuel : nat) (c : call) : PM unit :=
  match fuel with
  | O => out_of_fuel
  | S fuel =>
      next ← perform c;
      match next with
      | None => mret tt
      | Some c => run fuel c
      end
  end.
End Proxy.

(** ** What the interfaces promise *)

(** [ok] is the balancer's invariant of a session between two calls.  A peer is
    held while [sockaddr] is set; a failed or finished attempt uses up a try. *)
Class BalancerLaws (P : Type) `{Balancer P} (ok : P -> Prop) : Prop := {
  set_peer_pc_get f p : peer_pc (set_peer_pc f p) = f (peer_pc p);
  peer_ok_tries p : ok p -> 0 <= tries (peer_pc p);
  peer_ok_connection c p :
    ok p -> ok (set_peer_pc (fun pc => pc <| RoundRobin.connection := c |>) p);
  peer_get_law now p :
    ok p -> pc_sockaddr (peer_pc p) = None ->
    exists rc p', peer_get now p = Done (rc, p') /\ ok p' /\
      tries (peer_pc p') = tries (peer_pc p) /\ RoundRobin.connection (peer_pc p') = None /\
      (rc = NGX_OK /\ is_Some (pc_sockaddr (peer_pc p')) \/
       rc = NGX_BUSY /\ pc_sockaddr (peer_pc p') = None);
  peer_free_law now state p :
    ok p -> is_Some (pc_sockaddr (peer_pc p)) ->
    exists p', peer_free now state p = Done (tt, p') /\
      ok (set_peer_pc (fun pc => pc <| pc_sockaddr := None |>) p') /\
      RoundRobin.connection (peer_pc p') = RoundRobin.connection (peer_pc p) /\
      tries (peer_pc p') <= Z.max 0 (tries (peer_pc p) - 1);
  peer_notify_law type p :
    ok p -> is_Some (pc_sockaddr (peer_pc p)) -> is_Some (RoundRobin.connection (peer_pc p)) ->
    exists p', peer_notify type p = Done (tt, p') /\ ok p' /\ peer_pc p' = peer_pc p;
}.

(** [ngx_chain_get_free_buf] takes no buffer away. *)
Class NgxCoreLaws (W : Type) `{NgxCore W} : Prop :=
  get_free_buf_law free h w cl free' h' w' :
    get_free_buf free h w = (cl, free', h', w') ->
    forall i, is_Some (bufs h !! i) -> is_Some (bufs h' !! i).

(** Documented behaviour of [ngx_event_connect_peer]: it asks [get], and returns
    what that says unless it is NGX_OK; then it opens a socket, with nginx's own
    input and output and nothing buffered, or says why it could not. *)
Class NgxConnectLaws (P W : Type) `{Balancer P} `{NgxCore W} `{NgxConnect P W} : Prop :=
  connect_peer_law p w rcg p1 :
    peer_get (now_sec w) p = Done (rcg, p1) ->
    exists rc o p' w', ngx_event_connect_peer p w = Done (rc, o, p', w') /\
      (rcg <> NGX_OK /\ rc = rcg /\ o = None /\ p' = p1 \/
       rcg = NGX_OK /\
       p' = set_peer_pc (fun pc => pc <| RoundRobin.connection := (fun x => e_type x.1) <$> o |>) p1 /\
       (((rc = NGX_OK \/ rc = NGX_AGAIN) /\ exists e c, o = Some (e, c) /\
           io (e_conn e) = OsIo /\ w_buffered c = 0) \/
        ((rc = NGX_DECLINED \/ rc = NGX_ERROR) /\ o = None))).

Section Proofs.
Context {HS CS W P : Type} {NL : NoiseLib HS CS} {OS : NgxOs W} {PO : NgxPool W}
  {CO : NgxCore W} {BA : Balancer P} {CN : NgxConnect P W}.
Context (ok : P -> Prop) {BL : BalancerLaws P ok} {CL : NgxConnectLaws P W} {COL : NgxCoreLaws W}.
Implicit Types s : px HS CS W P.

Definition held s : Prop := is_Some (pc_sockaddr (peer_pc (x_bal s))).
Definition left_tries s : Z := tries (peer_pc (x_bal s)).
Definition client_nc s : option (nconn HS CS) := client_noise_connection (x_noise s).

(** The preread buffer exists when [c->buffer] is set. *)
Definition preread_known s : Prop :=
  forall i, x_preread s = Some i -> is_Some (bufs (wf_heap (x_wf s)) !! i).

(** A connection exists only while a peer is held, and the balancer knows it. *)
Record px_ok s : Prop := PxOk {
  xo_bal : ok (x_bal s);
  xo_open : x_final s = None;
  xo_held : is_Some (x_peer s) -> held s;
  xo_conn : RoundRobin.connection (peer_pc (x_bal s)) = e_type <$> x_peer s;
  xo_out : x_peer s = None -> wf_up (x_wf s) = None;
  xo_state : held s -> x_state s = true;
  xo_preread : preread_known s;
}.

(** The parts of the state that [px_ok] and the count of attempts look at. *)
Definition same_core s s' : Prop :=
  ((ok (x_bal s) -> ok (x_bal s')) /\ peer_pc (x_bal s') = peer_pc (x_bal s)) /\
  x_final s' = x_final s /\ x_state s' = x_state s /\
  e_type <$> x_peer s' = e_type <$> x_peer s /\
  (x_peer s = None -> wf_up (x_wf s') = wf_up (x_wf s)) /\
  length (x_states s') = length (x_states s) /\
  (is_Some (client_nc s) -> is_Some (client_nc s')) /\
  (preread_known s -> preread_known s').

#[export] Instance same_core_preorder : PreOrder same_core.
Proof.
  split; [by intros s; split_and!|].
  intros s1 s2 s3 ([A0 A1] & A2 & A3 & A4 & A5 & A6 & A7 & A8) ([B0 B1] & B2 & B3 & B4 & B5 & B6 & B7 & B8).
  split_and!; try congruence; [auto| |auto..]. intros Hn. rewrite B5; [by apply A5|].
  rewrite Hn in A4. by destruct (x_peer s2).
Qed.

Lemma same_core_peer s s' : same_core s s' -> is_Some (x_peer s') <-> is_Some (x_peer s).
Proof.
  intros (_ & _ & _ & H & _). rewrite <- !(fmap_is_Some e_type). by rewrite H.
Qed.

Lemma same_core_held s s' : same_core s s' -> held s' <-> held s.
Proof. intros ([_ H] & _). unfold held. by rewrite H. Qed.

Lemma same_core_ok s s' : same_core s s' -> px_ok s -> px_ok s'.
Proof.
  intros Hc [H1 H2 H3 H4 H5 H6 H7]. pose proof (same_core_peer _ _ Hc) as Hp.
  pose proof (same_core_held _ _ Hc) as Hh. destruct Hc as ([A0 A1] & A2 & A3 & A4 & A5 & A6 & A7 & A8). split.
  - by apply A0.
  - by rewrite A2.
  - rewrite Hp, Hh. done.
  - by rewrite A1, A4.
  - intros Hn. assert (x_peer s = None) as Hs.
    { destruct (x_peer s) eqn:He; [|done]. exfalso. destruct (proj2 Hp) as [? ?]; [by eexists|congruence]. }
    rewrite A5 by done. by apply H5.
  - rewrite Hh, A3. done.
  - by apply A8.
Qed.

(** Steps that keep the core. *)
Abbreviation keeps_core m := (forall s, wp m (fun _ s' => same_core s s') s).

Lemma core_on_world {A} (f : W -> A * W) : keeps_core (on_world f).
Proof. intros s. unfold wp, on_world. destruct (f (x_world s)). by split_and!. Qed.

Lemma core_on_state f s : x_state s = true -> wp (on_state f) (fun _ s' => same_core s s') s.
Proof.
  intros H. unfold wp, on_state. rewrite H. split_and!; try done. cbn. by rewrite length_alter.
Qed.

Lemma core_on_peer f : (forall e, e_type (f e) = e_type e) -> keeps_core (on_peer f).
Proof.
  intros Hf s. unfold wp, on_peer, modify. split_and!; try done. cbn.
  destruct (x_peer s) as [e|]; [|done]. cbn. by rewrite Hf.
Qed.

Lemma core_set_handlers f : keeps_core (set_peer_handlers f).
Proof. by apply core_on_peer. Qed.

Lemma core_on_peer_write f s :
  is_Some (x_peer s) -> wp (on_peer_write f) (fun _ s' => same_core s s') s.
Proof.
  intros [e He]. unfold wp, on_peer_write. rewrite He. destruct (f _ _) as [ev w].
  split_and!; try done. cbn. by rewrite He.
Qed.

Lemma wp_get_peer (Q : endpoint -> px HS CS W P -> Prop) s e : x_peer s = Some e -> Q e s -> wp get_peer Q s.
Proof. intros He HQ. unfold get_peer. wp_step. apply wp_gets. by eapply wp_mderef. Qed.

(** One step of a sequence that keeps the core of [s0]. *)
Lemma wp_core {A B} (m : M (px HS CS W P) A) (k : A -> M (px HS CS W P) B) Q s0 s :
  same_core s0 s -> wp m (fun _ s' => same_core s s') s ->
  (forall a s', same_core s0 s' -> wp (k a) Q s') -> wp (m ≫= k) Q s.
Proof.
  intros H0 Hm Hk. apply wp_bind. eapply wp_mono; [exact Hm|]. intros a s' H. apply Hk. by etransitivity.
Qed.

(** ** What each call needs, and what it leaves *)

Context (pscf : proxy_conf).

Definition pre (c : call) s : Prop :=
  match c with
  | CConnect => ~ held s
  | CInitUpstream => is_Some (x_peer s)
  | CNoiseInit => is_Some (x_peer s) /\ is_Some (proxy_noise pscf)
  | CNoiseHandshake => is_Some (x_peer s) /\ is_Some (client_nc s)
  | CProcess _ _ => is_Some (x_peer s)
  | CNextUpstream => held s
  | CFinalize _ => True
  end.

(** Decreases from call to call: the tries left, then the order of the calls
    within one attempt. *)
Definition rank (c : call) s : Z :=
  match c with
  | CConnect => 7
  | CInitUpstream => if client_nc s is Some _ then 3 else 6
  | CNoiseInit => 5
  | CNoiseHandshake => 4
  | CProcess _ _ => 2
  | CNextUpstream => 1
  | CFinalize _ => 0
  end.
Definition measure (c : call) s : Z := 8 * left_tries s + rank c s.

(** The attempts made and those that may follow. *)
Definition attempts (c : call) s : Z :=
  zlen (x_states s) + match c with CConnect => Z.max 1 (left_tries s) | _ => Z.max 0 (left_tries s - 1) end.

(** The session is over: its code is recorded, no peer is held, nothing is open. *)
Definition closed s : Prop :=
  is_Some (x_final s) /\ ok (x_bal s) /\ ~ held s /\ x_peer s = None /\ wf_up (x_wf s) = None.

(** Or it waits for the connection it has. *)
Definition waiting s : Prop := px_ok s /\ is_Some (x_peer s).

(** What giving up relies on. *)
Definition loose s : Prop := ok (x_bal s) /\ (x_peer s = None -> wf_up (x_wf s) = None).
Definition inv_for (c : call) s : Prop :=
  match c with CFinalize _ => loose s | _ => px_ok s end.

Lemma inv_for_ok c s : px_ok s -> inv_for c s.
Proof. intros H. destruct c; try done. split; [apply H|apply H]. Qed.

Definition step_ok (c0 : call) s0 (r : option call) s : Prop :=
  match r with
  | Some c => inv_for c s /\ pre c s /\ measure c s < measure c0 s0 /\ attempts c s <= attempts c0 s0
  | None => (closed s \/ waiting s) /\ zlen (x_states s) <= attempts c0 s0
  end.

Lemma core_tries s s' : same_core s s' -> left_tries s' = left_tries s.
Proof. intros ([_ H] & _). unfold left_tries. by rewrite H. Qed.

Lemma core_attempts s s' c :
  same_core s s' -> c <> CConnect -> attempts c s' = zlen (x_states s) + Z.max 0 (left_tries s - 1).
Proof.
  intros Hc Hn. unfold attempts. rewrite (core_tries _ _ Hc). destruct Hc as (_ & _ & _ & _ & _ & Hlen & _).
  unfold zlen. rewrite Hlen. by destruct c.
Qed.

(** A call that keeps the core and ends with one of lower rank. *)
Lemma step_down c0 c s s' :
  px_ok s -> same_core s s' -> c0 <> CConnect -> c <> CConnect -> pre c s' ->
  rank c s' < rank c0 s -> step_ok c0 s (Some c) s'.
Proof.
  intros Hok Hc H0 H1 Hp Hr. split; [by eapply inv_for_ok, same_core_ok|]. split; [done|].
  split; [unfold measure; rewrite (core_tries _ _ Hc); lia|].
  rewrite (core_attempts s s' c Hc H1), (core_attempts s s c0); done.
Qed.

(** A call that keeps the core and then waits. *)
Lemma step_wait c0 s s' :
  px_ok s -> same_core s s' -> c0 <> CConnect -> is_Some (x_peer s) -> step_ok c0 s None s'.
Proof.
  intros Hok Hc H0 Hp. pose proof (same_core_ok _ _ Hc Hok). split.
  - right. split; [done|]. by apply (same_core_peer s).
  - rewrite (core_attempts s s c0) by done. destruct Hc as (_ & _ & _ & _ & _ & Hlen & _).
    unfold zlen. rewrite Hlen. lia.
Qed.

Lemma state_set s : px_ok s -> is_Some (x_peer s) -> x_state s = true.
Proof. intros Hok Hp. by apply (xo_state s Hok), (xo_held s Hok). Qed.

Lemma core_state s s' : same_core s s' -> x_state s = true -> x_state s' = true.
Proof. intros (_ & _ & H & _). by rewrite H. Qed.

Lemma core_on_state' f s0 s :
  same_core s0 s -> x_state s0 = true -> wp (on_state f) (fun _ s' => same_core s s') s.
Proof. intros Hc H0. apply core_on_state. by eapply core_state. Qed.

Lemma core_set_nodelay s :
  is_Some (x_peer s) -> wp (proxy_set_nodelay pscf) (fun _ s' => same_core s s') s.
Proof.
  intros [pc Hpc]. unfold proxy_set_nodelay. wp_step. eapply wp_get_peer; [exact Hpc|].
  destruct (tcp_nodelay pc); try by apply wp_ret. destruct (_ && _); [|by apply wp_ret].
  eapply wp_core; [reflexivity|apply core_on_world|]. intros b s1 H1. destruct b.
  - eapply wp_core; [exact H1|by apply core_on_peer|]. intros _ s2 H2. by apply wp_ret.
  - wp_step. apply wp_ret. by apply wp_ret.
Qed.

Lemma core_notify type s :
  px_ok s -> is_Some (x_peer s) -> wp (on_bal (peer_notify type)) (fun _ s' => same_core s s') s.
Proof.
  intros Hok Hp. destruct (peer_notify_law type (x_bal s) (xo_bal s Hok) (xo_held s Hok Hp))
    as (b & Hr & Hb & Hpc); [rewrite (xo_conn s Hok); by apply fmap_is_Some|].
  unfold wp, on_bal. rewrite Hr. by split_and!.
Qed.

Lemma core_upstream_buf s : wp (alloc_upstream_buf pscf) (fun _ s' => same_core s s') s.
Proof.
  unfold alloc_upstream_buf. wp_step. apply wp_gets. case_match; [by apply wp_ret|].
  eapply wp_core; [reflexivity|apply core_on_world|]. intros [bs|] s1 H1; [|by apply wp_ret].
  wp_step. apply wp_gets. wp_step. apply wp_modify. apply wp_ret.
  etransitivity; [exact H1|]. by split_and!.
Qed.

Lemma core_push_preread b s : wp (push_preread b) (fun _ s' => same_core s s') s.
Proof.
  unfold push_preread. eapply wp_core; [reflexivity| |].
  - unfold wp, proxy_free_buf. destruct (get_free_buf _ _ _) as [[[cl free] h] w] eqn:Hg.
    split_and!; try done. intros Hk i Hi. cbn in *. eapply get_free_buf_law; [exact Hg|]. by apply Hk.
  - intros [cl|] s1 H1; [|by apply wp_ret]. wp_step. apply wp_gets. wp_step. apply wp_modify. apply wp_ret.
    etransitivity; [exact H1|]. split_and!; try done. intros Hk i Hi. cbn in *.
    destruct (decide (l_buf cl = i)) as [->|Hne]; [rewrite lookup_insert_eq; by eexists|].
    rewrite lookup_insert_ne by done. by apply Hk.
Qed.

Lemma core_preread_first s :
  preread_known s -> wp preread_first (fun _ s' => same_core s s') s.
Proof.
  intros Hk. unfold preread_first. wp_step. apply wp_gets. destruct (x_preread s) as [i|] eqn:Hi; [|by apply wp_ret].
  destruct (Hk i Hi) as [b Hb]. wp_step. apply wp_gets. rewrite Hb. wp_step. eapply wp_mderef; [done|].
  destruct (_ <? _); [apply core_push_preread|by apply wp_ret].
Qed.

Lemma init_upstream_spec s :
  px_ok s -> pre CInitUpstream s ->
  wp (ngx_nsoc_proxy_init_upstream pscf) (step_ok CInitUpstream s) s.
Proof.
  intros Hok Hp. pose proof (state_set s Hok Hp) as Hst. unfold ngx_nsoc_proxy_init_upstream.
  assert (Hrank : 3 <= rank CInitUpstream s) by (cbn; destruct (client_nc s); lia).
  assert (Hdown : forall c s', same_core s s' -> pre c s' -> match c with
    CNextUpstream | CFinalize _ | CProcess _ _ => True | _ => False end -> step_ok CInitUpstream s (Some c) s').
  { intros c s' Hc Hpre Hcase. apply step_down; try done; destruct c; try done; unfold rank at 1; lia. }
  eapply wp_core; [reflexivity|by apply core_set_nodelay|]. intros okb s1 H1.
  assert (Hp1 : is_Some (x_peer s1)) by (by apply (same_core_peer s)).
  destruct okb; cbn [negb]; [|apply wp_ret, Hdown; try done; apply (same_core_held s); [done|by apply (xo_held s)]].
  destruct Hp1 as [pc Hpc]. wp_step. eapply wp_get_peer; [exact Hpc|]. wp_step. apply wp_gets.
  destruct (_ && _) eqn:Hn.
  { apply andb_true_iff in Hn as [[_ Hn]%andb_true_iff Hc%bool_decide_eq_true_1].
    apply bool_decide_eq_true_1 in Hn. apply wp_ret.
    apply step_down; [done|done|done|done|split; [by eexists|done]|].
    - unfold rank. destruct (client_nc s) eqn:Hs; [|lia]. destruct H1 as (_ & _ & _ & _ & _ & _ & Hcl & _).
      destruct Hcl as [x Hx]; [by eexists|]. unfold client_nc in Hx. congruence. }
  wp_step. apply wp_gets.
  eapply wp_core; [exact H1|by eapply core_on_state'|]. intros _ s2 H2.
  eapply wp_core; [exact H2|apply core_notify; [by eapply same_core_ok|by apply (same_core_peer s)]|].
  intros _ s3 H3. eapply wp_core; [exact H3|apply core_upstream_buf|]. intros okb s4 H4.
  destruct okb; cbn [negb]; [|by apply wp_ret, Hdown].
  eapply wp_core; [exact H4|apply core_preread_first; apply (xo_preread s4); by eapply same_core_ok|].
  intros okb s5 H5. destruct okb; cbn [negb]; [|by apply wp_ret, Hdown].
  wp_step. apply wp_gets. eapply wp_core; [exact H5| |].
  { case_match; [by apply core_on_peer|by apply wp_ret]. }
  intros _ s6 H6. wp_step. apply wp_modify.
  set (s7 := s6 <| x_connected := true |>).
  assert (H7 : same_core s s7) by (etransitivity; [exact H6|by split_and!]).
  eapply wp_core; [exact H7|apply core_set_handlers|]. intros _ s8 H8.
  destruct (proj2 (same_core_peer s s8 H8) Hp) as [pc8 Hpc8].
  wp_step. eapply wp_get_peer; [exact Hpc8|].
  eapply wp_core; [exact H8| |].
  { destruct (_ || _); [apply core_on_world|by apply wp_ret]. }
  intros _ s9 H9. apply wp_ret, Hdown; try done. by apply (same_core_peer s).
Qed.

(** ** Noise towards the peer *)

(** A handshake keeps the Noise connection it works on. *)
Lemma with_nc_client {A} (none : A) (m : M (hs HS CS W) A) st a st' :
  with_nc none m st = Done (a, st') -> is_Some (client_noise_connection (ss st)) ->
  is_Some (client_noise_connection (ss st')).
Proof.
  unfold with_nc. intros H Hc. destruct (find_nc _ _) as [d|]; [|by injection H as <- <-].
  destruct (nc_at d (ss st)) as [x|]; [|done]. destruct (m _) as [[r s']| |]; [|done..].
  injection H as <- <-. cbn. destruct d; [by eexists|done].
Qed.

(** The handshake as initiator, on a fresh Noise connection, returns. *)
Definition handshake_returns (fuel : nat) : Prop := forall noise (st : sess HS CS W),
  proxy_noise pscf = Some noise ->
  client_noise_connection (ss st) =
    Some (new_nconn noise (c_id (sc st)) (Z.lor NGX_NSOC_BUFFER NGX_NSOC_CLIENT) CLIENT_ROLE) ->
  exists r st', ngx_nsoc_handshake fuel st = Done (r, st').

Lemma noise_init_spec fuel s :
  handshake_returns fuel -> px_ok s -> pre CNoiseInit s ->
  wp (ngx_nsoc_proxy_noise_init_connection pscf fuel) (step_ok CNoiseInit s) s.
Proof.
  intros Hhs Hok [[pc Hpc] [noise Hnoise]]. assert (Hp : is_Some (x_peer s)) by (by eexists).
  unfold ngx_nsoc_proxy_noise_init_connection. wp_step. eapply wp_get_peer; [exact Hpc|].
  wp_step. eapply wp_mderef; [exact Hnoise|]. apply wp_bind. unfold wp at 1, ngx_nsoc_create_connection.
  assert (Hfail : forall w, step_ok CNoiseInit s (Some (CFinalize NGX_NSOC_INTERNAL_SERVER_ERROR))
      (s <| x_noise := x_noise s |> <| x_prologue := n_prologue noise |>
         <| x_wf ::= fun f => f <| wf_world := w |> |>))
    by (intros w; apply step_down; try done; by split_and!).
  destruct (pool_object (x_world s)) as [[|] w1]; cbn [negb]; [|apply wp_ret, Hfail].
  destruct (pool_object w1) as [[|] w2]; cbn [negb]; [|apply wp_ret, Hfail].
  change (Z.land (Z.lor NGX_NSOC_BUFFER NGX_NSOC_CLIENT) NGX_NSOC_CLIENT =? 0) with false. cbn [negb].
  change (NGX_OK =? NGX_OK) with true. cbn [negb].
  set (x := new_nconn noise (c_id (e_conn pc)) (Z.lor NGX_NSOC_BUFFER NGX_NSOC_CLIENT) CLIENT_ROLE).
  set (s1 := _ <| x_wf ::= _ |>).
  assert (H1 : same_core s s1) by (split_and!; try done; by eexists).
  destruct (Hhs noise (Sess (e_conn pc) (x_noise s1) (x_prologue s1) (x_world s1)) Hnoise eq_refl)
    as (r & st & Hrun).
  apply wp_bind. unfold wp at 1, on_noise. change (x_peer s1) with (x_peer s). rewrite Hpc, Hrun.
  pose proof (with_nc_client _ _ _ _ _ Hrun (ex_intro _ x eq_refl)) as Hcl.
  set (s2 := _ <| x_wf ::= _ |>).
  assert (H2 : same_core s s2) by (split_and!; try done; cbn; by rewrite Hpc).
  destruct (r =? NGX_AGAIN).
  - wp_step. apply wp_modify, wp_ret. apply step_wait; try done.
  - apply wp_ret. apply step_down; try done.
Qed.

Lemma noise_handshake_spec s :
  px_ok s -> pre CNoiseHandshake s ->
  wp ngx_nsoc_proxy_noise_handshake (step_ok CNoiseHandshake s) s.
Proof.
  intros Hok [Hp [x Hx]]. unfold ngx_nsoc_proxy_noise_handshake. wp_step. apply wp_gets.
  unfold client_nc in Hx. rewrite Hx. wp_step. eapply wp_mderef; [done|]. destruct (handshaked x).
  - destruct (Hp) as [pc Hpc]. wp_step. eapply wp_get_peer; [exact Hpc|].
    eapply wp_core; [reflexivity| |].
    { destruct (timer_set _); [by apply core_on_peer_write|by apply wp_ret]. }
    intros _ s1 H1. apply wp_ret. apply step_down; try done; [by apply (same_core_peer s)|].
    destruct H1 as (_ & _ & _ & _ & _ & _ & Hcl & _).
    destruct Hcl as [y Hy]; [by exists x|]. unfold rank. by rewrite Hy.
  - apply wp_ret. apply step_down; try done. by apply (xo_held s).
Qed.

(** ** Giving a peer back *)

(** After [release_peer] nothing is held and a try is gone. *)
Definition released s s' : Prop :=
  ok (x_bal s') /\ ~ held s' /\
  RoundRobin.connection (peer_pc (x_bal s')) = RoundRobin.connection (peer_pc (x_bal s)) /\
  (held s -> left_tries s' <= Z.max 0 (left_tries s - 1)) /\ (~ held s -> left_tries s' = left_tries s) /\
  s' = s <| x_bal := x_bal s' |>.

Lemma release_if_held_spec state s :
  ok (x_bal s) -> wp (release_if_held state) (fun _ s' => released s s') s.
Proof.
  intros Hok. unfold release_if_held. wp_step. apply wp_gets.
  destruct (pc_sockaddr (peer_pc (x_bal s))) as [sa|] eqn:Hsa.
  - assert (Hh : held s) by (unfold held; by rewrite Hsa).
    destruct (peer_free_law (now_sec (x_world s)) state (x_bal s) Hok Hh) as (b & Hr & Hb & Hc & Ht).
    unfold release_peer. wp_step. apply wp_gets. wp_step. unfold wp at 1, on_bal. rewrite Hr.
    apply wp_modify. unfold released, held, left_tries. cbn. rewrite set_peer_pc_get. cbn.
    by split_and!.
  - apply wp_ret. unfold released, held. rewrite Hsa. split_and!; try done; try by intros [? ?].
    by destruct s.
Qed.

Lemma close_peer_spec s :
  ok (x_bal s) -> is_Some (x_peer s) ->
  wp close_peer (fun _ s' => ok (x_bal s') /\ (held s' <-> held s) /\ left_tries s' = left_tries s /\
    x_peer s' = None /\ wf_up (x_wf s') = None /\
    RoundRobin.connection (peer_pc (x_bal s')) = None /\ x_states s' = x_states s /\
    x_final s' = x_final s /\ x_state s' = x_state s /\ (preread_known s -> preread_known s')) s.
Proof.
  intros Hok [pc Hpc]. unfold close_peer. wp_step. eapply wp_get_peer; [exact Hpc|]. wp_step.
  unfold wp at 1, on_world. apply wp_modify. unfold held, left_tries. cbn. rewrite set_peer_pc_get.
  split_and!; try done. by apply peer_ok_connection.
Qed.

Lemma px_ok_conn_none s : px_ok s -> ~ held s -> x_peer s = None.
Proof. intros Hok Hn. destruct (x_peer s) eqn:He; [|done]. destruct Hn. apply (xo_held s Hok). by rewrite He. Qed.

Lemma next_upstream_spec s :
  px_ok s -> pre CNextUpstream s ->
  wp (ngx_nsoc_proxy_next_upstream pscf) (step_ok CNextUpstream s) s.
Proof.
  intros Hok Hh. unfold ngx_nsoc_proxy_next_upstream. do 3 (wp_step; apply wp_gets).
  destruct (_ || peer_buffered s).
  { apply wp_ret. by apply step_down. }
  wp_step. eapply wp_mono; [apply release_if_held_spec, (xo_bal s Hok)|].
  intros _ s1 (Hb & Hnh & Hcn & Ht & _ & Hs1). specialize (Ht Hh).
  pose proof (peer_ok_tries _ Hb) as Ht0. pose proof (peer_ok_tries _ (xo_bal s Hok)) as Ht1.
  assert (Hlen : length (x_states s1) = length (x_states s)) by (by rewrite Hs1).
  assert (Hpeer : x_peer s1 = x_peer s) by (by rewrite Hs1).
  assert (Hup : wf_up (x_wf s1) = wf_up (x_wf s)) by (by rewrite Hs1).
  do 3 (wp_step; apply wp_gets). cbv zeta. destruct (_ || _) eqn:Hstop.
  { apply wp_ret. split; [split; [done|]; rewrite Hpeer, Hup; apply Hok|]. split; [done|].
    unfold measure, attempts, rank. unfold left_tries in *. unfold zlen. rewrite Hlen. lia. }
  apply orb_false_iff in Hstop as [[Hz%Z.eqb_neq _]%orb_false_iff _].
  assert (Hgo : forall s', ok (x_bal s') -> ~ held s' -> left_tries s' = left_tries s1 -> x_peer s' = None ->
      wf_up (x_wf s') = None -> RoundRobin.connection (peer_pc (x_bal s')) = None ->
      length (x_states s') = length (x_states s1) -> x_final s' = x_final s1 ->
      preread_known s' -> step_ok CNextUpstream s (Some CConnect) s').
  { intros s' B1 B2 B3 B4 B5 B6 B7 B8 B9. split; [split; try done|split; [done|]].
    - rewrite B8, Hs1. apply Hok.
    - rewrite B4. by intros [? ?].
    - by rewrite B6, B4.
    - unfold measure, attempts, rank. unfold left_tries in *. unfold zlen. rewrite B7, Hlen, B3. lia. }
  wp_step. apply wp_gets. wp_step. destruct (x_peer s1) as [pc|] eqn:Hpc.
  - wp_step. apply wp_gets. wp_step. unfold wp at 1, on_state.
    assert (Hst : x_state s1 = true) by (rewrite Hs1; by apply (xo_state s Hok)). rewrite Hst.
    eapply wp_mono; [apply close_peer_spec; [done|cbn; by rewrite Hpc]|].
    intros _ s3 (C1 & C2 & C3 & C4 & C5 & C6 & C7 & C8 & C9 & C10). apply wp_ret. apply Hgo; try done.
    + by rewrite C2.
    + rewrite C7. cbn. by rewrite length_alter.
    + apply C10. intros i Hi. rewrite Hs1 in *. by apply (xo_preread s Hok).
  - apply wp_ret, wp_ret, Hgo; try done.
    + rewrite Hup. apply (xo_out s Hok). by rewrite <- Hpeer.
    + rewrite Hcn, (xo_conn s Hok), <- Hpeer. done.
    + intros i Hi. rewrite Hs1 in *. by apply (xo_preread s Hok).
Qed.

Lemma finalize_spec rc s :
  loose s -> wp (ngx_nsoc_proxy_finalize rc) (step_ok (CFinalize rc) s) s.
Proof.
  intros [Hb Hup]. unfold ngx_nsoc_proxy_finalize.
  wp_step. eapply (wp_mono _ (fun _ s' => s' = s <| x_resolving := x_resolving s' |>)).
  { wp_step. apply wp_gets. destruct (x_resolving s) eqn:Hr; [by apply wp_modify|apply wp_ret].
    rewrite Hr. by destruct s; cbn in *; subst. }
  intros _ s1 Hs1. do 4 (wp_step; apply wp_gets).
  wp_step. eapply (wp_mono _ (fun _ s' => s' = s1 <| x_states := x_states s' |> /\
    length (x_states s') = length (x_states s1))).
  { destruct (x_state s1) eqn:Hst; [|apply wp_ret; by destruct s1]. wp_step.
    unfold wp at 1, on_state. rewrite Hst. destruct (x_peer s1) as [pc|].
    - unfold wp. cbn. rewrite Hst. split; [by destruct s1|]. cbn. by rewrite !length_alter.
    - apply wp_ret. split; [by destruct s1|]. cbn. by rewrite length_alter. }
  intros _ s2 [Hs2 Hlen]. wp_step.
  eapply wp_mono; [apply release_if_held_spec; by rewrite Hs2, Hs1|].
  intros _ s3 (C1 & C2 & C3 & C4 & C5 & Hs3).
  assert (Hlen3 : length (x_states s3) = length (x_states s)) by (rewrite Hs3; cbn; by rewrite Hlen, Hs1).
  assert (Hp3 : x_peer s3 = x_peer s1) by (by rewrite Hs3, Hs2).
  assert (Hps : x_peer s1 = x_peer s) by (by rewrite Hs1).
  assert (Hatt : zlen (x_states s) <= attempts (CFinalize rc) s) by (unfold attempts; lia).
  wp_step. destruct (x_peer s1) as [pc|] eqn:Hpc.
  - eapply wp_mono; [apply close_peer_spec; [done|rewrite Hp3; by eexists]|].
    intros _ s4 (D1 & D2 & D3 & D4 & D5 & D6 & D7 & D8 & D9 & _). wp_step. apply wp_modify, wp_ret.
    assert (Hn4 : ~ held s4) by (by rewrite D2).
    split; [left; split_and!; (done || by eexists)|]. cbn. rewrite D7. unfold zlen in *. lia.
  - apply wp_ret. wp_step. apply wp_modify, wp_ret.
    assert (Hup3 : wf_up (x_wf s3) = None) by (rewrite Hs3, Hs2, Hs1; by apply Hup).
    split; [left; split_and!; (done || by eexists)|]. cbn. unfold zlen in *. lia.
Qed.

(** [ngx_event_connect_peer] with the balancer behind it: refused, connected or
    connecting, or failed with the peer held. *)
Lemma connect_peer_cases p w :
  ok p -> pc_sockaddr (peer_pc p) = None ->
  exists rc o p' w', ngx_event_connect_peer p w = Done (rc, o, p', w') /\ ok p' /\
    tries (peer_pc p') = tries (peer_pc p) /\
    RoundRobin.connection (peer_pc p') = (fun x => e_type x.1) <$> o /\
    (rc = NGX_BUSY /\ o = None /\ pc_sockaddr (peer_pc p') = None \/
     is_Some (pc_sockaddr (peer_pc p')) /\
       ((rc = NGX_OK \/ rc = NGX_AGAIN) /\ is_Some o \/ (rc = NGX_DECLINED \/ rc = NGX_ERROR) /\ o = None)).
Proof.
  intros Hok Hs. destruct (peer_get_law (now_sec w) p Hok Hs) as (rcg & p1 & Hg & H1 & H2 & H3 & H4).
  destruct (connect_peer_law p w rcg p1 Hg) as (rc & o & p' & w' & Hrun & Hcase).
  exists rc, o, p', w'. split; [done|]. destruct Hcase as [(Hn & -> & -> & ->)|(-> & -> & Hcase)].
  - split_and!; try done. left. destruct H4 as [[-> _]|[-> H4]]; done.
  - destruct H4 as [[_ H4]|[? _]]; [|done]. rewrite !set_peer_pc_get. cbn.
    split_and!; try done; [by apply peer_ok_connection|]. right. split; [done|].
    destruct Hcase as [(Hrc & e & c & -> & _)|[Hrc ->]]; [left|by right]. split; [done|by eexists].
Qed.

(** The start of a connection attempt. *)
Lemma new_state_spec s :
  px_ok s -> ~ held s ->
  wp proxy_new_state (fun r s' => x_bal s' = x_bal s /\ x_peer s' = None /\ wf_up (x_wf s') = None /\
      x_final s' = None /\ preread_known s' /\ x_state s' = r /\
      zlen (x_states s') = zlen (x_states s) + if r then 1 else 0) s.
Proof.
  intros Hok Hn. pose proof (px_ok_conn_none s Hok Hn) as Hp. unfold proxy_new_state.
  set (post := fun s' : px HS CS W P => x_bal s' = x_bal s /\ x_peer s' = None /\
    wf_up (x_wf s') = None /\ x_final s' = None /\ preread_known s').
  assert (Hpost : post (s <| x_connected := false |>)).
  { split_and!; try done; [by apply (xo_out s Hok)|apply Hok|apply (xo_preread s Hok)]. }
  wp_step. apply wp_modify. do 2 (wp_step; apply wp_gets). wp_step. set (s1 := s <| x_connected := false |>) in *.
  apply (wp_mono _ (fun _ s' => post s' /\ length (x_states s') = length (x_states s))).
  { destruct (x_state s1) eqn:Hst; [|by apply wp_ret]. unfold wp, on_state. rewrite Hst.
    split; [exact Hpost|]. cbn. by rewrite length_alter. }
  intros _ s2 [(P1 & P2 & P3 & P4 & P5) L2]. wp_step. unfold wp at 1, on_world.
  destruct (pool_object (x_world s2)) as [b w].
  wp_step. apply wp_modify. wp_step. unfold zlen. destruct b.
  - apply wp_modify, wp_ret. split_and!; try done. cbn. rewrite length_app, L2. cbn. lia.
  - apply wp_ret, wp_ret. split_and!; try done. cbn. rewrite L2. lia.
Qed.

Lemma connect_spec s :
  px_ok s -> pre CConnect s -> wp (ngx_nsoc_proxy_connect pscf) (step_ok CConnect s) s.
Proof.
  intros Hok Hn. pose proof (peer_ok_tries _ (xo_bal s Hok)) as Ht0. unfold ngx_nsoc_proxy_connect.
  wp_step. eapply wp_mono; [by apply new_state_spec|]. intros b s1 (A1 & A2 & A3 & A4 & A5 & A6 & A7).
  assert (Hend : forall c s', match c with CConnect => False | _ => True end -> inv_for c s' -> pre c s' ->
      left_tries s' = left_tries s -> zlen (x_states s') <= zlen (x_states s) + 1 ->
      step_ok CConnect s (Some c) s').
  { intros c s' Hc Hi Hp Ht Hl. split; [done|]. split; [done|]. unfold measure, attempts. rewrite Ht.
    split; destruct c; try done; unfold rank; try lia. destruct (client_nc s'); lia. }
  destruct b; cbn [negb].
  2: { apply wp_ret, Hend; try done; [|unfold left_tries; by rewrite A1|lia].
       split; [rewrite A1; apply (xo_bal s Hok)|done]. }
  wp_step. unfold wp at 1, connect_peer.
  destruct (connect_peer_cases (x_bal s1) (x_world s1)) as (rc & o & p' & w' & Hrun & Hok' & Ht & Hc & Hcase).
  { rewrite A1. apply (xo_bal s Hok). }
  { rewrite A1. by apply eq_None_not_Some. }
  rewrite Hrun. set (s2 := _ <| x_wf ::= _ |>).
  assert (Ht2 : left_tries s2 = left_tries s) by (unfold left_tries in *; cbn; by rewrite Ht, A1).
  assert (Hup2 : x_peer s2 = None -> wf_up (x_wf s2) = None) by (by destruct o).
  assert (Hok2 : is_Some (pc_sockaddr (peer_pc p')) -> px_ok s2).
  { intros Hh. split; try done. cbn. rewrite Hc. by destruct o. }
  destruct (Z.eqb_spec rc NGX_ERROR) as [->|Hne].
  { apply wp_ret, Hend; try done. cbn. lia. }
  wp_step. apply wp_gets.
  eapply wp_core; [reflexivity|by apply core_on_state|]. intros _ s3 H3.
  assert (Hlen3 : zlen (x_states s3) = zlen (x_states s) + 1).
  { destruct H3 as (_ & _ & _ & _ & _ & Hl & _). unfold zlen in *. rewrite Hl. exact A7. }
  assert (Ht3 : left_tries s3 = left_tries s) by (rewrite (core_tries _ _ H3); done).
  destruct (Z.eqb_spec rc NGX_BUSY) as [->|Hnb].
  { apply wp_ret, Hend; try done; [|lia]. destruct H3 as ([B1 _] & _ & _ & B4 & B5 & _). split; [by apply B1|].
    intros Hx. destruct Hcase as [(_ & -> & _)|(_ & [[[?|?] _]|[[?|?] _]])]; try done. by rewrite B5. }
  destruct Hcase as [(-> & _)|(Hh & Hcase)]; [done|]. specialize (Hok2 Hh).
  pose proof (same_core_ok _ _ H3 Hok2) as Hok3.
  destruct (Z.eqb_spec rc NGX_DECLINED) as [->|Hnd].
  { apply wp_ret, Hend; try done; [|lia]. by apply (same_core_held s2). }
  destruct Hcase as [(Hrc & Ho)|[[?|?] _]]; [|done..].
  assert (Hp2 : is_Some (x_peer s2)) by (destruct Ho as [? ->]; by eexists).
  pose proof (proj2 (same_core_peer _ _ H3) Hp2) as Hp3. destruct (Hp3) as [pc Hpc].
  wp_step. eapply wp_get_peer; [exact Hpc|]. destruct (negb _).
  { apply wp_ret, Hend; try done. lia. }
  eapply wp_core; [reflexivity|apply core_set_handlers|]. intros _ s4 H4.
  eapply wp_core; [exact H4|apply core_on_peer_write; by apply (same_core_peer s3)|]. intros _ s5 H5.
  apply wp_ret. split; [right; split; [by eapply same_core_ok|by apply (same_core_peer s3)]|].
  destruct H5 as (_ & _ & _ & _ & _ & Hl & _). unfold attempts, zlen in *. rewrite Hl. lia.
Qed.

(** ** All calls together *)

Context (process : bool -> bool -> M (px HS CS W P) (option call)) (hs_fuel : nat).

(** The contract of the data pump: with a connection, it goes on waiting or ends
    with one of the two last calls. *)
Definition process_ok : Prop := forall from_upstream do_write s,
  px_ok s -> is_Some (x_peer s) ->
  wp (process from_upstream do_write) (step_ok (CProcess from_upstream do_write) s) s.

Lemma perform_spec c s :
  handshake_returns hs_fuel -> process_ok -> inv_for c s -> pre c s ->
  wp (perform pscf process hs_fuel c) (step_ok c s) s.
Proof.
  intros Hhs Hpr Hi Hp. destruct c.
  - by apply connect_spec.
  - by apply init_upstream_spec.
  - by apply noise_init_spec.
  - by apply noise_handshake_spec.
  - by apply Hpr.
  - by apply next_upstream_spec.
  - by apply finalize_spec.
Qed.

Lemma measure_nonneg c s : inv_for c s -> 0 <= measure c s.
Proof.
  intros Hi. assert (ok (x_bal s)) as Hb by (destruct c; apply Hi).
  pose proof (peer_ok_tries _ Hb). unfold measure, left_tries, rank. destruct c; try lia.
  destruct (client_nc s); lia.
Qed.

Lemma run_spec fuel c s :
  handshake_returns hs_fuel -> process_ok -> inv_for c s -> pre c s -> measure c s < Z.of_nat fuel ->
  wp (run pscf process hs_fuel fuel c) (fun _ s' =>
    (closed s' \/ waiting s') /\ zlen (x_states s') <= attempts c s) s.
Proof.
  intros Hhs Hpr. revert c s. induction fuel as [|fuel IH]; intros c s Hi Hp Hm.
  { pose proof (measure_nonneg c s Hi). lia. }
  cbn [run]. wp_step. eapply wp_mono; [by apply perform_spec|].
  intros [c'|] s1 Hs; [|by apply wp_ret]. destruct Hs as (Hi1 & Hp1 & Hm1 & Ha1).
  eapply wp_mono; [apply IH; try done; lia|]. intros _ s2 [H2 H3]. split; [done|lia].
Qed.


(** ** A second peer gets no handshake *)

(** The I/O functions of the connection and the session's Noise connection. *)
Definition same_line s s' : Prop :=
  (fun e => io (e_conn e)) <$> x_peer s' = (fun e => io (e_conn e)) <$> x_peer s /\
  client_nc s' = client_nc s /\ e_type <$> x_peer s' = e_type <$> x_peer s.

#[export] Instance same_line_preorder : PreOrder same_line.
Proof.
  split; [done|]. intros s1 s2 s3 (? & ? & ?) (? & ? & ?). split_and!; congruence.
Qed.

Lemma wlp_line {A B} (m : M (px HS CS W P) A) (k : A -> M (px HS CS W P) B) Q s0 s :
  same_line s0 s -> wlp m (fun _ s' => same_line s s') s ->
  (forall a s', same_line s0 s' -> wlp (k a) Q s') -> wlp (m ≫= k) Q s.
Proof.
  intros H0 Hm Hk. apply wlp_bind. eapply wlp_mono; [exact Hm|]. intros a s' H. apply Hk. by etransitivity.
Qed.

Lemma line_on_world {A} (f : W -> A * W) s : wlp (on_world f) (fun _ s' => same_line s s') s.
Proof. unfold wlp, on_world. by destruct (f (x_world s)). Qed.

Lemma line_on_state f s : wlp (on_state f) (fun _ s' => same_line s s') s.
Proof. unfold wlp, on_state. by destruct (x_state s). Qed.

Lemma line_on_bal {A} (m : M P A) s : wlp (on_bal m) (fun _ s' => same_line s s') s.
Proof. unfold wlp, on_bal. by destruct (m (x_bal s)) as [[a b]| |]. Qed.

Lemma line_on_peer f s :
  (forall e, io (e_conn (f e)) = io (e_conn e) /\ e_type (f e) = e_type e) ->
  wlp (on_peer f) (fun _ s' => same_line s s') s.
Proof.
  intros Hf. unfold wlp, on_peer, modify, same_line. cbn. destruct (x_peer s) as [e|]; [|done]. cbn.
  destruct (Hf e) as [-> ->]. done.
Qed.

Lemma line_get_peer (Q : endpoint -> px HS CS W P -> Prop) s :
  (forall e, x_peer s = Some e -> Q e s) -> wlp get_peer Q s.
Proof. intros HQ. unfold get_peer. apply wlp_bind, wlp_gets. by apply wlp_mderef. Qed.

Lemma line_set_nodelay s : wlp (proxy_set_nodelay pscf) (fun _ s' => same_line s s') s.
Proof.
  unfold proxy_set_nodelay. apply wlp_bind, line_get_peer. intros pc _.
  destruct (tcp_nodelay pc); try by apply wlp_ret. destruct (_ && _); [|by apply wlp_ret].
  eapply wlp_line; [reflexivity|apply line_on_world|]. intros [|] s1 H1.
  - eapply wlp_line; [exact H1|by apply line_on_peer|]. intros _ s2 H2. by apply wlp_ret.
  - by apply wlp_bind, wlp_ret, wlp_ret.
Qed.

Lemma line_upstream_buf s : wlp (alloc_upstream_buf pscf) (fun _ s' => same_line s s') s.
Proof.
  unfold alloc_upstream_buf. apply wlp_bind, wlp_gets. case_match; [by apply wlp_ret|].
  eapply wlp_line; [reflexivity|apply line_on_world|]. intros [bs|] s1 H1; [|by apply wlp_ret].
  apply wlp_bind, wlp_gets. apply wlp_bind, wlp_modify. by apply wlp_ret.
Qed.

Lemma line_preread s : wlp preread_first (fun _ s' => same_line s s') s.
Proof.
  unfold preread_first. apply wlp_bind, wlp_gets. destruct (x_preread s); [|by apply wlp_ret].
  apply wlp_bind, wlp_gets, wlp_bind, wlp_mderef. intros b _. destruct (_ <? _); [|by apply wlp_ret].
  unfold push_preread. eapply wlp_line; [reflexivity| |].
  { unfold wlp, proxy_free_buf. by destruct (get_free_buf _ _ _) as [[[cl free] h] w]. }
  intros [cl|] s1 H1; [|by apply wlp_ret]. apply wlp_bind, wlp_gets, wlp_bind, wlp_modify. by apply wlp_ret.
Qed.

(** The client's data is about to be sent on a connection with nginx's own,
    unencrypted input and output, and the session's Noise connection is [x]. *)
Definition pumps_in_clear (x : nconn HS CS) s : Prop :=
  x_connected s = true /\ client_nc s = Some x /\ exists pc, x_peer s = Some pc /\ io (e_conn pc) = OsIo.

Lemma init_upstream_clear x pc s :
  x_peer s = Some pc -> io (e_conn pc) = OsIo -> client_nc s = Some x ->
  wlp (ngx_nsoc_proxy_init_upstream pscf) (fun r s' =>
    r = Some CNextUpstream \/ (exists rc, r = Some (CFinalize rc)) \/
    r = Some (CProcess false true) /\ pumps_in_clear x s') s.
Proof.
  intros Hpc Hio Hx. unfold ngx_nsoc_proxy_init_upstream.
  eapply wlp_line; [reflexivity|apply line_set_nodelay|]. intros [|] s1 H1; cbn [negb]; [|apply wlp_ret; by left].
  apply wlp_bind, line_get_peer. intros pc1 Hpc1. apply wlp_bind, wlp_gets.
  assert (Hx1 : client_noise_connection (x_noise s1) = Some x).
  { destruct H1 as (_ & H1 & _). unfold client_nc in H1. by rewrite H1. }
  rewrite Hx1, andb_false_r. apply wlp_bind, wlp_gets.
  eapply wlp_line; [exact H1|apply line_on_state|]. intros _ s2 H2.
  eapply wlp_line; [exact H2|apply line_on_bal|]. intros _ s3 H3.
  eapply wlp_line; [exact H3|apply line_upstream_buf|].
  intros [|] s4 H4; cbn [negb]; [|apply wlp_ret; right; left; by eexists].
  eapply wlp_line; [exact H4|apply line_preread|].
  intros [|] s5 H5; cbn [negb]; [|apply wlp_ret; right; left; by eexists].
  apply wlp_bind, wlp_gets. eapply wlp_line; [exact H5| |].
  { case_match; [by apply line_on_peer|by apply wlp_ret]. }
  intros _ s6 H6. apply wlp_bind, wlp_modify. apply wlp_bind. unfold set_peer_handlers, on_peer.
  apply wlp_modify. apply wlp_bind, line_get_peer. intros pc7 Hpc7.
  assert (Hend : pumps_in_clear x (s6 <| x_connected := true |> <| x_peer := Some pc7 |>)).
  { destruct H6 as (L1 & L2 & _). rewrite Hpc in L1. cbn in L1, Hpc7. rewrite Hio in L1.
    split_and!; [done|by rewrite <- Hx, <- L2|]. exists pc7. split; [done|].
    destruct (x_peer s6) as [e|]; [|done]. injection Hpc7 as <-. injection L1 as L1. exact L1. }
  apply wlp_bind. destruct (_ || _).
  - unfold on_world, wlp. right. right. split; [done|]. destruct Hend as (E1 & E2 & E3).
    split_and!; [done|done|]. exists pc7. split; [done|]. by destruct E3 as (? & [= <-] & ?).
  - apply wlp_ret, wlp_ret. right. right. split; [done|]. destruct Hend as (E1 & E2 & E3).
    split_and!; [done|done|]. exists pc7. split; [done|]. by destruct E3 as (? & [= <-] & ?).
Qed.

End Proofs.

(** ** The round robin balancer keeps the promises *)

#[export] Instance rr_balancer : Balancer rr_state := {|
  peer_get := ngx_nsoc_upstream_get_round_robin_peer;
  peer_free := ngx_nsoc_upstream_free_round_robin_peer;
  peer_notify := ngx_nsoc_upstream_notify_round_robin_peer;
  peer_pc := st_pc;
  set_peer_pc f := fun st => st <| st_pc ::= f |>;
|}.

(** The session is one of those that share the upstream. *)
Definition rr_ok (st : rr_state) : Prop :=
  0 <= tries (st_pc st) /\ exists (m : gmap nat RoundRobin.session) sid,
    m !! sid = Some (st_rrp st, st_pc st) /\ world_inv (World (st_us st) m).

Lemma world_inv_connection us (m : gmap nat RoundRobin.session) sid rrp pc c :
  world_inv (World us m) -> m !! sid = Some (rrp, pc) ->
  world_inv (World us (<[sid := (rrp, pc <| RoundRobin.connection := c |>)]> m)).
Proof.
  intros (Hus & Hconns & Hall & Hsz) Hm. split_and!; cbn in *; try done.
  - intros g ps k p Hg Hp. rewrite (holders_update m sid _ _ g k Hm).
    change (holds1 g k (rrp, pc <| RoundRobin.connection := c |>)) with (holds1 g k (rrp, pc)).
    rewrite Z.sub_add. by eapply Hconns.
  - apply map_Forall_insert_2; [|done]. apply (Hall _ _ Hm).
  - by rewrite map_size_insert_Some by (by eexists).
Qed.

Lemma free_pc now state st st' :
  ngx_nsoc_upstream_free_round_robin_peer now state st = Done (tt, st') -> 0 <= tries (st_pc st) ->
  RoundRobin.connection (st_pc st') = RoundRobin.connection (st_pc st) /\
  0 <= tries (st_pc st') <= Z.max 0 (tries (st_pc st) - 1).
Proof.
  destruct st as [us rrp pc]. unfold ngx_nsoc_upstream_free_round_robin_peer, mbind, M_bind, gets, modify.
  cbn [st_rrp st_us st_pc]. destruct (current rrp) as [[g k]|]; [|done]. cbn [mderef mret M_ret].
  destruct (group (rrp_peers rrp) us) as [own|]; [|done]. cbn [mderef mret M_ret].
  destruct (group g us) as [ps|]; [|done]. cbn [mderef mret M_ret].
  destruct (peer ps !! k) as [p|]; [|done]. cbn [mderef mret M_ret].
  destruct (single own); intros [= <-] Ht; cbn; [split_and!; (done || lia)|].
  destruct (Z.eqb_spec (tries pc) 0); cbn; split; try done; lia.
Qed.

Lemma get_pc now us rrp pc rc st' :
  get_result now us rrp pc rc st' -> pc_sockaddr pc = None ->
  tries (st_pc st') = tries pc /\ RoundRobin.connection (st_pc st') = None /\
  (rc = NGX_OK /\ is_Some (pc_sockaddr (st_pc st')) \/ rc = NGX_BUSY /\ pc_sockaddr (st_pc st') = None).
Proof.
  intros [ps k t' p|ps b k t0 t' p|ps rrp'] Hn; cbn; split_and!; try done; [left|left|right];
    (split; [done|]); try done; by eexists.
Qed.

Lemma rr_ok_get now st :
  rr_ok st -> pc_sockaddr (st_pc st) = None ->
  exists rc st', ngx_nsoc_upstream_get_round_robin_peer now st = Done (rc, st') /\ rr_ok st' /\
    tries (st_pc st') = tries (st_pc st) /\ RoundRobin.connection (st_pc st') = None /\
    (rc = NGX_OK /\ is_Some (pc_sockaddr (st_pc st')) \/
     rc = NGX_BUSY /\ pc_sockaddr (st_pc st') = None).
Proof.
  destruct st as [us rrp pc]. intros (Ht & m & sid & Hm & Hw) Hn. cbn in *.
  destruct (get_group_exists us m sid rrp pc Hw Hm) as (ps & Hg & Hwf & Hcov).
  destruct (get_round_robin_peer_total now us rrp pc ps Hg Hwf Hcov) as (rc & st' & Hrun & Hres).
  destruct (get_pc _ _ _ _ _ _ Hres Hn) as (T1 & T2 & T3).
  exists rc, st'. split; [done|]. split; [|done]. split; [by rewrite T1|].
  exists (<[sid := (st_rrp st', st_pc st')]> m), sid. split; [apply lookup_insert_eq|].
  by eapply get_result_inv.
Qed.

Lemma rr_ok_free now state st :
  rr_ok st -> is_Some (pc_sockaddr (st_pc st)) ->
  exists st', ngx_nsoc_upstream_free_round_robin_peer now state st = Done (tt, st') /\
    rr_ok (st' <| st_pc ::= fun pc => pc <| pc_sockaddr := None |> |>) /\
    RoundRobin.connection (st_pc st') = RoundRobin.connection (st_pc st) /\
    tries (st_pc st') <= Z.max 0 (tries (st_pc st) - 1).
Proof.
  destruct st as [us rrp pc]. intros (Ht & m & sid & Hm & Hw) Hs. cbn in *.
  pose proof Hw as (_ & _ & Hall & _). destruct (Hall _ _ Hm) as (_ & [own Ho] & Hh).
  destruct (Hh Hs) as (g & k & ps & p & Hc & Hg & Hp).
  destruct (free_run now state us rrp pc g k own ps p Hc Ho Hg Hp) as (pc1 & Hrun).
  destruct (free_pc _ _ _ _ Hrun Ht) as [F1 F2]. eexists. split; [exact Hrun|]. split; [|cbn in *; split; [done|lia]].
  split; [cbn in *; lia|]. exists (<[sid := (rrp, release pc1)]> m), sid. split; [apply lookup_insert_eq|].
  eapply (free_inv us m sid now state rrp pc); [exact Hw|exact Hm|exact Hs|exact Hrun].
Qed.

Lemma rr_ok_notify type st :
  rr_ok st -> is_Some (pc_sockaddr (st_pc st)) -> is_Some (RoundRobin.connection (st_pc st)) ->
  exists st', ngx_nsoc_upstream_notify_round_robin_peer type st = Done (tt, st') /\ rr_ok st' /\
    st_pc st' = st_pc st.
Proof.
  destruct st as [us rrp pc]. intros (Ht & m & sid & Hm & Hw) Hs [ty Hty]. cbn in *.
  pose proof Hw as (_ & _ & Hall & _). destruct (Hall _ _ Hm) as (_ & [own Ho] & Hh).
  destruct (Hh Hs) as (g & k & ps & p & Hc & Hg & Hp).
  assert (Hrun : exists us', ngx_nsoc_upstream_notify_round_robin_peer type (RrState us rrp pc) =
    Done (tt, RrState us' rrp pc)).
  { unfold ngx_nsoc_upstream_notify_round_robin_peer, mbind, M_bind, gets, modify. cbn [st_rrp st_us st_pc].
    destruct (type =? _); [|by eexists]. rewrite Hty. cbn [mderef mret M_ret].
    destruct (ty =? _); [|by eexists]. cbn in Hc, Hg. rewrite Hc. cbn [mderef mret M_ret]. rewrite Hg.
    cbn [mderef mret M_ret]. rewrite Hp. by eexists. }
  destruct Hrun as [us' Hrun]. eexists. split; [exact Hrun|]. split; [|done]. split; [done|].
  exists (<[sid := (rrp, pc)]> m), sid. split; [apply lookup_insert_eq|]. by eapply notify_inv.
Qed.

#[export] Instance rr_balancer_laws : BalancerLaws rr_state rr_ok.
Proof.
  split.
  - done.
  - by intros p [? _].
  - intros c [us rrp pc] (Ht & m & sid & Hm & Hw). split; [done|].
    eexists _, sid. split; [apply lookup_insert_eq|]. by apply world_inv_connection.
  - apply rr_ok_get.
  - apply rr_ok_free.
  - apply rr_ok_notify.
Qed.

(** ** A world that computes

    The world is the list of results the next sockets have; nothing is ever
    received.  In [dead_lib] the library cannot be initialised, so every handshake
    fails at once. *)

Definition NGX_results := list Z.

#[export] Instance script_os : NgxOs NGX_results := {|
  os_recv n e w := (NGX_AGAIN, [], e <| ready := false |>, w);
  os_send bs e k w := (NGX_AGAIN, e, k, w);
  os_handle_read e w := (NGX_OK, e, w);
  os_handle_write e w := (NGX_OK, e, w);
  os_add_timer e _ w := (e <| timer_set := true |>, w);
  os_del_timer e w := (e <| timer_set := false |>, w);
|}.
#[export] Instance script_pool : NgxPool NGX_results := {|
  pool_object w := (true, w);
  pool_bytes n w := (Some (replicate (Z.to_nat n) 0), w);
|}.
#[export] Instance script_core : NgxCore NGX_results := {|
  now_msec _ := 1000;
  now_sec _ := 1;
  os_post_event _ w := w;
  os_set_nodelay _ w := (true, w);
  os_socket_error _ w := (0, w);
  os_close_connection _ w := w;
  get_free_buf free h w := (None, free, h, w);
|}.
#[export] Instance script_core_laws : NgxCoreLaws NGX_results.
Proof. intros free h w cl free' h' w' [= <- <- <- <-]. done. Qed.

Definition fresh_event : event := Event false false false false false OtherHandler.
Definition demo_endpoint (id : Z) : endpoint :=
  Endpoint (Conn id fresh_event fresh_event 0 false OsIo) SOCK_STREAM NGX_TCP_NODELAY_UNSET
    (Evx false false NoFn) (Evx false false NoFn).

Definition socket_result (w : NGX_results) : Z :=
  match w with
  | r :: _ => if (r =? NGX_OK) || (r =? NGX_AGAIN) || (r =? NGX_DECLINED) then r else NGX_ERROR
  | [] => NGX_ERROR
  end.

#[export] Instance script_connect {P} `{Balancer P} : NgxConnect P NGX_results := fun p w =>
  match peer_get 1 p with
  | Done (rc, p) =>
      if negb (rc =? NGX_OK) then Done (rc, None, p, w) else
      let r := socket_result w in
      let o := if (r =? NGX_OK) || (r =? NGX_AGAIN)
               then Some (demo_endpoint (zlen w), WConn false 0 false false) else None in
      Done (r, o, set_peer_pc (fun pc => pc <| RoundRobin.connection := (fun x => e_type x.1) <$> o |>) p,
            tail w)
  | Undefined => Undefined
  | OutOfFuel => OutOfFuel
  end.

#[export] Instance script_connect_laws {P} `{Balancer P} : NgxConnectLaws P NGX_results.
Proof.
  intros p w rcg p1 Hg. unfold ngx_event_connect_peer, script_connect.
  change (now_sec w) with 1 in Hg. rewrite Hg. destruct (Z.eqb_spec rcg NGX_OK) as [->|Hne]; cbn [negb].
  - eexists _, _, _, _. split; [reflexivity|]. right. split; [done|]. split; [done|].
    unfold socket_result. destruct w as [|r w]; [right; by auto|].
    destruct (Z.eqb_spec r NGX_OK) as [->|]; [left; split; [by left|by do 2 eexists]|].
    destruct (Z.eqb_spec r NGX_AGAIN) as [->|]; [left; split; [by right|by do 2 eexists]|].
    destruct (Z.eqb_spec r NGX_DECLINED) as [->|]; right; by auto.
  - eexists _, _, _, _. split; [reflexivity|]. by left.
Qed.

Section Demo.

Definition dead_lib : NoiseLib unit unit := {|
  noise_init := 1;
  NOISE_ROLE_INITIATOR := 1; NOISE_ROLE_RESPONDER := 2;
  NOISE_ACTION_WRITE_MESSAGE := 1; NOISE_ACTION_READ_MESSAGE := 2; NOISE_ACTION_SPLIT := 3;
  NOISE_PREFIX_STANDARD := 0;
  hs_new_by_id _ _ _ _ _ _ _ := (1, None);
  hs_set_prologue h _ := (1, h);
  hs_needs_local_keypair _ := false;
  hs_set_local_private h _ := (1, h);
  hs_local_private_len _ := 32;
  hs_needs_remote_public _ := false;
  hs_set_remote_public h _ := (1, h);
  hs_remote_public_len _ := 32;
  hs_start h := (1, h);
  hs_action _ := 0;
  hs_write_message h _ := (1, [], h);
  hs_read_message h _ := (1, h);
  hs_split h := (1, None, h);
  hs_free _ := 0;
  cs_encrypt k _ _ := (1, [], k);
  cs_decrypt k _ := (1, [], k);
|}.
#[local] Existing Instance dead_lib.

Definition demo_noise : noise_t :=
  NoiseT (Some (NoiseCtx None None)) (PrologueData [] 0 (FirstHdr 0 0 0 0 0)) 100 1000.
Definition demo_pconf (noise : option noise_t) : proxy_conf :=
  ProxyConf 60000 600000 0 64 0 0 NGX_MAX_INT32_VALUE 0 true noise true.

Definition demo_bal : rr_state :=
  RrState demo_us (RrPeerData 0 Primary None [0]) (init_pc <| tries := 4 |>).

Definition demo_px (script : list Z) : px unit unit NGX_results rr_state :=
  Px (Wf None (WConn false 0 false false) None (Heap ∅ ∅) script) (demo_endpoint 9) None None
    (NsocSession None None false) (PrologueData [] 0 (FirstHdr 0 0 0 0 0)) false demo_bal 0 false [] false
    null_buf null_buf [] [] [] [] [] 0 0 0 0 false None.

(** A pump that waits. *)
Definition idle_process (from_upstream do_write : bool) :
  M (px unit unit NGX_results rr_state) (option call) := mret None.

Lemma demo_bal_ok : rr_ok demo_bal.
Proof.
  split; [done|]. exists (<[7%nat := (st_rrp demo_bal, st_pc demo_bal)]> ∅), 7%nat.
  split; [apply lookup_insert_eq|].
  apply (rr_reach_inv (World demo_us ∅)); [|apply (built_inv [117] demo_servers demo_us ∅ demo_fit demo_built eq_refl)].
  eapply rtc_l; [|apply rtc_refl].
  by apply (@step_open unit plentiful demo_us ∅ 7%nat tt tt (RrPeerData 0 Primary None [0])
             (init_pc <| tries := 4 |>)).
Qed.

Lemma demo_px_ok script : px_ok rr_ok (demo_px script).
Proof.
  split; try done; [apply demo_bal_ok|by intros [? ?]|by intros [? ?]].
Qed.

Lemma demo_not_held script : ~ held (demo_px script).
Proof. by intros [? ?]. Qed.

Lemma idle_process_ok pscf : process_ok rr_ok pscf idle_process.
Proof. intros fu dw s Hok Hp. apply wp_ret. by apply (step_wait rr_ok). Qed.

Lemma dead_handshake_returns pscf fuel :
  @handshake_returns unit unit NGX_results dead_lib script_os script_pool pscf (S fuel).
Proof.
  intros noise [x [cl sv on] p w] _ Hcl. cbn in Hcl. subst cl.
  unfold ngx_nsoc_handshake, with_nc, find_nc. cbn -[Z.eqb ngx_nsoc_do_handshake_process].
  rewrite Z.eqb_refl. cbn. eexists _, _. reflexivity.
Qed.


(** The first peer is connected and fails its handshake, the second refuses, the
    third is being connected. *)
Example demo_retries :
  match run (demo_pconf (Some demo_noise)) idle_process 5 40 CConnect
          (demo_px [NGX_OK; NGX_DECLINED; NGX_AGAIN]) with
  | Done (_, s) => x_final s = None /\ length (x_states s) = 3%nat /\
      c_id <$> (e_conn <$> x_peer s) = Some 1 /\ left_tries s = 2
  | _ => False
  end.
Proof. vm_compute. done. Qed.

(** The first peer fails its handshake, and the second gets the client's data in
    the clear. *)
Example demo_clear :
  match run (demo_pconf (Some demo_noise)) idle_process 5 40 CConnect (demo_px [NGX_OK; NGX_OK]) with
  | Done (_, s) => x_connected s = true /\ (io ∘ e_conn) <$> x_peer s = Some OsIo /\
      handshaked <$> client_noise_connection (x_noise s) = Some false
  | _ => False
  end.
Proof. vm_compute. done. Qed.

(** The session between the two: connected to its second peer. *)
Definition demo_bal1 : rr_state :=
  match ngx_nsoc_upstream_get_round_robin_peer 1 demo_bal with Done (_, p) => p | _ => demo_bal end.
Definition demo_nc : nconn unit unit := new_nconn demo_noise 2 3 CLIENT_ROLE.
Definition demo_second : px unit unit NGX_results rr_state :=
  (demo_px []) <| x_peer := Some (demo_endpoint 1) |>
    <| x_noise := NsocSession (Some demo_nc) None false |>
    <| x_wf := Wf None (WConn false 0 false false) (Some (WConn false 0 false false)) (Heap ∅ ∅) [] |>
    <| x_bal := set_peer_pc (fun pc => pc <| RoundRobin.connection := Some SOCK_STREAM |>) demo_bal1 |>
    <| x_states := [UpstreamState 0 0 0 0 0 None] |> <| x_state := true |>.

Lemma demo_bal1_ok : rr_ok demo_bal1 /\ is_Some (pc_sockaddr (st_pc demo_bal1)).
Proof.
  destruct (rr_ok_get 1 demo_bal demo_bal_ok eq_refl) as (rc & st & Hrun & Hok & _ & _ & Hres).
  assert (Hrc : rc = NGX_OK).
  { assert (Heq : (fun r => match r with Done (c, _) => c | _ => 1 end)
      (ngx_nsoc_upstream_get_round_robin_peer 1 demo_bal) = NGX_OK) by (vm_compute; done).
    by rewrite Hrun in Heq. }
  unfold demo_bal1. rewrite Hrun. split; [done|]. by destruct Hres as [[_ ?]|[-> _]].
Qed.

Lemma demo_second_ok : px_ok rr_ok demo_second.
Proof.
  destruct demo_bal1_ok as [H1 H2]. split; try done.
  by apply (peer_ok_connection (Some SOCK_STREAM) demo_bal1).
Qed.

End Demo.
