(* ===== verification/Pump.v ===== *)
(** * The data pump: ngx_nsoc_proxy_process and the events that start it

    One call moves data in one direction: what was saved goes out through the
    write filter, what can be read comes into the direction's buffer and is appended
    to its chain, and so on until nothing can be read; then the session is finalized
    at the end of the data, or waits.  Each direction has one buffer object, and the
    buffers of its chains are descriptors into that object.

    Both connections read with their own functions: nginx's, or [ngx_nsoc_recv] of
    Record once the handshake has installed it.  The theorems are in Relay. *)

From stdpp Require Import prelude list numbers gmap.
From S2P Require Import Prelude RoundRobin NoiseConn Record Handshake Session Chain WriteFilter Proxy.

(** The operating system functions of the connection of either side ([true] for the
    peer's), [ngx_chain_update_chains] on the chains [free], [busy] and [out], and
    whether the worker process is about to exit. *)
Class NgxPump (W : Type) := {
  pump_os : bool -> NgxOs W;
  update_chains : list link -> list link -> list link -> heap -> W ->
    list link * list link * list link * heap * W;
  os_exiting : W -> bool;
}.

Section Pump.
Context {HS CS W P : Type} {NL : NoiseLib HS CS} {PO : NgxPool W} {NB : NgxBuf} {CH : NgxChains W}
  {CO : NgxCore W} {PU : NgxPump W}.
Abbreviation PM := (M (px HS CS W P)).
Context (pscf : proxy_conf).
Implicit Types (fu : bool) (s : px HS CS W P).

(** ** The parts of a direction

    [fu] is [from_upstream]: data flows from the peer to the client. *)

(** [src] is [side fu], [dst] is [side (negb fu)]; the peer's is NULL until the session
    is connected. *)
Definition side fu s : option endpoint :=
  if fu then (if x_connected s then x_peer s else None) else Some (x_client s).
Definition get_side fu : PM endpoint := e ← gets (side fu); mderef e.
Definition on_side fu (f : endpoint -> endpoint) : PM unit :=
  modify (fun s => if fu then s <| x_peer ::= fmap f |> else s <| x_client ::= f |>).

Definition side_conn fu s : option wconn := if fu then wf_up (x_wf s) else Some (wf_down (x_wf s)).
Definition get_side_conn fu : PM wconn := c ← gets (side_conn fu); mderef c.

Definition pump_buf fu s : cbuf := if fu then x_upstream_buf s else x_downstream_buf s.
Definition on_pump_buf fu (f : cbuf -> cbuf) : PM unit :=
  modify (fun s => if fu then s <| x_upstream_buf ::= f |> else s <| x_downstream_buf ::= f |>).
Definition out_of fu s : list link := if fu then x_downstream_out s else x_upstream_out s.
Definition busy_of fu s : list link := if fu then x_downstream_busy s else x_upstream_busy s.
Definition set_out_of fu (l : list link) : PM unit :=
  modify (fun s => if fu then s <| x_downstream_out := l |> else s <| x_upstream_out := l |>).
Definition set_busy_of fu (l : list link) : PM unit :=
  modify (fun s => if fu then s <| x_downstream_busy := l |> else s <| x_upstream_busy := l |>).
Definition received_of fu s : Z := if fu then x_ureceived s else x_received s.
Definition add_received fu (n : Z) : PM unit :=
  modify (fun s => if fu then s <| x_ureceived ::= Z.add n |> else s <| x_received ::= Z.add n |>).
Definition rate_of fu : Z := if fu then download_rate pscf else upload_rate pscf.

(** [b->pos = b->start + 2*NGX_NSOC_LEN_FIELD_SIZE; b->last = b->pos] *)
Definition rewind (b : cbuf) : cbuf :=
  b <| cb_pos := cb_start b + 2 * NGX_NSOC_LEN_FIELD_SIZE |>
    <| cb_last := cb_start b + 2 * NGX_NSOC_LEN_FIELD_SIZE |>.

(** Calls on the read event of a side. *)
Definition on_side_read fu (f : NgxOs W -> event -> W -> event * W) : PM unit := fun s =>
  match side fu s with
  | None => Undefined
  | Some e =>
      let '(ev, w) := f (pump_os fu) (read (e_conn e)) (x_world s) in
      (on_side fu (fun e => e <| e_conn ::= fun x => x <| read := ev |> |>)) 
        (s <| x_wf ::= fun f => f <| wf_world := w |> |>)
  end.
Definition set_read_flags fu (f : event -> event) : PM unit :=
  on_side fu (fun e => e <| e_conn ::= fun x => x <| read ::= f |> |>).
Definition set_read_delayed fu (b : bool) : PM unit :=
  on_side fu (fun e => e <| e_rx ::= fun v => v <| delayed := b |> |>).

(** ** Sending *)

Definition run_filter (ins : list link) fu : PM Z := fun s =>
  match ngx_nsoc_write_filter ins fu (x_wf s) with
  | Done (rc, f) => Done (rc, s <| x_wf := f |>)
  | Undefined => Undefined
  | OutOfFuel => OutOfFuel
  end.

Definition run_update_chains fu : PM unit := fun s =>
  let '(free, busy, out, h, w) :=
    update_chains (x_free s) (busy_of fu s) (out_of fu s) (wf_heap (x_wf s)) (x_world s) in
  (set_out_of fu out;; set_busy_of fu busy)
    (s <| x_free := free |> <| x_wf ::= fun f => f <| wf_heap := h |> <| wf_world := w |> |>).

(** The first half of a round; [Some] is a return. *)
Definition pump_write fu : PM (option call) :=
  o ← gets (side (negb fu));
  match o with
  | None => mret None
  | Some _ =>
      out ← gets (out_of fu);
      busy ← gets (busy_of fu);
      c ← get_side_conn (negb fu);
      if bool_decide (out = []) && bool_decide (busy = []) && (w_buffered c =? 0) then mret None
      else
        rc ← run_filter out fu;
        ty ← gets (fun s => e_type (x_client s));
        if rc =? NGX_ERROR then
          mret (Some (if (ty =? SOCK_DGRAM) && negb fu then CNextUpstream else CFinalize NGX_NSOC_OK))
        else
          run_update_chains fu;;
          busy ← gets (busy_of fu);
          (if bool_decide (busy = []) then on_pump_buf fu rewind else mret tt);;
          mret None
  end.

(** ** Receiving *)

(** The limit of the rate; [None] is the break that waits for the timer. *)
Definition limit_size fu (size : Z) : PM (option Z) :=
  let rate := rate_of fu in
  if rate =? 0 then mret (Some size) else
  now ← gets (fun s => now_sec (x_world s));
  start ← gets x_start_sec;
  got ← gets (received_of fu);
  let limit := rate * (now - start + 1) - got in
  if limit <=? 0 then
    set_read_delayed fu true;;
    on_side_read fu (fun OS ev w => os_add_timer ev (u64 (- limit * 1000 / rate + 1)) w);;
    mret None
  else mret (Some (if limit <? size then limit else size)).

(** [src->recv(src, p, size)], with [off] the offset of [p] in the buffer's object. *)
Definition side_recv fu (off size : Z) : PM Z := fun s =>
  match side fu s with
  | None => Undefined
  | Some e =>
      let o := cb_obj (pump_buf fu s) in
      let mem := default [] (objs (wf_heap (x_wf s)) !! o) in
      match io (e_conn e) with
      | OsIo =>
          let '(r, bs, ev, w) := @os_recv W (pump_os fu) size (read (e_conn e)) (x_world s) in
          let s := s <| x_wf ::= fun f => f <| wf_world := w |> |> in
          match (if 0 <? r then store off bs mem else Some mem) with
          | None => Undefined
          | Some mem' =>
              (set_read_flags fu (fun _ => ev);;
               (if 0 <? r then modify (fun s => s <| x_wf ::= fun f => f <| wf_heap ::= set_obj o mem' |> |>)
                else mret tt);;
               mret r) s
          end
      | NsocIo =>
          match @ngx_nsoc_recv HS CS W NL (pump_os fu) PO (Some off) size mem
                  (Sess (e_conn e) (x_noise s) (x_prologue s) (x_world s)) with
          | Done (r, mem', st) =>
              (on_side fu (fun e => e <| e_conn := sc st |>);; mret r)
                (s <| x_noise := ss st |> <| x_prologue := sp st |>
                   <| x_wf ::= fun f => f <| wf_heap ::= set_obj o mem' |> <| wf_world := sw st |> |>)
          | Undefined => Undefined
          | OutOfFuel => OutOfFuel
          end
      end
  end.

(** The delay after [n] bytes. *)
Definition delay_after fu (n : Z) : PM unit :=
  let rate := rate_of fu in
  if rate =? 0 then mret tt else
  let delay := u64 (n * 1000) / rate in
  if 0 <? delay then
    set_read_delayed fu true;;
    on_side_read fu (fun OS ev w => os_add_timer ev delay w)
  else mret tt.

Definition note_first_byte fu : PM unit :=
  if fu : bool then
    now ← gets (fun s => now_msec (x_world s));
    on_state (fun st => if first_byte_time st =? 2 ^ 64 - 1
                        then st <| first_byte_time := response_since now st |> else st)
  else mret tt.

(** The counted responses of a datagram session. *)
Definition count_response fu : PM unit :=
  ty ← gets (fun s => e_type (x_client s));
  if ty =? SOCK_DGRAM then
    modify (fun s => s <| x_responses ::= Z.add 1 |>);;
    n ← gets x_responses;
    if n =? conf_responses pscf
    then set_read_flags fu (fun v => v <| ready := false |> <| eof := true |>) else mret tt
  else mret tt.

(** [ngx_chain_get_free_buf(c->pool, &u->free)] and the descriptor of the [n] bytes at
    [b->last]; [false] when there is no memory. *)
Definition append_data fu (n : Z) : PM bool :=
  cl ← proxy_free_buf;
  match cl with
  | None => mret false
  | Some cl =>
      out ← gets (out_of fu);
      set_out_of fu (out ++ [cl]);;
      b ← gets (pump_buf fu);
      src ← get_side fu;
      x ← gets (fun s => bufs (wf_heap (x_wf s)) !! l_buf cl);
      x ← mderef x;
      let x := x <| cb_obj := cb_obj b |> <| cb_start := cb_start b |> <| cb_end := cb_end b |>
                 <| cb_pos := cb_last b |> <| cb_last := cb_last b + n |>
                 <| temporary := negb (n =? 0) |> <| last_buf := eof (read (e_conn src)) |>
                 <| flush := true |> in
      modify (fun s => s <| x_wf ::= fun f => f <| wf_heap ::= set_buf (l_buf cl) x |> |>);;
      add_received fu n;;
      on_pump_buf fu (fun b => b <| cb_last := cb_last b + n |>);;
      mret true
  end.

Inductive round := Return (c : option call) | Break | Again.

(** The second half of a round.  [noise] is [noise_recv_action]. *)
Definition pump_read fu (noise : bool) : PM round :=
  b ← gets (pump_buf fu);
  let room := cb_end b - cb_last b in
  let size := u64 (if noise then room else room - NOISE_PROTOCOL_MAC_DATA_SIZE) in
  if size =? 0 then mret Break else
  src ← get_side fu;
  if negb (ready (read (e_conn src))) || delayed (e_rx src) || error (read (e_conn src)) then mret Break else
  o ← limit_size fu size;
  match o with
  | None => mret Break
  | Some size =>
      n ← side_recv fu (if noise then cb_start b else cb_last b) size;
      if n =? NGX_AGAIN then mret Break else
      ty ← gets (fun s => e_type (x_client s));
      got ← gets x_ureceived;
      if (n =? NGX_ERROR) && (ty =? SOCK_DGRAM) && (got =? 0) then mret (Return (Some CNextUpstream)) else
      (if n =? NGX_ERROR then set_read_flags fu (fun v => v <| eof := true |>) else mret tt);;
      let n := if n =? NGX_ERROR then 0 else n in
      if n <? 0 then mret Break else
      delay_after fu n;;
      note_first_byte fu;;
      count_response fu;;
      ok ← append_data fu n;
      mret (if (ok : bool) then Again else Return (Some (CFinalize NGX_NSOC_INTERNAL_SERVER_ERROR)))
  end.

(** [for (;;)]: [inl] is a return, [inr] the code after the loop. *)
Fixpoint pump_loop (fuel : nat) fu (noise do_write : bool) : PM (option call + unit) :=
  match fuel with
  | O => out_of_fuel
  | S fuel =>
      r ← (if do_write then pump_write fu else mret None);
      match r with
      | Some c => mret (inl (Some c))
      | None =>
          x ← pump_read fu noise;
          match x with
          | Return c => mret (inl c)
          | Break => mret (inr tt)
          | Again => pump_loop fuel fu noise true
          end
      end
  end.

(** ** After the loop *)

(** [ngx_handle_read_event] and [ngx_handle_write_event] of a side, unless its
    connection is shared. *)
Definition side_handle_read fu : PM Z := fun s =>
  match side fu s, side_conn fu s with
  | Some e, Some c =>
      if shared c then Done (NGX_OK, s) else
      let '(r, ev, w) := @os_handle_read W (pump_os fu) (read (e_conn e)) (x_world s) in
      (set_read_flags fu (fun _ => ev);; mret r) (s <| x_wf ::= fun f => f <| wf_world := w |> |>)
  | _, _ => Undefined
  end.

Definition side_handle_write fu : PM Z := fun s =>
  match side fu s, side_conn fu s with
  | Some e, Some c =>
      if shared c then Done (NGX_OK, s) else
      let '(r, ev, w) := @os_handle_write W (pump_os fu) (write (e_conn e)) (x_world s) in
      (on_side fu (fun e => e <| e_conn ::= fun x => x <| write := ev |> |>);; mret r)
        (s <| x_wf ::= fun f => f <| wf_world := w |> |>)
  | _, _ => Undefined
  end.

(** A timer call on the client's write event, which carries [proxy_timeout]. *)
Definition on_client_write (f : NgxOs W -> event -> W -> event * W) : PM unit := fun s =>
  let '(ev, w) := f (pump_os false) (write (e_conn (x_client s))) (x_world s) in
  Done (tt, s <| x_client ::= fun e => e <| e_conn ::= fun x => x <| write := ev |> |> |>
              <| x_wf ::= fun f => f <| wf_world := w |> |>).
Definition start_proxy_timer : PM unit :=
  on_client_write (fun OS ev w => os_add_timer ev (proxy_timeout pscf) w).

Definition refresh_timer : PM unit :=
  c ← gets x_client;
  pc ← get_side true;
  if negb (delayed (e_rx c)) && negb (delayed (e_rx pc)) then start_proxy_timer
  else if timer_set (write (e_conn c)) then on_client_write (fun OS ev w => os_del_timer ev w)
  else mret tt.

Definition pump_end fu : PM (option call) :=
  src ← get_side fu;
  dst ← gets (side (negb fu));
  c ← gets (side_conn (negb fu));
  let over :=
    match dst, c with
    | Some d, Some c => eof (read (e_conn src)) && (eof (read (e_conn d)) || (w_buffered c =? 0))
    | _, _ => false
    end in
  if over then mret (Some (CFinalize NGX_NSOC_OK)) else
  r ← side_handle_read fu;
  if negb (r =? NGX_OK) then mret (Some (CFinalize NGX_NSOC_INTERNAL_SERVER_ERROR)) else
  match dst with
  | None => mret None
  | Some _ =>
      r ← side_handle_write (negb fu);
      if negb (r =? NGX_OK) then mret (Some (CFinalize NGX_NSOC_INTERNAL_SERVER_ERROR)) else
      refresh_timer;;
      mret None
  end.

(** [ngx_nsoc_proxy_process(s, from_upstream, do_write)] *)
Definition ngx_nsoc_proxy_process (fuel : nat) fu (do_write : bool) : PM (option call) :=
  ty ← gets (fun s => e_type (x_client s));
  exiting ← gets (fun s => os_exiting (x_world s));
  if (ty =? SOCK_DGRAM) && exiting then mret (Some (CFinalize NGX_NSOC_OK)) else
  on_pump_buf fu rewind;;
  noise ← gets (fun s =>
    bool_decide (is_Some (if fu then client_noise_connection (x_noise s)
                          else server_noise_connection (x_noise s))));
  r ← pump_loop fuel fu noise do_write;
  match r with
  | inl c => mret c
  | inr _ => pump_end fu
  end.

(** ** The events *)

(** The event is the [on_write] one of the client's ([at_peer] false) or the peer's
    connection. *)
Definition event_side (at_peer : bool) s : option endpoint :=
  if at_peer then x_peer s else Some (x_client s).
Definition on_evx (at_peer on_write : bool) (f : evx -> evx) : PM unit :=
  on_side at_peer (fun e => if on_write then e <| e_wx ::= f |> else e <| e_rx ::= f |>).

(** [ngx_handle_read_event(ev, 0)] on that event. *)
Definition handle_this_event (at_peer on_write : bool) : PM Z := fun s =>
  match event_side at_peer s with
  | None => Undefined
  | Some e =>
      let ev := if on_write then write (e_conn e) else read (e_conn e) in
      let '(r, ev, w) := @os_handle_read W (pump_os at_peer) ev (x_world s) in
      (on_side at_peer (fun e => e <| e_conn ::= fun x =>
         if on_write then x <| write := ev |> else x <| read := ev |> |>);; mret r)
        (s <| x_wf ::= fun f => f <| wf_world := w |> |>)
  end.

Definition ngx_nsoc_proxy_process_connection (fuel : nat) (at_peer on_write fu : bool) : PM (option call) :=
  e ← gets (event_side at_peer);
  e ← mderef e;
  let x := if on_write then e_wx e else e_rx e in
  let ev := if on_write then write (e_conn e) else read (e_conn e) in
  connected ← gets x_connected;
  let proceed :=
    if (fu : bool) && negb connected then mret None else ngx_nsoc_proxy_process fuel fu on_write in
  let rearm :=
    r ← handle_this_event at_peer on_write;
    mret (if negb (r =? NGX_OK) then Some (CFinalize NGX_NSOC_INTERNAL_SERVER_ERROR) else None) in
  if timedout x then
    on_evx at_peer on_write (fun x => x <| timedout := false |>);;
    if delayed x then
      on_evx at_peer on_write (fun x => x <| delayed := false |>);;
      if ready ev then proceed else
      r ← rearm;
      match r with
      | Some c => mret (Some c)
      | None =>
          c ← gets x_client;
          pc ← gets x_peer;
          (if (connected : bool) && negb (delayed (e_rx c)) then
             pc ← mderef pc;
             if negb (delayed (e_rx pc)) then start_proxy_timer else mret tt
           else mret tt);;
          mret None
      end
    else
      ty ← gets (fun s => e_type (x_client s));
      got ← gets x_ureceived;
      if (ty =? SOCK_DGRAM) && (conf_responses pscf =? NGX_MAX_INT32_VALUE) then
        get_peer;;
        on_side true (fun e => e <| e_conn ::= fun x =>
          x <| read ::= fun v => v <| ready := false |> <| eof := true |> |> |>);;
        ngx_nsoc_proxy_process fuel true false
      else if (ty =? SOCK_DGRAM) && (got =? 0) then mret (Some CNextUpstream)
      else mret (Some (CFinalize NGX_NSOC_OK))
  else if delayed x then rearm
  else proceed.

(** The handlers of the events of the two connections. *)
Definition ngx_nsoc_proxy_downstream_handler (fuel : nat) (at_peer on_write : bool) : PM (option call) :=
  ngx_nsoc_proxy_process_connection fuel at_peer on_write on_write.
Definition ngx_nsoc_proxy_upstream_handler (fuel : nat) (at_peer on_write : bool) : PM (option call) :=
  ngx_nsoc_proxy_process_connection fuel at_peer on_write (negb on_write).
End Pump.
