(* ===== verification/Relay.v ===== *)
(** * What the data pump keeps: the bytes and their order

    The theorems about [ngx_nsoc_proxy_process] of Pump, for a session whose two
    connections are nginx's own (no Noise on the side it reads from).  The
    operating system and nginx core are parameters with the laws [NgxPumpLaws].

    The pump appends what it reads to its chain and hands the chain to the write
    filter of WriteFilter; the proof carries the invariant [live] around its loop:
    every buffer that is still to be sent lies, in the direction's memory, below the
    place where the next bytes are read to. *)

From stdpp Require Import prelude list numbers gmap.
From S2P Require Import Prelude RoundRobin NoiseConn Record Handshake Session Chain WriteFilter Proxy Pump.

(** ** What the parameters promise

    [pump_source e w]: the bytes the side [e] will still deliver. *)

Class NgxPumpSpec (W : Type) := { pump_source : bool -> W -> list Z }.

Section Laws.
Context {W : Type} {SP : NgxChainsSpec W} {PS : NgxPumpSpec W}.

Definition same_source (w w' : W) : Prop := forall e, pump_source e w' = pump_source e w.

(** Neither stream moved and no link of the write filter was taken or freed. *)
Definition steady (w w' : W) : Prop := same_source w w' /\ same_links w w' /\ same_accepted w w'.

#[export] Instance steady_preorder : PreOrder steady.
Proof.
  split; [done|]. intros w1 w2 w3 (A1 & A2 & A3) (B1 & B2 & B3). split; [|split].
  - intros e. exact (eq_trans (B1 e) (A1 e)).
  - intros i. rewrite (B2 i). apply A2.
  - intros e. exact (eq_trans (B3 e) (A3 e)).
Qed.
End Laws.

(** Documented behaviour.  [recv] on a stream reads up to [n] bytes, and at its end or
    on an error clears [ready]; timers and event registration move no data;
    [send_chain] of nginx only advances [pos] in the buffers it is given;
    [ngx_chain_update_chains] takes the links of size zero off the front of what was
    sent, resets their pointers and gives them to the free list;
    [ngx_chain_get_free_buf] takes the first of the free list, or makes a new
    buffer when that is empty. *)
Class NgxPumpLaws (W : Type) `{NgxPool W} `{NgxBuf} `{NgxChains W} `{NgxCore W} `{NgxPump W}
    `{NgxChainsSpec W} `{NgxPumpSpec W} : Prop := {
  pump_recv_law fu n ev w r bs ev' w' :
    0 < n -> @os_recv W (pump_os fu) n ev w = (r, bs, ev', w') ->
    pump_source fu w = bs ++ pump_source fu w' /\
    pump_source (negb fu) w' = pump_source (negb fu) w /\ same_links w w' /\ same_accepted w w' /\
    (0 < r <= n /\ zlen bs = r \/
     bs = [] /\ (r = NGX_AGAIN \/ (r = 0 \/ r = NGX_ERROR) /\ ready ev' = false));
  pump_add_timer_law fu ev ms w ev' w' : @os_add_timer W (pump_os fu) ev ms w = (ev', w') -> steady w w';
  pump_del_timer_law fu ev w ev' w' : @os_del_timer W (pump_os fu) ev w = (ev', w') -> steady w w';
  pump_handle_read_law fu ev w r ev' w' :
    @os_handle_read W (pump_os fu) ev w = (r, ev', w') -> steady w w';
  pump_handle_write_law fu ev w r ev' w' :
    @os_handle_write W (pump_os fu) ev w = (r, ev', w') -> steady w w';
  pool_object_source w b w' : pool_object w = (b, w') -> same_source w w';
  alloc_link_source w i w' : alloc_chain_link w = (i, w') -> same_source w w';
  free_chain_source i w : same_source w (free_chain i w);
  send_chain_bufs d l c h w r c' h' w' :
    conn_send_chain d l 0 (c, h, w) = Done (r, (c', h', w')) ->
    objs h' = objs h /\ same_source w w' /\
    (forall i, ~ i ∈ map l_buf l -> bufs h' !! i = bufs h !! i) /\
    (forall i b, bufs h !! i = Some b -> in_file b = false ->
      exists p, bufs h' !! i = Some (b <| cb_pos := p |>)) /\
    (forall l', r = Some l' -> exists front, l = front ++ l');
  update_chains_law free busy out h w free' busy' out' h' w' :
    (forall x, x ∈ busy ++ out -> is_Some (buf_of h x)) ->
    update_chains free busy out h w = (free', busy', out', h', w') ->
    out' = [] /\ steady w w' /\ objs h' = objs h /\
    exists gone sub, busy ++ out = gone ++ busy' /\ sub `sublist_of` gone /\ free' ≡ₚ sub ++ free /\
      (forall x b, x ∈ gone -> buf_of h x = Some b -> ngx_buf_size b = 0) /\
      (forall i, ~ i ∈ map l_buf gone -> bufs h' !! i = bufs h !! i) /\
      (forall i b, bufs h !! i = Some b ->
        exists p q, bufs h' !! i = Some (b <| cb_pos := p |> <| cb_last := q |>));
  get_free_buf_chains free h w cl free' h' w' :
    get_free_buf free h w = (cl, free', h', w') ->
    steady w w' /\
    match cl with
    | None => h' = h
    | Some x =>
        free = x :: free' /\ h' = h \/
        free' = free /\ objs h' = objs h /\ bufs h !! l_buf x = None /\
        (forall i, i <> l_buf x -> bufs h' !! i = bufs h !! i) /\
        exists b, bufs h' !! l_buf x = Some b /\ in_file b = false /\ memory b = false
    end;
}.

(** ** Heaps that agree on a link *)

Section Agree.
Context {NB : NgxBuf}.
Implicit Types (h : heap) (l m : list link).

(** The descriptor of [x] and the bytes it stands for are the same. *)
Definition agree h h' (x : link) : Prop :=
  buf_of h' x = buf_of h x /\ forall b, buf_of h x = Some b -> buf_bytes h' b = buf_bytes h b.

Lemma agree_bytes h h' x : agree h h' x -> link_bytes h' x = link_bytes h x.
Proof.
  intros [H1 H2]. unfold link_bytes. rewrite H1. destruct (buf_of h x) as [b|]; [|done]. by rewrite H2.
Qed.

Lemma agree_sound h h' x : agree h h' x -> sound h x -> sound h' x.
Proof.
  intros [H1 H2] (b & Hb & Hs). exists b. split; [by rewrite H1|].
  destruct Hs as [Hs|(? & ? & ? & ?)]; [by left|right]. by rewrite H2.
Qed.

Lemma agree_chain h h' l : Forall (agree h h') l -> chain_bytes h' l = chain_bytes h l.
Proof.
  induction 1 as [|x l Hx _ IH]; [done|]. rewrite !chain_bytes_cons, IH. f_equal. by apply agree_bytes.
Qed.

Lemma agree_all_sound h h' l : Forall (agree h h') l -> Forall (sound h) l -> Forall (sound h') l.
Proof. induction 1 as [|x l Hx _ IH]; inversion_clear 1; constructor; [by eapply agree_sound|auto]. Qed.

Lemma agree_objs h h' l : Forall (agree h h') l -> objs_of h' l = objs_of h l.
Proof.
  intros Ha. unfold objs_of. induction Ha as [|x l [Hx _] _ IH]; [done|]. cbn. by rewrite Hx, IH.
Qed.

Lemma agree_apart h h' l m :
  Forall (agree h h') l -> Forall (agree h h') m -> apart h l m -> apart h' l m.
Proof. intros H1 H2 [A1 A2]. split; [done|]. by rewrite (agree_objs h h' l), (agree_objs h h' m). Qed.

(** Changes outside a link's descriptor and object. *)
Lemma agree_bufs h h' x :
  objs h' = objs h -> bufs h' !! l_buf x = bufs h !! l_buf x -> agree h h' x.
Proof. intros Ho Hb. split; [done|]. intros b _. unfold buf_bytes. by rewrite Ho. Qed.

Lemma set_obj_same o mem h : objs h !! o = Some mem -> set_obj o mem h = h.
Proof. destruct h as [os bs]. intros Hm. cbn in Hm. change (Heap (<[o:=mem]> os) bs = Heap os bs). by rewrite insert_id. Qed.

(** Bytes stored into object [o] from [off] on. *)
Lemma load_store_below off bs mem mem' p n :
  store off bs mem = Some mem' -> p + n <= off -> load p n mem' = load p n mem.
Proof.
  intros Hs Hp. pose proof (store_length _ _ _ _ Hs) as Hl. apply store_Some in Hs as (H0 & H1 & ->).
  pose proof (zlen_nonneg bs). unfold load.
  rewrite Hl. destruct (Z.leb_spec 0 p), (Z.leb_spec 0 n); try done. cbn [andb].
  rewrite (proj2 (Z.leb_le _ _)) by lia. f_equal.
  unfold ztake, zdrop in *. rewrite drop_app_le by (rewrite length_take; unfold zlen in *; lia).
  rewrite take_app_le by (rewrite length_drop, length_take; unfold zlen in *; lia).
  rewrite skipn_firstn_comm, take_take. f_equal. lia.
Qed.

Lemma agree_store h o off bs mem mem' x :
  objs h !! o = Some mem -> store off bs mem = Some mem' ->
  (forall b, buf_of h x = Some b -> cb_obj b = o -> cb_last b <= off) -> agree h (set_obj o mem' h) x.
Proof.
  intros Ho Hs Hx. split; [done|]. intros b Hb. unfold buf_bytes. cbn.
  destruct (decide (cb_obj b = o)) as [He|Hne].
  - rewrite He, lookup_insert_eq, Ho. cbn. eapply load_store_below; [exact Hs|]. specialize (Hx b Hb He). lia.
  - by rewrite lookup_insert_ne.
Qed.

Lemma load_store_same off bs mem mem' :
  store off bs mem = Some mem' -> load off (zlen bs) mem' = Some bs.
Proof.
  intros (H0 & H1 & ->)%store_Some. rewrite <- (zlen_ztake off mem) at 1 by (pose proof (zlen_nonneg bs); lia).
  apply load_app.
Qed.
End Agree.

(** ** What the write filter leaves alone *)

Section Frame.
Context {W : Type} {PO : NgxPool W} {NB : NgxBuf} {CH : NgxChains W} {CO : NgxCore W} {PU : NgxPump W}
  {SP : NgxChainsSpec W} {PS : NgxPumpSpec W} {PL : NgxPumpLaws W}.
Implicit Types (d : bool) (s : wf W).

(** Only buffers numbered in [B] may differ, and only in [pos]; what is saved stays
    within [B]; no object changes and no input is consumed. *)
Record frame d (B : list Z) s s' : Prop := Frame {
  fr_objs : objs (wf_heap s') = objs (wf_heap s);
  fr_source : same_source (wf_world s) (wf_world s');
  fr_out i : ~ i ∈ B -> bufs (wf_heap s') !! i = bufs (wf_heap s) !! i;
  fr_used i b : bufs (wf_heap s) !! i = Some b -> in_file b = false ->
    exists p, bufs (wf_heap s') !! i = Some (b <| cb_pos := p |>);
  fr_pend : map l_buf (pend d s) ⊆ B -> map l_buf (pend d s') ⊆ B;
  fr_conn e : is_Some (conn_at e s) -> is_Some (conn_at e s');
}.

Lemma upd_pos_same b : b <| cb_pos := cb_pos b |> = b.
Proof. by destruct b. Qed.

#[export] Instance frame_preorder d B : PreOrder (frame d B).
Proof.
  split.
  - intros s. split; try done. intros i b Hb _. exists (cb_pos b). by rewrite upd_pos_same.
  - intros s1 s2 s3 [A1 A2 A3 A4 A5 A6] [B1 B2 B3 B4 B5 B6]. split; [congruence| | | |auto|auto].
    + intros e. exact (eq_trans (B2 e) (A2 e)).
    + intros i Hi. by rewrite B3, A3.
    + intros i b Hb Hf. destruct (A4 i b Hb Hf) as [p Hp]. destruct (B4 i _ Hp Hf) as [q Hq].
      exists q. by rewrite Hq.
Qed.

(** Sequences of steps that respect the frame. *)
Lemma wlp_frame {A C} (m : M (wf W) A) (k : A -> M (wf W) C) d B s0 s :
  frame d B s0 s -> wlp m (fun _ s' => frame d B s s') s ->
  (forall a s', frame d B s0 s' -> wlp (k a) (fun _ s'' => frame d B s0 s'') s') ->
  wlp (m ≫= k) (fun _ s'' => frame d B s0 s'') s.
Proof.
  intros H0 Hm Hk. apply wlp_bind. eapply wlp_mono; [exact Hm|]. intros a s' H. apply Hk. by etransitivity.
Qed.

Lemma frame_gets {A C} (f : wf W -> A) (k : A -> M (wf W) C) Q s :
  wlp (k (f s)) Q s -> wlp (gets f ≫= k) Q s.
Proof. intros H. by apply wlp_bind, wlp_gets. Qed.

Lemma frame_filter_conn d B e s : wlp (filter_conn e) (fun _ s' => frame d B s s') s.
Proof.
  unfold filter_conn. destruct e; [by apply wlp_gets|]. apply frame_gets, wlp_mderef. by intros.
Qed.

Lemma frame_get_out d s : wlp (get_out d) (fun x s' => s' = s /\ s_links x = pend d s) s.
Proof.
  unfold get_out. apply frame_gets, wlp_bind, wlp_mderef. intros c Hc. apply wlp_ret. split; [done|].
  unfold pend, out_chain. by rewrite Hc.
Qed.

Lemma frame_get_buf d B x s : wlp (get_buf x) (fun _ s' => frame d B s s') s.
Proof. unfold get_buf. apply frame_gets, wlp_mderef. by intros. Qed.

Lemma frame_on_conn d B e f s : wlp (on_conn e f) (fun _ s' => frame d B s s') s.
Proof.
  unfold on_conn. apply wlp_modify. assert (Hf : frame d B s s) by reflexivity. destruct Hf. destruct e.
  - split; try done. intros [] Hc; [by eexists|done].
  - split; try done. intros [] Hc; [by eexists|]. cbn in *. destruct Hc as [c Hc]. rewrite Hc. by eexists.
Qed.

Lemma frame_set_out d B x s :
  map l_buf (s_links x) ⊆ B -> wlp (set_out d x) (fun _ s' => frame d B s s') s.
Proof.
  intros Hx. unfold set_out. apply wlp_modify. assert (Hf : frame d B s s) by reflexivity. destruct Hf.
  split; try done. intros Hp. unfold pend, out_chain in *. cbn. destruct (wf_ctx s) as [c|]; [|done].
  cbn. by rewrite out_at_put, bool_decide_true.
Qed.

Lemma wf_frame_world d B s w :
  same_source (wf_world s) w -> frame d B s (s <| wf_world := w |>).
Proof. intros Hw. assert (Hf : frame d B s s) by reflexivity. destruct Hf. by split. Qed.

Lemma frame_free_until d B stop l s : wlp (free_until stop l) (fun _ s' => frame d B s s') s.
Proof.
  revert s. induction l as [|x l IH]; intros s; cbn [free_until]; [by apply wlp_ret|].
  destruct (match stop with [] => false | y :: _ => l_id x =? l_id y end); [by apply wlp_ret|].
  eapply wlp_frame; [reflexivity| |].
  - unfold free_link. apply wlp_modify. apply (wf_frame_world d B s (free_chain (l_id x) (wf_world s))).
    apply free_chain_source.
  - intros _ s1 H1. eapply wlp_mono; [apply IH|]. intros u s2 H2. exact (transitivity H1 H2).
Qed.

Lemma frame_scan d B l t s : wlp (scan_saved l t) (fun _ s' => frame d B s s') s.
Proof.
  revert t s. induction l as [|x l IH]; intros t s; cbn [scan_saved]; [by apply wlp_ret|].
  eapply wlp_frame; [reflexivity|apply frame_get_buf|]. intros b s1 H1.
  destruct (visit b t); [|by apply wlp_ret]. eapply wlp_mono; [apply IH|]. intros u s2 H2. exact (transitivity H1 H2).
Qed.

Lemma frame_add_new d B l t s :
  map l_buf (pend d s) ⊆ B -> map l_buf l ⊆ B -> wlp (add_new d l t) (fun _ s' => frame d B s s') s.
Proof.
  revert t s. induction l as [|x l IH]; intros t s Hs Hl; cbn [add_new]; [by apply wlp_ret|].
  assert (Hx : l_buf x ∈ B) by (apply Hl; left).
  assert (Hl' : map l_buf l ⊆ B) by (intros i Hi; apply Hl; by right).
  apply wlp_bind. unfold wlp at 1, alloc_link. destruct (alloc_chain_link (wf_world s)) as [i w] eqn:Ha.
  assert (Hw : frame d B s (s <| wf_world := w |>)) by (eapply wf_frame_world, alloc_link_source; exact Ha).
  destruct i as [i|]; [|by apply wlp_ret].
  apply wlp_bind. eapply wlp_mono; [by apply (frame_get_out d)|]. intros y _ [-> Hy].
  eapply wlp_frame; [exact Hw| |].
  - apply frame_set_out. cbn [s_links]. rewrite Hy, map_app. intros j [Hj|Hj]%elem_of_app.
    + by apply (fr_pend _ _ _ _ Hw Hs).
    + cbn in Hj. apply list_elem_of_singleton in Hj as ->. done.
  - intros _ s2 H2. eapply wlp_frame; [exact H2|apply frame_get_buf|]. intros b s3 H3.
    destruct (visit b t); [|by apply wlp_ret]. eapply wlp_mono; [apply IH; [by apply (fr_pend _ _ _ _ H3)|done]|].
    intros u s4 H4. exact (transitivity H3 H4).
Qed.

Lemma frame_send d B s :
  map l_buf (pend d s) ⊆ B ->
  wlp (call_send_chain d (pend d s) 0) (fun r s' => frame d B s s' /\
    match r with Some l' => map l_buf l' ⊆ B | None => True end) s.
Proof.
  intros Hs. unfold wlp, call_send_chain.
  destruct (if d then Some (wf_down s) else wf_up s) as [c|]; [|done].
  destruct (conn_send_chain d (pend d s) 0 (c, wf_heap s, wf_world s)) as [[r [[c' h'] w']]| |] eqn:Hrun; try done.
  destruct (send_chain_bufs d (pend d s) c (wf_heap s) (wf_world s) r c' h' w' Hrun) as (H1 & H2 & H3 & H4 & H5).
  split.
  - assert (Hc : wf_ctx (if d then s <| wf_down := c' |> else s <| wf_up := Some c' |>) = wf_ctx s) by (by destruct d).
    destruct d; split; try done; try (intros i Hi; apply H3; intros Hin; by apply Hi, Hs).
    + intros [] He; [by eexists|done].
    + intros [] He; [done|by eexists].
  - destruct r as [l'|]; [|done]. destruct (H5 l' eq_refl) as [front Hf]. rewrite Hf, map_app in Hs.
    intros i Hi. apply Hs, elem_of_app. by right.
Qed.

Lemma frame_write_nothing d B t s : wlp (write_nothing d t) (fun _ s' => frame d B s s') s.
Proof.
  unfold write_nothing. destruct (_ || t_sync t); [|by apply wlp_ret].
  apply wlp_bind. eapply wlp_mono; [by apply (frame_get_out d)|]. intros x _ [-> Hx].
  eapply wlp_frame; [reflexivity|apply frame_free_until|]. intros _ s1 H1.
  eapply wlp_frame; [exact H1|apply frame_set_out; intros i Hi; by apply elem_of_nil in Hi|]. intros _ s2 H2.
  eapply wlp_frame; [exact H2|apply frame_on_conn|]. intros _ s3 H3. by apply wlp_ret.
Qed.

Lemma frame_finish d B l s : wlp (finish_write d l) (fun _ s' => frame d B s s') s.
Proof.
  unfold finish_write. eapply wlp_frame; [reflexivity|apply frame_filter_conn|]. intros c s1 H1.
  destruct l as [|x l].
  - eapply wlp_frame; [exact H1|apply frame_on_conn|]. intros _ s2 H2.
    eapply wlp_frame; [exact H2|apply frame_filter_conn|]. intros c2 s3 H3. by apply wlp_ret.
  - destruct (shared c); [by apply wlp_ret|].
    eapply wlp_frame; [exact H1|apply frame_on_conn|]. intros _ s2 H2. by apply wlp_ret.
Qed.

Lemma frame_write_chain d B s :
  map l_buf (pend d s) ⊆ B -> wlp (write_chain d) (fun _ s' => frame d B s s') s.
Proof.
  intros Hs. unfold write_chain. apply wlp_bind. eapply wlp_mono; [by apply (frame_get_out d)|]. intros x _ [-> Hx].
  rewrite Hx. apply wlp_bind. eapply wlp_mono; [by apply (frame_send d B)|]. intros [l'|] s1 [H1 Hl].
  - eapply wlp_frame; [exact H1|apply frame_free_until|]. intros _ s2 H2.
    eapply wlp_frame; [exact H2|by apply frame_set_out|]. intros _ s3 H3.
    eapply wlp_mono; [apply frame_finish|]. intros u s4 H4. exact (transitivity H3 H4).
  - eapply wlp_frame; [exact H1|apply frame_on_conn|]. intros _ s2 H2. by apply wlp_ret.
Qed.

Lemma filter_frame d ins s :
  wlp (ngx_nsoc_write_filter ins d) (fun _ s' => frame d (map l_buf (pend d s ++ ins)) s s') s.
Proof.
  set (B := map l_buf (pend d s ++ ins)).
  assert (Hp : map l_buf (pend d s) ⊆ B) by (intros i Hi; unfold B; rewrite map_app; apply elem_of_app; by left).
  assert (Hi : map l_buf ins ⊆ B) by (intros i Hi; unfold B; rewrite map_app; apply elem_of_app; by right).
  unfold ngx_nsoc_write_filter. eapply wlp_frame; [reflexivity| |].
  { unfold filter_ctx. apply frame_gets. destruct (wf_ctx s) as [c|] eqn:Hc; [by apply wlp_ret|].
    unfold wlp. destruct (pool_object (wf_world s)) as [ok w] eqn:Ha.
    pose proof (wf_frame_world d B s w (pool_object_source _ _ _ Ha)) as Hw. destruct ok; [|done].
    destruct Hw. split; try done. intros _ i Hin. destruct d; by apply elem_of_nil in Hin. }
  intros ok s0 H0. destruct ok; [cbn [negb]|by apply wlp_ret].
  eapply wlp_frame; [exact H0|apply frame_filter_conn|]. intros c s1 H1.
  destruct (w_error c); [by apply wlp_ret|].
  apply wlp_bind. eapply wlp_mono; [by apply (frame_get_out d)|]. intros x _ [-> Hx].
  eapply wlp_frame; [exact H1|apply frame_scan|]. intros [t|] s2 H2; [|by apply wlp_ret].
  destruct (s_wild x); [done|].
  eapply wlp_frame; [exact H2|apply frame_add_new; [by apply (fr_pend _ _ _ _ H2)|done]|].
  intros [t'|] s3 H3; [|by apply wlp_ret].
  apply wlp_bind. eapply wlp_mono; [by apply (frame_get_out d)|]. intros y _ [-> Hy].
  eapply wlp_frame; [exact H3|apply frame_set_out; cbn; rewrite Hy; by apply (fr_pend _ _ _ _ H3)|].
  intros _ s4 H4. eapply wlp_frame; [exact H4|apply frame_filter_conn|]. intros c' s5 H5.
  destruct (_ && _).
  - eapply wlp_mono; [apply frame_write_nothing|]. intros u s6 H6. exact (transitivity H5 H6).
  - eapply wlp_mono; [apply (frame_write_chain d B); by apply (fr_pend _ _ _ _ H5)|]. intros u s6 H6. exact (transitivity H5 H6).
Qed.
End Frame.

(** ** One round of sending *)

Section Send.
Context {W : Type} {PO : NgxPool W} {NB : NgxBuf} {NBL : NgxBufLaws} {CH : NgxChains W} {CO : NgxCore W}
  {PU : NgxPump W} {SP : NgxChainsSpec W} {CL : NgxChainsLaws W} {PS : NgxPumpSpec W} {PL : NgxPumpLaws W}.
Implicit Types (fu : bool) (f : wf W) (free busy out : list link).

(** A buffer that is known and not a file. *)
Definition plain (h : heap) (x : link) : Prop :=
  exists b, buf_of h x = Some b /\ in_file b = false /\ memory b = false.

(** The chains of the direction [fu]: what was handed to the filter ([busy]), what
    is not yet ([out]), and the free buffers of the session. *)
Record base fu f free busy out : Prop := Base {
  ba_ok : wf_ok f;
  ba_input : input_ok fu out f;
  ba_own : NoDup (map l_buf (free ++ busy ++ out));
  ba_plain x : x ∈ free ++ busy ++ out -> plain (wf_heap f) x;
  ba_free i : i ∈ map l_buf free -> ~ i ∈ map l_buf (pend fu f ++ pend (negb fu) f);
  ba_back i : i ∈ map l_buf (busy ++ out) -> ~ i ∈ map l_buf (pend (negb fu) f);
}.

(** The memory of the direction is [b]; what is to be sent from it lies below
    [b->last] and is still listed. *)
Record below fu f (b : cbuf) busy out : Prop := Below {
  be_range : 0 <= cb_start b /\ 0 <= cb_last b /\ cb_end b < 2 ^ 63 /\
    cb_start b + 2 * NGX_NSOC_LEN_FIELD_SIZE <= cb_end b - NOISE_PROTOCOL_MAC_DATA_SIZE /\
    cb_last b <= cb_end b - NOISE_PROTOCOL_MAC_DATA_SIZE;
  be_mem : exists mem, objs (wf_heap f) !! cb_obj b = Some mem /\ cb_end b <= zlen mem;
  be_data x : x ∈ pend fu f ++ out -> exists bf, buf_of (wf_heap f) x = Some bf /\ temporary bf = true /\
    (cb_obj bf = cb_obj b -> cb_last bf <= cb_last b /\ l_buf x ∈ map l_buf (busy ++ out));
  be_other : ~ cb_obj b ∈ objs_of (wf_heap f) (pend (negb fu) f);
}.

(** After the filter, before the update: [g] is the state [f] turned into. *)
Record filtered fu f out (r : Z) g : Prop := Filtered {
  fi_order : sent_in_order fu (all_bytes fu out f) f g;
  fi_frame : frame fu (map l_buf (pend fu f ++ out)) f g;
  fi_settled : r <> NGX_ERROR -> settled fu (all_bytes fu out f) r g;
}.

Lemma filter_run fu f free busy out :
  base fu f free busy out -> is_Some (conn_at fu f) ->
  exists r g, ngx_nsoc_write_filter out fu f = Done (r, g) /\ filtered fu f out r g.
Proof.
  intros Hb [c Hc]. destruct (write_filter_conserves fu out c f (ba_ok _ _ _ _ _ Hb) Hc (ba_input _ _ _ _ _ Hb))
    as (r & g & Hrun & Ho & Hr).
  exists r, g. split; [done|]. split; [done| |].
  - exact (wlp_inv _ _ _ _ _ (filter_frame fu out f) Hrun).
  - intros Hne. by destruct Hr as [[? _]|Hr].
Qed.

Lemma plain_frame fu B f g x : frame fu B f g -> plain (wf_heap f) x -> plain (wf_heap g) x.
Proof.
  intros Hf (b & Hb & H1 & H2). destruct (fr_used _ _ _ _ Hf _ _ Hb H1) as [p Hp].
  by exists (b <| cb_pos := p |>).
Qed.

(** The other direction is not involved. *)
Definition back_same fu f g : Prop :=
  pend (negb fu) g = pend (negb fu) f /\ pend_bytes (negb fu) g = pend_bytes (negb fu) f /\
  taken_bytes (negb fu) g = taken_bytes (negb fu) f.

(** The links [gone] had size zero in [g]: a saved one among them carries flags
    only, and their pointers were reset. *)
Record cleared (gone : list link) (h h' : heap) : Prop := Cleared {
  cl_objs : objs h' = objs h;
  cl_zero x b : x ∈ gone -> buf_of h x = Some b -> ngx_buf_size b = 0;
  cl_out i : ~ i ∈ map l_buf gone -> bufs h' !! i = bufs h !! i;
  cl_moved i b : bufs h !! i = Some b -> exists p q, bufs h' !! i = Some (b <| cb_pos := p |> <| cb_last := q |>);
}.

Lemma cleared_special gone h h' x :
  cleared gone h h' -> sound h x -> l_buf x ∈ map l_buf gone ->
  exists b, buf_of h x = Some b /\ ngx_buf_special b = true.
Proof.
  intros Hc Hs Hin. destruct (Hs) as (b & Hb & _). exists b. split; [done|].
  apply list_elem_of_fmap in Hin as (y & Hy & Hin).
  eapply sound_size; [exact Hs|exact Hb|]. eapply (cl_zero _ _ _ Hc y); [done|].
  unfold buf_of in *. by rewrite <- Hy.
Qed.

Lemma cleared_agree gone h h' x : cleared gone h h' -> ~ l_buf x ∈ map l_buf gone -> agree h h' x.
Proof. intros Hc Hx. apply agree_bufs; [apply Hc|by apply Hc]. Qed.

Lemma cleared_bytes gone h h' l :
  cleared gone h h' -> Forall (sound h) l -> chain_bytes h' l = chain_bytes h l.
Proof.
  intros Hc. induction 1 as [|x l Hx _ IH]; [done|]. rewrite !chain_bytes_cons, IH. f_equal.
  destruct (decide (l_buf x ∈ map l_buf gone)) as [Hin|Hin]; [|by eapply agree_bytes, cleared_agree].
  destruct (cleared_special _ _ _ _ Hc Hx Hin) as (b & Hb & Hs). unfold link_bytes. rewrite Hb, Hs.
  unfold buf_of in *. destruct (cl_moved _ _ _ Hc _ _ Hb) as (p & q & ->). by rewrite buf_special_pos, Hs.
Qed.

(** A saved link that holds data keeps doing so, is not cleared, and its buffer is
    still listed. *)
Lemma data_kept fu f b busy out g x :
  wf_ok f -> input_ok fu out f -> below fu f b busy out -> frame fu (map l_buf (pend fu f ++ out)) f g ->
  x ∈ pend fu g -> exists bf, buf_of (wf_heap g) x = Some bf /\ temporary bf = true /\
    (cb_obj bf = cb_obj b -> cb_last bf <= cb_last b /\ l_buf x ∈ map l_buf (busy ++ out)).
Proof.
  intros Hok (Hin & _) Hb Hf Hx.
  assert (Hy : l_buf x ∈ map l_buf (pend fu f ++ out)).
  { apply (fr_pend _ _ _ _ Hf); [|by apply list_elem_of_fmap_2].
    intros i Hi. rewrite map_app. apply elem_of_app. by left. }
  apply list_elem_of_fmap in Hy as (y & Hxy & Hy).
  destruct (be_data _ _ _ _ _ Hb y Hy) as (bf & Hbf & Ht & Hbelow).
  assert (Hs : sound (wf_heap f) y).
  { apply elem_of_app in Hy as [Hy|Hy]; [|rewrite list.Forall_forall in Hin; by apply Hin].
    pose proof (ok_sound f Hok fu) as Hs. rewrite list.Forall_forall in Hs. by apply Hs. }
  destruct Hs as (b' & Hb' & Hs). rewrite Hbf in Hb'. injection Hb' as <-.
  rewrite (buf_special_memory bf Ht) in Hs. destruct Hs as [?|(_ & Hfile & _)]; [done|].
  unfold buf_of in *. destruct (fr_used _ _ _ _ Hf _ _ Hbf Hfile) as [p Hp].
  exists (bf <| cb_pos := p |>). rewrite Hxy. done.
Qed.

(** The state after [ngx_chain_update_chains]. *)
Lemma update_spec fu f free busy out r g free' busy' out' h' w' :
  base fu f free busy out -> filtered fu f out r g -> r <> NGX_ERROR ->
  update_chains free busy out (wf_heap g) (wf_world g) = (free', busy', out', h', w') ->
  out' = [] /\ steady (wf_world g) w' /\ exists gone sub,
    cleared gone (wf_heap g) h' /\ busy ++ out = gone ++ busy' /\ sub `sublist_of` gone /\ free' ≡ₚ sub ++ free.
Proof.
  intros Hb Hg Hr Hup.
  destruct (update_chains_law free busy out (wf_heap g) (wf_world g) free' busy' out' h' w') as
    (H1 & H2 & H3 & gone & sub & G1 & G2 & G3 & G4 & G5 & G6); [|done|].
  { intros x Hx. assert (Hp : plain (wf_heap g) x).
    { eapply plain_frame; [apply Hg|]. apply (ba_plain _ _ _ _ _ Hb). apply elem_of_app. by right. }
    destruct Hp as (b & -> & _). by eexists. }
  split; [done|]. split; [done|]. exists gone, sub. by split_and!.
Qed.

Lemma pend_heap e f h w : pend e (f <| wf_heap := h |> <| wf_world := w |>) = pend e f.
Proof. done. Qed.

(** What was saved and taken is what there was, and the other direction is as
    before. *)
Lemma update_bytes fu f free busy out r g gone busy' h' w' :
  base fu f free busy out -> filtered fu f out r g -> r <> NGX_ERROR ->
  cleared gone (wf_heap g) h' -> busy ++ out = gone ++ busy' -> steady (wf_world g) w' ->
  let g' := g <| wf_heap := h' |> <| wf_world := w' |> in
  taken_bytes fu g' ++ pend_bytes fu g' = all_bytes fu out f /\ back_same fu f g'.
Proof.
  intros Hb [Ho Hf Hs] Hr Hc Hgone (W1 & W2 & W3) g'. destruct (Hs Hr) as [S1 S2 _].
  destruct Ho as (_ & O2 & O3 & O4). split.
  - unfold pend_bytes, taken_bytes. change (pend fu g') with (pend fu g). change (wf_heap g') with h'.
    change (wf_world g') with w'. rewrite (W3 fu), (cleared_bytes gone (wf_heap g)); [exact S2|done|apply S1].
  - unfold back_same, taken_bytes. change (pend (negb fu) g') with (pend (negb fu) g).
    change (wf_world g') with w'. split_and!; [done| |by rewrite (W3 (negb fu))].
    rewrite <- O3. unfold pend_bytes. change (pend (negb fu) g') with (pend (negb fu) g).
    eapply cleared_bytes; [done|apply S1].
Qed.

(** And the invariant holds again when only data was under way. *)
Section Updated.
Context (fu : bool) (f : wf W) (b : cbuf) (free busy out : list link) (r : Z) (g : wf W).
Context (gone sub free' busy' : list link) (h' : heap) (w' : W).
Context (Hb : base fu f free busy out) (Hbe : below fu f b busy out).
Context (Hg : filtered fu f out r g) (Hr : r <> NGX_ERROR).
Context (Hc : cleared gone (wf_heap g) h') (Hgone : busy ++ out = gone ++ busy').
Context (Hsub : sub `sublist_of` gone) (Hfree : free' ≡ₚ sub ++ free) (Hw : steady (wf_world g) w').
Let g' : wf W := g <| wf_heap := h' |> <| wf_world := w' |>.

Lemma sub_bufs i : i ∈ map l_buf sub -> i ∈ map l_buf gone.
Proof. intros Hi. eapply elem_of_sublist; [exact Hi|]. by apply (fmap_sublist l_buf). Qed.

Lemma gone_listed i : i ∈ map l_buf gone \/ i ∈ map l_buf busy' -> i ∈ map l_buf (busy ++ out).
Proof. rewrite Hgone, map_app, elem_of_app. done. Qed.

Lemma updated_settled : settled fu (all_bytes fu out f) r g.
Proof. by apply (fi_settled _ _ _ _ _ Hg). Qed.

Lemma updated_back : pend (negb fu) g = pend (negb fu) f.
Proof. apply (fi_order _ _ _ _ _ Hg). Qed.

Lemma updated_data x : x ∈ pend fu g -> exists bf, buf_of (wf_heap g) x = Some bf /\ temporary bf = true /\
  (cb_obj bf = cb_obj b -> cb_last bf <= cb_last b /\ l_buf x ∈ map l_buf (busy ++ out)).
Proof.
  by apply (data_kept fu f b busy out g x (ba_ok _ _ _ _ _ Hb) (ba_input _ _ _ _ _ Hb) Hbe (fi_frame _ _ _ _ _ Hg)).
Qed.

Lemma saved_not_gone e x : x ∈ pend e g -> ~ l_buf x ∈ map l_buf gone.
Proof.
  intros Hx Hin. destruct (negb_cases fu e) as [-> | ->].
  - destruct (updated_data x Hx) as (bf & Hbf & Ht & _).
    pose proof (ok_sound g (st_ok _ _ _ _ updated_settled) fu) as Hs. rewrite list.Forall_forall in Hs.
    destruct (cleared_special _ _ _ _ Hc (Hs x Hx) Hin) as (b' & Hb' & Hsp).
    rewrite Hbf in Hb'. injection Hb' as <-. by rewrite (buf_special_memory bf Ht) in Hsp.
  - rewrite updated_back in Hx. apply (ba_back _ _ _ _ _ Hb (l_buf x)); [apply gone_listed; by left|].
    by apply list_elem_of_fmap_2.
Qed.

Lemma saved_agree e : Forall (agree (wf_heap g) h') (pend e g).
Proof.
  apply list.Forall_forall. intros x Hx. eapply cleared_agree; [done|]. by eapply saved_not_gone.
Qed.

Lemma updated_ok : wf_ok g'.
Proof.
  destruct updated_settled as [[T1 T2 T3 T4 T5] _ _]. destruct Hw as (_ & W2 & _). split.
  - intros e. destruct (T1 e) as [N1 N2]. split; [done|]. intros l Hl. apply W2. by apply N2.
  - exact T2.
  - intros e. eapply agree_all_sound; [apply saved_agree|apply T3].
  - exact T4.
  - intros e. eapply agree_apart; [apply saved_agree|apply saved_agree|apply T5].
Qed.

Lemma updated_nodup : NoDup (map l_buf (free' ++ busy')).
Proof.
  pose proof (ba_own _ _ _ _ _ Hb) as Hn. rewrite Hgone, !map_app in Hn. rewrite Hfree, !map_app.
  rewrite (Permutation_app_comm (map l_buf sub)), <- app_assoc.
  apply list.NoDup_app in Hn as (N1 & N2 & N3). apply list.NoDup_app in N3 as (N3 & N4 & N5).
  apply list.NoDup_app. split_and!; [done| |apply list.NoDup_app; split_and!; [| |done]].
  - intros i Hi [Hin|Hin]%elem_of_app; apply (N2 i Hi), elem_of_app; [left; by apply sub_bufs|by right].
  - eapply sublist_NoDup; [exact N3|]. by apply (fmap_sublist l_buf).
  - intros i Hi. apply N4. by apply sub_bufs.
Qed.

Lemma updated_plain x : x ∈ free' ++ busy' -> plain h' x.
Proof.
  intros Hx. assert (Hp : plain (wf_heap g) x).
  { eapply plain_frame; [exact (fi_frame _ _ _ _ _ Hg)|]. apply (ba_plain _ _ _ _ _ Hb). rewrite Hgone.
    rewrite Hfree in Hx. rewrite !elem_of_app in *.
    destruct Hx as [[Hx|Hx]|Hx]; [right; left|by left|by right; right]. by eapply elem_of_sublist. }
  destruct Hp as (b0 & Hb0 & P1 & P2). unfold plain, buf_of in *.
  destruct (cl_moved _ _ _ Hc _ _ Hb0) as (p & q & Hpq). by eexists.
Qed.

Lemma updated_free i : i ∈ map l_buf free' -> ~ i ∈ map l_buf (pend fu g ++ pend (negb fu) g).
Proof.
  rewrite Hfree, !map_app. intros [Hi|Hi]%elem_of_app [Hin|Hin]%elem_of_app.
  - apply list_elem_of_fmap in Hin as (x & -> & Hx). by apply (saved_not_gone fu x Hx), sub_bufs.
  - apply list_elem_of_fmap in Hin as (x & -> & Hx). by apply (saved_not_gone (negb fu) x Hx), sub_bufs.
  - assert (Hin' : i ∈ map l_buf (pend fu f ++ out)).
    { apply (fr_pend _ _ _ _ (fi_frame _ _ _ _ _ Hg)); [|exact Hin].
      intros j Hj. rewrite map_app. apply elem_of_app. by left. }
    rewrite map_app in Hin'. apply elem_of_app in Hin' as [Hin'|Hin'].
    + apply (ba_free _ _ _ _ _ Hb i Hi). rewrite map_app. apply elem_of_app. by left.
    + pose proof (ba_own _ _ _ _ _ Hb) as Hn. rewrite !map_app in Hn.
      apply list.NoDup_app in Hn as (_ & Hn & _). apply (Hn i Hi). apply elem_of_app. by right.
  - rewrite updated_back in Hin. apply (ba_free _ _ _ _ _ Hb i Hi). rewrite map_app. apply elem_of_app. by right.
Qed.

Lemma updated_base : base fu g' free' busy' [].
Proof.
  split; rewrite ?app_nil_r.
  - exact updated_ok.
  - split_and!; [done|rewrite app_nil_r; apply updated_ok|]. split; intros i Hi; by apply elem_of_nil in Hi.
  - exact updated_nodup.
  - exact updated_plain.
  - exact updated_free.
  - intros i Hi. change (pend (negb fu) g') with (pend (negb fu) g). rewrite updated_back.
    apply (ba_back _ _ _ _ _ Hb), gone_listed. by right.
Qed.

Lemma updated_objs : objs h' = objs (wf_heap f).
Proof. by rewrite (cl_objs _ _ _ Hc), (fr_objs _ _ _ _ (fi_frame _ _ _ _ _ Hg)). Qed.

Lemma updated_other : ~ cb_obj b ∈ objs_of h' (pend (negb fu) g).
Proof.
  rewrite (agree_objs (wf_heap g) h') by apply saved_agree. rewrite updated_back.
  intros Hin. apply (be_other _ _ _ _ _ Hbe). revert Hin. unfold objs_of.
  rewrite !list_elem_of_omap. intros (x & Hx & Hox). exists x. split; [done|].
  unfold buf_of in *. rewrite (fr_out _ _ _ _ (fi_frame _ _ _ _ _ Hg)) in Hox; [done|].
  intros Hin. pose proof (ok_apart f (ba_ok _ _ _ _ _ Hb) fu) as [A1 _].
  destruct (ba_input _ _ _ _ _ Hb) as (_ & _ & A2 & _). rewrite map_app in Hin.
  apply elem_of_app in Hin as [Hin|Hin]; [apply (A1 _ Hin)|apply (A2 _ Hin)]; by apply list_elem_of_fmap_2.
Qed.

Lemma updated_below : below fu g' b busy' [].
Proof.
  split.
  - apply Hbe.
  - change (wf_heap g') with h'. rewrite updated_objs. apply Hbe.
  - intros x. rewrite app_nil_r. change (pend fu g') with (pend fu g). intros Hx.
    destruct (updated_data x Hx) as (bf & Hbf & Ht & Hl). pose proof (saved_not_gone fu x Hx) as Hng.
    exists bf. split; [|split; [done|]].
    + change (wf_heap g') with h'. unfold buf_of in *. by rewrite (cl_out _ _ _ Hc).
    + intros Hobj. destruct (Hl Hobj) as [L1 L2]. split; [done|]. rewrite app_nil_r. rewrite Hgone, map_app in L2.
      by apply elem_of_app in L2 as [L2|L2].
  - exact updated_other.
Qed.
End Updated.
End Send.

(** ** The session around it *)

Section Relay.
Context {HS CS W P : Type} {NL : NoiseLib HS CS} {PO : NgxPool W} {NB : NgxBuf} {NBL : NgxBufLaws}
  {CH : NgxChains W} {CO : NgxCore W} {PU : NgxPump W} {SP : NgxChainsSpec W} {CL : NgxChainsLaws W}
  {PS : NgxPumpSpec W} {PL : NgxPumpLaws W}.
Context (pscf : proxy_conf).
Implicit Types (fu : bool) (s : px HS CS W P).

(** The connections of a stream session that reads the side [fu] in the clear. *)
Record line fu s : Prop := Line {
  ln_src : exists e, side fu s = Some e /\ io (e_conn e) = OsIo;
  ln_src_conn : is_Some (side_conn fu s);
  ln_dst : is_Some (side (negb fu) s) -> is_Some (side_conn (negb fu) s);
  ln_stream : e_type (x_client s) = SOCK_STREAM;
  ln_state : fu = true -> x_state s = true;
}.

(** What no step of the pump changes. *)
Record same_shape s s' : Prop := SameShape {
  sh_connected : x_connected s' = x_connected s;
  sh_peer : (io ∘ e_conn) <$> x_peer s' = (io ∘ e_conn) <$> x_peer s;
  sh_client : io (e_conn (x_client s')) = io (e_conn (x_client s));
  sh_type : e_type (x_client s') = e_type (x_client s);
  sh_state : x_state s' = x_state s;
  sh_conn e : is_Some (conn_at e (x_wf s)) -> is_Some (conn_at e (x_wf s'));
}.

#[export] Instance same_shape_preorder : PreOrder same_shape.
Proof.
  split; [by split|]. intros s1 s2 s3 [] []. split; try congruence. auto.
Qed.

Lemma shape_side fu s s' : same_shape s s' -> (io ∘ e_conn) <$> side fu s' = (io ∘ e_conn) <$> side fu s.
Proof.
  intros [H1 H2 H3 _ _ _]. unfold side. rewrite H1. destruct fu; [by destruct (x_connected s)|].
  cbn. by rewrite H3.
Qed.

Lemma side_conn_at fu s : side_conn fu s = conn_at (negb fu) (x_wf s).
Proof. by destruct fu. Qed.

Lemma shape_line fu s s' : same_shape s s' -> line fu s -> line fu s'.
Proof.
  intros Hs [(e & He & Hio) H2 H3 H4 H5]. pose proof (shape_side fu s s' Hs) as Hsd. split.
  - rewrite He in Hsd. destruct (side fu s') as [e'|]; [|done]. exists e'. split; [done|].
    cbn in Hsd. injection Hsd as Hsd. by rewrite Hsd.
  - rewrite side_conn_at in *. by apply Hs.
  - intros Hd. rewrite side_conn_at in *. apply Hs, H3. rewrite <- (fmap_is_Some (io ∘ e_conn)).
    rewrite <- (shape_side _ s s' Hs). by rewrite fmap_is_Some.
  - by rewrite (sh_type _ _ Hs).
  - rewrite (sh_state _ _ Hs). done.
Qed.

(** No data moved: events, timers and times may differ. *)
Record calm s s' : Prop := Calm {
  cm_shape : same_shape s s';
  cm_wf : exists w, steady (x_world s) w /\ x_wf s' = (x_wf s) <| wf_world := w |>;
  cm_bufs : x_upstream_buf s' = x_upstream_buf s /\ x_downstream_buf s' = x_downstream_buf s;
  cm_chains : x_free s' = x_free s /\ x_upstream_out s' = x_upstream_out s /\
    x_upstream_busy s' = x_upstream_busy s /\ x_downstream_out s' = x_downstream_out s /\
    x_downstream_busy s' = x_downstream_busy s;
  cm_received : x_received s' = x_received s /\ x_ureceived s' = x_ureceived s;
}.

Lemma wf_same_world s : exists w, steady (x_world s) w /\ x_wf s = (x_wf s) <| wf_world := w |>.
Proof. exists (x_world s). split; [done|]. unfold x_world. by destruct (x_wf s). Qed.

#[export] Instance calm_preorder : PreOrder calm.
Proof.
  split.
  - intros s. split; try done. apply wf_same_world.
  - intros s1 s2 s3 [A1 (w & A2 & A3) A4 A5 A6] [B1 (v & B2 & B3) B4 B5 B6].
    split; [by etransitivity| |destruct_and!; split_and!; congruence..].
    exists v. rewrite B3, A3. split; [|done]. unfold x_world in B2. rewrite A3 in B2. by etransitivity.
Qed.

Lemma calm_world s w : steady (x_world s) w -> calm s (s <| x_wf ::= fun f => f <| wf_world := w |> |>).
Proof. intros Hw. split; try done. by exists w. Qed.

Lemma shape_side_upd fu (f : endpoint -> endpoint) s s' :
  (forall e, io (e_conn (f e)) = io (e_conn e) /\ e_type (f e) = e_type e) ->
  on_side fu f s = Done (tt, s') -> calm s s'.
Proof.
  intros Hf [= <-]. pose proof (wf_same_world s). destruct fu; split; try done.
  - split; try done. cbn. destruct (x_peer s) as [e|]; [|done]. cbn. by rewrite (proj1 (Hf e)).
  - split; try done; apply Hf.
Qed.

(** One step of a sequence that moves no data. *)
Lemma wp_calm {A B} (m : M (px HS CS W P) A) (k : A -> M (px HS CS W P) B) Q s0 s :
  calm s0 s -> wp m (fun _ s' => calm s s') s ->
  (forall a s', calm s0 s' -> wp (k a) Q s') -> wp (m ≫= k) Q s.
Proof.
  intros H0 Hm Hk. apply wp_bind. eapply wp_mono; [exact Hm|]. intros a s' H. apply Hk. by etransitivity.
Qed.

Lemma calm_on_side fu f s :
  (forall e, io (e_conn (f e)) = io (e_conn e) /\ e_type (f e) = e_type e) ->
  wp (on_side fu f) (fun _ s' => calm s s') s.
Proof. intros Hf. unfold wp. cbn. by apply (shape_side_upd fu f). Qed.

(** A call on an event of a side: the event and the world. *)
Lemma calm_event fu g s w :
  (forall e, io (e_conn (g e)) = io (e_conn e) /\ e_type (g e) = e_type e) -> steady (x_world s) w ->
  wp (on_side fu g) (fun _ s' => calm s s') (s <| x_wf ::= fun f => f <| wf_world := w |> |>).
Proof.
  intros Hg Hw. eapply wp_mono; [by apply calm_on_side|]. intros [] s' H. etransitivity; [|exact H].
  by apply calm_world.
Qed.

Lemma calm_side_read fu f s :
  is_Some (side fu s) ->
  (forall ev w ev' w', f (pump_os fu) ev w = (ev', w') -> steady w w') ->
  wp (on_side_read fu f) (fun _ s' => calm s s') s.
Proof.
  intros [e He] Hf. unfold wp, on_side_read. rewrite He.
  destruct (f (pump_os fu) (read (e_conn e)) (x_world s)) as [ev w] eqn:Hr.
  apply (calm_event fu (fun e => e <| e_conn ::= fun x => x <| read := ev |> |>) s w); [done|by eapply Hf].
Qed.

Lemma calm_line fu s s' : calm s s' -> line fu s -> line fu s'.
Proof. intros H. apply shape_line, H. Qed.

Lemma calm_of fu s s' : calm s s' ->
  pump_buf fu s' = pump_buf fu s /\ x_free s' = x_free s /\ out_of fu s' = out_of fu s /\
  busy_of fu s' = busy_of fu s /\ received_of fu s' = received_of fu s /\
  pend_bytes fu (x_wf s') = pend_bytes fu (x_wf s).
Proof.
  intros [_ (w & _ & ->) (H1 & H2) (H3 & H4 & H5 & H6 & H7) (H8 & H9)].
  unfold pump_buf, out_of, busy_of, received_of. rewrite H1, H2, H3, H4, H5, H6, H7, H8, H9. done.
Qed.

Lemma base_world fu (f : wf W) w free busy out :
  steady (wf_world f) w -> base fu f free busy out -> base fu (f <| wf_world := w |>) free busy out.
Proof.
  intros (_ & Hl & _) [B1 B2 B3 B4 B5 B6]. split; try assumption. apply (wf_ok_views f); [done|done|exact Hl|done].
Qed.

Lemma below_world fu (f : wf W) w b busy out : below fu f b busy out -> below fu (f <| wf_world := w |>) b busy out.
Proof. by intros []. Qed.

(** ** Bytes on their way *)

(** Taken by the destination, saved by the filter, and not handed to it yet. *)
Definition flow fu s : list Z := all_bytes fu (out_of fu s) (x_wf s).

Definition based fu s : Prop := base fu (x_wf s) (x_free s) (busy_of fu s) (out_of fu s).
Definition room fu s : Prop := below fu (x_wf s) (pump_buf fu s) (busy_of fu s) (out_of fu s).

(** The other direction of the session. *)
Definition other_same fu s s' : Prop :=
  back_same fu (x_wf s) (x_wf s') /\ pump_source (negb fu) (x_world s') = pump_source (negb fu) (x_world s).

(** [got] was read, and joined what was on its way. *)
Record progress fu s got s' : Prop := Progress {
  pg_source : pump_source fu (x_world s) = got ++ pump_source fu (x_world s');
  pg_flow : flow fu s' = flow fu s ++ got;
  pg_received : received_of fu s' = received_of fu s + zlen got;
  pg_other : other_same fu s s';
}.

(** [got] was read, and the destination has a front part of it all. *)
Record cut fu s got s' : Prop := Cut {
  ct_source : pump_source fu (x_world s) = got ++ pump_source fu (x_world s');
  ct_taken : taken_bytes fu (x_wf s') `prefix_of` flow fu s ++ got;
  ct_other : other_same fu s s';
}.

Lemma other_same_trans fu s1 s2 s3 : other_same fu s1 s2 -> other_same fu s2 s3 -> other_same fu s1 s3.
Proof. intros [(A1 & A2 & A3) A4] [(B1 & B2 & B3) B4]. split; [split_and!|]; congruence. Qed.

Lemma progress_trans fu s1 s2 s3 a b :
  progress fu s1 a s2 -> progress fu s2 b s3 -> progress fu s1 (a ++ b) s3.
Proof.
  intros [A1 A2 A3 A4] [B1 B2 B3 B4]. split.
  - by rewrite A1, B1, app_assoc.
  - by rewrite B2, A2, app_assoc.
  - rewrite B3, A3, zlen_app. lia.
  - by eapply other_same_trans.
Qed.

Lemma progress_cut fu s1 s2 s3 a b : progress fu s1 a s2 -> cut fu s2 b s3 -> cut fu s1 (a ++ b) s3.
Proof.
  intros [A1 A2 A3 A4] [B1 B2 B3]. split.
  - by rewrite A1, B1, app_assoc.
  - by rewrite app_assoc, <- A2.
  - by eapply other_same_trans.
Qed.

Lemma flow_taken fu s : taken_bytes fu (x_wf s) `prefix_of` flow fu s.
Proof. by eexists. Qed.

Lemma progress_cut_here fu s got s' : progress fu s got s' -> cut fu s got s'.
Proof. intros [A1 A2 A3 A4]. split; [done| |done]. rewrite <- A2. apply flow_taken. Qed.

Lemma calm_progress fu s s' : calm s s' -> progress fu s [] s'.
Proof.
  intros Hc. destruct (calm_of fu s s' Hc) as (_ & _ & Ho & _ & Hr & _).
  destruct Hc as [_ (w & (W1 & W2 & W3) & Hw) _ _ _]. unfold x_world in *. split.
  - unfold x_world. rewrite Hw. symmetry. apply W1.
  - rewrite app_nil_r. unfold flow, all_bytes, taken_bytes. rewrite Ho, Hw. cbn. by rewrite (W3 fu).
  - rewrite Hr, zlen_nil. lia.
  - unfold other_same, back_same, taken_bytes, x_world. rewrite Hw. cbn. split; [|apply W1].
    split_and!; [done|done|apply W3].
Qed.

Lemma progress_calm fu s1 s2 s3 got : progress fu s1 got s2 -> calm s2 s3 -> progress fu s1 got s3.
Proof.
  intros H1 H2. rewrite <- (app_nil_r got). eapply progress_trans; [exact H1|]. by apply calm_progress.
Qed.

Lemma calm_based fu s s' : calm s s' -> based fu s -> based fu s'.
Proof.
  intros Hc Hb. destruct (calm_of fu s s' Hc) as (_ & Hf & Ho & Hbu & _).
  destruct Hc as [_ (w & Hs & Hw) _ _ _]. unfold based. rewrite Hw, Hf, Ho, Hbu. by apply base_world.
Qed.

Lemma calm_room fu s s' : calm s s' -> room fu s -> room fu s'.
Proof.
  intros Hc Hb. destruct (calm_of fu s s' Hc) as (Hp & Hf & Ho & Hbu & _).
  destruct Hc as [_ (w & Hs & Hw) _ _ _]. unfold room. rewrite Hw, Hp, Ho, Hbu. by apply below_world.
Qed.

(** ** Sending *)

(** The connections, their events and the place of the session's state. *)
Definition same_ends s s' : Prop :=
  x_connected s' = x_connected s /\ x_peer s' = x_peer s /\ x_client s' = x_client s /\ x_state s' = x_state s.

Lemma ends_shape s s' :
  same_ends s s' -> (forall e, is_Some (conn_at e (x_wf s)) -> is_Some (conn_at e (x_wf s'))) -> same_shape s s'.
Proof. intros (H1 & H2 & H3 & H4) H5. split; by rewrite ?H1, ?H2, ?H3, ?H4. Qed.

Lemma ends_side fu s s' : same_ends s s' -> side fu s' = side fu s.
Proof. intros (H1 & H2 & H3 & _). unfold side. by rewrite H1, H2, H3. Qed.

Lemma run_update fu s free busy out h w :
  update_chains (x_free s) (busy_of fu s) (out_of fu s) (wf_heap (x_wf s)) (x_world s) = (free, busy, out, h, w) ->
  wp (run_update_chains fu) (fun _ s' => same_ends s s' /\
    x_wf s' = (x_wf s) <| wf_heap := h |> <| wf_world := w |> /\ x_free s' = free /\
    busy_of fu s' = busy /\ out_of fu s' = out /\ pump_buf fu s' = pump_buf fu s /\
    received_of fu s' = received_of fu s) s.
Proof. intros Hup. unfold wp, run_update_chains. rewrite Hup. by destruct fu. Qed.

Lemma below_rewind fu (f : wf W) b : below fu f b [] [] -> below fu f (rewind b) [] [].
Proof.
  intros [H1 H2 H3 H4]. split; [|done| |done].
  - unfold rewind, NGX_NSOC_LEN_FIELD_SIZE in *. cbn -[Z.pow Z.mul] in *. lia.
  - intros x Hx. destruct (H3 x Hx) as (bf & Hb & Ht & Hl). exists bf. split_and!; [done|done|].
    intros Ho. by destruct (Hl Ho) as [_ Hin%elem_of_nil].
Qed.

Lemma wp_conn {B} fu (k : wconn -> M (px HS CS W P) B) Q s :
  is_Some (side_conn fu s) -> (forall c, side_conn fu s = Some c -> wp (k c) Q s) -> wp (get_side_conn fu ≫= k) Q s.
Proof.
  intros [c Hc] H. apply wp_bind. unfold get_side_conn. wp_step. apply wp_gets. eapply wp_mderef; [exact Hc|]. by apply H.
Qed.

(** After one round of sending. *)
Definition sent_round fu s (r : option call) s' : Prop :=
  match r with
  | Some c => c = CFinalize NGX_NSOC_OK /\ cut fu s [] s'
  | None => progress fu s [] s' /\ line fu s' /\ side fu s' = side fu s /\
      (is_Some (side (negb fu) s') -> out_of fu s' = []) /\
      (out_of fu s = [] -> out_of fu s' = []) /\
      (room fu s -> based fu s' /\ room fu s')
  end.

(** When nothing is busy the buffer of the direction starts again. *)
Lemma sent_rewound fu s s2 :
  sent_round fu s None s2 -> busy_of fu s2 = [] -> out_of fu s2 = [] ->
  wp (on_pump_buf fu rewind) (fun _ => sent_round fu s None) s2.
Proof.
  intros ([P1 P2 P3 P4] & Hl & Hside & Hout & Hout' & Hlive) Hbusy Ho. unfold on_pump_buf. apply wp_modify.
  set (s3 := if fu then _ else _). assert (Hc3 : x_wf s3 = x_wf s2 /\ x_free s3 = x_free s2 /\
    busy_of fu s3 = busy_of fu s2 /\ out_of fu s3 = out_of fu s2 /\ pump_buf fu s3 = rewind (pump_buf fu s2) /\
    same_ends s2 s3 /\ received_of fu s3 = received_of fu s2) by (by destruct fu).
  destruct Hc3 as (F1 & F2 & F3 & F4 & F5 & F6 & F7). unfold sent_round.
  rewrite (ends_side fu s2 s3 F6), (ends_side (negb fu) s2 s3 F6), F4. split_and!; try done.
  - unfold flow, other_same, x_world in *. split; unfold other_same, flow, x_world.
    + by rewrite F1.
    + by rewrite F1, F4.
    + by rewrite F7.
    + by rewrite F1.
  - eapply shape_line; [apply (ends_shape s2)|done]; [done|by rewrite F1].
  - intros Hbe. destruct (Hlive Hbe) as [L1 L2]. unfold based, room in *.
    rewrite F1, F2, F3, F4, F5. split; [done|]. rewrite Hbusy, Ho in *. by apply below_rewind.
Qed.

Lemma pump_write_spec fu s :
  line fu s -> based fu s -> wp (pump_write fu) (sent_round fu s) s.
Proof.
  intros Hl Hb. assert (Hid : calm s s) by reflexivity. unfold pump_write. wp_step. apply wp_gets.
  destruct (side (negb fu) s) as [e|] eqn:Hd.
  2: { apply wp_ret. split_and!; try done; [by apply calm_progress|by rewrite Hd; intros []]. }
  do 2 (wp_step; apply wp_gets).
  assert (Hc : is_Some (side_conn (negb fu) s)) by (apply Hl; by eexists).
  apply wp_conn; [done|]. intros c Hcc. destruct (_ && _) eqn:Hidle.
  { apply andb_true_iff in Hidle as [[Ho%bool_decide_eq_true_1 _]%andb_true_iff _].
    apply wp_ret. split_and!; try done. by apply calm_progress. }
  rewrite side_conn_at, negb_involutive in Hc.
  destruct (filter_run fu (x_wf s) _ _ _ Hb Hc) as (r & g & Hrun & Hg).
  wp_step. unfold wp at 1, run_filter. rewrite Hrun. set (s1 := s <| x_wf := g |>).
  destruct (Hg) as [Ho Hf Hs]. pose proof Ho as (Ho1 & Ho2 & Ho3 & Ho4).
  pose proof (fr_source _ _ _ _ Hf) as Hsrc.
  wp_step. apply wp_gets. destruct (Z.eqb_spec r NGX_ERROR) as [->|Hr].
  { change (e_type (x_client s1)) with (e_type (x_client s)). rewrite (ln_stream _ _ Hl). apply wp_ret.
    split; [done|]. split.
    - symmetry. apply Hsrc.
    - by rewrite app_nil_r.
    - split; [by split_and!|apply Hsrc]. }
  destruct (update_chains (x_free s1) (busy_of fu s1) (out_of fu s1) (wf_heap (x_wf s1)) (x_world s1))
    as [[[[free busy] out] h] w] eqn:Hup.
  wp_step. eapply wp_mono; [by apply (run_update fu s1)|].
  intros [] s2 (E1 & E2 & E3 & E4 & E5 & E6 & E7).
  change (busy_of fu s1) with (busy_of fu s) in *. change (out_of fu s1) with (out_of fu s) in *.
  destruct (update_spec fu (x_wf s) (x_free s) (busy_of fu s) (out_of fu s) r g free busy out h w Hb Hg Hr)
    as (-> & Hw & gone & sub & Hcl & Hgone & Hsub & Hfree); [by destruct fu|].
  destruct (update_bytes fu (x_wf s) _ _ _ r g gone busy h w Hb Hg Hr Hcl Hgone Hw) as [Hby Hba].
  change (x_wf s1) with g in E2. rewrite <- E2 in Hby, Hba.
  assert (Hends : same_ends s s2) by (by destruct fu).
  assert (Hline : line fu s2).
  { eapply shape_line; [apply (ends_shape s)|done]; [done|]. intros d Hd'. rewrite E2.
    destruct (fr_conn _ _ _ _ Hf d Hd') as [c' Hc']. exists c'. by destruct d. }
  assert (Hprog : progress fu s [] s2).
  { destruct Hw as (W1 & _ & _). unfold x_world. split.
    - unfold x_world. rewrite E2. cbn. by rewrite (W1 fu), (Hsrc fu).
    - unfold flow at 1, all_bytes at 1. rewrite E5, app_nil_r.
      by rewrite Hby, app_nil_r.
    - rewrite E7, zlen_nil, Z.add_0_r. by destruct fu.
    - split; [done|]. unfold x_world. rewrite E2. cbn. by rewrite (W1 (negb fu)), (Hsrc (negb fu)). }
  assert (Hlive : room fu s -> based fu s2 /\ room fu s2).
  { intros Hbe. unfold based, room. rewrite E2, E3, E4, E5, E6. change (pump_buf fu s1) with (pump_buf fu s).
    split.
    - by eapply updated_base; [exact Hb|exact Hbe|exact Hg|..].
    - by eapply updated_below; [exact Hb|exact Hbe|exact Hg|..]. }
  assert (Hround : sent_round fu s None s2).
  { unfold sent_round. rewrite (ends_side fu s s2 Hends). by split_and!. }
  wp_step. apply wp_gets. rewrite E4. wp_step. destruct (bool_decide (busy = [])) eqn:Hbusy.
  - apply bool_decide_eq_true_1 in Hbusy. eapply wp_mono; [apply (sent_rewound fu s s2 Hround); congruence|].
    intros [] s3 H3. by apply wp_ret.
  - by do 2 apply wp_ret.
Qed.

(** ** Receiving *)

(** The bytes [bs] lie at [b->last], within the limit of the direction's memory. *)
Definition received_at fu s (bs : list Z) : Prop :=
  cb_last (pump_buf fu s) + zlen bs <= cb_end (pump_buf fu s) - NOISE_PROTOCOL_MAC_DATA_SIZE /\
  exists mem, objs (wf_heap (x_wf s)) !! cb_obj (pump_buf fu s) = Some mem /\
    load (cb_last (pump_buf fu s)) (zlen bs) mem = Some bs.

(** [bs] were read: the input is shorter, nothing else moved. *)
Record got_bytes fu s bs s' : Prop := GotBytes {
  gb_source : pump_source fu (x_world s) = bs ++ pump_source fu (x_world s');
  gb_flow : flow fu s' = flow fu s;
  gb_received : received_of fu s' = received_of fu s;
  gb_other : other_same fu s s';
}.

Definition unready fu s : Prop := exists e, side fu s = Some e /\ ready (read (e_conn e)) = false.

(** What [src->recv] leaves. *)
Definition recv_done fu s (n : Z) s' : Prop :=
  line fu s' /\ based fu s' /\ room fu s' /\ same_shape s s' /\ out_of fu s' = out_of fu s /\
  exists bs, got_bytes fu s bs s' /\ received_at fu s' bs /\
    (n = NGX_AGAIN /\ bs = [] \/ 0 < n /\ zlen bs = n \/ (n = 0 \/ n = NGX_ERROR) /\ bs = [] /\ unready fu s').

(** A store above everything that is under way. *)
Lemma below_agree fu s bs mem mem' :
  based fu s -> room fu s ->
  objs (wf_heap (x_wf s)) !! cb_obj (pump_buf fu s) = Some mem ->
  store (cb_last (pump_buf fu s)) bs mem = Some mem' ->
  Forall (agree (wf_heap (x_wf s)) (set_obj (cb_obj (pump_buf fu s)) mem' (wf_heap (x_wf s))))
    (pend fu (x_wf s) ++ out_of fu s) /\
  Forall (agree (wf_heap (x_wf s)) (set_obj (cb_obj (pump_buf fu s)) mem' (wf_heap (x_wf s))))
    (pend (negb fu) (x_wf s)).
Proof.
  intros Hb Hr Hm Hs. split; apply list.Forall_forall; intros x Hx; (eapply agree_store; [exact Hm|exact Hs|]);
    intros b Hbx Ho.
  - destruct (be_data _ _ _ _ _ Hr x Hx) as (bf & Hbf & _ & Hl). rewrite Hbx in Hbf. injection Hbf as <-.
    by apply Hl.
  - exfalso. apply (be_other _ _ _ _ _ Hr). rewrite <- Ho. by eapply objs_of_elem.
Qed.

(** Heaps that agree on the chains of both directions are as good. *)
Lemma agree_wf_ok (f : wf W) h w :
  same_links (wf_world f) w -> (forall e, Forall (agree (wf_heap f) h) (pend e f)) -> wf_ok f ->
  wf_ok (f <| wf_heap := h |> <| wf_world := w |>).
Proof.
  intros W2 Ha [T1 T2 T3 T4 T5]. split.
  - intros e. destruct (T1 e) as [N1 N2]. split; [done|]. intros l Hl. apply W2. by apply N2.
  - exact T2.
  - intros e. eapply agree_all_sound; [apply Ha|apply T3].
  - exact T4.
  - intros e. eapply agree_apart; [apply Ha|apply Ha|apply T5].
Qed.

Lemma both_sides (Q : list link -> Prop) fu (f : wf W) : Q (pend fu f) -> Q (pend (negb fu) f) -> forall e, Q (pend e f).
Proof. intros H1 H2 e. by destruct (negb_cases fu e) as [-> | ->]. Qed.

Section Agreeing.
Context (fu : bool) (f : wf W) (out : list link) (h : heap) (w : W).
Context (Ha : Forall (agree (wf_heap f) h) (pend fu f ++ out)) (Hn : Forall (agree (wf_heap f) h) (pend (negb fu) f)).
Let g : wf W := f <| wf_heap := h |> <| wf_world := w |>.

Lemma agree_input : input_ok fu out f -> input_ok fu out g.
Proof.
  intros (H1 & H2 & H3). apply list.Forall_app in Ha as [_ Ho]. split_and!; [|done|].
  - eapply agree_all_sound; [exact Ho|done].
  - eapply agree_apart; [exact Ho|exact Hn|done].
Qed.

Lemma agree_pend_bytes e : pend_bytes e g = pend_bytes e f.
Proof.
  apply list.Forall_app in Ha as [Hp _]. unfold pend_bytes. change (pend e g) with (pend e f).
  apply agree_chain. by apply (both_sides (Forall (agree (wf_heap f) h)) fu).
Qed.

Lemma agree_all_bytes : same_accepted (wf_world f) w -> all_bytes fu out g = all_bytes fu out f.
Proof.
  intros Hw. unfold all_bytes. rewrite agree_pend_bytes. unfold taken_bytes. change (wf_world g) with w.
  rewrite (Hw fu). do 2 f_equal. apply agree_chain. by apply list.Forall_app in Ha as [_ Ho].
Qed.

Lemma agree_back : same_accepted (wf_world f) w -> back_same fu f g.
Proof.
  intros Hw. unfold back_same. rewrite agree_pend_bytes. split_and!; [done|done|]. apply Hw.
Qed.
End Agreeing.

(** The state after [bs] were stored, as far as the chains are concerned. *)
Definition put_bytes fu s mem' (ev : event) w : px HS CS W P :=
  let h := set_obj (cb_obj (pump_buf fu s)) mem' (wf_heap (x_wf s)) in
  let s := s <| x_wf ::= fun f => f <| wf_heap := h |> <| wf_world := w |> |> in
  if fu then s <| x_peer ::= fmap (fun e => e <| e_conn ::= fun x => x <| read := ev |> |>) |>
  else s <| x_client ::= fun e => e <| e_conn ::= fun x => x <| read := ev |> |> |>.

Lemma put_bytes_parts fu s mem' ev w : let s' := put_bytes fu s mem' ev w in
  x_wf s' = (x_wf s) <| wf_heap := set_obj (cb_obj (pump_buf fu s)) mem' (wf_heap (x_wf s)) |> <| wf_world := w |> /\
  pump_buf fu s' = pump_buf fu s /\ x_free s' = x_free s /\ busy_of fu s' = busy_of fu s /\
  out_of fu s' = out_of fu s /\ received_of fu s' = received_of fu s /\
  same_shape s s' /\ (forall e, side fu s = Some e ->
    exists e', side fu s' = Some e' /\ read (e_conn e') = ev).
Proof.
  destruct fu; cbn -[set_obj]; split_and!; try done.
  - split; try done. cbn. by destruct (x_peer s).
  - intros e He. unfold side in *. cbn. destruct (x_connected s); [|done]. rewrite He. cbn. by eexists.
  - intros e He. by eexists.
Qed.

Lemma put_bytes_spec fu s bs mem mem' ev w :
  line fu s -> based fu s -> room fu s ->
  objs (wf_heap (x_wf s)) !! cb_obj (pump_buf fu s) = Some mem ->
  store (cb_last (pump_buf fu s)) bs mem = Some mem' ->
  same_links (x_world s) w -> same_accepted (x_world s) w ->
  pump_source fu (x_world s) = bs ++ pump_source fu w ->
  pump_source (negb fu) w = pump_source (negb fu) (x_world s) ->
  let s' := put_bytes fu s mem' ev w in
  line fu s' /\ based fu s' /\ room fu s' /\ got_bytes fu s bs s'.
Proof.
  intros Hl Hb Hr Hm Hs W1 W2 W3 W4 s'.
  destruct (put_bytes_parts fu s mem' ev w) as (E1 & E2 & E3 & E4 & E5 & E6 & E7 & _). fold s' in E1, E2, E3, E4, E5, E6, E7.
  destruct (below_agree fu s bs mem mem' Hb Hr Hm Hs) as [Ha Hn].
  pose proof (proj1 (proj1 (list.Forall_app _ _ _) Ha)) as Hp.
  set (h := set_obj (cb_obj (pump_buf fu s)) mem' (wf_heap (x_wf s))) in *.
  split; [by eapply shape_line|]. split; [|split].
  - unfold based. rewrite E1, E3, E4, E5. destruct Hb as [B1 B2 B3 B4 B5 B6]. split; try assumption.
    + apply agree_wf_ok; [exact W1| |exact B1]. by apply (both_sides (Forall (agree (wf_heap (x_wf s)) h)) fu).
    + by apply agree_input.
  - unfold room. rewrite E1, E2, E4, E5. destruct Hr as [R1 (m & R2 & R3) R4 R5]. split; try assumption.
    exists mem'. split; [apply lookup_insert_eq|]. rewrite Hm in R2. injection R2 as <-.
    by rewrite (store_length _ _ _ _ Hs).
  - unfold x_world in *. split; unfold flow, other_same, x_world; rewrite ?E1, ?E5.
    + exact W3.
    + by apply agree_all_bytes.
    + exact E6.
    + split; [by eapply agree_back|exact W4].
Qed.

Lemma side_recv_spec fu s size :
  line fu s -> based fu s -> room fu s -> 0 < size ->
  cb_last (pump_buf fu s) + size <= cb_end (pump_buf fu s) - NOISE_PROTOCOL_MAC_DATA_SIZE ->
  wp (side_recv fu (cb_last (pump_buf fu s)) size) (recv_done fu s) s.
Proof.
  intros Hl Hb Hr Hsz Hroom. destruct (ln_src fu s Hl) as (e & He & Hio).
  destruct (be_range _ _ _ _ _ Hr) as (R1 & R2 & R3 & R4 & R5).
  destruct (be_mem _ _ _ _ _ Hr) as (mem & Hm & Hlen).
  unfold wp, side_recv. rewrite He, Hio, Hm. cbn [from_option id].
  destruct (@os_recv W (pump_os fu) size (read (e_conn e)) (x_world s)) as [[[r bs] ev] w] eqn:Hrecv.
  destruct (pump_recv_law fu _ _ _ _ _ _ _ Hsz Hrecv) as (W1 & W2 & W3 & W4 & Hres).
  assert (Hz : zlen bs <= size) by (destruct Hres as [[? <-]|[-> _]]; rewrite ?zlen_nil; lia).
  destruct (store_in_range (cb_last (pump_buf fu s)) bs mem) as [mem' Hst]; [lia|unfold NOISE_PROTOCOL_MAC_DATA_SIZE in *; lia|].
  destruct (put_bytes_spec fu s bs mem mem' ev w Hl Hb Hr Hm Hst W3 W4 W1 W2) as (L1 & L2 & L3 & L4).
  destruct (put_bytes_parts fu s mem' ev w) as (E1 & E2 & _ & _ & E5 & _ & E7 & E8).
  assert (Hat : received_at fu (put_bytes fu s mem' ev w) bs).
  { unfold received_at. rewrite E1, E2. split; [lia|]. exists mem'. split; [apply lookup_insert_eq|].
    by eapply load_store_same. }
  destruct Hres as [[Hn Hzr]|[-> Hcase]].
  - rewrite (proj2 (Z.ltb_lt 0 r)) by lia. rewrite Hst.
    assert (Heq : recv_done fu s r (put_bytes fu s mem' ev w)).
    { split_and!; try done. exists bs. split_and!; try done. right. left. lia. }
    by destruct fu.
  - assert (Hneg : r <= 0) by (destruct Hcase as [-> |[[-> | ->] _]]; done).
    rewrite (proj2 (Z.ltb_ge 0 r)) by lia.
    assert (Hmem : mem' = mem).
    { apply store_Some in Hst as (_ & _ & ->). cbn [app]. rewrite zlen_nil, Z.add_0_r. apply ztake_zdrop. }
    rewrite Hmem in *. clear Hmem.
    assert (Heq : recv_done fu s r (put_bytes fu s mem ev w)).
    { split_and!; try done. exists []. split_and!; try done. destruct Hcase as [-> |[Hc Hrd]]; [by left|].
      right. right. split_and!; try done. destruct (E8 e He) as (e' & He' & Hre). exists e'. by rewrite Hre. }
    assert (Hsame : set_obj (cb_obj (pump_buf fu s)) mem (wf_heap (x_wf s)) = wf_heap (x_wf s)).
    { by apply set_obj_same. }
    assert (Hput : put_bytes fu s mem ev w = (if fu
      then s <| x_wf ::= fun f => f <| wf_world := w |> |> <| x_peer ::= fmap (fun e => e <| e_conn ::= fun x => x <| read := ev |> |>) |>
      else s <| x_wf ::= fun f => f <| wf_world := w |> |> <| x_client ::= fun e => e <| e_conn ::= fun x => x <| read := ev |> |> |>)).
    { unfold put_bytes. rewrite Hsame. by destruct s as [[]], fu. }
    rewrite Hput in Heq. by destruct fu.
Qed.

(** ** Appending what was read *)

(** [cl] carries a buffer that nothing else uses. *)
Record new_buf fu (f : wf W) (free busy out : list link) (cl : link) (free' : list link) h' : Prop := NewBuf {
  nb_objs : objs h' = objs (wf_heap f);
  nb_new y : y ∈ pend fu f ++ pend (negb fu) f ++ free' ++ busy ++ out -> l_buf y <> l_buf cl;
  nb_out i : i <> l_buf cl -> bufs h' !! i = bufs (wf_heap f) !! i;
  nb_plain : plain h' cl;
  nb_free : free' `sublist_of` free;
}.

Lemma sound_known h x : sound h x -> is_Some (bufs h !! l_buf x).
Proof. intros (b & Hb & _). by exists b. Qed.

Lemma plain_known h x : plain h x -> is_Some (bufs h !! l_buf x).
Proof. intros (b & Hb & _). by exists b. Qed.

Lemma get_free_buf_new fu f free busy out w cl free' h' :
  base fu f free busy out -> get_free_buf free (wf_heap f) (wf_world f) = (Some cl, free', h', w) ->
  new_buf fu f free busy out cl free' h' /\ steady (wf_world f) w.
Proof.
  intros [B1 B2 B3 B4 B5 B6] Hget. destruct (get_free_buf_chains _ _ _ _ _ _ _ Hget) as [Hw Hcase].
  split; [|done]. destruct Hcase as [[-> ->]|(-> & Hobj & Hnone & Hout & b & Hb & Hf & Hm)].
  - cbn [app map] in B3. apply NoDup_cons in B3 as [N1 N2]. split; try done.
    + intros y Hy Heq. rewrite !elem_of_app in Hy. rewrite !map_app, !elem_of_app in N1.
      assert (Hcl : l_buf cl ∈ map l_buf (cl :: free')) by (left).
      specialize (B5 _ Hcl). rewrite map_app, elem_of_app in B5. rewrite <- Heq in *.
      pose proof (fun l => list_elem_of_fmap_2 l_buf l y) as Hin.
      destruct Hy as [Hy|[Hy|[Hy|[Hy|Hy]]]]; apply (Hin _) in Hy; tauto.
    + apply B4. left.
    + by apply sublist_cons.
  - split; try done.
    + intros y Hy Heq. assert (Hk : is_Some (bufs (wf_heap f) !! l_buf y)); [|by rewrite Heq, Hnone in Hk; destruct Hk].
      pose proof (ok_sound f B1) as Hs. rewrite !elem_of_app in Hy.
      pose proof (Hs fu) as H1. pose proof (Hs (negb fu)) as H2. rewrite list.Forall_forall in H1, H2.
      destruct Hy as [Hy|[Hy|Hy]]; [by apply sound_known, H1|by apply sound_known, H2|].
      apply plain_known, B4. by rewrite !elem_of_app.
    + by exists b.
Qed.

Section Append.
Context (fu : bool) (f : wf W) (b : cbuf) (free busy out : list link) (cl : link) (free' : list link).
Context (h' : heap) (w : W) (x : cbuf) (bs mem : list Z).
Context (Hb : base fu f free busy out) (Hbe : below fu f b busy out).
Context (Hnew : new_buf fu f free busy out cl free' h') (Hw : steady (wf_world f) w).
Context (Hx : cb_obj x = cb_obj b /\ cb_pos x = cb_last b /\ cb_last x = cb_last b + zlen bs /\
  temporary x = negb (zlen bs =? 0) /\ in_file x = false /\ memory x = false /\ flush x = true).
Context (Hmem : objs (wf_heap f) !! cb_obj b = Some mem) (Hload : load (cb_last b) (zlen bs) mem = Some bs).
Context (Hend : cb_last b + zlen bs <= cb_end b - NOISE_PROTOCOL_MAC_DATA_SIZE).
Let h := set_buf (l_buf cl) x h'.
Let g : wf W := f <| wf_heap := h |> <| wf_world := w |>.

Lemma append_agree y : l_buf y <> l_buf cl -> agree (wf_heap f) h y.
Proof.
  intros Hy. apply agree_bufs; [apply Hnew|]. change (<[l_buf cl := x]> (bufs h') !! l_buf y = bufs (wf_heap f) !! l_buf y).
  rewrite lookup_insert_ne by done. by apply (nb_out _ _ _ _ _ _ _ _ Hnew).
Qed.

Lemma append_saved : Forall (agree (wf_heap f) h) (pend fu f ++ out).
Proof.
  apply list.Forall_forall. intros y Hy. apply append_agree, (nb_new _ _ _ _ _ _ _ _ Hnew).
  rewrite !elem_of_app in *. tauto.
Qed.

Lemma append_back : Forall (agree (wf_heap f) h) (pend (negb fu) f).
Proof.
  apply list.Forall_forall. intros y Hy. apply append_agree, (nb_new _ _ _ _ _ _ _ _ Hnew).
  rewrite !elem_of_app in *. tauto.
Qed.

Lemma append_desc : buf_of h cl = Some x.
Proof. apply lookup_insert_eq. Qed.

Lemma append_load : buf_bytes h x = Some bs.
Proof.
  destruct Hx as (X1 & X2 & X3 & _). unfold buf_bytes. change (objs h) with (objs h').
  rewrite (nb_objs _ _ _ _ _ _ _ _ Hnew), X1, Hmem, X2, X3. cbn.
  replace (cb_last b + zlen bs - cb_last b) with (zlen bs) by lia. exact Hload.
Qed.

Lemma append_special : zlen bs = 0 -> ngx_buf_special x = true.
Proof.
  destruct Hx as (_ & _ & _ & X4 & X5 & X6 & X7). intros Hz. rewrite Hz in X4. by apply buf_special_only.
Qed.

Lemma append_temporary : zlen bs <> 0 -> temporary x = true.
Proof. destruct Hx as (_ & _ & _ & -> & _). intros Hz. by rewrite (proj2 (Z.eqb_neq _ _) Hz). Qed.

Lemma append_sound : sound h cl.
Proof.
  exists x. split; [exact append_desc|]. destruct (Z.eq_dec (zlen bs) 0) as [Hz|Hz]; [left; by apply append_special|].
  right. pose proof (zlen_nonneg bs). split; [by apply append_temporary|].
  destruct Hx as (X1 & X2 & X3 & X4 & X5 & X6 & X7). split; [done|]. split; [lia|]. by rewrite append_load.
Qed.

Lemma append_link_bytes : link_bytes h cl = bs.
Proof.
  unfold link_bytes. rewrite append_desc. destruct (Z.eq_dec (zlen bs) 0) as [Hz|Hz].
  - rewrite append_special by done. symmetry. by apply zlen_nil_inv.
  - rewrite (buf_special_memory x) by (by apply append_temporary). by rewrite append_load.
Qed.

Lemma append_input : input_ok fu (out ++ [cl]) g.
Proof.
  destruct (agree_input fu f out h w append_saved append_back (ba_input _ _ _ _ _ Hb)) as (I1 & I2 & I3).
  assert (Hne : forall y, y ∈ pend fu f ++ pend (negb fu) f ++ free' ++ busy ++ out -> l_buf y <> l_buf cl)
    by apply Hnew.
  split_and!.
  - apply list.Forall_app. split; [exact I1|]. constructor; [apply append_sound|constructor].
  - rewrite app_assoc, map_app. apply list.NoDup_app. split_and!; [exact I2| |apply NoDup_singleton].
    intros i Hi Hc. cbn in Hc. apply list_elem_of_singleton in Hc as ->.
    apply list_elem_of_fmap in Hi as (y & Hy & Hin). apply (Hne y); [|done].
    change (pend fu g) with (pend fu f) in Hin. rewrite !elem_of_app in *. tauto.
  - split.
    + intros i Hi. rewrite map_app in Hi. apply elem_of_app in Hi as [Hi|Hi]; [by apply I3|].
      cbn in Hi. apply list_elem_of_singleton in Hi as ->. intros Hc.
      apply list_elem_of_fmap in Hc as (y & Hy & Hin). apply (Hne y); [|done]. rewrite !elem_of_app. tauto.
    + intros o. rewrite objs_of_app. intros [Ho|Ho]%elem_of_app; [by apply I3|].
      unfold objs_of in Ho. cbn [omap list_omap] in Ho. change (wf_heap g) with h in Ho. rewrite append_desc in Ho.
      cbn in Ho. apply list_elem_of_singleton in Ho as ->. change (wf_heap g) with h.
      rewrite (agree_objs (wf_heap f) h) by apply append_back. destruct Hx as (-> & _). apply Hbe.
Qed.

Lemma append_base : base fu g free' busy (out ++ [cl]).
Proof.
  assert (Hne : forall y, y ∈ pend fu f ++ pend (negb fu) f ++ free' ++ busy ++ out -> l_buf y <> l_buf cl)
    by apply Hnew.
  assert (Hno : forall l, (forall y, y ∈ l -> y ∈ pend fu f ++ pend (negb fu) f ++ free' ++ busy ++ out) ->
    ~ l_buf cl ∈ map l_buf l).
  { intros l Hl Hin. apply list_elem_of_fmap in Hin as (y & Hy & Hin). by apply (Hne y); [apply Hl|]. }
  pose proof (proj1 (proj1 (list.Forall_app _ _ _) append_saved)) as Hp.
  destruct Hb as [B1 B2 B3 B4 B5 B6]. split.
  - apply agree_wf_ok; [apply Hw| |exact B1].
    by apply (both_sides (Forall (agree (wf_heap f) h)) fu); [|apply append_back].
  - exact append_input.
  - rewrite !app_assoc, map_app. apply list.NoDup_app. split_and!; [|intros i Hi Hc|apply NoDup_singleton].
    + eapply sublist_NoDup; [exact B3|]. apply (fmap_sublist l_buf). rewrite <- app_assoc.
      apply sublist_app; [apply Hnew|done].
    + cbn in Hc. apply list_elem_of_singleton in Hc as ->. revert Hi. apply Hno. intros y.
      rewrite !elem_of_app. tauto.
  - intros y Hy. destruct (decide (l_buf y = l_buf cl)) as [He|He].
    + exists x. unfold buf_of. rewrite He. split; [apply append_desc|]. by destruct Hx as (_ & _ & _ & _ & ? & ? & _).
    + unfold plain, buf_of. change (wf_heap g) with h. destruct (append_agree y He) as [Ha _].
      unfold buf_of in Ha. rewrite Ha. apply B4. rewrite !elem_of_app in *.
      destruct Hy as [Hy|[Hy|[Hy|Hy]]]; [left; by eapply elem_of_sublist; [|apply Hnew]|tauto|tauto|].
      apply list_elem_of_singleton in Hy as ->. done.
  - intros i Hi. apply B5. eapply elem_of_sublist; [exact Hi|]. apply (fmap_sublist l_buf), Hnew.
  - intros i. rewrite app_assoc, map_app. intros [Hi|Hi]%elem_of_app; [by apply B6|].
    cbn in Hi. apply list_elem_of_singleton in Hi as ->. apply Hno. intros y. rewrite !elem_of_app. tauto.
Qed.

Lemma append_below : zlen bs <> 0 -> below fu g (b <| cb_last := cb_last b + zlen bs |>) busy (out ++ [cl]).
Proof.
  intros Hz. pose proof (zlen_nonneg bs). pose proof append_saved as Hs. destruct Hbe as [R1 R2 R3 R4]. split.
  - destruct R1 as (Q1 & Q2 & Q3 & Q4 & Q5). split; [exact Q1|]. split; [|split; [exact Q3|split; [exact Q4|exact Hend]]].
    change (0 <= cb_last b + zlen bs). lia.
  - change (wf_heap g) with h. change (objs h) with (objs h'). by rewrite (nb_objs _ _ _ _ _ _ _ _ Hnew).
  - intros y Hy. change (pend fu g) with (pend fu f) in Hy. rewrite app_assoc in Hy.
    apply elem_of_app in Hy as [Hy|Hy].
    + rewrite list.Forall_forall in Hs. destruct (Hs y Hy) as [Ha _], (R3 y Hy) as (bf & Hbf & Ht & Hl).
      exists bf. split; [by rewrite <- Hbf|]. split; [done|]. intros Ho. destruct (Hl Ho) as [L1 L2].
      cbn. split; [lia|]. rewrite app_assoc, map_app. apply elem_of_app. by left.
    + apply list_elem_of_singleton in Hy as ->. exists x. split; [apply append_desc|].
      split; [by apply append_temporary|]. intros _. cbn. destruct Hx as (_ & _ & -> & _). split; [lia|].
      rewrite !map_app, !elem_of_app. right. right. left.
  - change (wf_heap g) with h. change (pend (negb fu) g) with (pend (negb fu) f).
    rewrite (agree_objs (wf_heap f) h) by apply append_back. exact R4.
Qed.

Lemma append_all_bytes : all_bytes fu (out ++ [cl]) g = all_bytes fu out f ++ bs.
Proof.
  rewrite <- (agree_all_bytes fu f out h w append_saved append_back (proj2 (proj2 Hw))).
  unfold all_bytes. rewrite chain_bytes_app. change (wf_heap (f <| wf_heap := h |> <| wf_world := w |>)) with h.
  change (wf_heap g) with h. rewrite (chain_bytes_cons h cl []). unfold chain_bytes at 2. cbn [map mjoin list_join].
  rewrite append_link_bytes, app_nil_r. by rewrite !app_assoc.
Qed.
End Append.

(** [append_data] after [bs] were read into place. *)
Definition appended_data fu s bs (ok : bool) s' : Prop :=
  same_ends s s' /\ line fu s' /\ pump_source fu (x_world s') = pump_source fu (x_world s) /\
  other_same fu s s' /\
  if ok then flow fu s' = flow fu s ++ bs /\ received_of fu s' = received_of fu s + zlen bs /\
    based fu s' /\ (bs <> [] -> room fu s')
  else taken_bytes fu (x_wf s') = taken_bytes fu (x_wf s).

(** The link at the end of the chain, and the last steps. *)
Definition with_link fu s cl free' h w : px HS CS W P :=
  let s1 := s <| x_free := free' |> <| x_wf ::= fun f => f <| wf_heap := h |> <| wf_world := w |> |> in
  if fu then s1 <| x_downstream_out := out_of fu s ++ [cl] |> else s1 <| x_upstream_out := out_of fu s ++ [cl] |>.

Lemma append_end fu s cl x n h w free' :
  wp (modify (fun s => s <| x_wf ::= fun f => f <| wf_heap ::= set_buf (l_buf cl) x |> |>);;
      add_received fu n;; on_pump_buf fu (fun b => b <| cb_last := cb_last b + n |>);; mret true)
    (fun ok s' => ok = true /\ same_ends s s' /\
      x_wf s' = (x_wf s) <| wf_heap := set_buf (l_buf cl) x h |> <| wf_world := w |> /\
      x_free s' = free' /\ out_of fu s' = out_of fu s ++ [cl] /\ busy_of fu s' = busy_of fu s /\
      received_of fu s' = received_of fu s + n /\
      pump_buf fu s' = (pump_buf fu s) <| cb_last := cb_last (pump_buf fu s) + n |>)
    (with_link fu s cl free' h w).
Proof.
  destruct s as [[]]. unfold wp.
  destruct fu; cbn -[set_buf Z.add]; (split_and!; [done|done|done|done|done|done|cbn; lia|done]).
Qed.

Lemma append_data_spec fu s bs :
  line fu s -> based fu s -> room fu s -> received_at fu s bs ->
  wp (append_data fu (zlen bs)) (appended_data fu s bs) s.
Proof.
  intros Hl Hb Hr (Hend & mem & Hmem & Hload). unfold append_data. wp_step. unfold wp at 1, proxy_free_buf.
  destruct (get_free_buf (x_free s) (wf_heap (x_wf s)) (x_world s)) as [[[cl free'] h] w] eqn:Hget.
  destruct cl as [cl|].
  2: { destruct (get_free_buf_chains _ _ _ _ _ _ _ Hget) as [(W1 & W2 & W3) ->]. apply wp_ret.
       split_and!; [done|eapply shape_line; [apply (ends_shape s); [done|]|done]|apply W1|split; [|apply W1]|apply W3].
       - intros e. by destruct e.
       - split_and!; [done|done|apply W3]. }
  destruct (get_free_buf_new fu (x_wf s) _ _ _ w cl free' h Hb Hget) as [Hnew Hw].
  pose proof (nb_plain _ _ _ _ _ _ _ _ Hnew) as (x0 & Hx0 & Hf0 & Hm0).
  wp_step. apply wp_gets. wp_step. unfold set_out_of. apply wp_modify.
  set (s2 := if fu then _ else _).
  assert (Hs2 : s2 = with_link fu s cl free' h w) by (by destruct fu).
  clearbody s2. rewrite Hs2. clear s2 Hs2.
  assert (Hv : pump_buf fu (with_link fu s cl free' h w) = pump_buf fu s /\
    side fu (with_link fu s cl free' h w) = side fu s /\ wf_heap (x_wf (with_link fu s cl free' h w)) = h)
    by (by destruct fu).
  destruct Hv as (V1 & V2 & V3). destruct (ln_src fu s Hl) as (e & He & _).
  wp_step. apply wp_gets. rewrite V1. wp_step. unfold get_side. wp_step. apply wp_gets. rewrite V2.
  eapply wp_mderef; [exact He|]. wp_step. apply wp_gets. rewrite V3. unfold buf_of in Hx0.
  wp_step. eapply wp_mderef; [exact Hx0|]. cbv zeta.
  set (x := _ <| flush := true |>). eapply wp_mono; [apply (append_end fu s cl x (zlen bs) h w free')|].
  intros ok s' (-> & E1 & E2 & E3 & E4 & E5 & E6 & E7).
  assert (Hx : cb_obj x = cb_obj (pump_buf fu s) /\ cb_pos x = cb_last (pump_buf fu s) /\
    cb_last x = cb_last (pump_buf fu s) + zlen bs /\ temporary x = negb (zlen bs =? 0) /\
    in_file x = false /\ memory x = false /\ flush x = true) by (split_and!; done).
  assert (Hline : line fu s').
  { eapply shape_line; [apply (ends_shape s); [done|]|done]. intros d. rewrite E2. by destruct d. }
  unfold appended_data, other_same, flow, based, room, x_world. rewrite E2, E3, E4, E5, E6, E7.
  split_and!; try done; try apply Hw.
  - eapply agree_back; [|by eapply append_back|apply Hw]. by eapply append_saved.
  - by eapply append_all_bytes.
  - by eapply append_base.
  - intros Hne. eapply append_below; try done. intros Hz. by apply zlen_nil_inv in Hz.
Qed.

(** ** One round of receiving *)

Lemma side_some fu s : line fu s -> is_Some (side fu s).
Proof. intros Hl. destruct (ln_src fu s Hl) as (e & -> & _). by eexists. Qed.

Lemma limit_size_spec fu size s :
  line fu s -> 0 < size ->
  wp (limit_size pscf fu size) (fun r s' => calm s s' /\
    match r with Some z => 0 < z <= size | None => True end) s.
Proof.
  intros Hl Hsz. unfold limit_size. destruct (rate_of pscf fu =? 0); [apply wp_ret; split; [done|lia]|].
  do 3 (wp_step; apply wp_gets). cbv zeta. set (limit := _ - received_of fu s).
  destruct (Z.leb_spec limit 0).
  - eapply wp_calm; [reflexivity|by apply calm_on_side|]. intros _ s1 H1.
    eapply wp_calm; [exact H1| |].
    { apply calm_side_read; [apply side_some; by eapply calm_line|]. intros ev w ev' w'. apply pump_add_timer_law. }
    intros _ s2 H2. by apply wp_ret.
  - apply wp_ret. split; [done|]. destruct (Z.ltb_spec limit size); lia.
Qed.

(** Only the times of the upstream state and a timer change; nothing after an
    empty read. *)
Definition quiet_step (n : Z) s s' : Prop := calm s s' /\ (n = 0 -> same_ends s s').

Lemma quiet_trans n s1 s2 s3 : quiet_step n s1 s2 -> quiet_step n s2 s3 -> quiet_step n s1 s3.
Proof.
  intros [A1 A2] [B1 B2]. split; [by etransitivity|]. intros Hn.
  destruct (A2 Hn) as (? & ? & ? & ?), (B2 Hn) as (? & ? & ? & ?). split_and!; congruence.
Qed.

Lemma delay_after_spec fu n s : line fu s -> wp (delay_after pscf fu n) (fun _ s' => quiet_step n s s') s.
Proof.
  intros Hl. unfold delay_after. destruct (rate_of pscf fu =? 0); [by apply wp_ret|]. cbv zeta.
  destruct (Z.ltb_spec 0 (u64 (n * 1000) / rate_of pscf fu)) as [Hd|]; [|by apply wp_ret].
  assert (Hn : n <> 0) by (intros ->; change (u64 (0 * 1000)) with 0 in Hd; by rewrite Zdiv_0_l in Hd).
  eapply wp_calm; [reflexivity|by apply calm_on_side|]. intros _ s1 H1.
  eapply wp_mono; [apply calm_side_read; [apply side_some; by eapply calm_line|]|].
  { intros ev w ev' w'. apply pump_add_timer_law. }
  intros u s2 H2. split; [by etransitivity|done].
Qed.

Lemma note_first_byte_spec fu n s : line fu s -> wp (note_first_byte fu) (fun _ s' => quiet_step n s s') s.
Proof.
  intros Hl. unfold note_first_byte. destruct fu; [|by apply wp_ret]. wp_step. apply wp_gets.
  unfold wp, on_state. rewrite (ln_state _ _ Hl eq_refl). split; [|done]. split; try done. exact (wf_same_world s).
Qed.

Lemma count_response_spec fu n s : line fu s -> wp (count_response pscf fu) (fun _ s' => quiet_step n s s') s.
Proof. intros Hl. unfold count_response. wp_step. apply wp_gets. rewrite (ln_stream _ _ Hl). by apply wp_ret. Qed.

Lemma calm_received_at fu s s' bs : calm s s' -> received_at fu s bs -> received_at fu s' bs.
Proof.
  intros Hc. destruct (calm_of fu s s' Hc) as (Hp & _). destruct Hc as [_ (w & _ & Hw) _ _ _].
  unfold received_at. by rewrite Hp, Hw.
Qed.

(** Reading, then appending. *)
Lemma read_appended fu s0 s1 s2 s3 bs s4 :
  calm s0 s1 -> got_bytes fu s1 bs s2 -> calm s2 s3 -> appended_data fu s3 bs true s4 -> progress fu s0 bs s4.
Proof.
  intros H0 [G1 G2 G3 G4] H2 (_ & _ & A3 & A4 & A5 & A6 & _). change bs with ([] ++ bs).
  eapply progress_trans; [by apply calm_progress|].
  destruct (calm_progress fu _ _ H2) as [P1 P2 P3 P4]. rewrite zlen_nil in P3. rewrite app_nil_r in P2. split.
  - by rewrite G1, A3, P1.
  - by rewrite A5, P2, G2.
  - rewrite A6, P3, G3. lia.
  - eapply other_same_trans; [exact G4|]. by eapply other_same_trans.
Qed.

Lemma read_lost fu s0 s1 s2 s3 bs s4 :
  calm s0 s1 -> got_bytes fu s1 bs s2 -> calm s2 s3 -> appended_data fu s3 bs false s4 -> cut fu s0 bs s4.
Proof.
  intros H0 [G1 G2 G3 G4] H2 (_ & _ & A3 & A4 & A5). change bs with ([] ++ bs).
  eapply progress_cut; [by apply calm_progress|].
  destruct (calm_progress fu _ _ H2) as [P1 P2 P3 P4]. rewrite app_nil_r in P2. split.
  - by rewrite G1, A3, P1.
  - rewrite A5, <- G2, <- P2. etransitivity; [apply flow_taken|by eexists].
  - eapply other_same_trans; [exact G4|]. by eapply other_same_trans.
Qed.

(** After one round of receiving. *)
Definition read_round fu s (r : round) s' : Prop :=
  match r with
  | Break => same_shape s s' /\ progress fu s [] s' /\ out_of fu s' = out_of fu s
  | Return c => c = Some (CFinalize NGX_NSOC_INTERNAL_SERVER_ERROR) /\ exists got, cut fu s got s'
  | Again => exists got, progress fu s got s' /\ line fu s' /\ based fu s' /\
      (got <> [] /\ room fu s' \/ got = [] /\ unready fu s')
  end.

Lemma calm_break fu s s' : calm s s' -> read_round fu s Break s'.
Proof.
  intros Hc. split_and!; [apply Hc|by apply calm_progress|]. by destruct (calm_of fu s s' Hc) as (_ & _ & ? & _).
Qed.

(** The steps after [src->recv] returned [n] bytes, or the end of the data. *)
Lemma take_in_spec fu s0 s1 s2 bs :
  calm s0 s1 -> got_bytes fu s1 bs s2 -> line fu s2 -> based fu s2 -> room fu s2 -> received_at fu s2 bs ->
  (bs = [] -> unready fu s2) ->
  wp (delay_after pscf fu (zlen bs);; note_first_byte fu;; count_response pscf fu;;
      ok ← append_data fu (zlen bs);
      mret (if (ok : bool) then Again else Return (Some (CFinalize NGX_NSOC_INTERNAL_SERVER_ERROR))))
    (read_round fu s0) s2.
Proof.
  intros H0 Hg Hl Hb Hr Hat Hun.
  apply wp_bind. eapply wp_mono; [by apply delay_after_spec|]. intros u3 s3 Q3.
  apply wp_bind. eapply wp_mono; [apply (note_first_byte_spec fu (zlen bs)); eapply calm_line; [apply Q3|done]|].
  intros u4 s4 Q4. pose proof (quiet_trans _ _ _ _ Q3 Q4) as Q.
  apply wp_bind. eapply wp_mono; [apply (count_response_spec fu (zlen bs)); eapply calm_line; [apply Q|done]|].
  intros u5 s5 Q5. pose proof (quiet_trans _ _ _ _ Q Q5) as [Hc He].
  apply wp_bind. eapply wp_mono.
  { apply (append_data_spec fu s5 bs); [by eapply calm_line|by eapply calm_based|by eapply calm_room|by eapply calm_received_at]. }
  intros ok s6 Ha. apply wp_ret. destruct ok.
  - exists bs. split; [by eapply read_appended|]. pose proof Ha as (A1 & A2 & _ & _ & _ & _ & A7 & A8).
    split; [done|]. split; [done|]. destruct bs as [|z bs]; [right|left; split; [done|by apply A8]].
    split; [done|]. destruct (Hun eq_refl) as (e & Hse & Hrd). exists e.
    by rewrite (ends_side fu s5 s6 A1), (ends_side fu s2 s5 (He eq_refl)).
  - split; [done|]. exists bs. by eapply read_lost.
Qed.

Lemma got_nothing fu s0 s1 s2 : calm s0 s1 -> got_bytes fu s1 [] s2 -> progress fu s0 [] s2.
Proof.
  intros H0 [G1 G2 G3 G4]. change (@nil Z) with (@nil Z ++ []).
  eapply progress_trans; [by apply calm_progress|]. split; [done| |rewrite zlen_nil; lia|done]. by rewrite app_nil_r.
Qed.

Lemma got_calm fu s1 bs s2 s3 : got_bytes fu s1 bs s2 -> calm s2 s3 -> got_bytes fu s1 bs s3.
Proof.
  intros [G1 G2 G3 G4] Hc. destruct (calm_progress fu _ _ Hc) as [P1 P2 P3 P4].
  rewrite zlen_nil in P3. rewrite app_nil_r in P2. split.
  - by rewrite G1, P1.
  - by rewrite P2.
  - rewrite P3, G3. lia.
  - by eapply other_same_trans.
Qed.

(** The mark of an error keeps the event unready. *)
Lemma mark_eof fu s :
  wp (set_read_flags fu (fun v => v <| eof := true |>))
    (fun _ s' => calm s s' /\ (unready fu s -> unready fu s')) s.
Proof.
  assert (Hc : wp (set_read_flags fu (fun v => v <| eof := true |>)) (fun _ s' => calm s s') s)
    by (by apply calm_on_side).
  unfold set_read_flags, wp in *. cbn in *. split; [exact Hc|].
  intros (e & He & Hr). destruct fu; unfold unready, side in *; cbn in *.
  - destruct (x_connected s); [|done]. rewrite He. cbn. by eexists.
  - injection He as <-. by eexists.
Qed.

Lemma pump_read_spec fu s :
  line fu s -> based fu s -> room fu s -> wp (pump_read pscf fu false) (read_round fu s) s.
Proof.
  intros Hl Hb Hr. destruct (be_range _ _ _ _ _ Hr) as (R1 & R2 & R3 & R4 & R5).
  destruct (ln_src fu s Hl) as (e & He & _).
  unfold pump_read. wp_step. apply wp_gets. cbv zeta.
  rewrite u64_small by (unfold NOISE_PROTOCOL_MAC_DATA_SIZE in *; lia).
  destruct (Z.eqb_spec (cb_end (pump_buf fu s) - cb_last (pump_buf fu s) - NOISE_PROTOCOL_MAC_DATA_SIZE) 0) as [|Hne].
  { by apply wp_ret, calm_break. }
  wp_step. unfold get_side. wp_step. apply wp_gets. rewrite He. eapply wp_mderef; [done|].
  destruct (_ || error (read (e_conn e))); [by apply wp_ret, calm_break|].
  apply wp_bind. eapply wp_mono; [apply limit_size_spec; [done|lia]|]. intros [size|] s1 [H1 Hsz]; [|by apply wp_ret, calm_break].
  destruct (calm_of fu s s1 H1) as (Hp & _). wp_step.
  assert (Hrecv : wp (side_recv fu (cb_last (pump_buf fu s)) size) (recv_done fu s1) s1).
  { rewrite <- Hp. apply side_recv_spec; [by eapply calm_line|by eapply calm_based|by eapply calm_room|lia|rewrite Hp; lia]. }
  eapply wp_mono; [exact Hrecv|]. clear Hrecv. intros n s2 (L2 & B2 & O2 & Hsh & Hout & bs & Hg & Hat & Hcase).
  destruct (Z.eqb_spec n NGX_AGAIN) as [->|Hna].
  { assert (Hbs : bs = []) by (destruct Hcase as [[_ ?]|[[? _]|[[?|?] _]]]; done). subst bs.
    apply wp_ret. split; [etransitivity; [apply H1|exact Hsh]|]. split; [by eapply got_nothing|].
    rewrite Hout. by destruct (calm_of fu s s1 H1) as (_ & _ & ? & _). }
  do 2 (wp_step; apply wp_gets). rewrite (ln_stream _ _ L2), andb_false_r. cbn [andb].
  destruct Hcase as [[? _]|[[Hpos Hn]|(Hn & -> & Hun)]]; [done| |].
  - rewrite (proj2 (Z.eqb_neq n NGX_ERROR)) by (unfold NGX_ERROR; lia). wp_step. apply wp_ret.
    rewrite (proj2 (Z.ltb_ge n 0)) by lia. rewrite <- Hn. eapply take_in_spec; try done.
    intros ->. rewrite zlen_nil in Hn. lia.
  - wp_step. eapply (wp_mono _ (fun _ s' => calm s2 s' /\ (unready fu s2 -> unready fu s'))).
    { destruct (n =? NGX_ERROR); [|by apply wp_ret]. apply mark_eof. }
    intros u3 s3 [C3 U3]. replace (if n =? NGX_ERROR then 0 else n) with (zlen (@nil Z)).
    2: { rewrite zlen_nil. by destruct Hn as [-> | ->]. }
    rewrite zlen_nil at 1. cbn [Z.ltb Z.compare].
    eapply (take_in_spec fu s s1 s3 []); [done| |by eapply calm_line|by eapply calm_based|by eapply calm_room|
      by eapply calm_received_at|intros _; by apply U3].
    by eapply got_calm.
Qed.

(** ** The loop *)

(** A side that is not ready is not read. *)
Lemma pump_read_unready fu s :
  line fu s -> unready fu s -> wp (pump_read pscf fu false) (fun r s' => r = Break /\ s' = s) s.
Proof.
  intros Hl (e & He & Hr). unfold pump_read. wp_step. apply wp_gets. cbv zeta.
  destruct (_ =? 0); [by apply wp_ret|]. wp_step. unfold get_side. wp_step. apply wp_gets. rewrite He.
  eapply wp_mderef; [done|]. rewrite Hr. by apply wp_ret.
Qed.

(** The two ways the pump gives up: the filter failed, or there was no memory for a
    buffer. *)
Definition gives_up (c : option call) : Prop :=
  c = Some (CFinalize NGX_NSOC_OK) \/ c = Some (CFinalize NGX_NSOC_INTERNAL_SERVER_ERROR).

(** [out] was handed to the filter, where there is a destination. *)
Definition handed fu s : Prop := is_Some (side (negb fu) s) -> out_of fu s = [].

Definition loop_done fu s (dw : bool) (r : option call + unit) s' : Prop := exists got,
  match r with
  | inl c => gives_up c /\ cut fu s got s'
  | inr _ => progress fu s got s' /\ line fu s' /\ (dw = true \/ got <> [] -> handed fu s')
  end.

Lemma handed_shape fu s s' : same_shape s s' -> out_of fu s' = out_of fu s -> handed fu s -> handed fu s'.
Proof.
  intros Hs Ho Hh Hd. rewrite Ho. apply Hh. rewrite <- (fmap_is_Some (io ∘ e_conn)).
  by rewrite <- (shape_side _ s s' Hs), fmap_is_Some.
Qed.

(** The write half of a round, whether it runs or not. *)
Definition wrote fu s (dw : bool) (r : option call) s' : Prop :=
  match r with
  | Some c => gives_up (Some c) /\ cut fu s [] s'
  | None => progress fu s [] s' /\ line fu s' /\ side fu s' = side fu s /\
      (dw = true -> handed fu s') /\ (room fu s -> based fu s' /\ room fu s')
  end.

Lemma write_half fu (dw : bool) s :
  line fu s -> based fu s -> wp (if dw then pump_write fu else mret None) (wrote fu s dw) s.
Proof.
  intros Hl Hb. destruct dw.
  - eapply wp_mono; [by apply pump_write_spec|]. intros [c|] s' Hr.
    + destruct Hr as [-> Hr]. split; [by left|done].
    + by destruct Hr as (H1 & H2 & H3 & H4 & _ & H6).
  - apply wp_ret. by split_and!; [apply calm_progress|..].
Qed.

Lemma progress_source fu s got s' :
  progress fu s got s' -> length (pump_source fu (x_world s)) =
    (length got + length (pump_source fu (x_world s')))%nat.
Proof. intros [H1 _ _ _]. by rewrite H1, length_app. Qed.

(** A round each time something was read, one for the end of the data, one that
    finds nothing. *)
Lemma pump_loop_spec fuel fu dw s :
  line fu s -> based fu s ->
  (room fu s /\ (length (pump_source fu (x_world s)) + 2 <= fuel)%nat \/ unready fu s /\ (1 <= fuel)%nat) ->
  wp (pump_loop pscf fuel fu false dw) (loop_done fu s dw) s.
Proof.
  revert dw s. induction fuel as [|fuel IH]; intros dw s Hl Hb Hph; [destruct Hph as [[_ ?]|[_ ?]]; lia|].
  cbn [pump_loop]. wp_step. eapply wp_mono; [by apply (write_half fu dw)|]. intros [c|] s1 Hw.
  { apply wp_ret. by exists []. }
  destruct Hw as (Hp1 & Hl1 & Hsd & Hh1 & Hr1). wp_step. destruct Hph as [[Hr Hf]|[(e & He & Hun) Hf]].
  - destruct (Hr1 Hr) as [Hb1 Hrm1]. eapply wp_mono; [by apply pump_read_spec|]. intros [c| |] s2 Hx.
    + destruct Hx as (-> & got & Hc). apply wp_ret. exists ([] ++ got). split; [by right|]. by eapply progress_cut.
    + destruct Hx as (Hsh & Hp2 & Ho). apply wp_ret. exists ([] ++ []).
      split; [by eapply progress_trans|]. split; [by eapply shape_line|]. intros [Hdw|?]; [|done].
      eapply handed_shape; [exact Hsh|exact Ho|by apply Hh1].
    + destruct Hx as (got & Hp2 & Hl2 & Hb2 & Hcase).
      pose proof (progress_source _ _ _ _ Hp1) as Hn1. pose proof (progress_source _ _ _ _ Hp2) as Hn2. cbn [length] in Hn1.
      eapply wp_mono; [apply (IH true s2 Hl2 Hb2)|].
      { destruct Hcase as [[Hne Hr2]|[-> Hun]]; [left|right; split; [done|lia]]. split; [done|].
        destruct got; [done|]. cbn [length] in Hn2. lia. }
      intros r s3 (got' & Hd). exists (([] ++ got) ++ got').
      assert (Hp : progress fu s ([] ++ got) s2) by (by eapply progress_trans).
      destruct r as [c|u].
      * destruct Hd as [Hg Hc]. split; [done|]. by eapply progress_cut.
      * destruct Hd as (Hp3 & Hl3 & Hh3). split; [by eapply progress_trans|]. split; [done|].
        intros _. apply Hh3. by left.
  - eapply wp_mono; [apply pump_read_unready; [done|]; exists e; by rewrite Hsd|]. intros r s2 [-> ->].
    apply wp_ret. exists []. split; [done|]. split; [done|]. intros [Hdw|?]; [by apply Hh1|done].
Qed.

(** ** After the loop *)

Lemma calm_handle_read fu s : line fu s -> wp (side_handle_read fu) (fun _ s' => calm s s') s.
Proof.
  intros Hl. destruct (ln_src fu s Hl) as (e & He & _), (ln_src_conn fu s Hl) as [c Hc].
  unfold wp, side_handle_read. rewrite He, Hc. destruct (shared c); [done|].
  destruct (@os_handle_read W (pump_os fu) (read (e_conn e)) (x_world s)) as [[r ev] w] eqn:Hr.
  pose proof (calm_event fu (fun e => e <| e_conn ::= fun x => x <| read := ev |> |>) s w ltac:(done)
    (pump_handle_read_law _ _ _ _ _ _ Hr)) as H. exact H.
Qed.

Lemma calm_handle_write fu s :
  is_Some (side fu s) -> is_Some (side_conn fu s) -> wp (side_handle_write fu) (fun _ s' => calm s s') s.
Proof.
  intros [e He] [c Hc].
  unfold wp, side_handle_write. rewrite He, Hc. destruct (shared c); [done|].
  destruct (@os_handle_write W (pump_os fu) (write (e_conn e)) (x_world s)) as [[r ev] w] eqn:Hr.
  pose proof (calm_event fu (fun e => e <| e_conn ::= fun x => x <| write := ev |> |>) s w ltac:(done)
    (pump_handle_write_law _ _ _ _ _ _ Hr)) as H. exact H.
Qed.

Lemma calm_client_write f s :
  (forall ev w ev' w', f (pump_os false) ev w = (ev', w') -> steady w w') ->
  wp (on_client_write f) (fun _ s' => calm s s') s.
Proof.
  intros Hf. unfold wp, on_client_write.
  destruct (f (pump_os false) (write (e_conn (x_client s))) (x_world s)) as [ev w] eqn:Hr.
  split; try done. exists w. split; [by eapply Hf|done].
Qed.

Lemma calm_refresh s : is_Some (side true s) -> wp (refresh_timer pscf) (fun _ s' => calm s s') s.
Proof.
  intros [pc Hpc]. unfold refresh_timer. wp_step. apply wp_gets. wp_step. unfold get_side. wp_step. apply wp_gets.
  eapply wp_mderef; [exact Hpc|]. destruct (_ && _).
  - apply calm_client_write. intros ev w ev' w'. apply pump_add_timer_law.
  - destruct (timer_set _); [|by apply wp_ret].
    apply calm_client_write. intros ev w ev' w'. apply pump_del_timer_law.
Qed.

(** The end of the data of a side. *)
Definition at_end fu s : Prop := exists e, side fu s = Some e /\ eof (read (e_conn e)) = true.

Definition pump_answer fu (r : option call) s : Prop :=
  match r with
  | None => True
  | Some c => c = CFinalize NGX_NSOC_INTERNAL_SERVER_ERROR \/ c = CFinalize NGX_NSOC_OK /\ at_end fu s
  end.

Lemma pump_end_spec fu s :
  line fu s -> wp (pump_end pscf fu) (fun r s' => calm s s' /\ pump_answer fu r s') s.
Proof.
  intros Hl. destruct (ln_src fu s Hl) as (e & He & _). unfold pump_end.
  wp_step. unfold get_side at 1. wp_step. apply wp_gets. rewrite He. eapply wp_mderef; [done|].
  do 2 (wp_step; apply wp_gets). cbv zeta.
  destruct (match side (negb fu) s with Some d => _ | None => false end) eqn:Hover.
  { apply wp_ret. split; [done|]. right. split; [done|]. exists e. split; [done|].
    destruct (side (negb fu) s), (side_conn (negb fu) s); try done. by apply andb_true_iff in Hover as [? _]. }
  eapply wp_calm; [reflexivity|by apply calm_handle_read|]. intros r s1 H1.
  destruct (negb (r =? NGX_OK)); [apply wp_ret; split; [done|by left]|].
  destruct (side (negb fu) s) as [d|] eqn:Hd; [|by apply wp_ret].
  assert (Hl1 : line fu s1) by (by eapply calm_line).
  assert (Hd1 : is_Some (side (negb fu) s1)).
  { rewrite <- (fmap_is_Some (io ∘ e_conn)), (shape_side _ s s1) by apply H1. rewrite Hd. by eexists. }
  eapply wp_calm; [exact H1|apply calm_handle_write; [done|by apply Hl1]|]. intros r2 s2 H2.
  destruct (negb (r2 =? NGX_OK)); [apply wp_ret; split; [done|by left]|].
  eapply wp_calm; [exact H2|apply calm_refresh|].
  { rewrite <- (fmap_is_Some (io ∘ e_conn)), (shape_side _ s s2) by apply H2. destruct fu; [by rewrite He|].
    cbn [negb] in Hd. by rewrite Hd. }
  intros u s3 H3. by apply wp_ret.
Qed.

(** ** A whole call *)

(** The chains are in order, and nothing that was read earlier waits in the memory
    [b] of the direction. *)
Record fresh_start fu s : Prop := FreshStart {
  fs_based : based fu s;
  fs_range : 0 <= cb_start (pump_buf fu s) /\ cb_end (pump_buf fu s) < 2 ^ 63 /\
    cb_start (pump_buf fu s) + 2 * NGX_NSOC_LEN_FIELD_SIZE <=
      cb_end (pump_buf fu s) - NOISE_PROTOCOL_MAC_DATA_SIZE;
  fs_mem : exists mem, objs (wf_heap (x_wf s)) !! cb_obj (pump_buf fu s) = Some mem /\
    cb_end (pump_buf fu s) <= zlen mem;
  fs_clear x : x ∈ pend fu (x_wf s) ++ out_of fu s -> exists bf, buf_of (wf_heap (x_wf s)) x = Some bf /\
    temporary bf = true /\ cb_obj bf <> cb_obj (pump_buf fu s);
  fs_other : ~ cb_obj (pump_buf fu s) ∈ objs_of (wf_heap (x_wf s)) (pend (negb fu) (x_wf s));
}.

Lemma fresh_room fu s :
  fresh_start fu s -> below fu (x_wf s) (rewind (pump_buf fu s)) (busy_of fu s) (out_of fu s).
Proof.
  intros [_ (H1 & H2 & H3) H4 H5 H6]. split; [| exact H4| |exact H6].
  - unfold rewind, NGX_NSOC_LEN_FIELD_SIZE in *. cbn -[Z.pow Z.mul] in *. lia.
  - intros x Hx. destruct (H5 x Hx) as (bf & Hb & Ht & Hne). by exists bf.
Qed.

(** The state after the call: [got] was read from the side [fu]. *)
Record relayed fu s (dw : bool) (r : option call) s' got : Prop := Relayed {
  re_source : pump_source fu (x_world s) = got ++ pump_source fu (x_world s');
  re_other : other_same fu s s';
  re_bytes :
    flow fu s' = flow fu s ++ got /\ received_of fu s' = received_of fu s + zlen got /\
      (dw = true \/ got <> [] -> handed fu s') /\ pump_answer fu r s' \/
    taken_bytes fu (x_wf s') `prefix_of` flow fu s ++ got /\ gives_up r;
}.

Lemma pump_rewind fu s : exists s1, on_pump_buf fu rewind s = Done (tt, s1) /\ same_ends s s1 /\ x_noise s1 = x_noise s /\
  x_wf s1 = x_wf s /\ x_free s1 = x_free s /\ busy_of fu s1 = busy_of fu s /\ out_of fu s1 = out_of fu s /\
  received_of fu s1 = received_of fu s /\ pump_buf fu s1 = rewind (pump_buf fu s).
Proof. eexists. split; [reflexivity|]. by destruct fu. Qed.

End Relay.

(** ** A world that computes

    Both sides deliver chunks, an empty one is the end of the data; a connection
    takes [quota] links of a chain. *)

Section Demo.
#[local] Existing Instances plain_bufs plain_bufs_laws.

Record pworld := PWorld {
  pw_live : list Z; pw_down : list Z; pw_up : list Z; pw_quota : nat;
  pw_client : list (list Z); pw_peer : list (list Z);
}.
#[local] Instance eta_pworld : Eta pworld := fun r =>
  PWorld (pw_live r) (pw_down r) (pw_up r) (pw_quota r) (pw_client r) (pw_peer r).

Definition pw_input (fu : bool) (w : pworld) : list (list Z) := if fu then pw_peer w else pw_client w.
Definition pw_set_input (fu : bool) (l : list (list Z)) (w : pworld) : pworld :=
  if fu then w <| pw_peer := l |> else w <| pw_client := l |>.
Definition pw_give (d : bool) (bs : list Z) (w : pworld) : pworld :=
  if d then w <| pw_down ::= fun x => x ++ bs |> else w <| pw_up ::= fun x => x ++ bs |>.

#[local] Instance pw_pool : NgxPool pworld := {|
  pool_object w := (true, w);
  pool_bytes n w := (Some (replicate (Z.to_nat n) 0), w);
|}.

(** [pos = last] in the buffers of what was sent. *)
Definition mark_sent (l : list link) (m : gmap Z cbuf) : gmap Z cbuf :=
  foldr (fun x m => alter (fun b => b <| cb_pos := cb_last b |>) (l_buf x) m) m l.

#[local] Instance pw_chains : NgxChains pworld := {|
  alloc_chain_link w := let i := fresh_id (pw_live w) in (Some i, w <| pw_live ::= cons i |>);
  free_chain i w := w <| pw_live ::= filter (fun j => j <> i) |>;
  conn_send_chain d l _ := fun '(c, h, w) =>
    Done (Some (drop (pw_quota w) l),
      (c, h <| bufs ::= mark_sent (take (pw_quota w) l) |>,
       pw_give d (chain_bytes h (take (pw_quota w) l)) w));
|}.
#[local] Instance pw_spec : NgxChainsSpec pworld := {|
  accepted d w := if d then pw_down w else pw_up w;
  link_live w i := i ∈ pw_live w;
|}.
#[local] Instance pw_source : NgxPumpSpec pworld := {| pump_source fu w := concat (pw_input fu w) |}.

Definition pw_recv (fu : bool) (n : Z) (ev : event) (w : pworld) : Z * list Z * event * pworld :=
  match pw_input fu w with
  | [] => (NGX_AGAIN, [], ev <| ready := false |>, w)
  | [] :: _ => (0, [], ev <| ready := false |> <| eof := true |>, w)
  | bs :: q =>
      if n <? zlen bs then (n, ztake n bs, ev, pw_set_input fu (zdrop n bs :: q) w)
      else (zlen bs, bs, ev, pw_set_input fu q w)
  end.

#[local] Instance pw_core : NgxCore pworld := {|
  now_msec _ := 1000;
  now_sec _ := 1;
  os_post_event _ w := w;
  os_set_nodelay _ w := (true, w);
  os_socket_error _ w := (0, w);
  os_close_connection _ w := w;
  get_free_buf free h w :=
    match free with
    | x :: free => (Some x, free, h, w)
    | [] => let i := fresh_id (map fst (map_to_list (bufs h))) in
            (Some (Link i i), [], h <| bufs ::= insert i null_buf |>, w)
    end;
|}.

Definition size_zero (h : heap) (x : link) : bool :=
  match buf_of h x with Some b => ngx_buf_size b =? 0 | None => false end.
Fixpoint take_zero (h : heap) (l : list link) : list link * list link :=
  match l with
  | x :: l' => if size_zero h x then let '(a, b) := take_zero h l' in (x :: a, b) else ([], l)
  | [] => ([], [])
  end.
Definition reset_bufs (l : list link) (m : gmap Z cbuf) : gmap Z cbuf :=
  foldr (fun x m => alter (fun b => b <| cb_pos := cb_start b |> <| cb_last := cb_start b |>) (l_buf x) m) m l.

#[local] Instance pw_pump : NgxPump pworld := {|
  pump_os fu := {|
    os_recv := pw_recv fu;
    os_send bs e k w := (NGX_AGAIN, e, k, w);
    os_handle_read e w := (NGX_OK, e, w);
    os_handle_write e w := (NGX_OK, e, w);
    os_add_timer e _ w := (e <| timer_set := true |>, w);
    os_del_timer e w := (e <| timer_set := false |>, w);
  |};
  update_chains free busy out h w :=
    let '(gone, rest) := take_zero h (busy ++ out) in
    (gone ++ free, rest, [], h <| bufs ::= reset_bufs gone |>, w);
  os_exiting _ := false;
|}.

(** The laws hold in it. *)

Lemma mark_sent_other l m i : ~ i ∈ map l_buf l -> mark_sent l m !! i = m !! i.
Proof.
  induction l as [|x l IH]; [done|]. cbn [map mark_sent foldr]. rewrite elem_of_cons. intros Hi.
  rewrite lookup_alter_ne by (intros Hx; apply Hi; by left). apply IH. intros Hx; apply Hi; by right.
Qed.

Lemma mark_sent_moved l m i b : m !! i = Some b -> exists p, mark_sent l m !! i = Some (b <| cb_pos := p |>).
Proof.
  intros Hb. induction l as [|x l [p Hp]]; [exists (cb_pos b); by destruct b|]. cbn [mark_sent foldr].
  fold (mark_sent l m). destruct (decide (l_buf x = i)) as [He|Hne].
  - rewrite He, lookup_alter_eq, Hp. by eexists.
  - rewrite lookup_alter_ne by done. by exists p.
Qed.

Lemma mark_sent_obj l m i : cb_obj <$> mark_sent l m !! i = cb_obj <$> m !! i.
Proof.
  destruct (m !! i) as [b|] eqn:Hb; [by destruct (mark_sent_moved l m i b Hb) as [p ->]|].
  induction l as [|x l IH]; [cbn [mark_sent foldr]; by rewrite Hb|]. cbn [mark_sent foldr]. fold (mark_sent l m).
  destruct (decide (l_buf x = i)) as [He|Hne]; [|by rewrite lookup_alter_ne].
  rewrite He, lookup_alter_eq. by destruct (mark_sent l m !! i).
Qed.

Lemma reset_other l m i : ~ i ∈ map l_buf l -> reset_bufs l m !! i = m !! i.
Proof.
  induction l as [|x l IH]; [done|]. cbn [map reset_bufs foldr]. rewrite elem_of_cons. intros Hi.
  rewrite lookup_alter_ne by (intros Hx; apply Hi; by left). apply IH. intros Hx; apply Hi; by right.
Qed.

Lemma reset_moved l m i b : m !! i = Some b ->
  exists p q, reset_bufs l m !! i = Some (b <| cb_pos := p |> <| cb_last := q |>).
Proof.
  intros Hb. induction l as [|x l (p & q & Hp)]; [exists (cb_pos b), (cb_last b); by destruct b|].
  cbn [reset_bufs foldr]. fold (reset_bufs l m). destruct (decide (l_buf x = i)) as [He|Hne].
  - rewrite He, lookup_alter_eq, Hp. by eexists _, _.
  - rewrite lookup_alter_ne by done. by exists p, q.
Qed.

Lemma take_zero_split h l gone rest : take_zero h l = (gone, rest) ->
  l = gone ++ rest /\ forall x b, x ∈ gone -> buf_of h x = Some b -> ngx_buf_size b = 0.
Proof.
  revert gone rest. induction l as [|x l IH]; intros gone rest; cbn [take_zero].
  { intros [= <- <-]. split; [done|]. by intros x b Hx%elem_of_nil. }
  unfold size_zero. destruct (buf_of h x) as [bx|] eqn:Hx;
    [|intros [= <- <-]; split; [done|]; by intros y b Hy%elem_of_nil].
  destruct (Z.eqb_spec (ngx_buf_size bx) 0) as [Hz|];
    [|intros [= <- <-]; split; [done|]; by intros y b Hy%elem_of_nil].
  destruct (take_zero h l) as [a r]. intros [= <- <-]. destruct (IH a r eq_refl) as [-> IH2].
  split; [done|]. intros y b [-> |Hy]%elem_of_cons Hyb; [|by eapply IH2].
  rewrite Hx in Hyb. by injection Hyb as <-.
Qed.

Lemma pw_accepted d bs w :
  accepted d (pw_give d bs w) = accepted d w ++ bs /\
  accepted (negb d) (pw_give d bs w) = accepted (negb d) w /\ pw_live (pw_give d bs w) = pw_live w.
Proof. by destruct d. Qed.

#[local] Instance pw_chains_laws : NgxChainsLaws pworld.
Proof.
  split.
  - intros w ok w' [= _ <-]. done.
  - intros w i w' [= <- <-]. split; [apply fresh_id_fresh|]. split; [|done].
    intros j. cbn. by rewrite elem_of_cons.
  - done.
  - intros i w. split; [|done]. intros j. cbn. by rewrite list_elem_of_filter.
  - intros d l c h w Hs Hn. eexists _, _, _, _. split; [reflexivity|].
    set (q := pw_quota w). destruct (pw_accepted d (chain_bytes h (take q l)) w) as (A1 & A2 & A3).
    assert (Hdrop : forall x, x ∈ drop q l -> ~ l_buf x ∈ map l_buf (take q l)).
    { intros x Hx Hin. rewrite <- (take_drop q l), map_app in Hn.
      apply list.NoDup_app in Hn as (_ & Hn & _). apply (Hn _ Hin). by apply list_elem_of_fmap_2. }
    assert (Ha : Forall (agree h (h <| bufs ::= mark_sent (take q l) |>)) (drop q l)).
    { apply list.Forall_forall. intros x Hx. apply agree_bufs; [done|]. cbn. apply mark_sent_other. by apply Hdrop. }
    split; [split_and!|].
    + intros i. cbn. apply mark_sent_obj.
    + intros i Hi. cbn. apply mark_sent_other. intros Hin. apply Hi.
      rewrite <- (take_drop q l), map_app. apply elem_of_app. by left.
    + done.
    + split; [intros i; cbn; by rewrite A3|]. split; [exact A2|]. split; [done|].
      split; [exists (take q l); by rewrite take_drop|]. split; [|].
      * eapply agree_all_sound; [exact Ha|]. by apply Forall_drop.
      * rewrite A1, <- app_assoc, (agree_chain h _ _ Ha), <- chain_bytes_app. by rewrite take_drop.
Qed.

Lemma pw_recv_law fu n ev w r bs ev' w' :
  0 < n -> pw_recv fu n ev w = (r, bs, ev', w') ->
  pump_source fu w = bs ++ pump_source fu w' /\
  pump_source (negb fu) w' = pump_source (negb fu) w /\ same_links w w' /\ same_accepted w w' /\
  (0 < r <= n /\ zlen bs = r \/
   bs = [] /\ (r = NGX_AGAIN \/ (r = 0 \/ r = NGX_ERROR) /\ ready ev' = false)).
Proof.
  intros Hn. unfold pw_recv, pump_source, pw_source. destruct (pw_input fu w) as [|[|z q] l] eqn:Hi.
  - intros [= <- <- <- <-]. rewrite Hi. split_and!; try done. right. auto.
  - intros [= <- <- <- <-]. rewrite Hi. split_and!; try done. right. auto.
  - assert (Hset : forall k, pw_input fu (pw_set_input fu k w) = k /\
      pw_input (negb fu) (pw_set_input fu k w) = pw_input (negb fu) w /\
      same_links w (pw_set_input fu k w) /\ same_accepted w (pw_set_input fu k w)) by (by destruct fu).
    pose proof (zlen_nonneg q).
    destruct (Z.ltb_spec n (zlen (z :: q))); intros [= <- <- <- <-].
    + destruct (Hset (zdrop n (z :: q) :: l)) as (-> & -> & S3 & S4). split_and!; try done.
      * cbn [concat]. by rewrite app_assoc, ztake_zdrop.
      * left. split; [lia|]. apply zlen_ztake. lia.
    + destruct (Hset l) as (-> & -> & S3 & S4). split_and!; try done. left. rewrite zlen_cons in *. lia.
Qed.

Lemma fresh_key (m : gmap Z cbuf) i : fresh_id (map fst (map_to_list m)) = i -> m !! i = None.
Proof.
  intros <-. apply eq_None_not_Some. intros [b Hb]. apply (fresh_id_fresh (map fst (map_to_list m))).
  apply list_elem_of_fmap. exists (fresh_id (map fst (map_to_list m)), b). split; [done|]. by apply elem_of_map_to_list.
Qed.

#[local] Instance pw_pump_laws : NgxPumpLaws pworld.
Proof.
  split; try (by intros; simplify_eq/=).
  - intros fu n ev w r bs ev' w'. apply pw_recv_law.
  - intros d l c h w r c' h' w' [= <- _ <- <-]. split_and!; try done.
    + intros e. by destruct d, e.
    + intros i Hi. cbn. apply mark_sent_other. intros Hin. apply Hi.
      rewrite <- (take_drop (pw_quota w) l), map_app. apply elem_of_app. by left.
    + intros i b Hb _. cbn. by apply mark_sent_moved.
    + intros l' [= <-]. exists (take (pw_quota w) l). by rewrite take_drop.
  - intros free busy out h w free' busy' out' h' w' _. unfold update_chains, pw_pump.
    destruct (take_zero h (busy ++ out)) as [gone rest] eqn:Hz. intros [= <- <- <- <- <-].
    destruct (take_zero_split _ _ _ _ Hz) as [Hs Hb]. split_and!; try done.
    exists gone, gone. split_and!; try done.
    + intros i. cbn. apply reset_other.
    + intros i b Hi. cbn. by apply reset_moved.
  - intros free h w cl free' h' w'. unfold get_free_buf, pw_core. destruct free as [|x free].
    + intros [= <- <- <- <-]. split; [done|]. right. cbn. split_and!; try done.
      * by apply fresh_key.
      * intros i Hi. by apply lookup_insert_ne.
      * exists null_buf. split; [apply lookup_insert_eq|done].
    + intros [= <- <- <- <-]. split; [done|]. by left.
Qed.

(** A session whose client sent five bytes, with memory for sixteen a read. *)
Definition relay_size : Z := 16 + NOISE_PROTOCOL_MAC_DATA_SIZE + 2 * NGX_NSOC_LEN_FIELD_SIZE.
Definition relay_heap : heap :=
  Heap (list_to_map [(1, replicate (Z.to_nat relay_size) 0); (2, replicate (Z.to_nat relay_size) 0)]) ∅.
Definition relay_buf (o : Z) : cbuf := null_buf <| cb_obj := o |> <| cb_end := relay_size |>.
Definition relay_conf : proxy_conf := demo_pconf None.

Definition ready_endpoint (id : Z) : endpoint :=
  (demo_endpoint id) <| e_conn ::= fun c => c <| read ::= fun v => v <| ready := true |> |> |>.

Definition relay_px (connected : bool) (quota : nat) (from_client : list (list Z)) : px unit unit pworld unit :=
  Px (Wf None (WConn false 0 false false) (Some (WConn false 0 false false)) relay_heap
        (PWorld [] [] [] quota from_client []))
    (ready_endpoint 1) None (Some (demo_endpoint 2)) (NsocSession None None false)
    (PrologueData [] 0 (FirstHdr 0 0 0 0 0)) false tt 0 connected [] true
    (relay_buf 2) (relay_buf 1) [] [] [] [] [] 0 0 0 0 false None.

Lemma relay_line : line false (relay_px true 1 [[1; 2; 3]; [4; 5]]).
Proof. split; try done. by eexists. Qed.

Lemma relay_fresh : fresh_start false (relay_px true 1 [[1; 2; 3]; [4; 5]]).
Proof.
  assert (Hno : forall (A : Prop) (x : link), x ∈ [] -> A) by (by intros A x Hx%elem_of_nil).
  split.
  - split.
    + split; try done.
      * intros d. destruct d; split; [constructor| |constructor|]; intros l Hl; by apply elem_of_nil in Hl.
      * intros []; constructor.
      * intros []; split; intros i Hi; by apply elem_of_nil in Hi.
    + split_and!; [constructor|constructor|]. split; intros i Hi; by apply elem_of_nil in Hi.
    + constructor.
    + intros x. apply Hno.
    + intros i Hi. by apply elem_of_nil in Hi.
    + intros i Hi. by apply elem_of_nil in Hi.
  - done.
  - eexists. split; [reflexivity|]. by vm_compute.
  - intros x. apply Hno.
  - intros Hi. by apply elem_of_nil in Hi.
Qed.


(** The run itself: both chunks arrive. *)
Example demo_relay :
  match @ngx_nsoc_proxy_process unit unit pworld unit dead_lib _ _ _ _ _ relay_conf 7 false false
          (relay_px true 1 [[1; 2; 3]; [4; 5]]) with
  | Done (r, s) => r = None /\ pw_up (x_world s) = [1; 2; 3; 4; 5] /\ x_received s = 5
  | _ => False
  end.
Proof. vm_compute. done. Qed.

(** More of the client's data arrives. *)
Definition arrives (bs : list Z) (s : px unit unit pworld unit) : px unit unit pworld unit :=
  s <| x_wf ::= fun f => f <| wf_world ::= pw_set_input false [bs] |> |>
    <| x_client ::= fun e => e <| e_conn ::= fun c => c <| read ::= fun v => v <| ready := true |> |> |> |>.

(** The bytes that wait for the peer. *)
Definition waiting_bytes (s : px unit unit pworld unit) : list Z :=
  chain_bytes (wf_heap (x_wf s)) (x_upstream_out s).

End Demo.
