(* ===== verification/Variables.v ===== *)
(** * Variables: ngx_nsoc_variables.c

    A variable is known by name ([variables_keys], and the hash built from it) and,
    once a script uses it, by an index into [variables]; a session caches the value of
    an indexed variable in the slot of the same index.  [ngx_nsoc_variables_init_vars]
    joins the two: it gives every indexed variable the handler of its name.

    A get handler is a function pointer and so a parameter: [H] is the type of the
    pointers and [call] what a call of one does.  It receives the place of the value it
    has to fill ([vref], a slot of the session or a value of its own), so that
    a handler that evaluates other variables sees the slots as they are.  [str_ops] and
    [hash_ops] are the string and hash functions of nginx core. *)

From stdpp Require Import prelude list numbers.
From S2P Require Import Prelude.

(** ** Data: ngx_nsoc_variables.h *)

Definition NGX_NSOC_VAR_CHANGEABLE : Z := 1.
Definition NGX_NSOC_VAR_NOCACHEABLE : Z := 2.
Definition NGX_NSOC_VAR_INDEXED : Z := 4.
Definition NGX_NSOC_VAR_NOHASH : Z := 8.
Definition NGX_NSOC_VAR_WEAK : Z := 16.
Definition NGX_NSOC_VAR_PREFIX : Z := 32.

(** The [data] of a variable: a number, or for a prefix variable the pointer to the
    whole name. *)
Inductive vdata := DInt (n : Z) | DName (name : list Z).

(** [ngx_nsoc_variable_t]. *)
Record variable (H : Type) := Var {
  v_name : list Z;
  get_handler : option H;
  v_data : vdata;
  flags : Z;
  index : Z;
}.
Arguments Var {H}.
Arguments v_name {H}. Arguments get_handler {H}. Arguments v_data {H}.
Arguments flags {H}. Arguments index {H}.
#[global] Instance variable_eta H : Eta (variable H) := fun v =>
  Var (v_name v) (get_handler v) (v_data v) (flags v) (index v).

(** [flags & f]. *)
Definition has_flag {H} (f : Z) (v : variable H) : bool := negb (Z.land (flags v) f =? 0).

(** [ngx_nsoc_variable_value_t]; [len] and [data] are one byte string. *)
Record var_value := VarValue {
  valid : bool;
  no_cacheable : bool;
  not_found : bool;
  vv_data : list Z;
}.
#[global] Instance var_value_eta : Eta var_value := fun v =>
  VarValue (valid v) (no_cacheable v) (not_found v) (vv_data v).

(** A zeroed value. *)
Definition fresh_value : var_value := VarValue false false false [].

(** The pointers [ngx_nsoc_add_variable] returns: the variable of a key or a prefix
    variable. *)
Inductive vptr := KeyVar (n : nat) | PrefixVar (n : nat).

(** Where a value lives. *)
Inductive vref := Slot (n : nat) | Temp (n : nat).

(** [ngx_strlow], [ngx_strncasecmp] on strings of one length, with [true] for 0. *)
Class NgxStr := {
  ngx_strlow : list Z -> list Z;
  ngx_strncasecmp : list Z -> list Z -> bool;
}.

(** Comparing without case is comparing the lower-case forms. *)
Class NgxStrLaws `{NgxStr} : Prop := {
  strlow_length x : length (ngx_strlow x) = length x;
  strlow_idem x : ngx_strlow (ngx_strlow x) = ngx_strlow x;
  strncasecmp_strlow x y :
    length x = length y -> ngx_strncasecmp x y = true <-> ngx_strlow x = ngx_strlow y;
}.

(** [strncmp(x, y, n) == 0] of the C library, for strings of at least [n] bytes. *)
Fixpoint strncmp (n : nat) (x y : list Z) : bool :=
  match n, x, y with
  | O, _, _ => true
  | S n, a :: x, b :: y => if a =? b then (a =? 0) || strncmp n x y else false
  | _, _, _ => false
  end.

(** [ngx_hash_add_key] answers NGX_OK, NGX_BUSY or NGX_ERROR; [ngx_hash_init] builds a
    table [T] of the keys that are not NULL; [ngx_hash_find] looks a name up with its
    hash value. *)
Class NgxHash (T : Type) := {
  ngx_hash_add_key : list (list Z) -> list Z -> Z;
  ngx_hash_init : list (list Z * nat) -> option T;
  ngx_hash_key : list Z -> Z;
  ngx_hash_find : T -> Z -> list Z -> option nat;
}.

(** A table built of distinct names finds exactly them, and a name that is taken is not
    added twice. *)
Class NgxHashLaws (T : Type) `{NgxHash T} : Prop := {
  hash_find_init l t name n :
    NoDup l.*1 -> ngx_hash_init l = Some t ->
    ngx_hash_find t (ngx_hash_key name) name = Some n <-> (name, n) ∈ l;
  hash_add_fresh ks name : ngx_hash_add_key ks name = NGX_OK -> name ∉ ks;
}.

(** The fields of [ngx_nsoc_core_main_conf_t] about variables.  [variables] is NULL until
    the first index is asked for; [variables_keys] becomes NULL at the end, while the
    variables of the keys live on as [named_variables], where the hash points. *)
Record vconf (H T W : Type) := VConf {
  variables : option (list (variable H));
  variables_keys : option (list (list Z * variable H));
  named_variables : list (variable H);
  prefix_variables : list (variable H);
  variables_hash : option T;
  vc_pool : W;
}.
Arguments VConf {H T W}.
Arguments variables {H T W}. Arguments variables_keys {H T W}.
Arguments named_variables {H T W}.
Arguments prefix_variables {H T W}. Arguments variables_hash {H T W}.
Arguments vc_pool {H T W}.
#[global] Instance vconf_eta H T W : Eta (vconf H T W) := fun c =>
  VConf (variables c) (variables_keys c) (named_variables c) (prefix_variables c) (variables_hash c) (vc_pool c).

(** The session's part: its slots, the values handed out by name, the captures of the
    last regular expression and the counter [ngx_nsoc_variable_depth].  [vs_env] is the
    rest of the session and of the process, which handlers read. *)
Record vsess (W : Type) := VSess {
  slots : list var_value;
  temps : list var_value;
  depth : Z;
  captures : list Z;
  ncaptures : Z;
  captures_data : list Z;
  vs_env : W;
}.
Arguments VSess {W}.
Arguments slots {W}. Arguments temps {W}. Arguments depth {W}. Arguments captures {W}.
Arguments ncaptures {W}. Arguments captures_data {W}. Arguments vs_env {W}.
#[global] Instance vsess_eta W : Eta (vsess W) := fun s =>
  VSess (slots s) (temps s) (depth s) (captures s) (ncaptures s) (captures_data s) (vs_env s).

(** ** Configuration *)

Section VarConf.
Context {H T W : Type} `{!NgxStr} `{!NgxHash T} `{!NgxPool W}.
Context (uninit : variable H).

Abbreviation CM := (M (vconf H T W)).

(** [ngx_palloc], [ngx_pnalloc] and [ngx_array_push] on the pool of the configuration. *)
Definition conf_alloc : CM bool :=
  w ← gets vc_pool;
  let '(ok, w) := pool_object w in
  vc_pool ::=! w;; mret ok.

(** The test of the loops over names. *)
Definition same_name (name other : list Z) : bool :=
  (length name =? length other)%nat && ngx_strncasecmp name other.

(** [v->flags &= flags | ~NGX_NSOC_VAR_WEAK]. *)
Definition merge_flags (fl : Z) (v : variable H) : variable H :=
  v <| flags := Z.land (flags v) (Z.lor fl (Z.lnot NGX_NSOC_VAR_WEAK)) |>.

(** The fields of a new variable. *)
Definition new_variable (name : list Z) (fl idx : Z) : variable H :=
  Var (ngx_strlow name) None (DInt 0) fl idx.

Definition ngx_nsoc_add_prefix_variable (name : list Z) (fl : Z) : CM (option vptr) :=
  vs ← gets prefix_variables;
  match list_find (fun v => same_name name (v_name v)) vs with
  | Some (i, v) =>
      if negb (has_flag NGX_NSOC_VAR_CHANGEABLE v) then mret None
      else prefix_variables ::=! <[i := merge_flags fl v]> vs;; mret (Some (PrefixVar i))
  | None =>
      ok ← conf_alloc;
      if negb ok then mret None else
      prefix_variables ::=! vs ++ [uninit];;
      ok ← conf_alloc;
      if negb ok then mret None else
      prefix_variables ::=! vs ++ [new_variable name fl 0];;
      mret (Some (PrefixVar (length vs)))
  end.

Definition ngx_nsoc_add_variable (name : list Z) (fl : Z) : CM (option vptr) :=
  if (length name =? 0)%nat then mret None else
  if negb (Z.land fl NGX_NSOC_VAR_PREFIX =? 0) then ngx_nsoc_add_prefix_variable name fl else
  ks ← gets variables_keys;
  keys ← mderef ks;
  match list_find (fun kv => same_name name kv.1) keys with
  | Some (i, (k, v)) =>
      if negb (has_flag NGX_NSOC_VAR_CHANGEABLE v) then mret None
      else variables_keys ::=! Some (<[i := (k, merge_flags fl v)]> keys);; mret (Some (KeyVar i))
  | None =>
      ok ← conf_alloc;
      if negb ok then mret None else
      ok ← conf_alloc;
      if negb ok then mret None else
      let v := new_variable name fl 0 in
      let rc := ngx_hash_add_key keys.*1 (v_name v) in
      if rc =? NGX_ERROR then mret None
      else if rc =? NGX_BUSY then mret None
      else
        variables_keys ::=! Some (keys ++ [(v_name v, v)]);;
        mret (Some (KeyVar (length keys)))
  end.

Definition ngx_nsoc_get_variable_index (name : list Z) : CM Z :=
  if (length name =? 0)%nat then mret NGX_ERROR else
  vo ← gets variables;
  failed ←
    (match vo with
     | None => ok ← conf_alloc;
               if negb ok then mret true else variables ::=! Some [];; mret false
     | Some _ => mret false
     end);
  if (failed : bool) then mret NGX_ERROR else
  let vs := default [] vo in
  match list_find (fun v => same_name name (v_name v)) vs with
  | Some (i, _) => mret (Z.of_nat i)
  | None =>
      ok ← conf_alloc;
      if negb ok then mret NGX_ERROR else
      variables ::=! Some (vs ++ [uninit]);;
      ok ← conf_alloc;
      if negb ok then mret NGX_ERROR else
      variables ::=! Some (vs ++ [new_variable name 0 (zlen vs)]);;
      mret (zlen vs)
  end.

(** [*v = *cv]; a key keeps the name it was added with. *)
Definition assign_variable (p : vptr) (cv : variable H) : CM unit :=
  match p with
  | KeyVar i =>
      ks ← gets variables_keys;
      keys ← mderef ks;
      '(k, _) ← mderef (keys !! i);
      variables_keys ::=! Some (<[i := (k, cv)]> keys)
  | PrefixVar i => vs ← gets prefix_variables; prefix_variables ::=! <[i := cv]> vs
  end.

(** The loop over the table of a module. *)
Fixpoint add_vars (table : list (variable H)) : CM Z :=
  match table with
  | [] => mret NGX_OK
  | cv :: table =>
      v ← ngx_nsoc_add_variable (v_name cv) (flags cv);
      match v with
      | None => mret NGX_ERROR
      | Some v => assign_variable v cv;; add_vars table
      end
  end.

Definition ngx_nsoc_variables_add_core_vars (ngx_nsoc_core_variables : list (variable H)) : CM Z :=
  ok ← conf_alloc;
  if negb ok then mret NGX_ERROR else
  ok ← conf_alloc;
  if negb ok then mret NGX_ERROR else
  variables_keys ::=! Some [];;
  ok ← conf_alloc;
  if negb ok then mret NGX_ERROR else
  prefix_variables ::=! [];;
  add_vars ngx_nsoc_core_variables.

(** The search among the prefixes; [best] is the prefix found so far and its length. *)
Fixpoint find_prefix (name : list Z) (i : nat) (pv : list (variable H)) (best : option nat)
    (len : nat) : option nat :=
  match pv with
  | [] => best
  | v :: pv =>
      let l := length (v_name v) in
      if (l <=? length name)%nat && (len <? length name)%nat && strncmp l name (v_name v)
      then find_prefix name (S i) pv (Some i) l
      else find_prefix name (S i) pv best len
  end.

(** One round of the loop over the indexed variables: whether the configuration goes on,
    the variable and the keys. *)
Definition init_var (pv : list (variable H)) (keys : list (list Z * variable H)) (i : nat)
    (v : variable H) : bool * variable H * list (list Z * variable H) :=
  let '(v, keys, done) :=
    match list_find (fun kv => (length (v_name v) =? length kv.1)%nat
                               && strncmp (length (v_name v)) (v_name v) kv.1) keys with
    | Some (n, (k, av)) =>
        let av := av <| flags := Z.lor (flags av) NGX_NSOC_VAR_INDEXED |> in
        let v := v <| get_handler := get_handler av |> <| v_data := v_data av |>
                   <| flags := flags av |> in
        let av := av <| index := Z.of_nat i |> in
        (v, <[n := (k, av)]> keys,
         negb (match get_handler av with None => true | Some _ => false end
               || has_flag NGX_NSOC_VAR_WEAK av))
    | None => (v, keys, false)
    end in
  if (done : bool) then (true, v, keys) else
  match find_prefix (v_name v) 0 pv None 0 ≫= (pv !!.) with
  | Some av =>
      (true, v <| get_handler := get_handler av |> <| v_data := DName (v_name v) |>
               <| flags := flags av |>, keys)
  | None => (match get_handler v with None => false | Some _ => true end, v, keys)
  end.

(** The loop stops at the first variable that nothing defines. *)
Fixpoint init_vars_loop (pv : list (variable H)) (keys : list (list Z * variable H)) (i : nat)
    (vs : list (variable H)) : bool * list (variable H) * list (list Z * variable H) :=
  match vs with
  | [] => (true, [], keys)
  | v :: vs =>
      let '(ok, v, keys) := init_var pv keys i v in
      if negb ok then (false, v :: vs, keys) else
      let '(ok, vs, keys) := init_vars_loop pv keys (S i) vs in
      (ok, v :: vs, keys)
  end.

(** The keys that get into the hash, with the place of their variable. *)
Fixpoint hash_keys (i : nat) (keys : list (list Z * variable H)) : list (list Z * nat) :=
  match keys with
  | [] => []
  | (k, av) :: keys =>
      if has_flag NGX_NSOC_VAR_NOHASH av then hash_keys (S i) keys
      else (k, i) :: hash_keys (S i) keys
  end.

Definition ngx_nsoc_variables_init_vars : CM Z :=
  vs ← gets variables;
  pv ← gets prefix_variables;
  ks ← gets variables_keys;
  keys ← mderef ks;
  let '(ok, vs', keys) := init_vars_loop pv keys 0 (default [] vs) in
  variables ::=! ((fun _ => vs') <$> vs);;
  variables_keys ::=! Some keys;;
  if negb ok then mret NGX_ERROR else
  match ngx_hash_init (hash_keys 0 keys) with
  | None => mret NGX_ERROR
  | Some t =>
      variables_hash ::=! Some t;;
      named_variables ::=! keys.*2;;
      variables_keys ::=! None;;
      mret NGX_OK
  end.
End VarConf.

(** ** Evaluation *)

Section VarEval.
Context {H T W : Type} `{!NgxHash T} `{!NgxPool W}.
Context (cmcf : vconf H T W).
Context (call : H -> vref -> vdata -> M (vsess W) Z).
Context (uninit_value : var_value).

Abbreviation VM := (M (vsess W)).

(** The number of indexed variables. *)
Definition nelts : Z := zlen (default [] (variables cmcf)).

Definition slot (n : nat) : VM var_value := l ← gets slots; mderef (l !! n).

Definition on_slot (n : nat) (f : var_value -> var_value) : VM unit :=
  v ← slot n;
  modify (fun s => s <| slots := <[n := f v]> (slots s) |>).

(** The value a pointer points at. *)
Definition vref_value (r : vref) (s : vsess W) : option var_value :=
  match r with Slot n => slots s !! n | Temp n => temps s !! n end.

(** [ngx_nsoc_variable_depth--; rc = get_handler(s, v, data); ngx_nsoc_variable_depth++]. *)
Definition call_handler (h : option H) (r : vref) (d : vdata) : VM Z :=
  h ← mderef h;
  modify (fun s => s <| depth := u64 (depth s - 1) |>);;
  rc ← call h r d;
  modify (fun s => s <| depth := u64 (depth s + 1) |>);;
  mret rc.

Definition ngx_nsoc_get_indexed_variable (idx : nat) : VM (option vref) :=
  if nelts <=? Z.of_nat idx then mret None else
  v ← slot idx;
  if not_found v || valid v then mret (Some (Slot idx)) else
  d ← gets depth;
  if d =? 0 then mret None else
  v ← mderef (default [] (variables cmcf) !! idx);
  rc ← call_handler (get_handler v) (Slot idx) (v_data v);
  if rc =? NGX_OK then
    (if has_flag NGX_NSOC_VAR_NOCACHEABLE v
     then on_slot idx (fun x => x <| no_cacheable := true |>) else mret tt);;
    mret (Some (Slot idx))
  else
    on_slot idx (fun x => x <| valid := false |> <| not_found := true |>);;
    mret None.

Definition ngx_nsoc_get_flushed_variable (idx : nat) : VM (option vref) :=
  v ← slot idx;
  if (valid v || not_found v) && negb (no_cacheable v) then mret (Some (Slot idx)) else
  (if valid v || not_found v
   then on_slot idx (fun x => x <| valid := false |> <| not_found := false |>) else mret tt);;
  ngx_nsoc_get_indexed_variable idx.

(** [ngx_palloc] of a value, which is not initialised. *)
Definition alloc_value : VM (option vref) :=
  w ← gets vs_env;
  let '(ok, w) := pool_object w in
  modify (fun s => s <| vs_env := w |>);;
  if negb ok then mret None else
  t ← gets temps;
  modify (fun s => s <| temps := t ++ [uninit_value] |>);;
  mret (Some (Temp (length t))).

Definition ngx_nsoc_get_variable (name : list Z) (key : Z) : VM (option vref) :=
  t ← mderef (variables_hash cmcf);
  match ngx_hash_find t key name with
  | Some n =>
      v ← mderef (named_variables cmcf !! n);
      if has_flag NGX_NSOC_VAR_INDEXED v then ngx_nsoc_get_flushed_variable (Z.to_nat (index v)) else
      d ← gets depth;
      if d =? 0 then mret None else
      modify (fun s => s <| depth := u64 (depth s - 1) |>);;
      vv ← alloc_value;
      rc ← (match vv with
            | Some r => h ← mderef (get_handler v); call h r (v_data v)
            | None => mret NGX_ERROR
            end);
      modify (fun s => s <| depth := u64 (depth s + 1) |>);;
      if rc =? NGX_OK then mret vv else mret None
  | None =>
      vv ← alloc_value;
      match vv with
      | None => mret None
      | Some r =>
          match find_prefix name 0 (prefix_variables cmcf) None 0 with
          | Some n =>
              v ← mderef (prefix_variables cmcf !! n);
              h ← mderef (get_handler v);
              rc ← call h r (DName name);
              if rc =? NGX_OK then mret (Some r) else mret None
          | None =>
              match r with
              | Temp n =>
                  modify (fun s => s <| temps := alter (fun x => x <| not_found := true |>) n (temps s) |>)
              | Slot n => on_slot n (fun x => x <| not_found := true |>)
              end;;
              mret (Some r)
          end
      end
  end.
End VarEval.

(** ** Indices

    What a configuration keeps: no two indexed variables have one name, each has a
    lower-case name and its own place as [index]. *)

Section Indices.
Context {H T W : Type} `{!NgxStr} `{!NgxStrLaws} `{!NgxHash T} `{!NgxPool W}.
Context (uninit : variable H).
Implicit Types (c : vconf H T W) (vs : list (variable H)) (name : list Z).

Definition indexed (c : vconf H T W) : list (variable H) := default [] (variables c).

(** The pool can refuse an object. *)
Definition out_of_memory (P : Type) `{NgxPool P} : Prop := exists w : P, (pool_object w).1 = false.

Record indexed_ok (vs : list (variable H)) : Prop := {
  io_names : NoDup (v_name <$> vs);
  io_lower v : v ∈ vs -> ngx_strlow (v_name v) = v_name v;
  io_index i v : vs !! i = Some v -> index v = Z.of_nat i;
}.

Lemma indexed_ok_nil : indexed_ok [].
Proof. split; [apply NoDup_nil_2|by intros v ?%not_elem_of_nil|by intros i v Hv; rewrite lookup_nil in Hv]. Qed.

Lemma same_name_spec name other :
  same_name name other = true <-> ngx_strlow name = ngx_strlow other.
Proof.
  unfold same_name. rewrite andb_true_iff, Nat.eqb_eq. split.
  - intros [Hl He]. by apply strncasecmp_strlow.
  - intros He. assert (Hl : length name = length other)
      by (by rewrite <- (strlow_length name), He, strlow_length).
    split; [done|]. by apply strncasecmp_strlow.
Qed.

Lemma indexed_ok_snoc vs name fl :
  indexed_ok vs -> ngx_strlow name ∉ v_name <$> vs ->
  indexed_ok (vs ++ [new_variable name fl (zlen vs)]).
Proof.
  intros [Hn Hlow Hi] Hnew. split.
  - rewrite fmap_app. apply list.NoDup_app. split_and!; [done| |apply NoDup_singleton].
    intros x Hx Hx'%list_elem_of_singleton. subst x. by apply Hnew.
  - intros v [Hv|Hv%list_elem_of_singleton]%elem_of_app; [by apply Hlow|subst v]. apply strlow_idem.
  - intros i v [Hv|[Hle Hv]]%lookup_app_Some; [by apply Hi|].
    apply list_lookup_singleton_Some in Hv as [Hi0 <-]. cbn. unfold zlen. lia.
Qed.

Lemma wp_conf_alloc c (Q : bool -> vconf H T W -> Prop) :
  (forall ok w, (ok = false -> out_of_memory W) -> Q ok (c <| vc_pool := w |>)) ->
  wp (conf_alloc (H:=H)) Q c.
Proof.
  intros HQ. unfold conf_alloc, wp, mbind, M_bind, gets. cbn.
  destruct (pool_object (vc_pool c)) as [ok w] eqn:Hp. apply HQ.
  intros ->. exists (vc_pool c). by rewrite Hp.
Qed.

(** The part after the array exists. *)
Lemma push_index name vs c :
  indexed_ok vs -> ngx_strlow name ∉ v_name <$> vs -> indexed c = vs ->
  wp (ok ← conf_alloc (H:=H);
      if negb ok then mret NGX_ERROR else
      variables ::=! Some (vs ++ [uninit]);;
      ok ← conf_alloc;
      if negb ok then mret NGX_ERROR else
      variables ::=! Some (vs ++ [new_variable name 0 (zlen vs)]);;
      mret (zlen vs))
    (fun r c' => r = NGX_ERROR /\ (name = [] \/ out_of_memory W) \/
       exists i v, r = Z.of_nat i /\ indexed c' !! i = Some v /\ v_name v = ngx_strlow name /\
         indexed c `prefix_of` indexed c' /\ indexed_ok (indexed c')) c.
Proof.
  intros Hok Hnew Hc. wp_step. apply wp_conf_alloc. intros ok w Hmem.
  destruct ok; cbn [negb]; [|wp_step; left; by auto]. do 2 wp_step. wp_step. apply wp_conf_alloc.
  intros ok w' Hmem'. destruct ok; cbn [negb]; [|wp_step; left; by auto]. do 2 wp_step. wp_step. right.
  exists (length vs), (new_variable name 0 (zlen vs)). unfold indexed at 1 3 4. cbn.
  split_and!; [done| |done| |by apply indexed_ok_snoc].
  - by rewrite list_lookup_middle.
  - rewrite Hc. by eexists.
Qed.

Lemma get_index_ok name c
    (Hok : indexed_ok (indexed c)) :
  wp (ngx_nsoc_get_variable_index uninit name)
    (fun r c' => r = NGX_ERROR /\ (name = [] \/ out_of_memory W) \/
       exists i v, r = Z.of_nat i /\ indexed c' !! i = Some v /\ v_name v = ngx_strlow name /\
         indexed c `prefix_of` indexed c' /\ indexed_ok (indexed c')) c.
Proof.
  unfold ngx_nsoc_get_variable_index. destruct (Nat.eqb_spec (length name) 0) as [Hnil|_].
  { wp_step. left. split; [done|]. left. by apply nil_length_inv. }
  do 2 wp_step. destruct (variables c) as [vs|] eqn:Hvs; cbn [default from_option]; unfold id.
  - wp_step. wp_step. destruct (list_find (fun v => same_name name (v_name v)) vs) as [[i v]|] eqn:Hf.
    + apply list_find_Some in Hf as (Hi & Hs%Is_true_true%same_name_spec & _). wp_step. right.
      assert (Hc : indexed c = vs) by (unfold indexed; by rewrite Hvs).
      exists i, v. rewrite !Hc. rewrite Hc in Hok. split_and!; try done.
      rewrite Hs. symmetry. apply (io_lower _ Hok). by eapply list_elem_of_lookup_2.
    + assert (Hc : indexed c = vs) by (unfold indexed; by rewrite Hvs).
      apply push_index; [by rewrite <- Hc| |done].
      intros (v & Hv & Hin)%list_elem_of_fmap. apply list_find_None in Hf.
      rewrite list.Forall_forall in Hf. apply (Hf v Hin), Is_true_true, same_name_spec.
      rewrite <- Hv. symmetry. apply strlow_idem.
  - wp_step. wp_step. apply wp_conf_alloc. intros ok w Hmem.
    destruct ok; cbn [negb]; [|do 2 wp_step; left; by auto]. do 2 wp_step. wp_step.
    assert (Hc : indexed c = []) by (unfold indexed; by rewrite Hvs).
    cbn [list_find]. eapply wp_mono.
    { apply (push_index name []); [by rewrite <- Hc|set_solver|done]. }
    intros r c' [[-> He]|(i & v & Hr)]; [by left|right]. exists i, v. destruct_and!.
    split_and!; try done. rewrite Hc. apply prefix_nil.
Qed.

(** [ngx_nsoc_get_variable_index] gives a name the same index whenever and in
    whatever case it is asked for: it returns NGX_ERROR (only when the name is empty or
    memory ran out) or the place of the one indexed variable with that name, and the places given
    out before do not move. *)
Theorem get_variable_index_correct name c
    (Hok : indexed_ok (indexed c)) :
  wp (ngx_nsoc_get_variable_index uninit name)
    (fun r c' => r = NGX_ERROR /\ (name = [] \/ out_of_memory W) \/
       exists i v, r = Z.of_nat i /\ indexed c' !! i = Some v /\ v_name v = ngx_strlow name /\
         indexed c `prefix_of` indexed c' /\ indexed_ok (indexed c')) c.
Proof. by apply get_index_ok. Qed.
End Indices.

(** ** Names and indices joined *)

Lemma strncmp_eq x : forall y, length x = length y -> 0 ∉ x ->
  strncmp (length x) x y = true <-> x = y.
Proof.
  induction x as [|a x IH]; intros [|b y] Hl Hz; try done. cbn [length strncmp] in *.
  apply not_elem_of_cons in Hz as [Ha Hz]. destruct (Z.eqb_spec a b) as [->|Hab].
  - destruct (Z.eqb_spec b 0) as [->|_]; [done|]. cbn [orb].
    rewrite IH by (done || lia). split; intros; by simplify_eq.
  - split; intros; by simplify_eq.
Qed.

Lemma has_flag_marked {H} (v : variable H) f g :
  Z.land g f = 0 -> has_flag f (v <| flags := Z.lor (flags v) g |>) = has_flag f v.
Proof.
  intros Hfg. unfold has_flag. cbn. by rewrite Z.land_lor_distr_l, Hfg, Z.lor_0_r.
Qed.

Section Joined.
Context {H T W : Type} `{!NgxHash T} `{!NgxHashLaws T}.
Implicit Types (c : vconf H T W) (v av : variable H) (vs pv : list (variable H))
  (keys : list (list Z * variable H)).

(** What the loop leaves in the variable of a key that variable [i] uses. *)
Definition marked (i : nat) (av : variable H) : variable H :=
  av <| flags := Z.lor (flags av) NGX_NSOC_VAR_INDEXED |> <| index := Z.of_nat i |>.

(** A key whose handler a prefix does not replace. *)
Definition strong (av : variable H) : Prop :=
  get_handler av <> None /\ has_flag NGX_NSOC_VAR_WEAK av = false.

Definition plain_name (name : list Z) : Prop := 0 ∉ name.

Definition prefixes_ok (pv : list (variable H)) : Prop := Forall (fun p => get_handler p <> None) pv.

Lemma marked_indexed i av : has_flag NGX_NSOC_VAR_INDEXED (marked i av) = true.
Proof.
  apply negb_true_iff, Z.eqb_neq. unfold marked. cbn. rewrite Z.land_lor_distr_l.
  by intros [_ He]%Z.lor_eq_0_iff.
Qed.

Lemma marked_weak i av :
  has_flag NGX_NSOC_VAR_WEAK (marked i av) = has_flag NGX_NSOC_VAR_WEAK av.
Proof. by apply (has_flag_marked av). Qed.

Lemma marked_nohash i av :
  has_flag NGX_NSOC_VAR_NOHASH (marked i av) = has_flag NGX_NSOC_VAR_NOHASH av.
Proof. by apply (has_flag_marked av). Qed.

Lemma find_key name keys : plain_name name ->
  match list_find (fun kv => (length name =? length kv.1)%nat && strncmp (length name) name kv.1) keys with
  | Some (n, (k, av)) => k = name /\ keys !! n = Some (name, av)
  | None => name ∉ keys.*1
  end.
Proof.
  intros Hz.
  assert (Hiff : forall k : list Z, (length name =? length k)%nat && strncmp (length name) name k = true <-> name = k).
  { intros k. rewrite andb_true_iff, Nat.eqb_eq. split.
    - intros [Hl He]. by apply strncmp_eq in He.
    - intros <-. split; [done|]. by apply strncmp_eq. }
  destruct (list_find _ keys) as [[n [k av]]|] eqn:Hf.
  - apply list_find_Some in Hf as (Hn & Hk%Is_true_true%Hiff & _). cbn in Hk. by subst k.
  - apply list_find_None in Hf. rewrite list.Forall_forall in Hf.
    intros ([k av] & -> & Hin)%list_elem_of_fmap. by apply (Hf _ Hin), Is_true_true, Hiff.
Qed.

Lemma find_prefix_mem name pv : forall i best len n,
  find_prefix name i pv best len = Some n -> best = Some n \/ (i <= n)%nat.
Proof.
  induction pv as [|p pv IH]; intros i best len n; cbn [find_prefix]; [by left|].
  destruct (_ && _); intros [Hb|Hle]%IH; try (right; lia); [|by left]. simplify_eq. right. lia.
Qed.

Lemma init_var_spec pv keys i v v' keys' :
  plain_name (v_name v) -> prefixes_ok pv -> init_var pv keys i v = (true, v', keys') ->
  v_name v' = v_name v /\ get_handler v' <> None /\
  (((v_name v ∉ keys.*1) /\ keys' = keys) \/
   exists n av, keys !! n = Some (v_name v, av) /\ keys' = <[n := (v_name v, marked i av)]> keys /\
     (strong av -> get_handler v' = get_handler av /\ v_data v' = v_data av)).
Proof.
  intros Hz Hpv. unfold init_var. pose proof (find_key (v_name v) keys Hz) as Hf.
  destruct (list_find _ keys) as [[n [k av]]|].
  - destruct Hf as [-> Hn].
    cbv zeta. fold (marked i av). rewrite marked_weak.
    change (get_handler (marked i av)) with (get_handler av).
    destruct (get_handler av) eqn:Hh, (has_flag NGX_NSOC_VAR_WEAK av) eqn:Hw; cbn [negb orb].
    2: { intros ?; simplify_eq. cbn. rewrite Hh. split_and!; [done|done|]. right. by exists n, av. }
    all: destruct (_ ≫= _) as [p|] eqn:Hp; intros Heq; simplify_eq; cbn in *;
      try (rewrite Hh in *); split_and!; try done;
      try (apply bind_Some in Hp as (m & _ & Hm); by eapply Forall_lookup_1 in Hm; [|exact Hpv]);
      right; exists n, av; split_and!; try done; intros [Hs Hs']; congruence.
  - destruct (_ ≫= _) as [p|] eqn:Hp; intros Heq; simplify_eq; cbn.
    + split_and!; [done| |by left].
      apply bind_Some in Hp as (m & _ & Hm). by eapply Forall_lookup_1 in Hm; [|exact Hpv].
    + destruct (get_handler v') eqn:Hv; simplify_eq. split_and!; [done|done|by left].
Qed.

Lemma init_vars_loop_spec pv : prefixes_ok pv -> forall vs keys i vs' keys',
  Forall plain_name (v_name <$> vs) -> NoDup (v_name <$> vs) -> NoDup keys.*1 ->
  init_vars_loop pv keys i vs = (true, vs', keys') ->
  v_name <$> vs' = v_name <$> vs /\ Forall (fun v => get_handler v <> None) vs' /\
  keys'.*1 = keys.*1 /\
  forall n k av, keys !! n = Some (k, av) ->
    ((k ∉ v_name <$> vs) /\ keys' !! n = Some (k, av)) \/
    exists j v, vs' !! j = Some v /\ v_name v = k /\ keys' !! n = Some (k, marked (i + j) av) /\
      (strong av -> get_handler v = get_handler av /\ v_data v = v_data av).
Proof.
  intros Hpv. induction vs as [|v vs IH]; intros keys i vs' keys' Hz Hnd Hk Hl;
    cbn [init_vars_loop fmap list_fmap] in *.
  { simplify_eq. split_and!; try done. intros. left. split; [apply not_elem_of_nil|done]. }
  destruct (init_var pv keys i v) as [[ok v1] keys1] eqn:Hv.
  destruct ok; cbn [negb] in Hl; [|done].
  destruct (init_vars_loop pv keys1 (S i) vs) as [[ok2 vs2] keys2] eqn:Hl2. simplify_eq.
  apply list.Forall_cons in Hz as [Hzv Hz]. apply list.NoDup_cons in Hnd as [Hvn Hnd].
  apply init_var_spec in Hv as (Hname & Hh & Hv); [|done|done].
  assert (Hk1 : keys1.*1 = keys.*1).
  { destruct Hv as [[_ ->]|(n & av & Hn & -> & _)]; [done|].
    rewrite list_fmap_insert. cbn. apply list_insert_id. by rewrite list_lookup_fmap, Hn. }
  destruct (IH keys1 (S i) vs2 keys' Hz Hnd ltac:(by rewrite Hk1) Hl2) as (Hns & Hhs & Hks & Hall).
  split_and!; [cbn; by rewrite Hname, Hns|by constructor|by rewrite Hks|].
  intros n k av Hn.
  assert (Hlift : forall av1, keys1 !! n = Some (k, av1) -> av1 = av -> k <> v_name v ->
    ((k ∉ v_name v :: (v_name <$> vs)) /\ keys' !! n = Some (k, av)) \/
    exists j v0, (v1 :: vs2) !! j = Some v0 /\ v_name v0 = k /\ keys' !! n = Some (k, marked (i + j) av) /\
      (strong av -> get_handler v0 = get_handler av /\ v_data v0 = v_data av)).
  { intros av1 Hn1 -> Hne. destruct (Hall n k av Hn1) as [[Hnot Hkn]|(j & v0 & Hj & Hv0 & Hkn & Hs)].
    - left. split; [by apply not_elem_of_cons|done].
    - right. exists (S j), v0. by rewrite Nat.add_succ_r. }
  destruct Hv as [[Hnot ->]|(m & av0 & Hm & -> & Hs)].
  - apply (Hlift av); [done|done|]. intros ->. apply Hnot. apply list_elem_of_fmap.
    eexists. split; [|by eapply list_elem_of_lookup_2]. done.
  - destruct (decide (n = m)) as [->|Hnm].
    + rewrite Hn in Hm. simplify_eq.
      destruct (Hall m (v_name v) (marked i av0)) as [[_ Hkn]|(j & v0 & Hj & Hv0 & _)].
      { apply list_lookup_insert_eq. by eapply lookup_lt_Some. }
      * right. exists 0%nat, v1. rewrite Nat.add_0_r. by split_and!.
      * exfalso. apply Hvn. rewrite <- Hns. apply list_elem_of_fmap. exists v0. split; [done|].
        by eapply list_elem_of_lookup_2.
    + apply (Hlift av); [by rewrite list_lookup_insert_ne|done|]. intros ->. apply Hnm.
      eapply NoDup_lookup; [exact Hk| |]; rewrite list_lookup_fmap; [by rewrite Hn|by rewrite Hm].
Qed.

Lemma hash_keys_elem k n keys : forall i,
  (k, n) ∈ hash_keys i keys <->
  exists m av, n = (i + m)%nat /\ keys !! m = Some (k, av) /\ has_flag NGX_NSOC_VAR_NOHASH av = false.
Proof.
  induction keys as [|[k0 av0] keys IH]; intros i; cbn [hash_keys].
  { split; [by intros ?%not_elem_of_nil|]. by intros (m & av & _ & Hm & _). }
  assert (Hcons : (exists m av, n = (i + m)%nat /\ ((k0, av0) :: keys) !! m = Some (k, av) /\
                     has_flag NGX_NSOC_VAR_NOHASH av = false) <->
    ((k, n) = (k0, i) /\ has_flag NGX_NSOC_VAR_NOHASH av0 = false) \/ (k, n) ∈ hash_keys (S i) keys).
  { rewrite IH. split.
    - intros ([|m] & av & -> & Hm & Hf); cbn in Hm; simplify_eq.
      + left. by rewrite Nat.add_0_r.
      + right. exists m, av. split_and!; [lia|done|done].
    - intros [[? Hf]|(m & av & -> & Hm & Hf)]; simplify_eq.
      + exists 0%nat, av0. split_and!; [lia|done|done].
      + exists (S m), av. split_and!; [lia|done|done]. }
  clear IH. rewrite Hcons. destruct (has_flag _ av0); rewrite ?elem_of_cons; clear Hcons;
    [by split; [right|intros [[_ ?]|?]]|].
  by split; [intros [?|?]; [left|right]|intros [[? _]|?]; [left|right]].
Qed.

Lemma hash_keys_sublist keys : forall i, (hash_keys i keys).*1 `sublist_of` keys.*1.
Proof.
  induction keys as [|[k av] keys IH]; intros i; cbn [hash_keys fmap list_fmap fst]; [done|].
  destruct (has_flag _ av); cbn; by constructor.
Qed.

Lemma hash_keys_find keys t k n av :
  NoDup keys.*1 -> ngx_hash_init (hash_keys 0 keys) = Some t ->
  keys !! n = Some (k, av) -> has_flag NGX_NSOC_VAR_NOHASH av = false ->
  ngx_hash_find t (ngx_hash_key k) k = Some n.
Proof.
  intros Hnd Ht Hn Hf. apply (hash_find_init (hash_keys 0 keys) t); [|done|].
  - eapply sublist_NoDup; [exact Hnd|apply hash_keys_sublist].
  - apply hash_keys_elem. by exists n, av.
Qed.

(** What the configuration promises before the end: distinct names without NUL bytes on
    both sides, and prefix variables with handlers. *)
Record conf_ok (c : vconf H T W) (keys : list (list Z * variable H)) : Prop := {
  co_keys : variables_keys c = Some keys;
  co_keys_nodup : NoDup keys.*1;
  co_names_nodup : NoDup (v_name <$> indexed c);
  co_names_plain : Forall plain_name (v_name <$> indexed c);
  co_prefixes : prefixes_ok (prefix_variables c);
}.

Lemma init_vars_inv c keys c' :
  conf_ok c keys -> ngx_nsoc_variables_init_vars c = Done (NGX_OK, c') ->
  exists vs' keys' t,
    init_vars_loop (prefix_variables c) keys 0 (indexed c) = (true, vs', keys') /\
    indexed c' = vs' /\ named_variables c' = keys'.*2 /\ variables_hash c' = Some t /\
    ngx_hash_init (hash_keys 0 keys') = Some t.
Proof.
  intros Hok. unfold ngx_nsoc_variables_init_vars, mbind, M_bind, gets. cbn.
  rewrite (co_keys _ _ Hok). cbn. fold (indexed c).
  destruct (init_vars_loop _ keys 0 (indexed c)) as [[ok vs'] keys'] eqn:Hl. cbn.
  destruct ok; cbn; [|done]. destruct (ngx_hash_init _) as [t|] eqn:Ht; cbn; [|done].
  unfold mret, M_ret. intros [= <-]. exists vs', keys', t. split_and!; try done.
  unfold indexed in *. cbn. destruct (variables c) as [vs|]; cbn in *; [done|by simplify_eq].
Qed.

(** C30: After [ngx_nsoc_variables_init_vars] succeeds every indexed variable has a
    handler, so that evaluation never calls NULL, and the two ways to a variable agree:
    a name of the hash leads to its own variable, whose flag says whether it is
    indexed, and then its [index] is the place of the indexed variable of that name,
    with the handler and data of the name unless the name is weak. *)
Theorem init_vars_joins c keys c'
    (Hok : conf_ok c keys)
    (Hrun : ngx_nsoc_variables_init_vars c = Done (NGX_OK, c')) :
  Forall (fun v => get_handler v <> None) (indexed c') /\
  v_name <$> indexed c' = v_name <$> indexed c /\
  forall n k av, keys !! n = Some (k, av) -> has_flag NGX_NSOC_VAR_INDEXED av = false ->
    has_flag NGX_NSOC_VAR_NOHASH av = false ->
    exists t av', variables_hash c' = Some t /\ ngx_hash_find t (ngx_hash_key k) k = Some n /\
      named_variables c' !! n = Some av' /\ get_handler av' = get_handler av /\ v_data av' = v_data av /\
      if has_flag NGX_NSOC_VAR_INDEXED av'
      then exists v, indexed c' !! Z.to_nat (index av') = Some v /\ v_name v = k /\
             (strong av -> get_handler v = get_handler av /\ v_data v = v_data av)
      else (k ∉ v_name <$> indexed c).
Proof.
  destruct (init_vars_inv _ _ _ Hok Hrun) as (vs' & keys' & t & Hl & -> & Hnamed & Hhash & Ht).
  destruct (init_vars_loop_spec (prefix_variables c) (co_prefixes _ _ Hok) (indexed c) keys 0 vs' keys'
    (co_names_plain _ _ Hok) (co_names_nodup _ _ Hok) (co_keys_nodup _ _ Hok) Hl)
    as (Hnames & Hhandlers & Hkeys & Hall).
  split_and!; [done|done|]. intros n k av Hn Hix Hnh.
  assert (Hnd : NoDup keys'.*1) by (rewrite Hkeys; apply (co_keys_nodup _ _ Hok)).
  rewrite Hnamed. destruct (Hall n k av Hn) as [[Hnot Hn']|(j & v & Hj & Hv & Hn' & Hs)].
  - exists t, av. split_and!; try done; [by eapply hash_keys_find|by rewrite list_lookup_fmap, Hn'|].
    by rewrite Hix.
  - exists t, (marked j av). split_and!; try done.
    + eapply hash_keys_find; [done|done|exact Hn'|by rewrite marked_nohash].
    + by rewrite list_lookup_fmap, Hn'.
    + rewrite marked_indexed. exists v. cbn. by rewrite Nat2Z.id.
Qed.
End Joined.

(** ** Evaluation caches

    A settled slot answers without its handler.  Handlers are lawful when they return,
    leave settled slots, the captures and the depth as they are, settle their own slot
    when they answer NGX_OK, and give no value longer than the 28 bits of its length. *)

Definition settled (v : var_value) : bool := not_found v || valid v.

Record keeps_settled {W} (s s' : vsess W) : Prop := {
  ks_length : length (slots s') = length (slots s);
  ks_depth : depth s' = depth s;
  ks_captures : captures s' = captures s /\ ncaptures s' = ncaptures s /\ captures_data s' = captures_data s;
  ks_slots j v : slots s !! j = Some v -> settled v = true -> slots s' !! j = Some v;
}.

#[global] Instance keeps_settled_preorder W : PreOrder (@keeps_settled W).
Proof.
  split.
  - intros s. by split.
  - intros s1 s2 s3 [L1 D1 (C1 & C1' & C1'') K1] [L2 D2 (C2 & C2' & C2'') K2].
    split; [congruence|congruence|split_and!; congruence|]. eauto.
Qed.

Lemma env_keeps {W} (s : vsess W) w : keeps_settled s (s <| vs_env := w |>).
Proof. by split. Qed.

Definition values_ok {W} (s : vsess W) : Prop := Forall (fun v => zlen (vv_data v) < 2 ^ 28) (slots s).

Definition lawful_handler {H W} (call : H -> vref -> vdata -> M (vsess W) Z) (h : H) : Prop :=
  forall i d s v, slots s !! i = Some v -> settled v = false -> values_ok s ->
    wp (call h (Slot i) d) (fun rc s' => keeps_settled s s' /\ values_ok s' /\
      (rc = NGX_OK -> exists v', slots s' !! i = Some v' /\ settled v' = true)) s.

Section Caching.
Context {H T W : Type}.
Context (cmcf : vconf H T W) (call : H -> vref -> vdata -> M (vsess W) Z).
Implicit Types (s : vsess W).

(** The session and the configuration fit: a slot for every indexed variable, each of
    which has a lawful handler, and evaluation is not too deep. *)
Record eval_ok (s : vsess W) : Prop := {
  eo_slots : length (slots s) = length (indexed cmcf);
  eo_depth : 0 < depth s < 2 ^ 64;
  eo_values : values_ok s;
  eo_handlers v : v ∈ indexed cmcf -> exists h, get_handler v = Some h /\ lawful_handler call h;
}.

Lemma keeps_update s i v f :
  slots s !! i = Some v -> settled v = false ->
  keeps_settled s (s <| slots := <[i := f v]> (slots s) |>).
Proof.
  intros Hi Hv. split; try done; cbn; [by rewrite length_insert|].
  intros j v' Hj Hs. rewrite list_lookup_insert_ne; [done|]. intros ->. congruence.
Qed.

Lemma eval_ok_keeps s s' : eval_ok s -> keeps_settled s s' -> values_ok s' -> eval_ok s'.
Proof. intros [L D V Hh] K V'. split; [by rewrite (ks_length _ _ K)|by rewrite (ks_depth _ _ K)|done|done]. Qed.

Lemma get_indexed_settled i s v :
  eval_ok s -> slots s !! i = Some v -> settled v = true ->
  ngx_nsoc_get_indexed_variable cmcf call i s = Done (Some (Slot i), s).
Proof.
  intros Hok Hi Hs. unfold ngx_nsoc_get_indexed_variable, nelts. fold (indexed cmcf).
  apply lookup_lt_Some in Hi as Hlt. rewrite (eo_slots _ Hok) in Hlt.
  destruct (Z.leb_spec (zlen (indexed cmcf)) (Z.of_nat i)); [unfold zlen in *; lia|].
  unfold slot, mbind, M_bind, gets. cbn. rewrite Hi. cbn. unfold settled in Hs. by rewrite Hs.
Qed.

(** The answer of an evaluation: the settled slot, or NULL when it is not found. *)
Definition evaluated (i : nat) (s : vsess W) (r : option vref) (s' : vsess W) : Prop :=
  keeps_settled s s' /\ eval_ok s' /\
  exists v, slots s' !! i = Some v /\ settled v = true /\
    (r = Some (Slot i) \/ r = None /\ not_found v = true).

Lemma wp_on_slot i f s v (Q : unit -> vsess W -> Prop) :
  slots s !! i = Some v -> Q tt (s <| slots := <[i := f v]> (slots s) |>) ->
  wp (on_slot i f) Q s.
Proof.
  intros Hi HQ. unfold on_slot, slot, wp, mbind, M_bind, gets. cbn. by rewrite Hi.
Qed.

Lemma settled_flag v : settled (v <| no_cacheable := true |>) = settled v.
Proof. done. Qed.

Lemma wp_call_handler s i v d h (Q : Z -> vsess W -> Prop) :
  eval_ok s -> slots s !! i = Some v -> settled v = false -> lawful_handler call h ->
  (forall rc s', keeps_settled s s' -> values_ok s' ->
     (rc = NGX_OK -> exists v', slots s' !! i = Some v' /\ settled v' = true) -> Q rc s') ->
  wp (call_handler call (Some h) (Slot i) d) Q s.
Proof.
  intros Hok Hi Hs Hlaw HQ. unfold call_handler. cbn [mderef].
  wp_step. wp_step. wp_step. wp_step. wp_step.
  set (s1 := s <| depth := u64 (depth s - 1) |>).
  eapply wp_mono; [apply (Hlaw i d s1 v Hi Hs), (eo_values _ Hok)|].
  intros rc s2 (K & V & Hrc). wp_step. wp_step. wp_step. apply HQ; [|done|done].
  destruct K as [L D C K]. split; [done| |done|done]. cbn. rewrite D. cbn.
  pose proof (eo_depth _ Hok). unfold u64. rewrite (Z.mod_small (depth s - 1)) by lia.
  rewrite Z.mod_small by lia. lia.
Qed.

Lemma values_ok_update s i v f :
  values_ok s -> slots s !! i = Some v -> vv_data (f v) = vv_data v ->
  values_ok (s <| slots := <[i := f v]> (slots s) |>).
Proof.
  intros Hv Hi Hf. unfold values_ok. cbn. apply Forall_insert; [done|]. rewrite Hf.
  exact (Forall_lookup_1 _ _ _ _ Hv Hi).
Qed.

Lemma settle_slot s s' i v v' f r :
  eval_ok s -> slots s !! i = Some v -> settled v = false -> keeps_settled s s' -> values_ok s' ->
  slots s' !! i = Some v' -> vv_data (f v') = vv_data v' -> settled (f v') = true ->
  (r = Some (Slot i) \/ r = None /\ not_found (f v') = true) ->
  evaluated i s r (s' <| slots := <[i := f v']> (slots s') |>).
Proof.
  intros Hok Hv Hs K V Hv' Hf Hsf Hr.
  assert (K' : keeps_settled s (s' <| slots := <[i := f v']> (slots s') |>)).
  { destruct K as [L D C K]. split; [cbn; by rewrite length_insert|done|done|]. cbn. intros j y Hj Hy.
    rewrite list_lookup_insert_ne; [by apply K|]. intros ->. congruence. }
  split_and!; [done|eapply eval_ok_keeps; [done|done|by apply values_ok_update]|].
  exists (f v'). cbn. split_and!; [|done|done]. apply list_lookup_insert_eq. by eapply lookup_lt_Some.
Qed.

Lemma get_indexed_evaluates i s :
  eval_ok s -> (i < length (indexed cmcf))%nat ->
  wp (ngx_nsoc_get_indexed_variable cmcf call i) (evaluated i s) s.
Proof.
  intros Hok Hi. destruct (lookup_lt_is_Some_2 (slots s) i) as [v Hv]; [by rewrite (eo_slots _ Hok)|].
  destruct (settled v) eqn:Hs.
  { eapply done_wp; [by eapply get_indexed_settled|]. split_and!; [done|done|].
    exists v. split_and!; [done|done|by left]. }
  destruct (lookup_lt_is_Some_2 _ _ Hi) as [x Hx].
  destruct (eo_handlers _ Hok x) as (h & Hh & Hlaw); [by eapply list_elem_of_lookup_2|].
  unfold ngx_nsoc_get_indexed_variable, nelts. fold (indexed cmcf).
  destruct (Z.leb_spec (zlen (indexed cmcf)) (Z.of_nat i)); [unfold zlen in *; lia|].
  wp_step. apply wp_bind. wp_step. eapply wp_mderef; [done|]. change (not_found v || valid v) with (settled v).
  rewrite Hs. wp_step. wp_step. destruct (Z.eqb_spec (depth s) 0); [pose proof (eo_depth _ Hok); lia|].
  wp_step. eapply wp_mderef; [done|]. rewrite Hh. wp_step. eapply wp_call_handler; [done..|].
  intros rc s' K V Hrc. destruct (Z.eqb_spec rc NGX_OK) as [->|_].
  - destruct Hrc as (v' & Hv' & Hs'); [done|]. wp_step. destruct (has_flag _ x).
    + eapply wp_on_slot; [done|]. wp_step.
      apply (settle_slot s s' i v v' (fun y => y <| no_cacheable := true |>)); try done. by left.
    + wp_step. wp_step. split_and!; [done|by eapply eval_ok_keeps|]. exists v'. split_and!; [done|done|by left].
  - destruct (lookup_lt_is_Some_2 (slots s') i) as [v' Hv'].
    { rewrite (ks_length _ _ K). by eapply lookup_lt_Some. }
    wp_step. eapply wp_on_slot; [done|]. wp_step.
    apply (settle_slot s s' i v v' (fun y => y <| valid := false |> <| not_found := true |>)); try done.
    by right.
Qed.
End Caching.

(** ** Concrete runs *)

Definition lower (ch : Z) : Z := if (65 <=? ch) && (ch <=? 90) then ch + 32 else ch.

Definition ascii_str : NgxStr := {|
  ngx_strlow := map lower;
  ngx_strncasecmp x y := bool_decide (map lower x = map lower y);
|}.

Lemma lower_idem ch : lower (lower ch) = lower ch.
Proof.
  unfold lower. destruct (Z.leb_spec 65 ch), (Z.leb_spec ch 90); cbn [andb];
    destruct (Z.leb_spec 65 (ch + 32)), (Z.leb_spec (ch + 32) 90); cbn [andb];
    destruct (Z.leb_spec 65 ch), (Z.leb_spec ch 90); cbn [andb]; lia.
Qed.

Lemma ascii_str_laws : @NgxStrLaws ascii_str.
Proof.
  split; cbn.
  - intros x. apply length_map.
  - intros x. rewrite map_map. apply map_ext, lower_idem.
  - intros x y _. apply bool_decide_eq_true.
Qed.

(** A hash table that is a list. *)
Definition list_hash : NgxHash (list (list Z * nat)) := {|
  ngx_hash_add_key ks name := if bool_decide (name ∈ ks) then NGX_BUSY else NGX_OK;
  ngx_hash_init l := Some l;
  ngx_hash_key _ := 0;
  ngx_hash_find t _ name := (fun x => x.2.2) <$> list_find (fun kv => kv.1 = name) t;
|}.

Lemma list_hash_laws : @NgxHashLaws _ list_hash.
Proof.
  split; cbn.
  - intros l t name n Hnd [= <-]. split.
    + intros Hf. apply fmap_Some in Hf as ([i [k m]] & Hf & ->).
      apply list_find_Some in Hf as (Hi & Hk & _). cbn in *. subst k. by eapply list_elem_of_lookup_2.
    + intros [i Hi]%list_elem_of_lookup_1.
      destruct (list_find (fun kv : list Z * nat => kv.1 = name) l) as [[j [k m]]|] eqn:Hf.
      * apply list_find_Some in Hf as (Hj & Hk & _). cbn in Hk. subst k.
        assert (j = i) as ->.
        { eapply NoDup_lookup; [exact Hnd| |]; rewrite list_lookup_fmap; [by rewrite Hj|by rewrite Hi]. }
        cbn. congruence.
      * apply list_find_None in Hf. rewrite list.Forall_forall in Hf. exfalso.
        apply (Hf (name, n)); [|done]. by eapply list_elem_of_lookup_2.
  - intros ks name. by case_bool_decide.
Qed.

(** A handler that knows its value. *)
Definition const_call {W} (h : list Z) (r : vref) (d : vdata) : M (vsess W) Z :=
  match r with
  | Slot i => on_slot i (fun v => VarValue true (no_cacheable v) false h);; mret NGX_OK
  | Temp _ => mret NGX_ERROR
  end.

Lemma const_call_lawful {W} (h : list Z) : zlen h < 2 ^ 28 -> lawful_handler (@const_call W) h.
Proof.
  intros Hh i d s v Hi Hs Hv. unfold const_call. apply wp_bind. eapply wp_on_slot; [exact Hi|]. apply wp_ret.
  split_and!.
  - by apply (keeps_update s i v (fun v => VarValue true (no_cacheable v) false h)).
  - unfold values_ok. cbn. by apply Forall_insert.
  - intros _. eexists. cbn. rewrite list_lookup_insert_eq by (by eapply lookup_lt_Some). done.
Qed.

Definition demo_uninit : variable (list Z) := Var [] None (DInt 0) 0 0.
Definition demo_keys : list (list Z * variable (list Z)) :=
  [([97], Var [97] (Some [120; 121]) (DInt 7) 0 0); ([98], Var [98] (Some [122]) (DInt 0) NGX_NSOC_VAR_NOCACHEABLE 0)].
Definition demo_vconf : vconf (list Z) (list (list Z * nat)) unit :=
  VConf None (Some demo_keys) [] [] None tt.
Definition demo_indexed : vconf (list Z) (list (list Z * nat)) unit :=
  demo_vconf <| variables := Some [Var [97] None (DInt 0) 0 0] |>.

Lemma demo_vconf_ok : @indexed_ok _ ascii_str (indexed demo_vconf).
Proof. exact (@indexed_ok_nil _ ascii_str). Qed.

Lemma get_variable_index_correct_witness :
  @wp _ _ (@ngx_nsoc_get_variable_index _ _ _ ascii_str plentiful demo_uninit [65])
    (fun r c' => r = NGX_ERROR /\ ([65] = [] \/ @out_of_memory unit plentiful) \/
       exists i v, r = Z.of_nat i /\ indexed c' !! i = Some v /\ v_name v = @ngx_strlow ascii_str [65] /\
         indexed demo_vconf `prefix_of` indexed c' /\ @indexed_ok _ ascii_str (indexed c')) demo_vconf.
Proof.
  exact (@get_variable_index_correct _ _ _ ascii_str ascii_str_laws plentiful demo_uninit [65] demo_vconf demo_vconf_ok).
Defined.

Lemma demo_conf_ok : conf_ok demo_indexed demo_keys.
Proof.
  split; [done| |apply NoDup_singleton| |constructor].
  - by apply (bool_decide_unpack _).
  - by apply (bool_decide_unpack (Forall (fun name : list Z => 0 ∉ name) [[97]])).
Qed.

Definition demo_joined : vconf (list Z) (list (list Z * nat)) unit :=
  match @ngx_nsoc_variables_init_vars _ _ unit list_hash demo_indexed with
  | Done (_, c) => c
  | _ => demo_indexed
  end.

Lemma demo_joined_run :
  @ngx_nsoc_variables_init_vars _ _ unit list_hash demo_indexed = Done (NGX_OK, demo_joined).
Proof. vm_compute. done. Qed.

Lemma init_vars_joins_witness :
  Forall (fun v => get_handler v <> None) (indexed demo_joined) /\
  v_name <$> indexed demo_joined = [[97]].
Proof.
  split.
  - exact (proj1 (@init_vars_joins _ _ _ list_hash list_hash_laws demo_indexed demo_keys demo_joined
      demo_conf_ok demo_joined_run)).
  - exact (proj1 (proj2 (@init_vars_joins _ _ _ list_hash list_hash_laws demo_indexed demo_keys demo_joined
      demo_conf_ok demo_joined_run))).
Defined.
