(* ===== verification/CoreVars.v ===== *)
(** * The core variables: the handlers of ngx_nsoc_variables.c

    The table [ngx_nsoc_core_variables] and its get handlers, the lookup of a value by
    regular expression ([ngx_nsoc_map_find]) and what a match does to the session
    ([ngx_nsoc_regex_exec]).

    A handler formats a number with [ngx_sprintf] into memory of the pool, or points at
    bytes the session has.  [NgxFormat] is that formatting and [NgxSess] what a session, its
    connection and the process hold; both belong to nginx core. *)

From stdpp Require Import prelude list numbers strings.
From S2P Require Import Prelude Variables.

(** The formats the handlers use: [%ui], [%03ui], [%O], [%T.%03M], [%uA], [%P]. *)
Class NgxFormat := {
  fmt_ui : Z -> list Z;
  fmt_03ui : Z -> list Z;
  fmt_O : Z -> list Z;
  fmt_T_03M : Z -> Z -> list Z;
  fmt_uA : Z -> list Z;
  fmt_P : Z -> list Z;
}.

Inductive sa_kind := SaInet6 | SaOther.

(** What the handlers read.  [in6_addr] and [in_addr] are the address bytes of the
    client's [sockaddr] seen as either kind; the local address is asked of the system. *)
Class NgxSess (W : Type) := {
  sa_kind_of : W -> sa_kind;
  in6_addr : W -> list Z;
  in_addr4 : W -> list Z;
  inet_port : W -> Z;
  addr_text : W -> list Z;
  proxy_protocol_addr : W -> list Z;
  proxy_protocol_port : W -> Z;
  local_sockaddr : W -> option (list Z) * W;
  local_port : W -> Z;
  s_received : W -> Z;
  c_sent : W -> Z;
  s_start_sec : W -> Z;
  s_start_msec : W -> Z;
  s_status : W -> Z;
  c_number : W -> Z;
  c_dgram : W -> bool;
  tp_sec : W -> Z;
  tp_msec : W -> Z;
  NGINX_VERSION : list Z;
  cycle_hostname : W -> list Z;
  process_id : W -> Z;
  cached_iso8601 : W -> list Z;
  cached_log_time : W -> list Z;
}.

(** [ngx_nsoc_regex_t]: the pairs are the fields [capture] and [index] of its variables. *)
Record regex (R : Type) := Regex {
  re_regex : R;
  re_ncaptures : Z;
  re_variables : list (Z * Z);
  re_name : list Z;
}.
Arguments Regex {R}. Arguments re_regex {R}. Arguments re_ncaptures {R}.
Arguments re_variables {R}. Arguments re_name {R}.

Section CoreVars.
Context {W : Type} `{!NgxPool W} `{!NgxFormat} `{!NgxSess W}.

Abbreviation VM := (M (vsess W)).

(** ** Handlers *)

Definition env {A} (f : W -> A) : VM A := gets (fun s => f (vs_env s)).

(** The stores through [v]. *)
Definition set_value (v : vref) (f : var_value -> var_value) : VM unit :=
  match v with
  | Slot n => on_slot n f
  | Temp n => x ← gets (fun s => temps s !! n);
              x ← mderef x;
              modify (fun s => s <| temps := <[n := f x]> (temps s) |>)
  end.

(** [v->len], [v->data], [valid = 1], [no_cacheable = 0], [not_found = 0]. *)
Definition give (v : vref) (bs : list Z) : VM Z :=
  set_value v (fun _ => VarValue true false false bs);; mret NGX_OK.

(** [v->len = 0] and the flags, before the data is known. *)
Definition give_empty (v : vref) : VM unit := set_value v (fun _ => VarValue true false false []).

(** [ngx_pnalloc] of the pool of the connection. *)
Definition sess_alloc : VM bool :=
  w ← gets vs_env;
  let '(ok, w) := pool_object w in
  modify (fun s => s <| vs_env := w |>);; mret ok.

Definition ngx_nsoc_variable_binary_remote_addr (v : vref) : VM Z :=
  k ← env sa_kind_of;
  match k with
  | SaInet6 => a ← env in6_addr; give v a
  | SaOther => a ← env in_addr4; give v a
  end.

Definition ngx_nsoc_variable_remote_addr (v : vref) : VM Z := a ← env addr_text; give v a.

(** A port as text; 0 and what does not fit sixteen bits is empty. *)
Definition port_text (port : Z) : list Z :=
  if (0 <? port) && (port <? 65536) then fmt_ui port else [].

Definition ngx_nsoc_variable_remote_port (v : vref) : VM Z :=
  give_empty v;;
  ok ← sess_alloc;
  if negb ok then mret NGX_ERROR else
  port ← env inet_port;
  set_value v (fun x => x <| vv_data := port_text port |>);; mret NGX_OK.

Definition ngx_nsoc_variable_proxy_protocol_addr (v : vref) : VM Z :=
  a ← env proxy_protocol_addr; give v a.

Definition ngx_nsoc_variable_proxy_protocol_port (v : vref) : VM Z :=
  give_empty v;;
  ok ← sess_alloc;
  if negb ok then mret NGX_ERROR else
  port ← env proxy_protocol_port;
  set_value v (fun x => x <| vv_data := port_text port |>);; mret NGX_OK.

(** [ngx_connection_local_sockaddr]. *)
Definition ask_local : VM (option (list Z)) :=
  w ← gets vs_env;
  let '(a, w) := local_sockaddr w in
  modify (fun s => s <| vs_env := w |>);; mret a.

Definition ngx_nsoc_variable_server_addr (v : vref) : VM Z :=
  a ← ask_local;
  match a with
  | None => mret NGX_ERROR
  | Some a =>
      ok ← sess_alloc;
      if negb ok then mret NGX_ERROR else give v a
  end.

Definition ngx_nsoc_variable_server_port (v : vref) : VM Z :=
  give_empty v;;
  a ← ask_local;
  match a with
  | None => mret NGX_ERROR
  | Some _ =>
      ok ← sess_alloc;
      if negb ok then mret NGX_ERROR else
      port ← env local_port;
      set_value v (fun x => x <| vv_data := port_text port |>);; mret NGX_OK
  end.

Definition ngx_nsoc_variable_bytes (v : vref) (data : vdata) : VM Z :=
  ok ← sess_alloc;
  if negb ok then mret NGX_ERROR else
  r ← env s_received;
  t ← env c_sent;
  give v (match data with DInt 1 => fmt_O r | _ => fmt_O t end).

(** [(time_t) ms / 1000, ms % 1000] of the time since the session began. *)
Definition ngx_nsoc_variable_session_time (v : vref) : VM Z :=
  ok ← sess_alloc;
  if negb ok then mret NGX_ERROR else
  sec ← env tp_sec;
  msec ← env tp_msec;
  s0 ← env s_start_sec;
  m0 ← env s_start_msec;
  let ms := Z.max ((sec - s0) * 1000 + (msec - m0)) 0 in
  give v (fmt_T_03M (ms / 1000) (ms mod 1000)).

Definition ngx_nsoc_variable_status (v : vref) : VM Z :=
  ok ← sess_alloc;
  if negb ok then mret NGX_ERROR else
  st ← env s_status;
  give v (fmt_03ui st).

Definition ngx_nsoc_variable_connection (v : vref) : VM Z :=
  ok ← sess_alloc;
  if negb ok then mret NGX_ERROR else
  n ← env c_number;
  give v (fmt_uA n).

Definition ngx_nsoc_variable_nginx_version (v : vref) : VM Z := give v NGINX_VERSION.

Definition ngx_nsoc_variable_hostname (v : vref) : VM Z := h ← env cycle_hostname; give v h.

Definition ngx_nsoc_variable_pid (v : vref) : VM Z :=
  ok ← sess_alloc;
  if negb ok then mret NGX_ERROR else
  p ← env process_id;
  give v (fmt_P p).

Definition ngx_nsoc_variable_msec (v : vref) : VM Z :=
  ok ← sess_alloc;
  if negb ok then mret NGX_ERROR else
  sec ← env tp_sec;
  msec ← env tp_msec;
  give v (fmt_T_03M sec msec).

Definition ngx_nsoc_variable_time_iso8601 (v : vref) : VM Z :=
  ok ← sess_alloc;
  if negb ok then mret NGX_ERROR else
  t ← env cached_iso8601;
  give v t.

Definition ngx_nsoc_variable_time_local (v : vref) : VM Z :=
  ok ← sess_alloc;
  if negb ok then mret NGX_ERROR else
  t ← env cached_log_time;
  give v t.

(** [UDP] and [TCP]. *)
Definition ngx_nsoc_variable_protocol (v : vref) : VM Z :=
  d ← env c_dgram;
  give v (if (d : bool) then [85; 68; 80] else [84; 67; 80]).

(** The handler of the variables of a regular expression. *)
Definition ngx_nsoc_variable_not_found (v : vref) : VM Z :=
  set_value v (fun x => x <| not_found := true |>);; mret NGX_OK.

(** ** The table *)

(** The get handlers of this file, by name. *)
Inductive core_handler :=
| binary_remote_addr | remote_addr | remote_port | proxy_protocol_addr_h | proxy_protocol_port_h
| server_addr | server_port | bytes | session_time | status | connection_h | nginx_version
| hostname | pid | msec | time_iso8601 | time_local | protocol | not_found_h.

Definition core_call (h : core_handler) (v : vref) (data : vdata) : VM Z :=
  match h with
  | binary_remote_addr => ngx_nsoc_variable_binary_remote_addr v
  | remote_addr => ngx_nsoc_variable_remote_addr v
  | remote_port => ngx_nsoc_variable_remote_port v
  | proxy_protocol_addr_h => ngx_nsoc_variable_proxy_protocol_addr v
  | proxy_protocol_port_h => ngx_nsoc_variable_proxy_protocol_port v
  | server_addr => ngx_nsoc_variable_server_addr v
  | server_port => ngx_nsoc_variable_server_port v
  | bytes => ngx_nsoc_variable_bytes v data
  | session_time => ngx_nsoc_variable_session_time v
  | status => ngx_nsoc_variable_status v
  | connection_h => ngx_nsoc_variable_connection v
  | nginx_version => ngx_nsoc_variable_nginx_version v
  | hostname => ngx_nsoc_variable_hostname v
  | pid => ngx_nsoc_variable_pid v
  | msec => ngx_nsoc_variable_msec v
  | time_iso8601 => ngx_nsoc_variable_time_iso8601 v
  | time_local => ngx_nsoc_variable_time_local v
  | protocol => ngx_nsoc_variable_protocol v
  | not_found_h => ngx_nsoc_variable_not_found v
  end.

(** Names as byte strings. *)
Definition name_of (s : string) : list Z :=
  (fun a => Z.of_N (Ascii.N_of_ascii a)) <$> String.list_ascii_of_string s.

Definition core_var (s : string) (h : core_handler) (data fl : Z) : variable core_handler :=
  Var (name_of s) (Some h) (DInt data) fl 0.

Definition ngx_nsoc_core_variables : list (variable core_handler) := [
  core_var "binary_remote_addr" binary_remote_addr 0 0;
  core_var "remote_addr" remote_addr 0 0;
  core_var "remote_port" remote_port 0 0;
  core_var "proxy_protocol_addr" proxy_protocol_addr_h 0 0;
  core_var "proxy_protocol_port" proxy_protocol_port_h 0 0;
  core_var "server_addr" server_addr 0 0;
  core_var "server_port" server_port 0 0;
  core_var "bytes_sent" bytes 0 0;
  core_var "bytes_received" bytes 1 0;
  core_var "session_time" session_time 0 NGX_NSOC_VAR_NOCACHEABLE;
  core_var "status" status 0 NGX_NSOC_VAR_NOCACHEABLE;
  core_var "connection" connection_h 0 0;
  core_var "nginx_version" nginx_version 0 0;
  core_var "hostname" hostname 0 0;
  core_var "pid" pid 0 0;
  core_var "msec" msec 0 NGX_NSOC_VAR_NOCACHEABLE;
  core_var "time_iso8601" time_iso8601 0 NGX_NSOC_VAR_NOCACHEABLE;
  core_var "time_local" time_local 0 NGX_NSOC_VAR_NOCACHEABLE;
  core_var "protocol" protocol 0 0].

(** ** Regular expressions *)

Context {R : Type}.
(** [ngx_regex_exec]: the code and the captures array after it. *)
Context (ngx_regex_exec : R -> list Z -> list Z -> Z -> Z * list Z).
(** [ngx_palloc] of the captures, which are not initialised. *)
Context (uninit_captures : Z -> list Z).

Definition NGX_REGEX_NO_MATCHED : Z := -1.

(** The bytes of a named capture; an unset one is empty. *)
Definition capture_text (caps str : list Z) (n : Z) : option (list Z) :=
  x ← caps !! Z.to_nat n;
  y ← caps !! Z.to_nat (n + 1);
  if y - x =? 0 then Some [] else load x (y - x) str.

Fixpoint set_captures (str : list Z) (vars : list (Z * Z)) : VM unit :=
  match vars with
  | [] => mret tt
  | (n, index) :: vars =>
      caps ← gets captures;
      bs ← mderef (capture_text caps str n);
      on_slot (Z.to_nat index) (fun _ => VarValue true false false bs);;
      set_captures str vars
  end.

(** [max_captures] is [cmcf->ncaptures]; no captures array yet is the empty list. *)
Definition ngx_nsoc_regex_exec (max_captures : Z) (re : regex R) (str : list Z) : VM Z :=
  caps ← gets captures;
  failed ←
    (if negb (re_ncaptures re =? 0) && (length caps =? 0)%nat then
       ok ← sess_alloc;
       if negb ok then mret true
       else modify (fun s => s <| captures := uninit_captures max_captures |>);; mret false
     else mret false);
  if (failed : bool) then mret NGX_ERROR else
  let len := if re_ncaptures re =? 0 then 0 else max_captures in
  caps ← gets captures;
  let '(rc, caps) := ngx_regex_exec (re_regex re) str caps len in
  modify (fun s => s <| captures := caps |>);;
  if rc =? NGX_REGEX_NO_MATCHED then mret NGX_DECLINED
  else if rc <? 0 then mret NGX_ERROR
  else
    set_captures str (re_variables re);;
    modify (fun s => s <| ncaptures := rc * 2 |> <| captures_data := str |>);;
    mret NGX_OK.

(** [ngx_nsoc_map_find]: the hash first, then the regular expressions in order.
    [ngx_hash_strlow] and the combined hash are nginx core's. *)
Fixpoint map_regex {V} (max_captures : Z) (regs : list (regex R * V)) (str : list Z) : VM (option V) :=
  match regs with
  | [] => mret None
  | (re, value) :: regs =>
      n ← ngx_nsoc_regex_exec max_captures re str;
      if n =? NGX_OK then mret (Some value)
      else if n =? NGX_DECLINED then map_regex max_captures regs str
      else mret None
  end.

Definition ngx_nsoc_map_find {V} (ngx_hash_find_combined : list Z -> option V) `{!NgxStr}
    (max_captures : Z) (regs : list (regex R * V)) (str : list Z) : VM (option V) :=
  ok ← (if (length str =? 0)%nat then mret true else sess_alloc);
  if negb ok then mret None else
  match ngx_hash_find_combined (ngx_strlow str) with
  | Some value => mret (Some value)
  | None => if (length str =? 0)%nat then mret None else map_regex max_captures regs str
  end.
End CoreVars.

(** *** Compiling a regular expression

    The named captures of a pattern become variables that are not found until a match
    sets them.  [ngx_regex_compile] answers with the compiled form, the number of
    captures and the table of names: two bytes of the capture's number and the name. *)

Record regex_table (R : Type) := RegexTable {
  rc_regex : R;
  rc_captures : Z;
  rc_pattern : list Z;
  rc_names : list (Z * Z * list Z);
}.
Arguments RegexTable {R}. Arguments rc_regex {R}. Arguments rc_captures {R}.
Arguments rc_pattern {R}. Arguments rc_names {R}.

(** The configuration and [cmcf->ncaptures]. *)
Record rconf (H T W : Type) := RConf { rf_conf : vconf H T W; rf_ncaptures : Z }.
Arguments RConf {H T W}. Arguments rf_conf {H T W}. Arguments rf_ncaptures {H T W}.
#[export] Instance rconf_eta H T W : Eta (rconf H T W) := fun c => RConf (rf_conf c) (rf_ncaptures c).

Section RegexCompile.
Context {H T W R : Type} `{!NgxStr} `{!NgxHash T} `{!NgxPool W}.
Context (uninit : variable H) (not_found_handler : H).

Abbreviation RM := (M (rconf H T W)).

Definition on_conf {A} (m : M (vconf H T W) A) : RM A := fun s =>
  match m (rf_conf s) with
  | Done (a, c) => Done (a, s <| rf_conf := c |>)
  | Undefined => Undefined
  | OutOfFuel => OutOfFuel
  end.

(** [v->get_handler = h] for the variable the pointer leads to. *)
Definition set_get_handler (p : vptr) (h : H) : M (vconf H T W) unit :=
  match p with
  | KeyVar i =>
      ks ← gets variables_keys;
      keys ← mderef ks;
      '(k, v) ← mderef (keys !! i);
      variables_keys ::=! Some (<[i := (k, v <| get_handler := Some h |>)]> keys)
  | PrefixVar i =>
      vs ← gets prefix_variables;
      v ← mderef (vs !! i);
      prefix_variables ::=! <[i := v <| get_handler := Some h |>]> vs
  end.

Fixpoint named_captures (names : list (Z * Z * list Z)) (done : list (Z * Z)) : RM (option (list (Z * Z))) :=
  match names with
  | [] => mret (Some done)
  | (p0, p1, name) :: names =>
      v ← on_conf (ngx_nsoc_add_variable uninit name NGX_NSOC_VAR_CHANGEABLE);
      match v with
      | None => mret None
      | Some v =>
          index ← on_conf (ngx_nsoc_get_variable_index uninit name);
          if index =? NGX_ERROR then mret None else
          on_conf (set_get_handler v not_found_handler);;
          named_captures names (done ++ [(2 * (Z.shiftl p0 8 + p1), index)])
      end
  end.

Definition ngx_nsoc_regex_compile (ngx_regex_compile : option (regex_table R)) : RM (option (regex R)) :=
  match ngx_regex_compile with
  | None => mret None
  | Some rc =>
      ok ← on_conf conf_alloc;
      if negb ok then mret None else
      n ← gets rf_ncaptures;
      rf_ncaptures ::=! Z.max n (rc_captures rc);;
      if (length (rc_names rc) =? 0)%nat
      then mret (Some (Regex (rc_regex rc) (rc_captures rc) [] (rc_pattern rc)))
      else
        ok ← on_conf conf_alloc;
        if negb ok then mret None else
        vars ← named_captures (rc_names rc) [];
        mret ((fun vars => Regex (rc_regex rc) (rc_captures rc) vars (rc_pattern rc)) <$> vars)
  end.
End RegexCompile.

(** ** The handlers are lawful *)

(** No string of the session and no formatted number is as long as 2{^28} bytes. *)
Class NgxSessSizes (W : Type) `{!NgxFormat} `{!NgxSess W} : Prop := {
  short_in6 (w : W) : zlen (in6_addr w) < 2 ^ 28;
  short_in4 (w : W) : zlen (in_addr4 w) < 2 ^ 28;
  short_addr_text (w : W) : zlen (addr_text w) < 2 ^ 28;
  short_proxy_addr (w : W) : zlen (proxy_protocol_addr w) < 2 ^ 28;
  short_local (w w' : W) a : local_sockaddr w = (Some a, w') -> zlen a < 2 ^ 28;
  short_version : zlen NGINX_VERSION < 2 ^ 28;
  short_hostname (w : W) : zlen (cycle_hostname w) < 2 ^ 28;
  short_iso8601 (w : W) : zlen (cached_iso8601 w) < 2 ^ 28;
  short_log_time (w : W) : zlen (cached_log_time w) < 2 ^ 28;
  short_ui n : zlen (fmt_ui n) < 2 ^ 28;
  short_03ui n : zlen (fmt_03ui n) < 2 ^ 28;
  short_O n : zlen (fmt_O n) < 2 ^ 28;
  short_T_03M n m : zlen (fmt_T_03M n m) < 2 ^ 28;
  short_uA n : zlen (fmt_uA n) < 2 ^ 28;
  short_P n : zlen (fmt_P n) < 2 ^ 28;
}.

Ltac short :=
  first [ apply short_in6 | apply short_in4 | apply short_addr_text | apply short_proxy_addr
        | apply short_version | apply short_hostname | apply short_iso8601 | apply short_log_time
        | apply short_ui | apply short_03ui | apply short_O | apply short_T_03M | apply short_uA
        | apply short_P | done ].

Section Lawful.
Context {W : Type} `{!NgxPool W} `{!NgxFormat} `{!NgxSess W} `{!NgxSessSizes W}.
Implicit Types (s : vsess W).

(** What a handler may have done to the session when its slot [i] was not settled. *)
Definition touched (i : nat) (s s' : vsess W) : Prop :=
  keeps_settled s s' /\ values_ok s' /\ is_Some (slots s' !! i).

(** The promise about the code of a handler. *)
Definition answers (i : nat) (s : vsess W) (rc : Z) (s' : vsess W) : Prop :=
  keeps_settled s s' /\ values_ok s' /\
  (rc = NGX_OK -> exists v, slots s' !! i = Some v /\ settled v = true).

Lemma touched_update i s s' f v :
  touched i s s' -> slots s !! i = Some v -> settled v = false ->
  (forall x, zlen (vv_data x) < 2 ^ 28 -> zlen (vv_data (f x)) < 2 ^ 28) ->
  wp (set_value (Slot i) f) (fun _ s2 => touched i s s2 /\
    forall x, slots s' !! i = Some x -> slots s2 !! i = Some (f x)) s'.
Proof.
  intros (K & V & [x Hx]) Hv Hs Hf. cbn [set_value]. eapply wp_on_slot; [exact Hx|].
  assert (Hi : (i < length (slots s'))%nat) by (by eapply lookup_lt_Some).
  unfold touched. split_and!.
  - destruct K as [L D C K]. split; [rewrite <- L; apply length_insert|done|done|]. cbn. intros j y Hj Hy.
    rewrite list_lookup_insert_ne; [by apply K|]. intros ->. congruence.
  - unfold values_ok. cbn. apply Forall_insert; [done|]. apply Hf. exact (Forall_lookup_1 _ _ _ _ V Hx).
  - cbn. by rewrite list_lookup_insert_eq.
  - intros y Hy. cbn. rewrite list_lookup_insert_eq by done. congruence.
Qed.

Lemma give_answers i s s' v bs :
  touched i s s' -> slots s !! i = Some v -> settled v = false -> zlen bs < 2 ^ 28 ->
  wp (give (Slot i) bs) (answers i s) s'.
Proof.
  intros Ht Hv Hs Hbs. unfold give. wp_step.
  eapply wp_mono; [by apply (touched_update i s s' _ v)|].
  intros [] s2 [(K & V & _) Hx]. wp_step. destruct Ht as (_ & _ & [x Hx']).
  split_and!; [done|done|]. intros _. exists (VarValue true false false bs). split; [by apply (Hx x)|done].
Qed.

Lemma alloc_touched i s s' (Q : bool -> vsess W -> Prop) :
  touched i s s' -> (forall ok s2, touched i s s2 -> slots s2 = slots s' -> Q ok s2) -> wp sess_alloc Q s'.
Proof.
  intros (K & V & Hi) HQ. unfold sess_alloc. wp_step. wp_step.
  destruct (pool_object (vs_env s')) as [ok w]. wp_step. wp_step. wp_step. apply HQ; [|done].
  split_and!; [|done|done]. by etrans; [exact K|apply env_keeps].
Qed.

Lemma local_touched i s s' (Q : option (list Z) -> vsess W -> Prop) :
  touched i s s' -> (forall a s2, touched i s s2 -> slots s2 = slots s' ->
    (forall x, a = Some x -> zlen x < 2 ^ 28) -> Q a s2) -> wp ask_local Q s'.
Proof.
  intros (K & V & Hi) HQ. unfold ask_local. wp_step. wp_step.
  destruct (local_sockaddr (vs_env s')) as [a w] eqn:Ha. wp_step. wp_step. wp_step. apply HQ; [|done|].
  - split_and!; [|done|done]. by etrans; [exact K|apply env_keeps].
  - intros x ->. by eapply short_local.
Qed.

Lemma refused i s s' : touched i s s' -> answers i s NGX_ERROR s'.
Proof. intros (K & V & _). by split_and!. Qed.

Lemma wp_env {A} (f : W -> A) (Q : A -> vsess W -> Prop) s : Q (f (vs_env s)) s -> wp (env f) Q s.
Proof. done. Qed.

(** The handlers that need memory before they answer. *)
Lemma alloc_give_answers i s s' (k : M (vsess W) Z) :
  touched i s s' ->
  (forall s2, touched i s s2 -> slots s2 = slots s' -> wp k (answers i s) s2) ->
  wp (ok ← sess_alloc; if negb ok then mret NGX_ERROR else k) (answers i s) s'.
Proof.
  intros Ht Hk. wp_step. eapply alloc_touched; [done|]. intros ok s2 Ht2 Hsl.
  destruct ok; cbn [negb]; [by apply Hk|]. wp_step. by apply refused.
Qed.

(** The port handlers: an empty value is there before the memory is. *)
Lemma port_answers i s s' v (f : W -> Z) :
  touched i s s' -> slots s !! i = Some v -> settled v = false ->
  (exists x, slots s' !! i = Some x /\ settled x = true) ->
  wp (ok ← sess_alloc;
      if negb ok then mret NGX_ERROR else
      port ← env f;
      set_value (Slot i) (fun x => x <| vv_data := port_text port |>);; mret NGX_OK) (answers i s) s'.
Proof.
  intros Ht Hv Hs (x & Hx & Hsx). eapply alloc_give_answers; [exact Ht|]. intros s2 Ht2 Hsl.
  wp_step. unfold env. wp_step. wp_step.
  eapply wp_mono; [apply (touched_update i s s2 _ v Ht2 Hv Hs)|].
  { intros y _. change (zlen (port_text (f (vs_env s2))) < 2 ^ 28). unfold port_text. destruct (_ && _); [apply short_ui|done]. }
  intros [] s3 [(K & V & _) Hx3]. wp_step. split_and!; [done|done|]. intros _.
  rewrite <- Hsl in Hx. eexists. split; [by apply (Hx3 x)|exact Hsx].
Qed.

Lemma give_empty_touched i s s' v (Q : unit -> vsess W -> Prop) :
  touched i s s' -> slots s !! i = Some v -> settled v = false ->
  (forall s2, touched i s s2 -> (exists x, slots s2 !! i = Some x /\ settled x = true) -> Q tt s2) ->
  wp (give_empty (Slot i)) Q s'.
Proof.
  intros Ht Hv Hs HQ. unfold give_empty. pose proof Ht as (_ & _ & [x Hx]).
  eapply wp_mono; [by apply (touched_update i s s' _ v)|].
  intros [] s2 [Ht2 Hx2]. apply HQ; [done|]. eexists. split; [by apply (Hx2 x)|done].
Qed.

(** C31: Every get handler of the core table keeps the contract that evaluation relies on:
    it returns, touches no settled value, no capture and not the depth counter, gives a
    value that fits the 28 bits of its length, and when it answers NGX_OK its value is
    settled, so the variable is computed once until it is flushed. *)
Theorem core_handlers_lawful (h : core_handler) : lawful_handler (core_call (W:=W)) h.
Proof.
  intros i d s v Hv Hs Hok.
  assert (Ht : touched i s s) by (split_and!; [done|done|by eexists]).
  change (wp (core_call h (Slot i) d) (answers i s) s).
  destruct h; cbv beta delta [core_call ngx_nsoc_variable_binary_remote_addr ngx_nsoc_variable_remote_addr
    ngx_nsoc_variable_remote_port ngx_nsoc_variable_proxy_protocol_addr ngx_nsoc_variable_proxy_protocol_port
    ngx_nsoc_variable_server_addr ngx_nsoc_variable_server_port ngx_nsoc_variable_bytes
    ngx_nsoc_variable_nginx_version ngx_nsoc_variable_hostname ngx_nsoc_variable_protocol
    ngx_nsoc_variable_not_found] iota.
  all: try (eapply alloc_give_answers; [exact Ht|]; intros s2 Ht2 _;
    repeat (wp_step; unfold env; wp_step); apply (give_answers i s s2 v); [done..|try short]).
  all: try (wp_step; apply wp_env; apply (give_answers i s s v); [done..|short]).
  all: try (apply (give_answers i s s v); [done..|short]).
  - wp_step. apply wp_env. destruct (sa_kind_of _); wp_step; apply wp_env;
      (apply (give_answers i s s v); [done..|short]).
  - wp_step. eapply give_empty_touched; [exact Ht|exact Hv|done|]. intros s2 Ht2 Hx. by apply (port_answers i s s2 v).
  - wp_step. eapply give_empty_touched; [exact Ht|exact Hv|done|]. intros s2 Ht2 Hx. by apply (port_answers i s s2 v).
  - wp_step. eapply local_touched; [exact Ht|]. intros [a|] s2 Ht2 _ Ha; [|wp_step; by apply refused].
    eapply alloc_give_answers; [exact Ht2|]. intros s3 Ht3 _. apply (give_answers i s s3 v); auto.
  - wp_step. eapply give_empty_touched; [exact Ht|exact Hv|done|]. intros s2 Ht2 Hx.
    wp_step. eapply local_touched; [exact Ht2|]. intros [a|] s3 Ht3 Hsl _; [|wp_step; by apply refused].
    apply (port_answers i s s3 v); [done..|by rewrite Hsl].
  - destruct d as [[|[]|]|]; short.
  - wp_step. apply wp_env. apply (give_answers i s s v); [done..|]. by destruct (c_dgram _).
  - wp_step. eapply wp_mono; [by apply (touched_update i s s _ v)|].
    intros [] s2 [(K & V & _) Hx]. wp_step. split_and!; [done|done|]. intros _.
    exists (v <| not_found := true |>). by split; [apply Hx|].
Qed.
End Lawful.

(** ** A concrete session *)

Definition demo_format : NgxFormat := {|
  fmt_ui := le64; fmt_03ui := le64; fmt_O := le64; fmt_T_03M s m := le64 s ++ le64 m;
  fmt_uA := le64; fmt_P := le64;
|}.

Definition demo_sess_data : NgxSess unit := {|
  sa_kind_of _ := SaOther; in6_addr _ := []; in_addr4 _ := [127; 0; 0; 1]; inet_port _ := 4000;
  addr_text _ := [49; 50; 55]; proxy_protocol_addr _ := []; proxy_protocol_port _ := 0;
  local_sockaddr _ := (Some [58; 58; 49], tt); local_port _ := 12345; s_received _ := 10; c_sent _ := 20;
  s_start_sec _ := 100; s_start_msec _ := 900; s_status _ := 200; c_number _ := 7; c_dgram _ := false;
  tp_sec _ := 102; tp_msec _ := 100; NGINX_VERSION := [49]; cycle_hostname _ := [104];
  process_id _ := 99; cached_iso8601 _ := [50]; cached_log_time _ := [51];
|}.

Lemma demo_sizes : @NgxSessSizes unit demo_format demo_sess_data.
Proof. split; cbn; try done. intros _ w' a Ha. injection Ha as <- _. done. Qed.

Lemma core_handlers_lawful_witness :
  @lawful_handler core_handler unit (@core_call unit plentiful demo_format demo_sess_data) session_time.
Proof. exact (@core_handlers_lawful unit plentiful demo_format demo_sess_data demo_sizes session_time). Defined.

(** One second and 200 milliseconds since the session began. *)
Example session_time_text :
  @core_call unit plentiful demo_format demo_sess_data session_time (Slot 0) (DInt 0)
    (VSess [fresh_value] [] 100 [] 0 [] tt)
  = Done (NGX_OK, VSess [VarValue true false false (le64 1 ++ le64 200)] [] 100 [] 0 [] tt).
Proof. vm_compute. reflexivity. Qed.
