(* ===== verification/Script.v ===== *)
(** * The script engine: ngx_nsoc_script.c

    A template such as [$host:1${port}] is compiled once into two byte arrays of code
    structs, one that computes the length of the value and one that writes it, and
    evaluated for a session by two passes over them.

    [codes] is such an array: its size in bytes and the structs at their offsets.  The
    instruction pointer is a byte offset, as in the code, so a theorem that evaluation is
    defined also says that every code moves the pointer to the next struct.
    [ngx_get_full_name] and the prefixes of the cycle belong to nginx core.  The build has
    PCRE, so captures are compiled. *)

From stdpp Require Import prelude list numbers gmap.
From S2P Require Import Prelude Variables.

(** ** Data: ngx_nsoc_script.h *)

Inductive code :=
| CopyLen (len : Z)
| Copy (len : Z) (data : list Z)
| CopyVarLen (index : Z)
| CopyVar (index : Z)
| CopyCaptureLen (n : Z)
| CopyCapture (n : Z)
| FullNameLen (conf_prefix : bool)
| FullName (conf_prefix : bool)
| ExitCode.

(** [sizeof] of the code structs and of [uintptr_t]. *)
Definition CODE_SIZE : Z := 16.
Definition PTR_SIZE : Z := 8.

(** [(n + sizeof(uintptr_t) - 1) & ~(sizeof(uintptr_t) - 1)]. *)
Definition align_ptr (n : Z) : Z := Z.land (n + PTR_SIZE - 1) (Z.lnot (PTR_SIZE - 1)).

Record codes := Codes { c_size : Z; c_at : gmap Z code }.
Definition no_codes : codes := Codes 0 ∅.

(** The array of the indices to flush: its elements and the room that is sure. *)
Record index_array := IndexArray { ia_elts : list Z; ia_nalloc : Z }.

(** [ngx_nsoc_script_compile_t].  [sc_flushes] is NULL, points at NULL or at an array;
    [sc_lengths] and [sc_values] point at NULL or at an array. *)
Record script_compile (H T W : Type) := ScriptCompile {
  sc_source : list Z;
  sc_flushes : option (option index_array);
  sc_lengths : option codes;
  sc_values : option codes;
  sc_variables : Z;
  sc_ncaptures : Z;
  sc_size : Z;
  sc_complete_lengths : bool;
  sc_complete_values : bool;
  sc_zero : bool;
  sc_conf_prefix : bool;
  sc_root_prefix : bool;
  sc_cf : vconf H T W;
}.
Arguments ScriptCompile {H T W}.
Arguments sc_source {H T W}. Arguments sc_flushes {H T W}. Arguments sc_lengths {H T W}.
Arguments sc_values {H T W}. Arguments sc_variables {H T W}. Arguments sc_ncaptures {H T W}.
Arguments sc_size {H T W}. Arguments sc_complete_lengths {H T W}.
Arguments sc_complete_values {H T W}. Arguments sc_zero {H T W}.
Arguments sc_conf_prefix {H T W}. Arguments sc_root_prefix {H T W}. Arguments sc_cf {H T W}.
#[global] Instance script_compile_eta H T W : Eta (script_compile H T W) := fun s =>
  ScriptCompile (sc_source s) (sc_flushes s) (sc_lengths s) (sc_values s) (sc_variables s)
    (sc_ncaptures s) (sc_size s) (sc_complete_lengths s) (sc_complete_values s) (sc_zero s)
    (sc_conf_prefix s) (sc_root_prefix s) (sc_cf s).

(** [ngx_nsoc_complex_value_t].  The flushes end with [(ngx_uint_t) -1]. *)
Record complex_value := ComplexValue {
  cv_value : list Z;
  cv_flushes : option (list Z);
  cv_lengths : option codes;
  cv_values : option codes;
}.

Definition FLUSH_END : Z := 2 ^ 64 - 1.

(** ** Compiling *)

Section Compile.
Context {H T W : Type} `{!NgxStr} `{!NgxHash T} `{!NgxPool W}.
Context (uninit : variable H).

Abbreviation SC := (M (script_compile H T W)).

Definition on_cf {A} (m : M (vconf H T W) A) : SC A := fun s =>
  match m (sc_cf s) with
  | Done (a, c) => Done (a, s <| sc_cf := c |>)
  | Undefined => Undefined
  | OutOfFuel => OutOfFuel
  end.

(** [ngx_array_create], [ngx_array_push_n]: the memory may run out. *)
Definition sc_alloc : SC bool := on_cf conf_alloc.

(** [ngx_nsoc_script_add_code] and the stores of the caller into the new struct. *)
Definition ngx_nsoc_script_add_code (arr : codes) (size : Z) (c : code) : SC (option codes) :=
  ok ← sc_alloc;
  if negb ok then mret None
  else mret (Some (Codes (c_size arr + size) (<[c_size arr := c]> (c_at arr)))).

(** A code for each of the two passes. *)
Definition add_codes (lsize : Z) (lcode : code) (vsize : Z) (vcode : code) : SC bool :=
  l ← gets sc_lengths;
  l ← mderef l;
  l ← ngx_nsoc_script_add_code l lsize lcode;
  match l with
  | None => mret false
  | Some l =>
      sc_lengths ::=! Some l;;
      v ← gets sc_values;
      v ← mderef v;
      v ← ngx_nsoc_script_add_code v vsize vcode;
      match v with
      | None => mret false
      | Some v => sc_values ::=! Some v;; mret true
      end
  end.

Definition ngx_nsoc_script_add_copy_code (value : list Z) (last : bool) : SC Z :=
  z ← gets sc_zero;
  let zero := z && last in
  let len := zlen value + (if zero then 1 else 0) in
  ok ← add_codes CODE_SIZE (CopyLen len) (align_ptr (CODE_SIZE + len))
         (Copy len (value ++ (if zero then [0] else [])));
  if negb ok then mret NGX_ERROR else
  (if zero then sc_zero ::=! false else mret tt);;
  mret NGX_OK.

(** [ngx_array_push] on the flushes.  When the array is full it grows; all that is sure of
    the new room is the place of the new element. *)
Definition push_flush (index : Z) : SC bool :=
  f ← gets sc_flushes;
  match f with
  | None => mret true
  | Some f =>
      f ← mderef f;
      ok ← sc_alloc;
      if negb ok then mret false else
      let nalloc := Z.max (ia_nalloc f) (zlen (ia_elts f) + 1) in
      sc_flushes ::=! Some (Some (IndexArray (ia_elts f ++ [index]) nalloc));;
      mret true
  end.

Definition ngx_nsoc_script_add_var_code (name : list Z) : SC Z :=
  index ← on_cf (ngx_nsoc_get_variable_index uninit name);
  if index =? NGX_ERROR then mret NGX_ERROR else
  ok ← push_flush index;
  if negb ok then mret NGX_ERROR else
  ok ← add_codes CODE_SIZE (CopyVarLen index) CODE_SIZE (CopyVar index);
  if negb ok then mret NGX_ERROR else mret NGX_OK.

Definition ngx_nsoc_script_add_capture_code (n : Z) : SC Z :=
  ok ← add_codes CODE_SIZE (CopyCaptureLen (2 * n)) CODE_SIZE (CopyCapture (2 * n));
  if negb ok then mret NGX_ERROR else
  k ← gets sc_ncaptures;
  (if k <? n then sc_ncaptures ::=! n else mret tt);;
  mret NGX_OK.

Definition ngx_nsoc_script_add_full_name_code : SC Z :=
  b ← gets sc_conf_prefix;
  ok ← add_codes CODE_SIZE (FullNameLen b) CODE_SIZE (FullName b);
  if negb ok then mret NGX_ERROR else mret NGX_OK.

Definition ngx_nsoc_script_init_arrays : SC Z :=
  f ← gets sc_flushes;
  failed ←
    (match f with
     | Some None =>
         ok ← sc_alloc;
         if negb ok then mret true else
         n ← gets sc_variables;
         sc_flushes ::=! Some (Some (IndexArray [] (if n =? 0 then 1 else n)));; mret false
     | _ => mret false
     end);
  if (failed : bool) then mret NGX_ERROR else
  l ← gets sc_lengths;
  failed ←
    (match l with
     | None => ok ← sc_alloc;
               if negb ok then mret true else sc_lengths ::=! Some no_codes;; mret false
     | Some _ => mret false
     end);
  if (failed : bool) then mret NGX_ERROR else
  v ← gets sc_values;
  failed ←
    (match v with
     | None => ok ← sc_alloc;
               if negb ok then mret true else sc_values ::=! Some no_codes;; mret false
     | Some _ => mret false
     end);
  if (failed : bool) then mret NGX_ERROR else
  sc_variables ::=! 0;;
  mret NGX_OK.

Definition ngx_nsoc_script_done : SC Z :=
  z ← gets sc_zero;
  rc ← (if (z : bool) then ngx_nsoc_script_add_copy_code [0] false else mret NGX_OK);
  if negb (rc =? NGX_OK) then mret NGX_ERROR else
  cp ← gets sc_conf_prefix;
  rp ← gets sc_root_prefix;
  rc ← (if cp || rp then ngx_nsoc_script_add_full_name_code else mret NGX_OK);
  if negb (rc =? NGX_OK) then mret NGX_ERROR else
  cl ← gets sc_complete_lengths;
  failed ←
    (if (cl : bool) then
       l ← gets sc_lengths;
       l ← mderef l;
       l ← ngx_nsoc_script_add_code l PTR_SIZE ExitCode;
       match l with None => mret true | Some l => sc_lengths ::=! Some l;; mret false end
     else mret false);
  if (failed : bool) then mret NGX_ERROR else
  cv ← gets sc_complete_values;
  failed ←
    (if (cv : bool) then
       v ← gets sc_values;
       v ← mderef v;
       v ← ngx_nsoc_script_add_code v PTR_SIZE ExitCode;
       match v with None => mret true | Some v => sc_values ::=! Some v;; mret false end
     else mret false);
  if (failed : bool) then mret NGX_ERROR else mret NGX_OK.

(** Characters of the syntax. *)
Definition DOLLAR : Z := 36.
Definition LBRACE : Z := 123.
Definition RBRACE : Z := 125.

Definition between (a ch b : Z) : bool := (a <=? ch) && (ch <=? b).

(** [1] to [9]. *)
Definition is_capture (ch : Z) : bool := between 49 ch 57.

(** A letter, a digit or an underscore. *)
Definition is_word (ch : Z) : bool :=
  between 65 ch 90 || between 97 ch 122 || between 48 ch 57 || (ch =? 95).

(** The loop that takes a name off the source: the name, whether a bracket is still open,
    and the rest of the source. *)
Fixpoint scan_name (bracket : bool) (rest : list Z) : list Z * bool * list Z :=
  match rest with
  | [] => ([], bracket, [])
  | ch :: rest' =>
      if (ch =? RBRACE) && bracket then ([], false, rest')
      else if is_word ch then
        let '(name, b, r) := scan_name bracket rest' in (ch :: name, b, r)
      else ([], bracket, rest)
  end.

(** The loop that takes a literal off the source. *)
Fixpoint scan_literal (rest : list Z) : list Z * list Z :=
  match rest with
  | [] => ([], [])
  | ch :: rest' =>
      if ch =? DOLLAR then ([], rest)
      else let '(lit, r) := scan_literal rest' in (ch :: lit, r)
  end.

(** The variable after a dollar sign. *)
Definition compile_variable (bracket : bool) (rest : list Z) : SC (option (list Z)) :=
  let '(name, bracket, rest) := scan_name bracket rest in
  if (bracket : bool) then mret None else
  if (length name =? 0)%nat then mret None else
  n ← gets sc_variables;
  sc_variables ::=! n + 1;;
  rc ← ngx_nsoc_script_add_var_code name;
  if negb (rc =? NGX_OK) then mret None else mret (Some rest).

(** One round of the loop; the answer is the rest of the source. *)
Definition compile_step (rest : list Z) : SC (option (list Z)) :=
  match rest with
  | [] => mret None
  | ch :: rest' =>
      if ch =? DOLLAR then
        match rest' with
        | [] => mret None
        | d :: rest'' =>
            if is_capture d then
              rc ← ngx_nsoc_script_add_capture_code (d - 48);
              if negb (rc =? NGX_OK) then mret None else mret (Some rest'')
            else if d =? LBRACE then
              match rest'' with
              | [] => mret None
              | _ => compile_variable true rest''
              end
            else compile_variable false rest'
        end
      else
        let '(lit, rest) := scan_literal rest in
        n ← gets sc_size;
        sc_size ::=! n + zlen lit;;
        rc ← ngx_nsoc_script_add_copy_code lit (length rest =? 0)%nat;
        if negb (rc =? NGX_OK) then mret None else mret (Some rest)
  end.

Fixpoint compile_loop (fuel : nat) (rest : list Z) : SC bool :=
  match rest, fuel with
  | [], _ => mret true
  | _, O => out_of_fuel
  | _, S fuel =>
      r ← compile_step rest;
      match r with None => mret false | Some rest => compile_loop fuel rest end
  end.

(** Every round takes at least one character. *)
Definition ngx_nsoc_script_compile : SC Z :=
  rc ← ngx_nsoc_script_init_arrays;
  if negb (rc =? NGX_OK) then mret NGX_ERROR else
  src ← gets sc_source;
  ok ← compile_loop (length src) src;
  if negb ok then mret NGX_ERROR else ngx_nsoc_script_done.

Definition ngx_nsoc_script_variables_count (value : list Z) : Z :=
  zlen (filter (fun ch => ch = DOLLAR) value).

(** The counting loop of [ngx_nsoc_compile_complex_value]: variables and captures.  The
    character after the last one is the NUL that ends a configuration token. *)
Fixpoint count_refs (value : list Z) : Z * Z :=
  match value with
  | [] => (0, 0)
  | ch :: value =>
      let '(nv, nc) := count_refs value in
      if ch =? DOLLAR then
        match head value with
        | Some d => if is_capture d then (nv, nc + 1) else (nv + 1, nc)
        | None => (nv + 1, nc)
        end
      else (nv, nc)
  end.

(** [ngx_nsoc_compile_complex_value_t] without the configuration, which is the state. *)
Record compile_args := CompileArgs {
  ccv_value : list Z;
  ccv_zero : bool;
  ccv_conf_prefix : bool;
  ccv_root_prefix : bool;
}.

(** [ngx_conf_full_name]: the path made absolute, or an error. *)
Context (ngx_conf_full_name : list Z -> bool -> option (list Z)).

Definition ngx_nsoc_compile_complex_value (ccv : compile_args)
    : M (vconf H T W) (option complex_value) :=
  let v := ccv_value ccv in
  let '(nv, nc) := count_refs v in
  let plain := match head v with Some ch => negb (ch =? DOLLAR) | None => true end in
  let prefix := ccv_conf_prefix ccv || ccv_root_prefix ccv in
  match (if plain && prefix
         then (fun v => (v, false, false)) <$> ngx_conf_full_name v (ccv_conf_prefix ccv)
         else Some (v, ccv_conf_prefix ccv, ccv_root_prefix ccv)) with
  | None => mret None
  | Some (v, conf_prefix, root_prefix) =>
      if (nv =? 0) && (nc =? 0) then mret (Some (ComplexValue v None None None)) else
      ok ← conf_alloc;
      if negb ok then mret None else
      ok ← conf_alloc;
      if negb ok then mret None else
      ok ← conf_alloc;
      if negb ok then mret None else
      cf ← gets id;
      match ngx_nsoc_script_compile
              (ScriptCompile v (Some (Some (IndexArray [] (nv + 1)))) (Some no_codes) (Some no_codes)
                 0 0 0 true true (ccv_zero ccv) conf_prefix root_prefix cf) with
      | Undefined => undefined
      | OutOfFuel => out_of_fuel
      | Done (rc, sc) =>
          modify (fun _ => sc_cf sc);;
          if negb (rc =? NGX_OK) then mret None else
          f ← mderef (sc_flushes sc ≫= id);
          flushes ←
            (if (length (ia_elts f) =? 0)%nat then mret None
             else if zlen (ia_elts f) <? ia_nalloc f
             then mret (Some (ia_elts f ++ [FLUSH_END])) else undefined);
          mret (Some (ComplexValue v flushes (sc_lengths sc) (sc_values sc)))
      end
  end.

(** What a directive answers: NGX_CONF_OK, NGX_CONF_ERROR or the text of an error, which
    says that the directive is a duplicate or that a parameter does not go with udp. *)
Inductive conf_answer := ConfOk | ConfError | ConfDuplicate | ConfIncompatible (param : list Z).

(** [ngx_nsoc_set_complex_value_slot]: the slot holds a value or NULL. *)
Definition ngx_nsoc_set_complex_value_slot (slot : option complex_value) (arg : list Z)
    : M (vconf H T W) (conf_answer * option complex_value) :=
  match slot with
  | Some cv => mret (ConfDuplicate, Some cv)
  | None =>
      ok ← conf_alloc;
      if negb ok then mret (ConfError, None) else
      cv ← ngx_nsoc_compile_complex_value (CompileArgs arg false false false);
      match cv with
      | None => mret (ConfError, Some (ComplexValue arg None None None))
      | Some cv => mret (ConfOk, Some cv)
      end
  end.
End Compile.

(** ** Evaluating *)

(** What [ngx_get_full_name] does to a path: nothing when it is absolute. *)
Inductive full_name_result := FullError | FullSame | FullNew (path : list Z).

(** The instruction pointer: an offset into the codes or the static exit code. *)
Inductive iptr := At (off : Z) | ScriptExit.

(** [e->buf]: a front part of the memory that [e->pos] points into, or other memory. *)
Inductive ebuf := InMem (len : Z) | Own (bytes : list Z).

(** [ngx_nsoc_script_engine_t] and the memory of the value. *)
Record engine := Engine {
  e_ip : iptr;
  e_pos : Z;
  e_mem : list Z;
  e_buf : ebuf;
  e_flushed : bool;
  e_skip : bool;
}.
#[global] Instance engine_eta : Eta engine := fun e =>
  Engine (e_ip e) (e_pos e) (e_mem e) (e_buf e) (e_flushed e) (e_skip e).

Record estate (W : Type) := EState { es_sess : vsess W; es_e : engine }.
Arguments EState {W}. Arguments es_sess {W}. Arguments es_e {W}.
#[global] Instance estate_eta W : Eta (estate W) := fun s => EState (es_sess s) (es_e s).

Section Eval.
Context {H T W : Type} `{!NgxHash T} `{!NgxPool W}.
Context (cmcf : vconf H T W).
Context (call : H -> vref -> vdata -> M (vsess W) Z).
(** [ngx_cycle->conf_prefix] and [ngx_cycle->prefix]. *)
Context (conf_prefix prefix : list Z).
Context (ngx_get_full_name : list Z -> list Z -> W -> full_name_result * W).

Abbreviation EM := (M (estate W)).
Abbreviation VM := (M (vsess W)).

Definition on_sess {A} (m : VM A) : EM A := fun s =>
  match m (es_sess s) with
  | Done (a, x) => Done (a, s <| es_sess := x |>)
  | Undefined => Undefined
  | OutOfFuel => OutOfFuel
  end.

Definition on_e (f : engine -> engine) : EM unit := modify (fun s => s <| es_e ::= f |>).

(** [e->ip += n]. *)
Definition advance (n : Z) : EM unit :=
  on_e (fun e => match e_ip e with At off => e <| e_ip := At (off + n) |> | ScriptExit => e end).

(** [e->pos = ngx_copy(e->pos, data, len)]. *)
Definition emit (bs : list Z) : EM unit :=
  e ← gets es_e;
  mem ← mderef (store (e_pos e) bs (e_mem e));
  on_e (fun e => e <| e_mem := mem |> <| e_pos := e_pos e + zlen bs |>).

(** The value a code refers to. *)
Definition code_value (index : Z) : EM (option var_value) :=
  e ← gets es_e;
  r ← on_sess (if e_flushed e then ngx_nsoc_get_indexed_variable cmcf call (Z.to_nat index)
               else ngx_nsoc_get_flushed_variable cmcf call (Z.to_nat index));
  match r with
  | None => mret None
  | Some r => s ← gets es_sess; v ← mderef (vref_value r s); mret (Some v)
  end.

(** The bytes of a capture; [captures] holds pairs of offsets into [captures_data]. *)
Definition capture_bounds (n : Z) : EM (option (Z * Z)) :=
  s ← gets es_sess;
  if n <? ncaptures s then
    a ← mderef (captures s !! Z.to_nat n);
    b ← mderef (captures s !! Z.to_nat (n + 1));
    mret (Some (a, b))
  else mret None.

(** The functions of the length codes. *)
Definition ngx_nsoc_script_copy_len_code (len : Z) : EM Z := advance CODE_SIZE;; mret len.

Definition ngx_nsoc_script_copy_var_len_code (i : Z) : EM Z :=
  advance CODE_SIZE;;
  v ← code_value i;
  match v with
  | Some v => if negb (not_found v) then mret (zlen (vv_data v)) else mret 0
  | None => mret 0
  end.

Definition ngx_nsoc_script_copy_capture_len_code (n : Z) : EM Z :=
  advance CODE_SIZE;;
  b ← capture_bounds n;
  match b with Some (x, y) => mret (u64 (y - x)) | None => mret 0 end.

Definition ngx_nsoc_script_full_name_len_code (b : bool) : EM Z :=
  advance CODE_SIZE;;
  mret (if b then zlen conf_prefix else zlen prefix).

(** [lcode(&e)]. *)
Definition run_len_code (c : code) : EM Z :=
  match c with
  | CopyLen len => ngx_nsoc_script_copy_len_code len
  | CopyVarLen i => ngx_nsoc_script_copy_var_len_code i
  | CopyCaptureLen n => ngx_nsoc_script_copy_capture_len_code n
  | FullNameLen b => ngx_nsoc_script_full_name_len_code b
  | _ => undefined
  end.

(** The functions of the value codes. *)
Definition ngx_nsoc_script_copy_code (len : Z) (data : list Z) : EM unit :=
  e ← gets es_e;
  (if negb (e_skip e) then
     bs ← mderef (load 0 len data); emit bs
   else mret tt);;
  advance (CODE_SIZE + align_ptr len).

Definition ngx_nsoc_script_copy_var_code (i : Z) : EM unit :=
  advance CODE_SIZE;;
  e ← gets es_e;
  if negb (e_skip e) then
    v ← code_value i;
    match v with
    | Some v => if negb (not_found v) then emit (vv_data v) else mret tt
    | None => mret tt
    end
  else mret tt.

Definition ngx_nsoc_script_copy_capture_code (n : Z) : EM unit :=
  advance CODE_SIZE;;
  b ← capture_bounds n;
  match b with
  | Some (x, y) =>
      s ← gets es_sess;
      bs ← mderef (load x (y - x) (captures_data s));
      emit bs
  | None => mret tt
  end.

(** The value so far, as [value.data] and [value.len], is made absolute. *)
Definition ngx_nsoc_script_full_name_code (b : bool) : EM unit :=
  e ← gets es_e;
  match e_buf e with
  | Own _ => undefined
  | InMem _ =>
      value ← mderef (load 0 (e_pos e) (e_mem e));
      s ← gets es_sess;
      let '(r, w) := ngx_get_full_name (if b then conf_prefix else prefix) value (vs_env s) in
      modify (fun x => x <| es_sess := s <| vs_env := w |> |>);;
      match r with
      | FullError => on_e (fun e => e <| e_ip := ScriptExit |>)
      | FullSame => on_e (fun e => e <| e_buf := InMem (e_pos e) |>);; advance CODE_SIZE
      | FullNew path => on_e (fun e => e <| e_buf := Own path |>);; advance CODE_SIZE
      end
  end.

(** [code(&e)]. *)
Definition run_code (c : code) : EM unit :=
  match c with
  | Copy len data => ngx_nsoc_script_copy_code len data
  | CopyVar i => ngx_nsoc_script_copy_var_code i
  | CopyCapture n => ngx_nsoc_script_copy_capture_code n
  | FullName b => ngx_nsoc_script_full_name_code b
  | _ => undefined
  end.

(** The test of both loops: the struct the instruction pointer is at. *)
Definition fetch (arr : codes) : EM code :=
  e ← gets es_e;
  match e_ip e with
  | ScriptExit => mret ExitCode
  | At off => mderef (c_at arr !! off)
  end.

Fixpoint run_lengths (fuel : nat) (arr : codes) (len : Z) : EM Z :=
  match fuel with
  | O => out_of_fuel
  | S fuel =>
      c ← fetch arr;
      match c with
      | ExitCode => mret len
      | c => n ← run_len_code c; run_lengths fuel arr (u64 (len + n))
      end
  end.

Fixpoint run_values (fuel : nat) (arr : codes) : EM unit :=
  match fuel with
  | O => out_of_fuel
  | S fuel =>
      c ← fetch arr;
      match c with
      | ExitCode => mret tt
      | c => run_code c;; run_values fuel arr
      end
  end.

(** A code is at least as long as a pointer, so the size of the array bounds a run. *)
Definition run_fuel (arr : codes) : nat := Z.to_nat (c_size arr).

(** The loop over the flushes up to the end mark. *)
Fixpoint flush_indices (l : list Z) : VM unit :=
  match l with
  | [] => undefined
  | i :: l =>
      if i =? FLUSH_END then mret tt else
      v ← slot (Z.to_nat i);
      (if no_cacheable v
       then on_slot (Z.to_nat i) (fun x => x <| valid := false |> <| not_found := false |>)
       else mret tt);;
      flush_indices l
  end.

Definition ngx_nsoc_script_flush_complex_value (val : complex_value) : VM unit :=
  match cv_flushes val with None => mret tt | Some l => flush_indices l end.

(** The buffer of the value. *)
Definition value_alloc (len : Z) : VM (option (list Z)) :=
  w ← gets vs_env;
  let '(mem, w) := pool_bytes len w in
  modify (fun s => s <| vs_env := w |>);; mret mem.

(** A run of the engine inside the session. *)
Definition with_engine {A} (m : EM A) (e : engine) : VM (A * engine) := fun s =>
  match m (EState s e) with
  | Done (a, st) => Done ((a, es_e st), es_sess st)
  | Undefined => Undefined
  | OutOfFuel => OutOfFuel
  end.

(** The engine after [ngx_memzero], with [e.flushed = 1]; a zeroed [e.buf] is at NULL. *)
Definition engine_start : engine := Engine (At 0) 0 [] (Own []) true false.

(** Both passes: the engine after them, or [None] when the memory ran out.  [len] is the
    length reserved before, and [set_buf] says that the caller sets [e.buf]. *)
Definition run_passes (set_buf : bool) (lengths values : codes) (len : Z) : VM (option engine) :=
  '(len, e) ← with_engine (run_lengths (run_fuel lengths) lengths len) engine_start;
  mem ← value_alloc len;
  match mem with
  | None => mret None
  | Some mem =>
      let e := e <| e_ip := At 0 |> <| e_pos := 0 |> <| e_mem := mem |> in
      let e := if set_buf then e <| e_buf := InMem len |> else e in
      '(_, e) ← with_engine (run_values (run_fuel values) values) e;
      mret (Some e)
  end.

(** [*value = e.buf]. *)
Definition ebuf_bytes (e : engine) : option (list Z) :=
  match e_buf e with InMem len => load 0 len (e_mem e) | Own bs => Some bs end.

(** The code and the value, when it is NGX_OK. *)
Definition ngx_nsoc_complex_value (val : complex_value) : VM (option (list Z)) :=
  match cv_lengths val with
  | None => mret (Some (cv_value val))
  | Some lengths =>
      ngx_nsoc_script_flush_complex_value val;;
      values ← mderef (cv_values val);
      e ← run_passes true lengths values 0;
      match e with
      | None => mret None
      | Some e => bs ← mderef (ebuf_bytes e); mret (Some bs)
      end
  end.

(** [ngx_nsoc_script_run] flushes every variable that is not to be cached; it returns
    the end of what was written and leaves the memory in [value]. *)
Definition flush_all : VM unit :=
  modify (fun s => s <| slots ::= (fun l =>
    map (fun v => if no_cacheable v then v <| valid := false |> <| not_found := false |> else v)
        (take (Z.to_nat (nelts cmcf)) l) ++ drop (Z.to_nat (nelts cmcf)) l) |>).

Definition ngx_nsoc_script_run (lengths : codes) (len : Z) (values : codes)
    : VM (option (Z * list Z)) :=
  flush_all;;
  e ← run_passes false lengths values len;
  mret ((fun e => (e_pos e, e_mem e)) <$> e).

Fixpoint flush_list (l : list Z) : VM unit :=
  match l with
  | [] => mret tt
  | i :: l =>
      v ← slot (Z.to_nat i);
      (if no_cacheable v
       then on_slot (Z.to_nat i) (fun x => x <| valid := false |> <| not_found := false |>)
       else mret tt);;
      flush_list l
  end.

Definition ngx_nsoc_script_flush_no_cacheable_variables (indices : option (list Z)) : VM unit :=
  match indices with None => mret tt | Some l => flush_list l end.
End Eval.

(** ** Code arrays as lists

    [assemble items] is the array that [ngx_nsoc_script_add_code] builds from a list of
    structs with their sizes: each struct sits at the sum of the sizes before it. *)

Definition span (items : list (code * Z)) : Z := sumz snd items.

Definition assemble (items : list (code * Z)) : codes :=
  foldl (fun arr cs => Codes (c_size arr + cs.2) (<[c_size arr := cs.1]> (c_at arr))) no_codes items.

Lemma assemble_snoc items c sz :
  assemble (items ++ [(c, sz)]) =
  Codes (c_size (assemble items) + sz) (<[c_size (assemble items) := c]> (c_at (assemble items))).
Proof. unfold assemble. by rewrite foldl_app. Qed.

Lemma span_app l k : span (l ++ k) = span l + span k.
Proof. apply sumz_app. Qed.

Lemma assemble_size items : c_size (assemble items) = span items.
Proof.
  induction items as [|[c sz] items IH] using rev_ind; [done|].
  rewrite assemble_snoc, span_app. cbn [c_size]. rewrite IH. unfold span, sumz. cbn. lia.
Qed.

Definition sizes_ok (items : list (code * Z)) : Prop := Forall (fun cs => 0 < cs.2) items.

Lemma span_nonneg items : sizes_ok items -> 0 <= span items.
Proof.
  unfold span. induction 1 as [|[c sz] items Hsz _ IH]; [done|]. rewrite sumz_cons. cbn in *. lia.
Qed.

Lemma assemble_lookup pre c sz post :
  sizes_ok (pre ++ (c, sz) :: post) ->
  c_at (assemble (pre ++ (c, sz) :: post)) !! span pre = Some c.
Proof.
  induction post as [|[c' sz'] post IH] using rev_ind; intros Hok.
  { rewrite assemble_snoc. cbn [c_at]. rewrite assemble_size. apply lookup_insert_eq. }
  rewrite app_comm_cons, app_assoc in *. apply Forall_app in Hok as [Hok _].
  rewrite assemble_snoc. cbn [c_at]. rewrite lookup_insert_ne; [by apply IH|].
  rewrite assemble_size, span_app. apply Forall_app in Hok as [_ Hok].
  apply Forall_cons in Hok as [Hsz Hpost]. pose proof (span_nonneg post Hpost). cbn in Hsz.
  unfold span in *. rewrite sumz_cons. cbn. lia.
Qed.

(** ** Pieces of a value *)

Inductive piece := PLit (bs : list Z) | PVar (i : nat) | PCap (n : Z).

Definition len_item (p : piece) : code * Z :=
  match p with
  | PLit bs => (CopyLen (zlen bs), CODE_SIZE)
  | PVar i => (CopyVarLen (Z.of_nat i), CODE_SIZE)
  | PCap n => (CopyCaptureLen (2 * n), CODE_SIZE)
  end.

Definition val_item (p : piece) : code * Z :=
  match p with
  | PLit bs => (Copy (zlen bs) bs, align_ptr (CODE_SIZE + zlen bs))
  | PVar i => (CopyVar (Z.of_nat i), CODE_SIZE)
  | PCap n => (CopyCapture (2 * n), CODE_SIZE)
  end.

(** What a piece stands for in a session: an unknown variable or capture is empty. *)
Definition piece_text {W} (s : vsess W) (p : piece) : list Z :=
  match p with
  | PLit bs => bs
  | PVar i => match slots s !! i with
              | Some v => if not_found v then [] else vv_data v
              | None => []
              end
  | PCap n =>
      if 2 * n <? ncaptures s then
        match captures s !! Z.to_nat (2 * n), captures s !! Z.to_nat (2 * n + 1) with
        | Some x, Some y => ztake (y - x) (zdrop x (captures_data s))
        | _, _ => []
        end
      else []
  end.

Definition texts {W} (s : vsess W) (ps : list piece) : list Z := concat (piece_text s <$> ps).

Lemma align_ptr_eq n : 0 <= n -> align_ptr n = (n + 7) / 8 * 8.
Proof.
  intros Hn. unfold align_ptr, PTR_SIZE. replace (n + 8 - 1) with (n + 7) by lia.
  change (Z.lnot (8 - 1)) with (Z.lnot (Z.ones 3)).
  rewrite <- Z.ldiff_land, Z.ldiff_ones_r by lia. rewrite Z.shiftl_mul_pow2, Z.shiftr_div_pow2 by lia.
  done.
Qed.

Lemma align_code n : 0 <= n -> CODE_SIZE + align_ptr n = align_ptr (CODE_SIZE + n).
Proof. intros Hn. unfold CODE_SIZE. rewrite !align_ptr_eq by lia. zlia. Qed.

Lemma item_sizes_ok p : 0 < (len_item p).2 /\ 0 < (val_item p).2.
Proof.
  destruct p as [bs| |]; cbn; unfold CODE_SIZE; try lia. rewrite align_ptr_eq; pose proof (zlen_nonneg bs); zlia.
Qed.

Lemma span_ge items : sizes_ok items -> zlen items <= span items.
Proof.
  unfold span. induction 1 as [|[c sz] items Hsz _ IH]; [done|]. rewrite zlen_cons, sumz_cons. cbn in *. lia.
Qed.

(** The whole program of one pass. *)
Definition program (item : piece -> code * Z) (ps : list piece) : list (code * Z) :=
  (item <$> ps) ++ [(ExitCode, PTR_SIZE)].

Lemma program_sizes_ok item ps : (forall p, 0 < (item p).2) -> sizes_ok (program item ps).
Proof.
  intros Hi. apply Forall_app. split; [|by repeat constructor].
  apply Forall_fmap. by apply Forall_true.
Qed.

Lemma program_fuel item ps : (forall p, 0 < (item p).2) ->
  (length ps < run_fuel (assemble (program item ps)))%nat.
Proof.
  intros Hi. unfold run_fuel. rewrite assemble_size.
  pose proof (span_ge _ (program_sizes_ok item ps Hi)) as Hge. unfold program in *.
  rewrite zlen_app in Hge. unfold zlen in Hge. rewrite length_fmap in Hge. cbn in Hge. lia.
Qed.

(** [code_at]: the struct of the piece after [pre], or the exit code. *)
Lemma program_at item pre p post : (forall p, 0 < (item p).2) ->
  c_at (assemble (program item (pre ++ p :: post))) !! span (item <$> pre) = Some (item p).1.
Proof.
  intros Hi. pose proof (program_sizes_ok item (pre ++ p :: post) Hi) as Hok. unfold program in *.
  rewrite fmap_app, <- app_assoc in *. cbn [fmap list_fmap] in *. destruct (item p) as [c sz] eqn:Hp.
  change ((((c, sz) :: (item <$> post)) ++ [(ExitCode, PTR_SIZE)]))
    with ((c, sz) :: ((item <$> post) ++ [(ExitCode, PTR_SIZE)])) in *.
  apply (assemble_lookup (item <$> pre)). exact Hok.
Qed.

Lemma program_end item ps : (forall p, 0 < (item p).2) ->
  c_at (assemble (program item ps)) !! span (item <$> ps) = Some ExitCode.
Proof.
  intros Hi. unfold program. apply (assemble_lookup (item <$> ps) ExitCode PTR_SIZE []).
  by apply program_sizes_ok.
Qed.

Section EvalProofs.
Context {H T W : Type} `{!NgxHash T} `{!NgxPool W} `{!NgxPoolLaws W}.
Context (cmcf : vconf H T W).
Context (call : H -> vref -> vdata -> M (vsess W) Z).
Context (conf_prefix prefix : list Z).
Context (ngx_get_full_name : list Z -> list Z -> W -> full_name_result * W).
Implicit Types (s : vsess W) (p : piece) (ps : list piece) (st : estate W).

Abbreviation len_code := (run_len_code cmcf call conf_prefix prefix).
Abbreviation val_code := (run_code cmcf call conf_prefix prefix ngx_get_full_name).
Abbreviation ok := (eval_ok cmcf call).

(** What a piece needs of the session. *)
Definition piece_ok (s : vsess W) (p : piece) : Prop :=
  match p with
  | PLit bs => zlen bs < 2 ^ 32
  | PVar i => (i < length (indexed cmcf))%nat
  | PCap n => 0 <= n /\ zlen (captures_data s) < 2 ^ 32 /\
      (2 * n < ncaptures s -> exists x y, captures s !! Z.to_nat (2 * n) = Some x /\
         captures s !! Z.to_nat (2 * n + 1) = Some y /\ 0 <= x <= y /\ y <= zlen (captures_data s))
  end.

(** A piece whose text no longer changes. *)
Definition known (s : vsess W) (p : piece) : Prop :=
  match p with PVar i => exists v, slots s !! i = Some v /\ settled v = true | _ => True end.

Lemma piece_ok_keeps s s' p : keeps_settled s s' -> piece_ok s p -> piece_ok s' p.
Proof.
  intros K. destruct p as [bs|i|n]; cbn; [done|done|].
  by destruct (ks_captures _ _ K) as (-> & -> & ->).
Qed.

Lemma known_keeps s s' p : keeps_settled s s' -> known s p ->
  known s' p /\ piece_text s' p = piece_text s p.
Proof.
  intros K. destruct p as [bs|i|n]; cbn; [done| |].
  - intros (v & Hv & Hs). pose proof (ks_slots _ _ K i v Hv Hs) as Hv'. split; [by exists v|].
    by rewrite Hv, Hv'.
  - intros _. split; [done|]. by destruct (ks_captures _ _ K) as (-> & -> & ->).
Qed.

Lemma texts_keeps s s' ps : keeps_settled s s' -> Forall (known s) ps ->
  Forall (known s') ps /\ texts s' ps = texts s ps.
Proof.
  intros K. unfold texts. induction 1 as [|p ps Hp _ [IH IHt]]; [done|]. cbn.
  destruct (known_keeps s s' p K Hp) as [Hk ->]. by rewrite IHt; split; [constructor|].
Qed.

Lemma text_small s p : ok s -> piece_ok s p -> zlen (piece_text s p) < 2 ^ 32.
Proof.
  intros Hok. destruct p as [bs|i|n]; cbn; [done| |].
  - intros _. destruct (slots s !! i) as [v|] eqn:Hv; [|done]. destruct (not_found v); [done|].
    pose proof (eo_values _ _ _ Hok) as HF.
    pose proof (Forall_lookup_1 _ _ _ _ HF Hv) as Hlt. cbn in Hlt. lia.
  - intros (Hn & Hd & Hc). destruct (Z.ltb_spec (2 * n) (ncaptures s)) as [Hlt|]; [|done].
    destruct (Hc Hlt) as (x & y & -> & -> & Hxy & Hy). rewrite zlen_ztake; [lia|]. rewrite zlen_zdrop; lia.
Qed.

Lemma wp_on_sess {A} (m : M (vsess W) A) (Q : A -> estate W -> Prop) st :
  wp m (fun a x => Q a (st <| es_sess := x |>)) (es_sess st) -> wp (on_sess m) Q st.
Proof. unfold wp, on_sess. by destruct (m (es_sess st)) as [[a x]| |]. Qed.

Lemma wp_advance n off st (Q : unit -> estate W -> Prop) :
  e_ip (es_e st) = At off -> Q tt (st <| es_e := (es_e st) <| e_ip := At (off + n) |> |>) ->
  wp (advance n) Q st.
Proof. intros Hip HQ. unfold advance, on_e. apply wp_modify. unfold upd. rewrite Hip. exact HQ. Qed.

(** What a code reads of a variable. *)
Lemma wp_code_value i st (Q : option var_value -> estate W -> Prop) :
  ok (es_sess st) -> e_flushed (es_e st) = true -> (i < length (indexed cmcf))%nat ->
  (forall s' v o, keeps_settled (es_sess st) s' -> ok s' -> slots s' !! i = Some v -> settled v = true ->
     (o = Some v \/ o = None /\ not_found v = true) -> Q o (st <| es_sess := s' |>)) ->
  wp (code_value cmcf call (Z.of_nat i)) Q st.
Proof.
  intros Hok Hf Hi HQ. unfold code_value. wp_step. wp_step. rewrite Hf, Nat2Z.id. wp_step.
  apply wp_on_sess. eapply wp_mono; [by apply get_indexed_evaluates|].
  intros r s' (K & Hok' & v & Hv & Hs & [-> | [-> Hn]]).
  - wp_step. wp_step. wp_step. eapply wp_mderef; [exact Hv|]. wp_step. apply (HQ s' v); auto.
  - wp_step. apply (HQ s' v); auto.
Qed.

(** In a session that knows the variable nothing is evaluated. *)
Lemma wp_code_value_known i st v (Q : option var_value -> estate W -> Prop) :
  ok (es_sess st) -> e_flushed (es_e st) = true -> slots (es_sess st) !! i = Some v -> settled v = true ->
  Q (Some v) st -> wp (code_value cmcf call (Z.of_nat i)) Q st.
Proof.
  intros Hok Hf Hv Hs HQ. unfold code_value. wp_step. wp_step. rewrite Hf, Nat2Z.id. wp_step.
  apply wp_on_sess. eapply done_wp; [by eapply get_indexed_settled|]. cbv beta iota.
  wp_step. wp_step. wp_step. eapply wp_mderef; [exact Hv|]. wp_step. by destruct st.
Qed.

Lemma wp_capture_bounds n st (Q : option (Z * Z) -> estate W -> Prop) :
  piece_ok (es_sess st) (PCap n) ->
  Q (if 2 * n <? ncaptures (es_sess st)
     then match captures (es_sess st) !! Z.to_nat (2 * n), captures (es_sess st) !! Z.to_nat (2 * n + 1) with
          | Some x, Some y => Some (x, y) | _, _ => None end
     else None) st ->
  wp (capture_bounds (2 * n)) Q st.
Proof.
  intros (Hn & _ & Hc) HQ. unfold capture_bounds. wp_step. wp_step.
  destruct (Z.ltb_spec (2 * n) (ncaptures (es_sess st))) as [Hlt|]; [|by wp_step].
  destruct (Hc Hlt) as (x & y & Hx & Hy & _). rewrite Hx, Hy in HQ.
  wp_step. eapply wp_mderef; [exact Hx|]. wp_step. eapply wp_mderef; [exact Hy|]. by wp_step.
Qed.

Lemma run_len_piece p st off :
  ok (es_sess st) -> piece_ok (es_sess st) p -> e_flushed (es_e st) = true -> e_ip (es_e st) = At off ->
  wp (len_code (len_item p).1) (fun n st' =>
    keeps_settled (es_sess st) (es_sess st') /\ ok (es_sess st') /\ known (es_sess st') p /\
    n = zlen (piece_text (es_sess st') p) /\
    es_e st' = (es_e st) <| e_ip := At (off + (len_item p).2) |>) st.
Proof.
  intros Hok Hp Hf Hip. pose proof (text_small _ _ Hok Hp) as Hsmall.
  destruct p as [bs|i|n]; cbn [len_item fst snd run_len_code];
    [unfold ngx_nsoc_script_copy_len_code|unfold ngx_nsoc_script_copy_var_len_code
    |unfold ngx_nsoc_script_copy_capture_len_code]; wp_step; (eapply wp_advance; [exact Hip|]).
  - by wp_step.
  - wp_step. apply wp_code_value; [done|done|done|]. intros s' v o K Hok' Hv Hs Ho.
    assert (Hd : forall m, m = zlen (piece_text s' (PVar i)) -> keeps_settled (es_sess st) s' /\ ok s' /\
      known s' (PVar i) /\ m = zlen (piece_text s' (PVar i)) /\
      (es_e st) <| e_ip := At (off + CODE_SIZE) |> = (es_e st) <| e_ip := At (off + CODE_SIZE) |>)
      by (intros m ->; split_and!; try done; by exists v).
    assert (Ht : piece_text s' (PVar i) = if not_found v then [] else vv_data v) by (cbn; by rewrite Hv).
    destruct Ho as [-> | [-> Hn]].
    + destruct (not_found v); cbn [negb]; wp_step; apply Hd; by rewrite Ht.
    + wp_step. apply Hd. by rewrite Ht, Hn.
  - wp_step. apply wp_capture_bounds; [done|]. cbn [es_sess upd].
    assert (Hd : forall m, m = zlen (piece_text (es_sess st) (PCap n)) ->
      keeps_settled (es_sess st) (es_sess st) /\ ok (es_sess st) /\ True /\
      m = zlen (piece_text (es_sess st) (PCap n)) /\
      (es_e st) <| e_ip := At (off + CODE_SIZE) |> = (es_e st) <| e_ip := At (off + CODE_SIZE) |>)
      by (intros m ->; by split_and!).
    destruct Hp as (Hn & Hb & Hc). cbn [piece_text] in Hd, Hsmall. change (es_sess _) with (es_sess st) at 1.
    destruct (Z.ltb_spec (2 * n) (ncaptures (es_sess st))) as [Hlt|Hge].
    + destruct (Hc Hlt) as (x & y & Hx & Hy & Hxy & Hle). rewrite Hx, Hy in Hd.
      change (es_sess (st <| es_e := _ |>)) with (es_sess st). rewrite Hx, Hy. wp_step.
      cbn [known piece_text]. change (es_sess (st <| es_e := _ |>)) with (es_sess st).
      rewrite (proj2 (Z.ltb_lt _ _) Hlt), Hx, Hy. apply Hd.
      rewrite zlen_ztake by (rewrite zlen_zdrop; lia). by rewrite u64_small by lia.
    + wp_step. cbn [known piece_text]. change (es_sess (st <| es_e := _ |>)) with (es_sess st).
      rewrite (proj2 (Z.ltb_ge _ _) Hge). by apply Hd.
Qed.

Lemma wp_fetch arr off c st (Q : code -> estate W -> Prop) :
  e_ip (es_e st) = At off -> c_at arr !! off = Some c -> Q c st -> wp (fetch arr) Q st.
Proof. intros Hip Hc HQ. unfold fetch. wp_step. wp_step. rewrite Hip. by eapply wp_mderef. Qed.

(** Not the exit code. *)
Lemma run_lengths_step fuel arr off p len st (Q : Z -> estate W -> Prop) :
  e_ip (es_e st) = At off -> c_at arr !! off = Some (len_item p).1 ->
  wp (len_code (len_item p).1) (fun n st' =>
    wp (run_lengths cmcf call conf_prefix prefix fuel arr (u64 (len + n))) Q st') st ->
  wp (run_lengths cmcf call conf_prefix prefix (S fuel) arr len) Q st.
Proof.
  intros Hip Hc HQ. cbn [run_lengths]. wp_step. eapply wp_fetch; [done..|].
  destruct p; cbn [len_item fst] in *; by wp_step.
Qed.

Lemma run_values_step fuel arr off p st (Q : unit -> estate W -> Prop) :
  e_ip (es_e st) = At off -> c_at arr !! off = Some (val_item p).1 ->
  wp (val_code (val_item p).1) (fun _ st' =>
    wp (run_values cmcf call conf_prefix prefix ngx_get_full_name fuel arr) Q st') st ->
  wp (run_values cmcf call conf_prefix prefix ngx_get_full_name (S fuel) arr) Q st.
Proof.
  intros Hip Hc HQ. cbn [run_values]. wp_step. eapply wp_fetch; [done..|].
  destruct p; cbn [val_item fst] in *; by wp_step.
Qed.

Lemma texts_cons s p ps : zlen (texts s (p :: ps)) = zlen (piece_text s p) + zlen (texts s ps).
Proof. unfold texts. cbn. apply zlen_app. Qed.

Lemma run_lengths_pieces ps : forall post pre fuel len st,
  ps = pre ++ post -> (length post < fuel)%nat ->
  e_ip (es_e st) = At (span (len_item <$> pre)) -> e_flushed (es_e st) = true ->
  ok (es_sess st) -> Forall (piece_ok (es_sess st)) post ->
  0 <= len -> len + zlen post * 2 ^ 32 < 2 ^ 64 ->
  wp (run_lengths cmcf call conf_prefix prefix fuel (assemble (program len_item ps)) len)
    (fun n st' => keeps_settled (es_sess st) (es_sess st') /\ ok (es_sess st') /\
       Forall (known (es_sess st')) post /\ n = len + zlen (texts (es_sess st') post) /\ n < 2 ^ 64 /\
       exists ip, es_e st' = (es_e st) <| e_ip := ip |>) st.
Proof.
  assert (Hsz : forall p, 0 < (len_item p).2) by (intros p; apply item_sizes_ok).
  induction post as [|p post IH]; intros pre fuel len st -> Hfuel Hip Hf Hok Hps Hlen Hmax;
    (destruct fuel as [|fuel]; [cbn in Hfuel; lia|]).
  - rewrite app_nil_r. cbn [run_lengths]. wp_step. eapply wp_fetch; [exact Hip|by apply program_end|]. cbv beta iota.
    wp_step. split_and!; try done; [change (zlen (texts (es_sess st) [])) with 0; lia|unfold zlen in Hmax; cbn in Hmax; lia|].
    exists (e_ip (es_e st)). by destruct st as [? []].
  - apply Forall_cons in Hps as [Hp Hps]. rewrite zlen_cons in Hmax. cbn [length] in Hfuel.
    eapply run_lengths_step; [exact Hip|by apply program_at|].
    eapply wp_mono; [by apply run_len_piece|]. intros n st1 (K & Hok1 & Hk & -> & He).
    assert (Hps1 : Forall (piece_ok (es_sess st1)) post)
      by (eapply Forall_impl; [exact Hps|]; intros q; by apply piece_ok_keeps).
    pose proof (text_small _ _ Hok1 (piece_ok_keeps _ _ _ K Hp)) as Hsmall.
    pose proof (zlen_nonneg (piece_text (es_sess st1) p)). pose proof (zlen_nonneg post).
    rewrite u64_small by lia.
    eapply wp_mono; [apply (IH (pre ++ [p])); try done; try lia|].
    + by rewrite <- app_assoc.
    + rewrite He. cbn. f_equal. rewrite fmap_app, span_app. unfold span, sumz. cbn. lia.
    + by rewrite He.
    + intros n st2 (K2 & Hok2 & Hk2 & -> & Hlt & ip & He2).
      destruct (known_keeps _ _ _ K2 Hk) as [Hk' Ht].
      split_and!; [by etrans|done|by constructor| |done|].
      * rewrite texts_cons, Ht. lia.
      * exists ip. rewrite He2, He. done.
Qed.

Lemma wp_emit bs pre room post st (Q : unit -> estate W -> Prop) :
  e_mem (es_e st) = pre ++ room ++ post -> e_pos (es_e st) = zlen pre -> zlen room = zlen bs ->
  Q tt (st <| es_e := (es_e st) <| e_mem := pre ++ bs ++ post |> <| e_pos := zlen pre + zlen bs |> |>) ->
  wp (emit bs) Q st.
Proof.
  intros Hm Hp Hl HQ. unfold emit. wp_step. wp_step. wp_step.
  eapply wp_mderef; [rewrite Hm, Hp; by apply store_app|]. unfold on_e. apply wp_modify. unfold upd.
  rewrite Hp. exact HQ.
Qed.

(** The engine after [bs] was written at its place and the code passed. *)
Definition wrote (e : engine) (pre bs post : list Z) (off : Z) : engine :=
  e <| e_ip := At off |> <| e_mem := pre ++ bs ++ post |> <| e_pos := zlen pre + zlen bs |>.

Lemma run_val_piece p st off pre room post :
  ok (es_sess st) -> piece_ok (es_sess st) p -> known (es_sess st) p -> e_flushed (es_e st) = true ->
  e_skip (es_e st) = false -> e_ip (es_e st) = At off ->
  e_mem (es_e st) = pre ++ room ++ post -> e_pos (es_e st) = zlen pre ->
  zlen room = zlen (piece_text (es_sess st) p) ->
  wp (val_code (val_item p).1) (fun _ st' =>
    st' = EState (es_sess st) (wrote (es_e st) pre (piece_text (es_sess st) p) post (off + (val_item p).2))) st.
Proof.
  intros Hok Hp Hk Hf Hsk Hip Hm Hpos Hl. destruct st as [s e]. cbn [es_sess es_e] in *.
  destruct p as [bs|i|n]; cbn [val_item fst snd run_code];
    [unfold ngx_nsoc_script_copy_code|unfold ngx_nsoc_script_copy_var_code
    |unfold ngx_nsoc_script_copy_capture_code].
  - wp_step. wp_step. cbn [es_e]. rewrite Hsk. cbn [negb]. wp_step. wp_step. eapply wp_mderef.
    { pose proof (load_app [] bs []) as Hld. rewrite app_nil_r in Hld. exact Hld. }
    eapply wp_emit; [exact Hm|exact Hpos|exact Hl|]. eapply wp_advance; [exact Hip|].
    rewrite align_code by apply zlen_nonneg. by destruct e.
  - destruct Hk as (v & Hv & Hs). cbn [piece_text] in *. rewrite Hv in *.
    wp_step. eapply wp_advance; [exact Hip|]. wp_step. wp_step.
    change (e_skip (es_e _)) with (e_skip e). rewrite Hsk. cbn [negb]. wp_step.
    eapply wp_code_value_known; [exact Hok|exact Hf|exact Hv|done|].
    destruct (not_found v); cbn [negb].
    + wp_step. apply zlen_nil_inv in Hl. subst room.
      unfold wrote. rewrite zlen_nil, Z.add_0_r. destruct e; cbn in *. by subst.
    + eapply wp_emit; [exact Hm|exact Hpos|exact Hl|]. by destruct e.
  - wp_step. eapply wp_advance; [exact Hip|]. wp_step. apply wp_capture_bounds; [exact Hp|].
    change (es_sess (_ <| es_e := _ |>)) with s. cbn [piece_text] in *. destruct Hp as (Hn & Hb & Hc).
    destruct (Z.ltb_spec (2 * n) (ncaptures s)) as [Hlt|Hge].
    + destruct (Hc Hlt) as (x & y & Hx & Hy & Hxy & Hle). rewrite Hx, Hy in *.
      wp_step. wp_step. wp_step. eapply wp_mderef.
      { apply load_Some. change (es_sess (_ <| es_e := _ |>)) with s. split_and!; [lia|lia|lia|done]. }
      eapply wp_emit; [exact Hm|exact Hpos|exact Hl|]. by destruct e.
    + wp_step. apply zlen_nil_inv in Hl. subst room.
      unfold wrote. rewrite zlen_nil, Z.add_0_r. destruct e; cbn in *. by subst.
Qed.

Lemma run_values_pieces ps s : forall post pre fuel e done_ room,
  ps = pre ++ post -> (length post < fuel)%nat ->
  e_ip e = At (span (val_item <$> pre)) -> e_flushed e = true -> e_skip e = false ->
  ok s -> Forall (piece_ok s) post -> Forall (known s) post ->
  e_mem e = done_ ++ room -> e_pos e = zlen done_ -> zlen room = zlen (texts s post) ->
  wp (run_values cmcf call conf_prefix prefix ngx_get_full_name fuel (assemble (program val_item ps)))
    (fun _ st' => es_sess st' = s /\ exists ip, es_e st' = e <| e_ip := ip |>
       <| e_mem := done_ ++ texts s post |> <| e_pos := zlen (done_ ++ texts s post) |>) (EState s e).
Proof.
  assert (Hsz : forall p, 0 < (val_item p).2) by (intros p; apply item_sizes_ok).
  induction post as [|p post IH]; intros pre fuel e pre' room -> Hfuel Hip Hf Hsk Hok Hps Hk Hm Hpos Hl;
    (destruct fuel as [|fuel]; [cbn in Hfuel; lia|]).
  - rewrite app_nil_r. cbn [run_values]. wp_step. eapply wp_fetch; [exact Hip|by apply program_end|]. cbv beta iota.
    wp_step. split; [done|]. exists (e_ip e). change (texts s []) with (@nil Z) in *.
    apply zlen_nil_inv in Hl. subst room.
    rewrite app_nil_r in *. destruct e; cbn in *. by subst.
  - apply Forall_cons in Hps as [Hp Hps]. apply Forall_cons in Hk as [Hkp Hk]. cbn [length] in Hfuel.
    rewrite texts_cons in Hl.
    pose proof (zlen_nonneg (texts s post)). pose proof (zlen_nonneg (piece_text s p)).
    destruct (mem_split (zlen (piece_text s p)) room) as (room1 & room2 & -> & Hr1); [lia|].
    rewrite zlen_app in Hl.
    eapply run_values_step; [exact Hip|by apply program_at|].
    eapply wp_mono; [by apply (run_val_piece p (EState s e) (span (val_item <$> pre)) pre' room1 room2)|]. cbn [es_sess es_e].
    intros _ st1 ->.
    eapply wp_mono; [apply (IH (pre ++ [p]) fuel _ (pre' ++ piece_text s p) room2); try done|].
    + by rewrite <- app_assoc.
    + lia.
    + cbn. f_equal. rewrite fmap_app, span_app. unfold span, sumz. cbn. lia.
    + cbn. by rewrite app_assoc.
    + cbn. by rewrite zlen_app.
    + lia.
    + intros _ st2 [-> (ip & ->)]. split; [done|]. exists ip. unfold texts. cbn.
      unfold wrote. by rewrite <- !app_assoc.
Qed.

(** ** Flushing *)

(** A value that is not to be cached, after a flush. *)
Definition flush_value (v : var_value) : var_value :=
  if no_cacheable v then v <| valid := false |> <| not_found := false |> else v.

(** The slots after a flush of the indices [ix]. *)
Definition flushed (ix : list nat) (l : list var_value) : list var_value :=
  foldl (fun l i => alter flush_value i l) l ix.

Lemma flushed_length ix : forall l, length (flushed ix l) = length l.
Proof.
  unfold flushed. induction ix as [|i ix IH]; intros l; [done|]. cbn [foldl].
  by rewrite IH, length_alter.
Qed.

Lemma flushed_Forall (P : list Z -> Prop) ix : forall l,
  Forall (fun v => P (vv_data v)) l -> Forall (fun v => P (vv_data v)) (flushed ix l).
Proof.
  unfold flushed. induction ix as [|i ix IH]; intros l Hl; [done|]. apply IH.
  apply Forall_alter; [done|]. intros v _. unfold flush_value. by destruct (no_cacheable v).
Qed.

Definition flush_session (ix : list nat) (s : vsess W) : vsess W := s <| slots := flushed ix (slots s) |>.

Lemma flush_session_ok ix s : ok s -> ok (flush_session ix s).
Proof.
  intros [L D V Hh]. split; [cbn; by rewrite flushed_length|done| |done].
  apply (flushed_Forall (fun d => zlen d < 2 ^ 28)). exact V.
Qed.

Lemma flush_one i s (k : M (vsess W) unit) (Q : unit -> vsess W -> Prop) :
  (i < length (slots s))%nat -> wp k Q (flush_session [i] s) ->
  wp (v ← slot (Z.to_nat (Z.of_nat i));
      (if no_cacheable v
       then on_slot (Z.to_nat (Z.of_nat i)) (fun x => x <| valid := false |> <| not_found := false |>)
       else mret tt);; k) Q s.
Proof.
  intros Hi HQ. rewrite Nat2Z.id. destruct (lookup_lt_is_Some_2 _ _ Hi) as [v Hv].
  wp_step. unfold slot at 1. wp_step. wp_step. eapply wp_mderef; [exact Hv|].
  unfold flush_session, flushed in HQ. cbn [foldl] in HQ.
  assert (Ha : alter flush_value i (slots s) = <[i := flush_value v]> (slots s)).
  { apply list_eq. intros j. destruct (decide (i = j)) as [<-|Hne].
    - by rewrite list_lookup_alter_eq, Hv, list_lookup_insert_eq by done.
    - by rewrite list_lookup_alter_ne, list_lookup_insert_ne. }
  rewrite Ha in HQ. unfold flush_value in HQ. wp_step. destruct (no_cacheable v).
  - by eapply wp_on_slot.
  - wp_step. rewrite list_insert_id in HQ by done. by destruct s.
Qed.

(** The array of flushes that compilation leaves. *)
Definition flush_array (ix : list nat) : option (list Z) :=
  match ix with [] => None | _ => Some ((Z.of_nat <$> ix) ++ [FLUSH_END]) end.

Lemma flush_indices_spec ix : forall s,
  Forall (fun i => (i < length (slots s))%nat) ix -> Z.of_nat (length (slots s)) <= FLUSH_END ->
  wp (flush_indices ((Z.of_nat <$> ix) ++ [FLUSH_END])) (fun _ s' => s' = flush_session ix s) s.
Proof.
  induction ix as [|i ix IH]; intros s Hix Hmax.
  { cbn. by destruct s. }
  apply Forall_cons in Hix as [Hi Hix]. cbn [fmap list_fmap app flush_indices].
  destruct (Z.eqb_spec (Z.of_nat i) FLUSH_END); [lia|].
  apply flush_one; [done|].
  assert (Hlen : length (slots (flush_session [i] s)) = length (slots s)) by apply (flushed_length [i]).
  eapply wp_mono; [apply IH|].
  - by rewrite Hlen.
  - by rewrite Hlen.
  - by intros _ s' ->.
Qed.

Lemma wp_with_engine {A} (m : M (estate W) A) e s (Q : A * engine -> vsess W -> Prop) :
  wp m (fun a st => Q (a, es_e st) (es_sess st)) (EState s e) -> wp (with_engine m e) Q s.
Proof. unfold wp, with_engine. by destruct (m (EState s e)) as [[a st]| |]. Qed.

Lemma wp_value_alloc len s (Q : option (list Z) -> vsess W -> Prop) :
  (forall mem w, pool_bytes len (vs_env s) = (mem, w) -> Q mem (s <| vs_env := w |>)) ->
  wp (value_alloc len) Q s.
Proof.
  intros HQ. unfold value_alloc. wp_step. wp_step.
  destruct (pool_bytes len (vs_env s)) as [mem w] eqn:Hp. wp_step. wp_step. wp_step. by apply HQ.
Qed.

(** Both passes over the same pieces: the second fills exactly what the first asked for. *)
Lemma run_passes_pieces ps s :
  ok s -> Forall (piece_ok s) ps -> zlen ps < 2 ^ 32 ->
  wp (run_passes cmcf call conf_prefix prefix ngx_get_full_name true
        (assemble (program len_item ps)) (assemble (program val_item ps)) 0)
    (fun r s' => keeps_settled s s' /\ ok s' /\ Forall (known s') ps /\
       match r with
       | Some e => ebuf_bytes e = Some (texts s' ps)
       | None => exists w, (pool_bytes (zlen (texts s' ps)) w).1 = None
       end) s.
Proof.
  intros Hok Hps Hmax. unfold run_passes. wp_step. apply wp_with_engine.
  eapply wp_mono.
  { apply (run_lengths_pieces ps ps []); try done; [|lia].
    apply program_fuel. intros p. apply item_sizes_ok. }
  intros n st (K & Hok1 & Hk & -> & Hlt & ip & He). rewrite Z.add_0_l in *.
  wp_step. apply wp_value_alloc. intros mem w Hp.
  set (s1 := es_sess st) in *. set (s2 := s1 <| vs_env := w |>).
  assert (K2 : keeps_settled s s2) by (etrans; [exact K|apply env_keeps]).
  destruct (texts_keeps s1 s2 ps (env_keeps s1 w) Hk) as [Hk2 Ht].
  assert (Hok2 : ok s2) by (destruct Hok1; by split).
  destruct mem as [mem|].
  - apply pool_bytes_length in Hp as [Hmem _]; [|apply zlen_nonneg].
    wp_step. apply wp_with_engine. eapply wp_mono.
    { apply (run_values_pieces ps s2 ps [] _ _ [] mem); try done.
      - apply program_fuel. intros p. apply item_sizes_ok.
      - by rewrite He.
      - by rewrite He.
      - eapply Forall_impl; [exact Hps|]. intros p. by apply piece_ok_keeps. }
    intros [] st' [Hs' (ip' & He')]. cbn. rewrite Hs'. split_and!; try done.
    rewrite He'. unfold ebuf_bytes. cbn. rewrite Ht.
    pose proof (load_app [] (texts s1 ps) []) as Hld. by rewrite app_nil_r in Hld.
  - wp_step. split_and!; try done. exists (vs_env s1). by rewrite Ht, Hp.
Qed.

(** A compiled value: the two programs of its pieces and the indices to flush. *)
Definition value_for (ps : list piece) (ix : list nat) (val : complex_value) : Prop :=
  cv_lengths val = Some (assemble (program len_item ps)) /\
  cv_values val = Some (assemble (program val_item ps)) /\
  cv_flushes val = flush_array ix.

Lemma complex_value_pieces ps ix val s :
  value_for ps ix val -> ok s -> Forall (piece_ok s) ps -> zlen ps < 2 ^ 32 ->
  Forall (fun i => (i < length (slots s))%nat) ix -> Z.of_nat (length (slots s)) <= FLUSH_END ->
  wp (ngx_nsoc_complex_value cmcf call conf_prefix prefix ngx_get_full_name val)
    (fun r s' => keeps_settled (flush_session ix s) s' /\ ok s' /\ Forall (known s') ps /\
       (r = Some (texts s' ps) \/
        r = None /\ exists w, (pool_bytes (zlen (texts s' ps)) w).1 = None)) s.
Proof.
  intros (Hl & Hv & Hf) Hok Hps Hmax Hix Hlen. unfold ngx_nsoc_complex_value. rewrite Hl, Hv.
  wp_step. assert (Hflush : wp (ngx_nsoc_script_flush_complex_value val) (fun _ s' => s' = flush_session ix s) s).
  { unfold ngx_nsoc_script_flush_complex_value. rewrite Hf.
    destruct ix as [|i ix]; [cbn; by destruct s|]. by apply flush_indices_spec. }
  eapply wp_mono; [exact Hflush|]. intros _ s' ->. cbv beta. cbn [mderef]. do 2 wp_step.
  wp_step. eapply wp_mono; [apply run_passes_pieces; [by apply flush_session_ok| |done]|].
  - eapply Forall_impl; [exact Hps|]. by intros [].
  - intros [e|] s' (K & Hok' & Hk & Hr); cbv beta.
    + wp_step. eapply wp_mderef; [exact Hr|]. wp_step. auto.
    + wp_step. split_and!; auto.
Qed.
End EvalProofs.

(** ** The syntax of templates *)

Inductive tpl := TLit (bs : list Z) | TVar (name : list Z) | TCap (n : Z).

Definition word (name : list Z) : Prop := Forall (fun ch => is_word ch = true) name.

(** A template is literals without a dollar sign, captures [$1] to [$9], and variables
    [$name] or [${name}]; a name without braces and a literal are as long as they can be. *)
Inductive template : list Z -> list tpl -> Prop :=
| template_nil : template [] []
| template_lit bs rest ts :
    bs <> [] -> DOLLAR ∉ bs -> (forall ch, head rest = Some ch -> ch = DOLLAR) ->
    template rest ts -> template (bs ++ rest) (TLit bs :: ts)
| template_cap d rest ts :
    is_capture d = true -> template rest ts -> template (DOLLAR :: d :: rest) (TCap (d - 48) :: ts)
| template_brace name rest ts :
    name <> [] -> word name -> template rest ts ->
    template (DOLLAR :: LBRACE :: name ++ RBRACE :: rest) (TVar name :: ts)
| template_var d name rest ts :
    is_capture d = false -> word (d :: name) -> (forall ch, head rest = Some ch -> is_word ch = false) ->
    template rest ts -> template (DOLLAR :: d :: name ++ rest) (TVar (d :: name) :: ts).

(** The part of a template one round of the compiler takes. *)
Definition parse_var (bracket : bool) (rest : list Z) : option (tpl * list Z) :=
  let '(name, bracket, rest) := scan_name bracket rest in
  if (bracket : bool) then None else
  if (length name =? 0)%nat then None else Some (TVar name, rest).

Definition parse_one (rest : list Z) : option (tpl * list Z) :=
  match rest with
  | [] => None
  | ch :: rest' =>
      if ch =? DOLLAR then
        match rest' with
        | [] => None
        | d :: rest'' =>
            if is_capture d then Some (TCap (d - 48), rest'')
            else if d =? LBRACE then match rest'' with [] => None | _ => parse_var true rest'' end
            else parse_var false rest'
        end
      else let '(lit, rest) := scan_literal rest in Some (TLit lit, rest)
  end.

Lemma word_not_brace ch : is_word ch = true -> ch <> RBRACE /\ ch <> DOLLAR /\ ch <> LBRACE.
Proof. unfold is_word, between, RBRACE, DOLLAR, LBRACE. lia. Qed.

Lemma scan_name_spec b : forall rest name b' r, scan_name b rest = (name, b', r) ->
  word name /\
  ((b = true /\ b' = false /\ rest = name ++ RBRACE :: r) \/
   (b' = b /\ rest = name ++ r /\ forall ch, head r = Some ch -> is_word ch = false)).
Proof.
  induction rest as [|ch rest IH]; intros name b' r; cbn [scan_name].
  { intros ?; simplify_eq. split; [constructor|]. by right. }
  destruct ((ch =? RBRACE) && b) eqn:Hc.
  { apply andb_true_iff in Hc as [->%Z.eqb_eq ->]. intros ?; simplify_eq.
    split; [constructor|]. by left. }
  destruct (is_word ch) eqn:Hw.
  - destruct (scan_name b rest) as [[n1 b1] r1]. intros [= <- <- <-].
    destruct (IH _ _ _ eq_refl) as [Hword Hor]. split; [by constructor|].
    destruct Hor as [(-> & -> & ->)|(-> & -> & Hh)]; [by left|by right].
  - intros [= <- <- <-]. split; [constructor|]. right. split_and!; [done|done|by intros ? [= <-]].
Qed.

Lemma scan_name_brace name r : word name -> scan_name true (name ++ RBRACE :: r) = (name, false, r).
Proof.
  induction 1 as [|ch name Hw _ IH]; [done|]. cbn [app scan_name].
  destruct (word_not_brace ch Hw) as (Hr & _). destruct (Z.eqb_spec ch RBRACE); [done|].
  cbn [andb]. by rewrite Hw, IH.
Qed.

Lemma scan_name_plain name r : word name -> (forall ch, head r = Some ch -> is_word ch = false) ->
  scan_name false (name ++ r) = (name, false, r).
Proof.
  intros Hword Hh. induction Hword as [|ch name Hw _ IH].
  - destruct r as [|ch r]; [done|]. cbn [app scan_name]. rewrite andb_false_r. by rewrite (Hh ch).
  - cbn [app scan_name]. rewrite andb_false_r. by rewrite Hw, IH.
Qed.

Lemma scan_literal_spec rest : forall lit r, scan_literal rest = (lit, r) ->
  rest = lit ++ r /\ (DOLLAR ∉ lit) /\ (forall ch, head r = Some ch -> ch = DOLLAR).
Proof.
  induction rest as [|ch rest IH]; intros lit r; cbn [scan_literal].
  { intros ?; simplify_eq. split_and!; [done|apply not_elem_of_nil|done]. }
  destruct (Z.eqb_spec ch DOLLAR) as [->|Hch].
  - intros ?; simplify_eq. split_and!; [done|apply not_elem_of_nil|by intros ? [= <-]].
  - destruct (scan_literal rest) as [l1 r1]. intros ?; simplify_eq.
    destruct (IH _ _ eq_refl) as (-> & Hd & Hh). split_and!; [done| |done].
    by apply not_elem_of_cons.
Qed.

Lemma scan_literal_lit bs rest : DOLLAR ∉ bs -> (forall ch, head rest = Some ch -> ch = DOLLAR) ->
  scan_literal (bs ++ rest) = (bs, rest).
Proof.
  intros Hd Hh. induction bs as [|ch bs IH].
  - destruct rest as [|ch rest]; [done|]. rewrite (Hh ch) by done. done.
  - apply not_elem_of_cons in Hd as [Hch Hd]. cbn [app scan_literal].
    destruct (Z.eqb_spec ch DOLLAR); [congruence|]. by rewrite IH.
Qed.

Lemma parse_one_sound rest t r ts : parse_one rest = Some (t, r) -> template r ts ->
  template rest (t :: ts).
Proof.
  destruct rest as [|ch rest']; [done|]. cbn [parse_one].
  destruct (Z.eqb_spec ch DOLLAR) as [->|Hch].
  - destruct rest' as [|d rest'']; [done|]. destruct (is_capture d) eqn:Hd.
    { intros ? Ht; simplify_eq. by constructor. }
    destruct (Z.eqb_spec d LBRACE) as [->|Hb]; unfold parse_var.
    + destruct rest'' as [|x rest'']; [done|].
      destruct (scan_name true (x :: rest'')) as [[name b] r1] eqn:Hs.
      apply scan_name_spec in Hs as [Hw [(_ & -> & ->)|(-> & _)]]; [|done].
      destruct name as [|y name]; [done|]. cbn. intros ? Ht; simplify_eq. by apply (template_brace (y :: name)).
    + destruct (scan_name false (d :: rest'')) as [[name b] r1] eqn:Hs.
      apply scan_name_spec in Hs as [Hw [(? & _)|(-> & He & Hh)]]; [done|].
      destruct name as [|y name]; [done|]. cbn in He |- *. intros ? Ht; simplify_eq.
      by apply (template_var y name).
  - destruct (scan_literal (ch :: rest')) as [lit r1] eqn:Hs.
    intros ? Ht; simplify_eq. pose proof Hs as Hs'. apply scan_literal_spec in Hs as (-> & Hd & Hh).
    apply template_lit; try done. intros ->. cbn [scan_literal] in Hs'.
    destruct (Z.eqb_spec ch DOLLAR); [done|]. by destruct (scan_literal rest').
Qed.

Lemma parse_one_complete rest ts : template rest ts -> rest <> [] ->
  exists t r ts', ts = t :: ts' /\ parse_one rest = Some (t, r) /\ template r ts'.
Proof.
  destruct 1 as [|bs rest ts Hbs Hd Hh Ht|d rest ts Hd Ht|name rest ts Hn Hw Ht|d name rest ts Hd Hw Hh Ht];
    intros Hne; [done|..].
  - exists (TLit bs), rest, ts. split_and!; try done.
    pose proof (scan_literal_lit bs rest Hd Hh) as Hs.
    destruct bs as [|ch bs]; [done|]. cbn [app parse_one] in *.
    apply not_elem_of_cons in Hd as [Hch _]. destruct (Z.eqb_spec ch DOLLAR); [congruence|]. by rewrite Hs.
  - exists (TCap (d - 48)), rest, ts. split_and!; try done. cbn. by rewrite Hd.
  - exists (TVar name), rest, ts. split_and!; try done. cbn [parse_one].
    rewrite Z.eqb_refl. change (is_capture LBRACE) with false. cbn iota. rewrite Z.eqb_refl.
    unfold parse_var. rewrite (scan_name_brace name rest Hw). destruct name as [|x name]; [done|]. done.
  - exists (TVar (d :: name)), rest, ts. split_and!; try done. cbn [parse_one].
    rewrite Z.eqb_refl, Hd. apply list.Forall_cons in Hw as [Hwd Hw].
    destruct (word_not_brace d Hwd) as (_ & _ & Hb). destruct (Z.eqb_spec d LBRACE); [done|].
    unfold parse_var. rewrite app_comm_cons, scan_name_plain; [done|by constructor|done].
Qed.

(** The variables of the pieces, in order: what the compiler wants flushed. *)
Definition piece_vars (ps : list piece) : list nat :=
  omap (fun p => match p with PVar i => Some i | _ => None end) ps.

(** A piece compiled from a part of a template, given the indexed variables. *)
Definition compiles_to {H} (vs : list (variable H)) `{!NgxStr} (t : tpl) (p : piece) : Prop :=
  match t, p with
  | TLit bs, PLit bs' => bs = bs'
  | TVar name, PVar i => exists v, vs !! i = Some v /\ v_name v = ngx_strlow name
  | TCap n, PCap m => n = m
  | _, _ => False
  end.

Section CompileProofs.
Context {H T W : Type} `{!NgxStr} `{!NgxStrLaws} `{!NgxHash T} `{!NgxPool W}.
Context (uninit : variable H).
Implicit Types (sc : script_compile H T W) (ts : list tpl) (ps : list piece).

(** What holds of the compiler's state after the parts [ts] became the pieces [ps]; [cap]
    is the room the flushes were given. *)
Record sc_ok (cap : Z) (sc : script_compile H T W) (ts : list tpl) (ps : list piece) : Prop := {
  so_lengths : sc_lengths sc = Some (assemble (len_item <$> ps));
  so_values : sc_values sc = Some (assemble (val_item <$> ps));
  so_flushes : exists nalloc, sc_flushes sc = Some (Some (IndexArray (Z.of_nat <$> piece_vars ps) nalloc)) /\
    cap <= nalloc;
  so_zero : sc_zero sc = false;
  so_prefix : sc_conf_prefix sc = false /\ sc_root_prefix sc = false;
  so_complete : sc_complete_lengths sc = true /\ sc_complete_values sc = true;
  so_indexed : indexed_ok (indexed (sc_cf sc));
  so_pieces : Forall2 (compiles_to (indexed (sc_cf sc))) ts ps;
}.

Lemma compiles_to_mono (vs vs' : list (variable H)) t p :
  vs `prefix_of` vs' -> compiles_to vs t p -> compiles_to vs' t p.
Proof.
  intros Hpre. destruct t, p; cbn; try done. intros (v & Hv & Hn). exists v. split; [|done].
  by eapply prefix_lookup_Some.
Qed.

Lemma piece_vars_app ps ps' : piece_vars (ps ++ ps') = piece_vars ps ++ piece_vars ps'.
Proof. apply omap_app. Qed.

Lemma wp_on_cf {A} (m : M (vconf H T W) A) (Q : A -> script_compile H T W -> Prop) sc :
  wp m (fun a c => Q a (sc <| sc_cf := c |>)) (sc_cf sc) -> wp (on_cf m) Q sc.
Proof. unfold wp, on_cf. by destruct (m (sc_cf sc)) as [[a c]| |]. Qed.

Lemma wp_sc_alloc sc (Q : bool -> script_compile H T W -> Prop) :
  (forall ok w, (ok = false -> out_of_memory W) -> Q ok (sc <| sc_cf ::= (fun c => c <| vc_pool := w |>) |>)) ->
  wp sc_alloc Q sc.
Proof. intros HQ. apply wp_on_cf, wp_conf_alloc. intros ok w Hm. by apply HQ. Qed.

(** A state that differs in the pool only. *)
Definition repooled (sc : script_compile H T W) (w : W) : script_compile H T W :=
  sc <| sc_cf ::= (fun c => c <| vc_pool := w |>) |>.

Lemma wp_add_code items size c sc (Q : option codes -> script_compile H T W -> Prop) :
  (forall w, Q (Some (assemble (items ++ [(c, size)]))) (repooled sc w)) ->
  (forall w, out_of_memory W -> Q None (repooled sc w)) ->
  wp (ngx_nsoc_script_add_code (assemble items) size c) Q sc.
Proof.
  intros HQ Hno. unfold ngx_nsoc_script_add_code. wp_step. apply wp_sc_alloc. intros ok w Hm.
  destruct ok; cbn [negb]; wp_step; [|by apply Hno, Hm]. rewrite <- assemble_snoc. apply HQ.
Qed.

Lemma wp_add_codes ls vs lsize lcode vsize vcode sc (Q : bool -> script_compile H T W -> Prop) :
  sc_lengths sc = Some (assemble ls) -> sc_values sc = Some (assemble vs) ->
  (forall w, Q true ((repooled sc w) <| sc_lengths := Some (assemble (ls ++ [(lcode, lsize)])) |>
                                   <| sc_values := Some (assemble (vs ++ [(vcode, vsize)])) |>)) ->
  (forall sc', out_of_memory W -> Q false sc') ->
  wp (add_codes lsize lcode vsize vcode) Q sc.
Proof.
  intros Hl Hv HQ Hno. unfold add_codes. wp_step. wp_step. wp_step. eapply wp_mderef; [exact Hl|].
  wp_step. apply wp_add_code; [|intros w Hm; wp_step; by apply Hno]. intros w.
  wp_step. wp_step. wp_step. wp_step. wp_step. eapply wp_mderef; [exact Hv|].
  wp_step. apply wp_add_code; [|intros w' Hm; wp_step; by apply Hno]. intros w'.
  wp_step. wp_step. wp_step. apply (HQ w').
Qed.

(** The state after a piece was added. *)
Lemma sc_ok_snoc cap sc ts ps t p w :
  sc_ok cap sc ts ps -> compiles_to (indexed (sc_cf sc)) t p -> piece_vars [p] = [] ->
  sc_ok cap ((repooled sc w)
    <| sc_lengths := Some (assemble ((len_item <$> ps) ++ [len_item p])) |>
    <| sc_values := Some (assemble ((val_item <$> ps) ++ [val_item p])) |>) (ts ++ [t]) (ps ++ [p]).
Proof.
  intros [L V F Z P C I M] Ht Hp. split; try done.
  - cbn. by rewrite fmap_app.
  - cbn. by rewrite fmap_app.
  - by rewrite piece_vars_app, Hp, app_nil_r.
  - apply Forall2_app; [done|]. by constructor.
Qed.

(** A field that the invariant does not mention. *)
Lemma sc_ok_ext cap sc sc' ts ps :
  sc_ok cap sc ts ps -> sc_lengths sc' = sc_lengths sc -> sc_values sc' = sc_values sc ->
  sc_flushes sc' = sc_flushes sc -> sc_zero sc' = sc_zero sc ->
  sc_conf_prefix sc' = sc_conf_prefix sc -> sc_root_prefix sc' = sc_root_prefix sc ->
  sc_complete_lengths sc' = sc_complete_lengths sc -> sc_complete_values sc' = sc_complete_values sc ->
  sc_cf sc' = sc_cf sc -> sc_ok cap sc' ts ps.
Proof.
  intros [L V F Z P C I M] E1 E2 E3 E4 E5 E6 E7 E8 E9.
  by split; rewrite ?E1, ?E2, ?E3, ?E4, ?E5, ?E6, ?E7, ?E8, ?E9.
Qed.

Lemma add_copy_ok cap sc ts ps lit last :
  sc_ok cap sc ts ps ->
  wp (ngx_nsoc_script_add_copy_code lit last)
    (fun rc sc' => if rc =? NGX_OK then sc_ok cap sc' (ts ++ [TLit lit]) (ps ++ [PLit lit])
                   else out_of_memory W) sc.
Proof.
  intros Hok. unfold ngx_nsoc_script_add_copy_code. wp_step. wp_step. rewrite (so_zero _ _ _ _ Hok).
  cbn [andb]. rewrite Z.add_0_r, app_nil_r. wp_step.
  eapply wp_add_codes; [apply Hok|apply Hok| |].
  - intros w. cbn [negb]. wp_step. wp_step. wp_step. apply (sc_ok_snoc cap sc ts ps (TLit lit) (PLit lit)); done.
  - intros sc' Hm. cbn [negb]. by wp_step.
Qed.

Lemma add_capture_ok cap sc ts ps n :
  sc_ok cap sc ts ps ->
  wp (ngx_nsoc_script_add_capture_code n)
    (fun rc sc' => if rc =? NGX_OK then sc_ok cap sc' (ts ++ [TCap n]) (ps ++ [PCap n])
                   else out_of_memory W) sc.
Proof.
  intros Hok. unfold ngx_nsoc_script_add_capture_code. wp_step.
  eapply wp_add_codes; [apply Hok|apply Hok| |].
  - intros w. cbn [negb]. wp_step. wp_step. wp_step.
    pose proof (sc_ok_snoc cap sc ts ps (TCap n) (PCap n) w Hok eq_refl eq_refl) as Hs.
    destruct (_ <? n); wp_step; wp_step; cbn [Z.eqb NGX_OK]; [|exact Hs].
    by eapply sc_ok_ext; [exact Hs|..].
  - intros sc' Hm. cbn [negb]. by wp_step.
Qed.

Lemma push_flush_ok cap sc ts ps i (Q : bool -> script_compile H T W -> Prop) :
  sc_ok cap sc ts ps ->
  (forall nalloc w, cap <= nalloc ->
     Q true ((repooled sc w) <| sc_flushes := Some (Some (IndexArray ((Z.of_nat <$> piece_vars ps) ++ [i]) nalloc)) |>)) ->
  (forall sc', out_of_memory W -> Q false sc') ->
  wp (push_flush i) Q sc.
Proof.
  intros Hok HQ Hno. unfold push_flush. destruct (so_flushes _ _ _ _ Hok) as (nalloc & Hf & Hcap).
  wp_step. wp_step. rewrite Hf. wp_step. eapply wp_mderef; [done|]. wp_step. apply wp_sc_alloc.
  intros ok w Hm. destruct ok; cbn [negb]; [|wp_step; by apply Hno, Hm].
  wp_step. wp_step. wp_step. apply (HQ (Z.max nalloc (zlen (Z.of_nat <$> piece_vars ps) + 1)) w). lia.
Qed.

Lemma add_var_ok cap sc ts ps name :
  sc_ok cap sc ts ps -> name <> [] ->
  wp (ngx_nsoc_script_add_var_code uninit name)
    (fun rc sc' => if rc =? NGX_OK then exists i, sc_ok cap sc' (ts ++ [TVar name]) (ps ++ [PVar i])
                   else out_of_memory W) sc.
Proof.
  intros Hok Hne. unfold ngx_nsoc_script_add_var_code. wp_step. apply wp_on_cf.
  eapply wp_mono; [apply get_index_ok, (so_indexed _ _ _ _ Hok)|].
  intros r c [[-> [?|Hm]]|(i & v & -> & Hv & Hn & Hpre & Hix)]; [done|rewrite Z.eqb_refl; by wp_step|].
  destruct (Z.eqb_spec (Z.of_nat i) NGX_ERROR) as [He|_]; [unfold NGX_ERROR in He; lia|].
  set (sc1 := sc <| sc_cf := c |>).
  assert (Hok1 : sc_ok cap sc1 ts ps).
  { destruct Hok as [L V F Z P C I M]. split; try done.
    eapply Forall2_impl; [exact M|]. intros t p. by apply compiles_to_mono. }
  wp_step. eapply push_flush_ok; [exact Hok1| |intros sc' Hm; cbn [negb]; by wp_step].
  intros nalloc w Hcap. cbn [negb]. wp_step.
  eapply wp_add_codes; [apply Hok1|apply Hok1| |intros sc' Hm; cbn [negb]; by wp_step].
  intros w'. cbn [negb]. wp_step. exists i. destruct Hok1 as [L V F Z P C I M]. split; try done.
  - cbn. by rewrite fmap_app.
  - cbn. by rewrite fmap_app.
  - exists nalloc. split; [|done]. cbn. by rewrite piece_vars_app, fmap_app.
  - apply Forall2_app; [done|]. constructor; [|constructor]. by exists v.
Qed.

(** One round: a part of the template becomes a piece, or there is no part, or no memory. *)
Definition compiled_one (cap : Z) (rest : list Z) (ts : list tpl) (ps : list piece)
    (r : option (list Z)) (sc' : script_compile H T W) : Prop :=
  match r with
  | Some rest' => exists t p, parse_one rest = Some (t, rest') /\ sc_ok cap sc' (ts ++ [t]) (ps ++ [p])
  | None => parse_one rest = None \/ out_of_memory W
  end.

Lemma compile_variable_ok cap sc ts ps bracket rest :
  sc_ok cap sc ts ps ->
  wp (compile_variable uninit bracket rest) (fun r sc' =>
    match r with
    | Some rest' => exists t p, parse_var bracket rest = Some (t, rest') /\
        sc_ok cap sc' (ts ++ [t]) (ps ++ [p])
    | None => parse_var bracket rest = None \/ out_of_memory W
    end) sc.
Proof.
  intros Hok. unfold compile_variable, parse_var.
  destruct (scan_name bracket rest) as [[name b] rest'].
  destruct b; [wp_step; by left|]. destruct (Nat.eqb_spec (length name) 0) as [_|Hne]; [wp_step; by left|].
  wp_step. wp_step. wp_step. wp_step. wp_step.
  eapply wp_mono.
  { apply (add_var_ok cap _ ts ps name); [by eapply sc_ok_ext; [exact Hok|..]|]. by intros ->. }
  intros rc sc' Hrc. cbv beta in Hrc. destruct (rc =? NGX_OK); cbn [negb]; wp_step; [|by right].
  destruct Hrc as [i Hok']. by exists (TVar name), (PVar i).
Qed.

Lemma compile_step_ok cap sc ts ps rest :
  sc_ok cap sc ts ps -> wp (compile_step uninit rest) (compiled_one cap rest ts ps) sc.
Proof.
  intros Hok. unfold compile_step, compiled_one. destruct rest as [|ch rest']; [wp_step; by left|].
  cbn [parse_one]. destruct (ch =? DOLLAR).
  - destruct rest' as [|d rest'']; [wp_step; by left|]. destruct (is_capture d).
    + wp_step. eapply wp_mono; [by apply add_capture_ok|]. intros rc sc' Hrc. cbv beta in Hrc.
      destruct (rc =? NGX_OK); cbn [negb]; wp_step; [|by right]. by exists (TCap (d - 48)), (PCap (d - 48)).
    + destruct (d =? LBRACE); [destruct rest'' as [|x rest'']; [wp_step; by left|]|];
        by apply compile_variable_ok.
  - destruct (scan_literal (ch :: rest')) as [lit r]. wp_step. wp_step. wp_step. wp_step. wp_step.
    eapply wp_mono.
    { apply (add_copy_ok cap _ ts ps lit). by eapply sc_ok_ext; [exact Hok|..]. }
    intros rc sc' Hrc. cbv beta in Hrc. destruct (rc =? NGX_OK); cbn [negb]; wp_step; [|by right].
    by exists (TLit lit), (PLit lit).
Qed.

Lemma parse_one_shorter rest t r : parse_one rest = Some (t, r) -> (length r < length rest)%nat.
Proof.
  destruct rest as [|ch rest']; [done|]. cbn [parse_one]. destruct (ch =? DOLLAR) eqn:Hch.
  - destruct rest' as [|d rest'']; [done|]. destruct (is_capture d); [intros [= <- <-]; cbn; lia|].
    assert (Hvar : forall b l, parse_var b l = Some (t, r) -> (length r <= length l)%nat).
    { intros b l. unfold parse_var. destruct (scan_name b l) as [[name b'] r'] eqn:Hs.
      destruct b'; [done|]. destruct (_ =? _)%nat; [done|]. intros [= <- <-].
      apply scan_name_spec in Hs as [_ [(_ & _ & ->)|(_ & -> & _)]];
        rewrite length_app; cbn; lia. }
    destruct (d =? LBRACE); [destruct rest'' as [|x rest'']; [done|]|]; intros Hp%Hvar; cbn in *; lia.
  - destruct (scan_literal (ch :: rest')) as [lit r1] eqn:Hs. intros [= <- <-].
    pose proof Hs as Hs'. apply scan_literal_spec in Hs as [He _]. rewrite He, length_app.
    destruct lit; [|cbn; lia]. cbn [scan_literal] in Hs'. rewrite Hch in Hs'. by destruct (scan_literal rest').
Qed.

(** The loop: the source is a template and its parts are compiled, or it is none, or there
    is no memory. *)
Lemma compile_loop_ok cap : forall fuel rest sc ts ps,
  (length rest <= fuel)%nat -> sc_ok cap sc ts ps ->
  wp (compile_loop uninit fuel rest) (fun ok sc' =>
    if (ok : bool) then exists ts' ps', template rest ts' /\ sc_ok cap sc' (ts ++ ts') (ps ++ ps')
    else (forall ts', ~ template rest ts') \/ out_of_memory W) sc.
Proof.
  induction fuel as [|fuel IH]; intros rest sc ts ps Hfuel Hok; destruct rest as [|ch rest].
  1, 3: cbn [compile_loop]; wp_step; exists [], []; rewrite !app_nil_r; split; [constructor|done].
  { cbn in Hfuel. lia. }
  cbn [compile_loop]. wp_step. eapply wp_mono; [by apply compile_step_ok|].
  intros [rest'|] sc' Hr; cbn [compiled_one] in Hr.
  - destruct Hr as (t & p & Hp & Hok'). apply parse_one_shorter in Hp as Hlt. cbn [length] in *.
    eapply wp_mono; [apply (IH rest' sc' (ts ++ [t]) (ps ++ [p])); [lia|done]|].
    intros [] sc2.
    + intros (ts' & ps' & Ht & Hok2). exists (t :: ts'), (p :: ps').
      rewrite <- !app_assoc in Hok2. split; [by eapply parse_one_sound|done].
    + intros [Hno|Hm]; [left|by right]. intros ts' Ht.
      destruct (parse_one_complete _ _ Ht ltac:(done)) as (t' & r & ts2 & -> & Hp' & Ht').
      rewrite Hp in Hp'. simplify_eq. by apply (Hno ts2).
  - cbv beta iota. wp_step. destruct Hr as [Hp|Hm]; [left|by right]. intros ts' Ht.
    destruct (parse_one_complete _ _ Ht ltac:(done)) as (t' & r & ts2 & -> & Hp' & _). congruence.
Qed.

(** The two programs with their exit codes. *)
Lemma script_done_ok cap sc ts ps :
  sc_ok cap sc ts ps ->
  wp ngx_nsoc_script_done (fun rc sc' =>
    if rc =? NGX_OK
    then sc_lengths sc' = Some (assemble (program len_item ps)) /\
         sc_values sc' = Some (assemble (program val_item ps)) /\
         sc_flushes sc' = sc_flushes sc /\ indexed (sc_cf sc') = indexed (sc_cf sc)
    else out_of_memory W) sc.
Proof.
  intros [L V F Z [P P'] [C C'] I M]. unfold ngx_nsoc_script_done.
  wp_step. wp_step. rewrite Z. wp_step. wp_step. cbn [negb NGX_OK Z.eqb].
  wp_step. wp_step. wp_step. wp_step. rewrite P, P'. cbn [orb]. wp_step. wp_step. cbn [negb NGX_OK Z.eqb].
  wp_step. wp_step. rewrite C. wp_step. wp_step. wp_step. wp_step. eapply wp_mderef; [exact L|].
  wp_step. apply wp_add_code; [|intros w Hm; wp_step; by wp_step]. intros w. wp_step. wp_step. wp_step.
  wp_step. wp_step. cbn [sc_complete_values upd repooled]. rewrite C'.
  wp_step. wp_step. wp_step. wp_step. eapply wp_mderef; [exact V|].
  wp_step. apply wp_add_code; [|intros w' Hm; wp_step; by wp_step]. intros w'. wp_step. wp_step. wp_step.
  by wp_step.
Qed.

(** [ngx_nsoc_script_compile] with arrays that exist and nothing to append. *)
Lemma script_compile_ok cap sc :
  sc_ok cap sc [] [] ->
  wp (ngx_nsoc_script_compile uninit) (fun rc sc' =>
    if rc =? NGX_OK
    then exists ts ps, template (sc_source sc) ts /\
      sc_lengths sc' = Some (assemble (program len_item ps)) /\
      sc_values sc' = Some (assemble (program val_item ps)) /\
      (exists nalloc, sc_flushes sc' = Some (Some (IndexArray (Z.of_nat <$> piece_vars ps) nalloc)) /\
         cap <= nalloc) /\
      indexed_ok (indexed (sc_cf sc')) /\ Forall2 (compiles_to (indexed (sc_cf sc'))) ts ps
    else (forall ts, ~ template (sc_source sc) ts) \/ out_of_memory W) sc.
Proof.
  intros Hok. unfold ngx_nsoc_script_compile, ngx_nsoc_script_init_arrays.
  destruct (so_flushes _ _ _ _ Hok) as (nalloc0 & Hf & _).
  wp_step. wp_step. wp_step. rewrite Hf. wp_step. wp_step. wp_step. wp_step. rewrite (so_lengths _ _ _ _ Hok).
  wp_step. wp_step. wp_step. wp_step. rewrite (so_values _ _ _ _ Hok). wp_step. wp_step.
  wp_step. wp_step. wp_step. cbn [negb NGX_OK Z.eqb]. wp_step. wp_step. wp_step.
  eapply wp_mono.
  { apply (compile_loop_ok cap (length (sc_source sc)) (sc_source sc) _ [] []); [lia|].
    by eapply sc_ok_ext; [exact Hok|..]. }
  intros [] sc1; cbn [negb].
  - intros (ts & ps & Ht & Hok1). cbn [app] in Hok1. eapply wp_mono; [by apply (script_done_ok cap sc1 ts ps)|].
    intros rc sc2. cbv beta. destruct (rc =? NGX_OK); [|by right].
    intros (Hl & Hv & Hfl & Hix). exists ts, ps. rewrite Hfl, Hix. split_and!; try done; apply Hok1.
  - intros Hno. by wp_step.
Qed.

Lemma count_refs_skip bs rest : DOLLAR ∉ bs -> count_refs (bs ++ rest) = count_refs rest.
Proof.
  induction bs as [|ch bs IH]; [done|]. intros [Hch Hd]%not_elem_of_cons. cbn [app count_refs].
  rewrite IH by done. destruct (count_refs rest) as [nv nc]. destruct (Z.eqb_spec ch DOLLAR); [congruence|done].
Qed.

Definition var_count (ts : list tpl) : Z := sumz (fun t => match t with TVar _ => 1 | _ => 0 end) ts.
Definition cap_count (ts : list tpl) : Z := sumz (fun t => match t with TCap _ => 1 | _ => 0 end) ts.

Lemma word_no_dollar name : word name -> DOLLAR ∉ name.
Proof.
  unfold word. rewrite list.Forall_forall. intros Hw Hd%Hw. by destruct (word_not_brace _ Hd) as (_ & ? & _).
Qed.

(** Counting dollar signs counts the references of a template. *)
Lemma count_refs_template src ts : template src ts -> count_refs src = (var_count ts, cap_count ts).
Proof.
  unfold var_count, cap_count.
  induction 1 as [|bs rest ts Hbs Hd Hh Ht IH|d rest ts Hd Ht IH|name rest ts Hn Hw Ht IH|d name rest ts Hd Hw Hh Ht IH];
    rewrite ?sumz_cons; [done|..].
  - by rewrite count_refs_skip, IH.
  - cbn [count_refs head]. rewrite IH, Z.eqb_refl, Hd. destruct (Z.eqb_spec d DOLLAR) as [->|_]; [done|].
    f_equal; lia.
  - cbn [count_refs head]. rewrite Z.eqb_refl. change (is_capture LBRACE) with false. cbn iota.
    change (LBRACE =? DOLLAR) with false. cbn iota.
    replace (name ++ RBRACE :: rest) with ((name ++ [RBRACE]) ++ rest) by (by rewrite <- app_assoc).
    rewrite count_refs_skip, IH; [f_equal; lia|].
    rewrite not_elem_of_app. split; [by apply word_no_dollar|]. by intros ?%list_elem_of_singleton.
  - change (DOLLAR :: d :: name ++ rest) with ([DOLLAR] ++ (d :: name) ++ rest). cbn [app count_refs head].
    apply word_no_dollar in Hw as Hdol. pose proof (count_refs_skip (d :: name) rest Hdol) as Hs.
    cbn [app count_refs] in Hs. rewrite Hs, IH, Z.eqb_refl, Hd. f_equal; lia.
Qed.

Lemma count_refs_nonneg src : 0 <= (count_refs src).1 /\ 0 <= (count_refs src).2.
Proof.
  induction src as [|ch src IH]; [done|]. cbn [count_refs]. destruct (count_refs src) as [nv nc].
  cbn [fst snd] in IH. destruct (ch =? DOLLAR); [|done].
  destruct (head src) as [d|]; [destruct (is_capture d)|]; cbn [fst snd]; lia.
Qed.

Lemma count_refs_none src : count_refs src = (0, 0) -> DOLLAR ∉ src.
Proof.
  induction src as [|ch src IH]; [by intros _ ?%not_elem_of_nil|]. cbn [count_refs].
  pose proof (count_refs_nonneg src) as Hnn. destruct (count_refs src) as [nv nc]. cbn [fst snd] in Hnn.
  destruct (Z.eqb_spec ch DOLLAR) as [->|Hch].
  - destruct (head src) as [d|]; [destruct (is_capture d)|]; intros [= ? ?]; lia.
  - intros Hz. apply not_elem_of_cons. split; [congruence|by apply IH].
Qed.

Lemma piece_vars_count (vs : list (variable H)) ts ps :
  Forall2 (compiles_to vs) ts ps -> zlen (piece_vars ps) = var_count ts.
Proof.
  unfold var_count. induction 1 as [|t p ts ps Htp _ IH]; [done|].
  rewrite sumz_cons. destruct t, p; try done; unfold piece_vars in *; cbn; rewrite <- IH.
  apply zlen_cons.
Qed.

(** A text without references is its own value; any other has its two programs and the
    variables they use as flushes. *)
Definition compiled_value (vs : list (variable H)) (src : list Z) (ts : list tpl) (val : complex_value) : Prop :=
  (cv_lengths val = None /\ cv_value val = src /\ concat ((fun t => match t with TLit bs => bs | _ => [] end) <$> ts) = src
   /\ var_count ts = 0 /\ cap_count ts = 0) \/
  exists ps, Forall2 (compiles_to vs) ts ps /\ value_for ps (piece_vars ps) val.

Lemma compile_value_ok full_name src (c : vconf H T W) :
  indexed_ok (indexed c) ->
  wp (ngx_nsoc_compile_complex_value uninit full_name (CompileArgs src false false false))
    (fun r c' => match r with
     | Some val => exists ts, template src ts /\ indexed_ok (indexed c') /\
         compiled_value (indexed c') src ts val
     | None => (forall ts, ~ template src ts) \/ out_of_memory W
     end) c.
Proof.
  intros Hix. unfold ngx_nsoc_compile_complex_value. cbn [ccv_value ccv_zero ccv_conf_prefix ccv_root_prefix orb].
  rewrite andb_false_r. destruct (count_refs src) as [nv nc] eqn:Hcount.
  destruct ((nv =? 0) && (nc =? 0)) eqn:Hz.
  { apply andb_true_iff in Hz as [->%Z.eqb_eq ->%Z.eqb_eq]. wp_step. apply count_refs_none in Hcount.
    destruct src as [|ch src].
    - exists []. split_and!; [constructor|done|by left].
    - exists [TLit (ch :: src)]. split_and!; [|done|left; split_and!; try done; cbn; by rewrite app_nil_r].
      rewrite <- (app_nil_r (ch :: src)) at 1. apply template_lit; try done. constructor. }
  wp_step. apply wp_conf_alloc. intros ok1 w1 Hm1. destruct ok1; cbn [negb]; [|wp_step; by auto].
  wp_step. apply wp_conf_alloc. intros ok2 w2 Hm2. destruct ok2; cbn [negb]; [|wp_step; by auto].
  wp_step. apply wp_conf_alloc. intros ok3 w3 Hm3. destruct ok3; cbn [negb]; [|wp_step; by auto].
  wp_step. wp_step. set (c3 := id _).
  set (sc := ScriptCompile _ _ _ _ _ _ _ _ _ _ _ _ c3).
  assert (Hok : sc_ok (nv + 1) sc [] []).
  { split; try done. exists (nv + 1). split; [done|lia]. }
  destruct (wp_done _ _ _ (script_compile_ok _ _ Hok)) as (rc & sc' & -> & Hrc).
  wp_step. wp_step. destruct (rc =? NGX_OK); cbn [negb]; [|by wp_step].
  destruct Hrc as (ts & ps & Ht & Hl & Hv & (nalloc & Hf & Hcap) & Hix' & Hps).
  cbn [sc_source sc] in Ht. apply count_refs_template in Ht as Hc. rewrite Hcount in Hc. injection Hc as Hnv Hnc.
  apply piece_vars_count in Hps as Hlen.
  wp_step. eapply wp_mderef; [by rewrite Hf|]. wp_step. cbn [ia_elts ia_nalloc].
  rewrite length_fmap.
  assert (Hfl : wp (if (length (piece_vars ps) =? 0)%nat then mret None
      else if zlen (Z.of_nat <$> piece_vars ps) <? nalloc
      then mret (Some ((Z.of_nat <$> piece_vars ps) ++ [FLUSH_END])) else undefined)
    (fun f c' => f = flush_array (piece_vars ps) /\ c' = sc_cf sc') (sc_cf sc')).
  { destruct (piece_vars ps) as [|i ix] eqn:Hpv; [done|]. cbn [length Nat.eqb].
    assert (Hlt : zlen (Z.of_nat <$> i :: ix) = zlen (i :: ix)) by (unfold zlen; by rewrite length_fmap).
    rewrite Hlt. destruct (Z.ltb_spec (zlen (i :: ix)) nalloc); [by wp_step|lia]. }
  eapply wp_mono; [exact Hfl|]. intros f c' [-> ->]. wp_step.
  exists ts. split_and!; [done|done|]. right. exists ps. split; [done|]. by split_and!.
Qed.

(** C29: Compiling a value accepts exactly the templates of the grammar, memory permitting:
    when it succeeds the source is a template, and unless it has no reference the two code
    arrays are the programs of its parts, every variable of the template is the indexed
    variable of its name, and the list of flushes holds these indices and its end mark
    inside the room that counting dollar signs gave it. *)
Theorem compile_complex_value_correct full_name src (c : vconf H T W)
    (Hix : indexed_ok (indexed c)) :
  wp (ngx_nsoc_compile_complex_value uninit full_name (CompileArgs src false false false))
    (fun r c' => match r with
     | Some val => exists ts, template src ts /\ indexed_ok (indexed c') /\
         compiled_value (indexed c') src ts val
     | None => (forall ts, ~ template src ts) \/ out_of_memory W
     end) c.
Proof. by apply compile_value_ok. Qed.
End CompileProofs.

(** ** A template and its value *)

Section TemplateValue.
Context {H T W : Type} `{!NgxStr} `{!NgxStrLaws} `{!NgxHash T} `{!NgxPool W} `{!NgxPoolLaws W}.
Context (uninit : variable H).
Context (call : H -> vref -> vdata -> M (vsess W) Z).
Context (conf_prefix prefix : list Z).
Context (ngx_get_full_name : list Z -> list Z -> W -> full_name_result * W).

(** What a part of a template stands for: the text itself, the value of the variable of
    that name, a capture. *)
Definition part_text (vs : list (variable H)) (s : vsess W) (t : tpl) : list Z :=
  match t with
  | TLit bs => bs
  | TVar name =>
      match list_find (fun v => v_name v = ngx_strlow name) vs with
      | Some (i, _) => piece_text s (PVar i)
      | None => []
      end
  | TCap n => piece_text s (PCap n)
  end.

Definition template_text (vs : list (variable H)) (s : vsess W) (ts : list tpl) : list Z :=
  concat (part_text vs s <$> ts).

(** The captures of the session are offsets into its data. *)
Definition captures_ok (s : vsess W) : Prop :=
  zlen (captures_data s) < 2 ^ 32 /\
  forall n, 0 <= n -> 2 * n < ncaptures s -> exists x y, captures s !! Z.to_nat (2 * n) = Some x /\
    captures s !! Z.to_nat (2 * n + 1) = Some y /\ 0 <= x <= y /\ y <= zlen (captures_data s).

Lemma part_text_piece (vs0 vs : list (variable H)) s t p :
  (v_name <$> vs0) `prefix_of` (v_name <$> vs) -> NoDup (v_name <$> vs) -> compiles_to vs0 t p ->
  part_text vs s t = piece_text s p /\ (forall i, p = PVar i -> (i < length vs)%nat).
Proof.
  intros Hpre Hnd. destruct t as [bs|name|n], p as [bs'|i|m]; try done;
    [|intros Htp; cbn in Htp; subst; split; [done|intros ? [=]]].
  intros (v & Hv & Hn).
  assert (Hi : (v_name <$> vs) !! i = Some (ngx_strlow name)).
  { eapply prefix_lookup_Some; [|exact Hpre]. by rewrite list_lookup_fmap, Hv, <- Hn. }
  rewrite list_lookup_fmap in Hi. destruct (vs !! i) as [v'|] eqn:Hv'; [|done]. injection Hi as Hi.
  split; [|intros j [= <-]; by eapply lookup_lt_Some]. unfold part_text.
  destruct (list_find _ vs) as [[j x]|] eqn:Hf.
  - apply list_find_Some in Hf as (Hj & Hx & _).
    assert (j = i) as ->; [|done]. eapply NoDup_lookup; [exact Hnd| |]; rewrite list_lookup_fmap.
    + by rewrite Hj.
    + rewrite Hv'. cbn in Hx |- *. congruence.
  - apply list_find_None in Hf. rewrite list.Forall_forall in Hf. exfalso. apply (Hf v'); [|done].
    by eapply list_elem_of_lookup_2.
Qed.

Lemma texts_pieces (vs0 vs : list (variable H)) s ts ps :
  (v_name <$> vs0) `prefix_of` (v_name <$> vs) -> NoDup (v_name <$> vs) ->
  Forall2 (compiles_to vs0) ts ps -> texts s ps = template_text vs s ts.
Proof.
  intros Hpre Hnd. unfold texts, template_text. induction 1 as [|t p ts ps Htp _ IH]; [done|]. cbn.
  destruct (part_text_piece _ _ s t p Hpre Hnd Htp) as [-> _]. by rewrite IH.
Qed.

(** The parts of a template are no longer than it. *)
Lemma template_sizes src ts : template src ts -> zlen ts <= zlen src /\
  Forall (fun t => match t with TLit bs => zlen bs <= zlen src | TCap n => 0 <= n | _ => True end) ts.
Proof.
  assert (Hstep : forall (t : tpl) (ts : list tpl) (src rest : list Z), zlen ts <= zlen rest -> zlen rest < zlen src ->
    Forall (fun t => match t with TLit bs => zlen bs <= zlen rest | TCap n => 0 <= n | _ => True end) ts ->
    (match t with TLit bs => zlen bs <= zlen src | TCap n => 0 <= n | _ => True end) ->
    zlen (t :: ts) <= zlen src /\
    Forall (fun t => match t with TLit bs => zlen bs <= zlen src | TCap n => 0 <= n | _ => True end) (t :: ts)).
  { intros t ts0 src0 rest Hle Hlt HF Ht. rewrite zlen_cons. split; [lia|]. constructor; [done|].
    eapply Forall_impl; [exact HF|]. intros [] ?; cbn in *; lia || done. }
  induction 1 as [|bs rest ts Hbs _ _ _ [IHl IHf]|d rest ts Hd _ [IHl IHf]|name rest ts _ _ _ [IHl IHf]
                 |d name rest ts _ _ _ _ [IHl IHf]]; [by split|..];
    apply (Hstep _ _ _ rest); try done; rewrite ?zlen_app, ?zlen_cons, ?zlen_app, ?zlen_cons;
    try (pose proof (zlen_nonneg rest); lia).
  - pose proof (zlen_nonneg bs). destruct bs; [done|]. rewrite zlen_cons. pose proof (zlen_nonneg bs). lia.
  - unfold is_capture, between in Hd. lia.
  - pose proof (zlen_nonneg name). lia.
  - pose proof (zlen_nonneg name). lia.
Qed.

Lemma pieces_ok (cmcf : vconf H T W) (vs0 : list (variable H)) s src ts ps :
  (v_name <$> vs0) `prefix_of` (v_name <$> indexed cmcf) -> NoDup (v_name <$> indexed cmcf) ->
  captures_ok s -> template src ts -> zlen src < 2 ^ 32 -> Forall2 (compiles_to vs0) ts ps ->
  Forall (piece_ok cmcf s) ps /\ Forall (fun i => (i < length (indexed cmcf))%nat) (piece_vars ps).
Proof.
  intros Hpre Hnd [Hd Hc] Ht Hsrc HF. apply template_sizes in Ht as [_ Hts].
  induction HF as [|t p ts ps Htp _ IH]; [done|]. apply list.Forall_cons in Hts as [Ht Hts].
  destruct (IH Hts) as [IH1 IH2].
  destruct (part_text_piece _ _ s t p Hpre Hnd Htp) as [_ Hi].
  split.
  - constructor; [|done]. destruct t, p; try done; cbn in Htp |- *; subst; [lia|by apply Hi|].
    split_and!; [done|done|]. intros Hlt. by apply Hc.
  - destruct p; cbn; [done| |done]. constructor; [by apply Hi|done].
Qed.

(** C12: A compiled value evaluates to its template with every part replaced by what it
    stands for.  Whatever lawful handlers do, both passes see the same values, so the
    buffer that the first pass sizes is filled exactly by the second: no byte is written
    outside it and none is left unset; variables that are not to be cached are evaluated
    afresh, since the run starts from the flushed session.  The only error is memory. *)
Theorem template_value full_name src (c c' cmcf : vconf H T W) val s
    (Hix : indexed_ok (indexed c))
    (Hcompiled : ngx_nsoc_compile_complex_value uninit full_name (CompileArgs src false false false) c
                 = Done (Some val, c'))
    (Hnames : (v_name <$> indexed c') `prefix_of` (v_name <$> indexed cmcf))
    (Hdistinct : NoDup (v_name <$> indexed cmcf))
    (Hsess : eval_ok cmcf call s) (Hcap : captures_ok s)
    (Hsrc : zlen src < 2 ^ 32) (Hslots : zlen (slots s) < 2 ^ 64) :
  exists ts ix, template src ts /\
    wp (ngx_nsoc_complex_value cmcf call conf_prefix prefix ngx_get_full_name val)
      (fun r s' => keeps_settled (flush_session ix s) s' /\
         (r = Some (template_text (indexed cmcf) s' ts) \/
          r = None /\ exists w, (pool_bytes (zlen (template_text (indexed cmcf) s' ts)) w).1 = None)) s.
Proof.
  pose proof (compile_value_ok uninit full_name src c Hix) as Hc. unfold wp in Hc.
  rewrite Hcompiled in Hc. destruct Hc as (ts & Ht & _ & [(Hl & Hv & Htext & Hnv & Hnc)|(ps & HF & Hval)]).
  - exists ts, []. split; [done|]. unfold ngx_nsoc_complex_value. rewrite Hl. wp_step.
    split; [by destruct s|]. left. f_equal. rewrite Hv, <- Htext. clear -Hnv Hnc.
    unfold template_text, var_count, cap_count in *. symmetry.
    assert (Hnn : forall (f : tpl -> Z) l, (forall t, 0 <= f t) -> 0 <= sumz f l).
    { intros f l Hf. induction l as [|t l IH]; [done|]. rewrite sumz_cons. specialize (Hf t). lia. }
    induction ts as [|t ts IH]; [done|]. rewrite sumz_cons in Hnv, Hnc.
    pose proof (Hnn (fun t => match t with TVar _ => 1 | _ => 0 end) ts ltac:(by intros [])).
    pose proof (Hnn (fun t => match t with TCap _ => 1 | _ => 0 end) ts ltac:(by intros [])).
    cbn. destruct t; [|lia|lia]. by rewrite IH by lia.
  - exists ts, (piece_vars ps). split; [done|].
    destruct (pieces_ok cmcf _ s src ts ps Hnames Hdistinct Hcap Ht Hsrc HF) as [Hps Hvars].
    apply template_sizes in Ht as [Hlen _]. apply Forall2_length in HF as Hlen2.
    eapply wp_mono.
    + apply (complex_value_pieces cmcf call conf_prefix prefix ngx_get_full_name ps (piece_vars ps)); try done.
      * unfold zlen in *. lia.
      * by rewrite (eo_slots _ _ _ Hsess).
      * unfold FLUSH_END, zlen in *. lia.
    + intros r s' (K & _ & _ & Hr). rewrite (texts_pieces _ _ s' ts ps Hnames Hdistinct HF) in Hr. by split.
Qed.
End TemplateValue.

(** ** Concrete runs: the template [$a-${B}$a$1] *)

Definition demo_src : list Z := [36; 97; 45; 36; 123; 66; 125; 36; 97; 36; 49].

Definition demo_conf : vconf (list Z) (list (list Z * nat)) unit := VConf None None [] [] None tt.

Definition demo_compile : vconf (list Z) (list (list Z * nat)) unit ->
    outcome (option complex_value * vconf (list Z) (list (list Z * nat)) unit) :=
  @ngx_nsoc_compile_complex_value _ _ _ ascii_str plentiful demo_uninit (fun v _ => Some v)
    (CompileArgs demo_src false false false).

Definition demo_val : complex_value :=
  match demo_compile demo_conf with Done (Some v, _) => v | _ => ComplexValue [] None None None end.
Definition demo_conf' : vconf (list Z) (list (list Z * nat)) unit :=
  match demo_compile demo_conf with Done (_, c) => c | _ => demo_conf end.

Lemma demo_compiled :
  @ngx_nsoc_compile_complex_value _ _ _ ascii_str plentiful demo_uninit (fun v _ => Some v)
    (CompileArgs demo_src false false false) demo_conf = Done (Some demo_val, demo_conf').
Proof. vm_compute. done. Qed.

(** The running configuration: the same names, now with handlers. *)
Definition demo_cmcf : vconf (list Z) (list (list Z * nat)) unit :=
  VConf (Some [Var [97] (Some [120; 121]) (DInt 0) 0 0;
               Var [98] (Some [122]) (DInt 0) NGX_NSOC_VAR_NOCACHEABLE 1]) None [] [] None tt.

Definition demo_sess : vsess unit :=
  VSess [fresh_value; VarValue true true false [9]] [] 100 [0; 1; 0; 3] 4 [48; 49; 50; 51] tt.

Lemma demo_conf_indexed : @indexed_ok _ ascii_str (indexed demo_conf).
Proof. split; [apply NoDup_nil_2|by intros v ?%not_elem_of_nil|done]. Qed.

Lemma demo_eval_ok : eval_ok demo_cmcf const_call demo_sess.
Proof.
  split; [done|done| |].
  - unfold values_ok. cbn. repeat constructor.
  - intros v [-> | [-> | ?%not_elem_of_nil]%elem_of_cons]%elem_of_cons; [| |done];
      eexists; (split; [done|by apply const_call_lawful]).
Qed.

Lemma demo_captures_ok : captures_ok demo_sess.
Proof.
  split; [done|]. intros n Hn Hlt. change (ncaptures demo_sess) with 4 in Hlt.
  assert (n = 0 \/ n = 1) as [-> | ->] by lia; [exists 0, 1|exists 0, 3]; cbn; split_and!; try done.
Qed.

Lemma demo_names : v_name <$> indexed demo_conf' = [[97]; [98]].
Proof. vm_compute. done. Qed.

Lemma compile_complex_value_correct_witness :
  wp (@ngx_nsoc_compile_complex_value _ _ _ ascii_str plentiful demo_uninit (fun v _ => Some v)
        (CompileArgs demo_src false false false))
    (fun r c' => match r with
     | Some val => exists ts, template demo_src ts /\ @indexed_ok _ ascii_str (indexed c') /\
         @compiled_value _ ascii_str (indexed c') demo_src ts val
     | None => (forall ts, ~ template demo_src ts) \/ @out_of_memory unit plentiful
     end) demo_conf.
Proof.
  exact (@compile_complex_value_correct _ _ _ ascii_str ascii_str_laws plentiful demo_uninit
    (fun v _ => Some v) demo_src demo_conf demo_conf_indexed).
Defined.

Lemma demo_prefix : (v_name <$> indexed demo_conf') `prefix_of` (v_name <$> indexed demo_cmcf).
Proof. by rewrite demo_names. Qed.

Lemma demo_distinct : NoDup (v_name <$> indexed demo_cmcf).
Proof. by apply (bool_decide_unpack _). Qed.

Lemma template_value_witness : exists ts ix, template demo_src ts /\
  wp (@ngx_nsoc_complex_value _ _ _ plentiful demo_cmcf const_call [] [] (fun _ _ w => (FullSame, w)) demo_val)
    (fun r s' => keeps_settled (flush_session ix demo_sess) s' /\
       (r = Some (@template_text _ _ ascii_str (indexed demo_cmcf) s' ts) \/
        r = None /\ exists w : unit,
          (@pool_bytes _ plentiful (zlen (@template_text _ _ ascii_str (indexed demo_cmcf) s' ts)) w).1 = None)) demo_sess.
Proof.
  exact (@template_value _ _ _ ascii_str ascii_str_laws plentiful plentiful_laws demo_uninit const_call [] []
    (fun _ _ w => (FullSame, w)) (fun v _ => Some v) demo_src demo_conf demo_conf' demo_cmcf demo_val demo_sess
    demo_conf_indexed demo_compiled demo_prefix demo_distinct demo_eval_ok demo_captures_ok eq_refl eq_refl).
Defined.

(** [xy-zxy123]: the stale value of [b] was flushed and evaluated again. *)
Example demo_text : exists s',
  @ngx_nsoc_complex_value _ _ _ plentiful demo_cmcf const_call [] [] (fun _ _ w => (FullSame, w)) demo_val demo_sess
  = Done (Some [120; 121; 45; 122; 120; 121; 48; 49; 50], s').
Proof. eexists. vm_compute. reflexivity. Qed.
