(* ===== verification/Directive.v ===== *)
(** * What the directives share

    A directive is a list of words, the name first.  Words are C strings: their bytes
    are followed by a zero, and the sources compare them with [ngx_strcmp] and
    [ngx_strncmp].  Parsing numbers, times, URLs and addresses belongs to nginx core and
    is a parameter here, with what it documents as laws. *)

From stdpp Require Import prelude list numbers strings.
From S2P Require Import Prelude RoundRobin Ports Variables CoreVars Script.

(** ** Words *)

(** The bytes of a word in memory. *)
Definition cstr (v : list Z) : list Z := v ++ [0].

(** [ngx_strncmp(v.data, kw, sizeof(kw) - 1) == 0] *)
Definition starts (kw v : list Z) : bool := strncmp (length kw) (cstr v) kw.

(** [ngx_strcmp(v.data, kw) == 0] *)
Definition same_str (kw v : list Z) : bool := strncmp (S (length kw)) (cstr v) (cstr kw).

(** No zero byte inside. *)
Definition is_word_text (v : list Z) : Prop := 0 ∉ v.

Lemma strncmp_prefix kw : forall v,
  is_word_text kw -> strncmp (length kw) (cstr v) kw = true <-> kw `prefix_of` v.
Proof.
  induction kw as [|c kw IH]; intros v Hkw.
  - cbn. split; [intros _; apply prefix_nil|done].
  - unfold is_word_text in *. rewrite not_elem_of_cons in Hkw. destruct Hkw as [Hc Hkw].
    destruct v as [|d v]; cbn [cstr app length strncmp].
    + destruct (Z.eqb_spec 0 c); [done|]. split; [done|]. intros H. by apply prefix_nil_inv in H.
    + destruct (Z.eqb_spec d c) as [->|Hd].
      * destruct (Z.eqb_spec c 0); [done|]. cbn [orb]. fold (cstr v). rewrite IH by done.
        split; [apply prefix_cons|apply prefix_cons_inv_2].
      * split; [done|]. intros H. by apply prefix_cons_inv_1 in H.
Qed.

Lemma starts_spec kw v : is_word_text kw -> starts kw v = true <-> kw `prefix_of` v.
Proof. apply strncmp_prefix. Qed.

Lemma starts_app kw v : is_word_text kw -> starts kw (kw ++ v) = true.
Proof. intros. apply starts_spec; [done|]. by apply prefix_app_r. Qed.

Lemma same_str_spec kw : forall v,
  is_word_text kw -> is_word_text v -> same_str kw v = true <-> v = kw.
Proof.
  unfold same_str, is_word_text. induction kw as [|c kw IH]; intros [|d v] Hkw Hv; cbn [cstr app length strncmp].
  - done.
  - rewrite not_elem_of_cons in Hv. destruct (Z.eqb_spec d 0); [lia|done].
  - rewrite not_elem_of_cons in Hkw. destruct (Z.eqb_spec 0 c); [lia|done].
  - rewrite not_elem_of_cons in Hkw, Hv. destruct Hkw as [Hc Hkw], Hv as [Hd Hv].
    destruct (Z.eqb_spec d c) as [->|Hdc].
    + destruct (Z.eqb_spec c 0); [done|]. cbn [orb]. specialize (IH v Hkw Hv).
      change (strncmp (S (length kw)) (cstr v) (cstr kw) = true <-> c :: v = c :: kw). rewrite IH.
      split; [by intros ->|congruence].
    + split; [done|congruence].
Qed.

(** ** Parsers of nginx core *)

(** [ngx_url_t]: what the directives set and read of it. *)
Record url := Url {
  u_url : list Z;
  u_host : list Z;
  u_port : Z;
  u_no_port : bool;
  u_no_resolve : bool;
  u_unix : bool;
  u_addrs : list addr;
  u_naddrs : Z;
  u_listen : bool;
  u_wildcard : bool;
  u_sockaddr : inet_addr * Z;
}.
#[export] Instance eta_url : Eta url := fun r =>
  Url (u_url r) (u_host r) (u_port r) (u_no_port r) (u_no_resolve r) (u_unix r) (u_addrs r) (u_naddrs r)
    (u_listen r) (u_wildcard r) (u_sockaddr r).

(** [ngx_memzero(&u, sizeof(ngx_url_t))] *)
Definition no_url : url := Url [] [] 0 false false false [] 0 false false (In4 0, 0).

(** [ngx_parse_time] takes seconds when its flag is set, as it is everywhere here;
    [ngx_parse_addr_port] answers NGX_OK, NGX_DECLINED or NGX_ERROR. *)
Class NgxParse (W : Type) := {
  ngx_parse_url : url -> W -> Z * url * W;
  ngx_atoi : list Z -> Z;
  ngx_parse_time : list Z -> Z;
  ngx_parse_addr_port : list Z -> W -> Z * addr * W;
}.

(** A number is NGX_ERROR or fits the signed word; parsing a URL keeps its text, leaves no
    port behind when there is none, and counts the addresses it found; without
    [no_resolve] it found some. *)
Class NgxParseLaws (W : Type) `{NgxParse W} : Prop := {
  atoi_range l : ngx_atoi l = NGX_ERROR \/ 0 <= ngx_atoi l < 2 ^ 63;
  time_range l : ngx_parse_time l = NGX_ERROR \/ 0 <= ngx_parse_time l < 2 ^ 63;
  parse_url_ok u w u' w' : ngx_parse_url u w = (NGX_OK, u', w') ->
    u_url u' = u_url u /\ (u_no_port u' = true -> u_port u' = 0) /\ u_naddrs u' = zlen (u_addrs u') /\
    (u_no_resolve u = false -> u_addrs u' <> []);
}.

(** The words [s] stands for. *)
Abbreviation kw := name_of.

Lemma plain_kw (s : string) : bool_decide (0 ∈ kw s) = false -> is_word_text (kw s).
Proof. intros H. unfold is_word_text. by case_bool_decide. Qed.

(** ** Parameters

    A directive takes parameters in any order: words, and words that begin with the name
    of a parameter and go on with its value.  No keyword begins with another one, so a
    parameter is of one kind only, and the last one of a kind counts. *)

(** The value of the last parameter that begins with [k], and [d] without one. *)
Definition last_param {B : Type} (k : list Z) (f : list Z -> B) (d : B) (vs : list (list Z)) : B :=
  foldl (fun d v => if bool_decide (k `prefix_of` v) then f (drop (length k) v) else d) d vs.

Class Keywords (kws : list (list Z)) : Prop := {
  kws_apart : forallb (fun k => forallb (fun k' => bool_decide (k = k') || negb (bool_decide (k `prefix_of` k'))) kws) kws = true;
  kws_plain : forallb (fun k => negb (bool_decide (0 ∈ k))) kws = true;
}.

Lemma last_param_snoc {B} k (f : list Z -> B) d vs v :
  last_param k f d (vs ++ [v]) = if bool_decide (k `prefix_of` v) then f (drop (length k) v) else last_param k f d vs.
Proof. unfold last_param. by rewrite foldl_app. Qed.

(** Some word begins with [k]; [k] is one of the words. *)
Definition begins k (vs : list (list Z)) : bool := existsb (fun v => bool_decide (k `prefix_of` v)) vs.
Definition mentions k (vs : list (list Z)) : bool := bool_decide (k ∈ vs).

Lemma begins_snoc k vs v : begins k (vs ++ [v]) = begins k vs || bool_decide (k `prefix_of` v).
Proof. unfold begins. rewrite existsb_app. cbn [existsb]. by rewrite orb_false_r. Qed.

Lemma mentions_snoc k vs v : mentions k (vs ++ [v]) = mentions k vs || bool_decide (k = v).
Proof.
  unfold mentions. apply eq_true_iff_eq. rewrite orb_true_iff, !bool_decide_eq_true, elem_of_app, list_elem_of_singleton. done.
Qed.

Section Keywords.
Context (kws : list (list Z)) {KW : Keywords kws}.
Implicit Types (k v : list Z) (vs : list (list Z)).

Lemma keyword_plain k : k ∈ kws -> is_word_text k.
Proof.
  intros Hk%list_elem_of_In. pose proof kws_plain as Hp. rewrite forallb_forall in Hp. specialize (Hp k Hk).
  apply negb_true_iff, bool_decide_eq_false in Hp. exact Hp.
Qed.

Lemma keyword_apart k k' : k ∈ kws -> k' ∈ kws -> k `prefix_of` k' -> k = k'.
Proof.
  intros Hk%list_elem_of_In Hk'%list_elem_of_In Hp. pose proof kws_apart as Ha. rewrite forallb_forall in Ha.
  specialize (Ha k Hk). rewrite forallb_forall in Ha. specialize (Ha k' Hk'). rewrite orb_true_iff, negb_true_iff in Ha.
  destruct Ha as [Ha|Ha]; [by apply bool_decide_eq_true in Ha|by apply bool_decide_eq_false in Ha].
Qed.

(** A word begins with one keyword. *)
Lemma prefix_free k k' v : k ∈ kws -> k' ∈ kws -> k `prefix_of` v -> k' `prefix_of` v -> k = k'.
Proof.
  intros Hk Hk' Hp Hp'. destruct (prefix_weak_total _ _ _ Hp Hp'); [|symmetry]; by apply keyword_apart.
Qed.

Lemma last_param_other {B} k k' (f : list Z -> B) d vs v :
  k ∈ kws -> k' ∈ kws -> k' <> k -> k' `prefix_of` v -> last_param k f d (vs ++ [v]) = last_param k f d vs.
Proof.
  intros Hk Hk' Hne Hp. rewrite last_param_snoc. case_bool_decide as Hp'; [|done]. destruct Hne. by eapply prefix_free.
Qed.

Lemma flag_other k k' vs v :
  k ∈ kws -> k' ∈ kws -> k' <> k -> k' `prefix_of` v -> k ∈ vs ++ [v] <-> k ∈ vs.
Proof.
  intros Hk Hk' Hne Hp. rewrite elem_of_app, list_elem_of_singleton. split; [|by left].
  intros [Hin|<-]; [done|]. destruct Hne. by eapply prefix_free.
Qed.

(** A word that begins with a keyword, as to all of them. *)
Lemma begins_all k0 v : k0 ∈ kws -> k0 `prefix_of` v ->
  Forall (fun k => bool_decide (k `prefix_of` v) = bool_decide (k = k0)) kws.
Proof.
  intros Hk0 Hp. apply Forall_forall. intros k Hk. apply bool_decide_ext.
  split; [intros; by eapply prefix_free|by intros ->].
Qed.

Lemma mentions_all k0 v : k0 ∈ kws -> k0 `prefix_of` v ->
  Forall (fun k => bool_decide (k = k0) = false -> bool_decide (k = v) = false) kws.
Proof.
  intros Hk0 Hp. apply Forall_forall. intros k Hk Hne%bool_decide_eq_false. apply bool_decide_eq_false.
  intros ->. apply Hne. by eapply prefix_free.
Qed.

Lemma starts_keyword k v : k ∈ kws -> starts k v = true -> k `prefix_of` v.
Proof. intros Hk Hs. apply starts_spec in Hs; [done|by apply keyword_plain]. Qed.

Lemma flag_word k v : k ∈ kws -> is_word_text v -> same_str k v = true -> v = k /\ k `prefix_of` v.
Proof. intros Hk Hv Hs. apply same_str_spec in Hs as ->; [done|by apply keyword_plain|done]. Qed.
End Keywords.

Lemma kw_neq (a b : string) : bool_decide (kw a = kw b) = false -> kw a <> kw b.
Proof. intros Hab. by case_bool_decide. Qed.

(** A keyword of a list, one that is not another, or a hypothesis. *)
Ltac solve_keyword kws :=
  solve [unfold kws; repeat first [apply list_elem_of_here | apply list_elem_of_further]
        | by apply kw_neq; vm_compute | assumption].
