(* ===== verification/LogText.v ===== *)
(** * The texts of the log handlers

    [ngx_nsoc_log_error] (ngx_nsoc_handler.c) and [ngx_nsoc_proxy_log_error]
    (ngx_nsoc_proxy_module.c), which nginx calls to complete a line of the error log: each
    prints piece after piece through [ngx_snprintf] into what is left of a buffer.
    [log_error_cuts]: together they print the whole text, cut at the end of the buffer, and
    never write behind it. *)

From stdpp Require Import prelude list numbers strings.
From S2P Require Import Prelude CoreVars Directive.

(** ** What the handlers read *)

(** Of the session's upstream: the name of the peer, what was received of it, and what was
    sent to it if it is connected; and of the session, what was received of the client
    and sent to it. *)
Record proxy_log := ProxyLog {
  lg_peer_name : option (list Z);
  lg_up_received : Z;
  lg_up_sent : option Z;
  lg_received : Z;
  lg_sent : Z;
}.

(** [log->action], the connection, and [s->log_handler], which is NULL or the proxy's. *)
Record log_data := LogData {
  lg_action : option (list Z);
  lg_dgram : bool;
  lg_client : list Z;
  lg_server : list Z;
  lg_handler : option proxy_log;
}.

(** What [ngx_snprintf] of nginx core writes of a text, given the room; it documents that it
    writes as much as there is room for. *)
Class NgxPrint := snprintf_bytes : Z -> list Z -> list Z.
Class NgxPrintLaws `{NgxPrint} : Prop := snprintf_cuts len text : 0 <= len -> snprintf_bytes len text = ztake len text.

Section LogText.
Context {NF : NgxFormat} {PR : NgxPrint}.

(** [p = ngx_snprintf(p, len, ...)] *)
Definition ngx_snprintf (p len : Z) (text mem : list Z) : option (Z * list Z) :=
  let t := snprintf_bytes len text in mem ← store p t mem; Some (p + zlen t, mem).

Definition ngx_nsoc_proxy_log_error (l : proxy_log) (buf len : Z) (mem : list Z) : option (Z * list Z) :=
  '(p, len, mem) ← (match lg_peer_name l with
    | None => Some (buf, len, mem)
    | Some name =>
        '(p, mem) ← ngx_snprintf buf len (kw ", upstream: " ++ [34] ++ name ++ [34]) mem;
        Some (p, len - (p - buf), mem)
    end);
  ngx_snprintf p len
    (kw ", bytes from/to client:" ++ fmt_O (lg_received l) ++ kw "/" ++ fmt_O (lg_sent l) ++
     kw ", bytes from/to upstream:" ++ fmt_O (lg_up_received l) ++ kw "/" ++ fmt_O (default 0 (lg_up_sent l))) mem.

Definition ngx_nsoc_log_error (l : log_data) (buf len : Z) (mem : list Z) : option (Z * list Z) :=
  '(buf, len, mem) ← (match lg_action l with
    | None => Some (buf, len, mem)
    | Some action =>
        '(p, mem) ← ngx_snprintf buf len (kw " while " ++ action) mem; Some (p, len - (p - buf), mem)
    end);
  '(p, mem) ← ngx_snprintf buf len
    (kw ", " ++ (if lg_dgram l then kw "udp " else []) ++ kw "client: " ++ lg_client l ++ kw ", server: " ++ lg_server l) mem;
  let len := len - (p - buf) in
  match lg_handler l with
  | None => Some (p, mem)
  | Some up => ngx_nsoc_proxy_log_error up p len mem
  end.

(** [ngx_noise_protocol_log_error]: the text it logs; [strerror] is what [noise_strerror] answers. *)
Definition ngx_noise_protocol_log_error (strerror : Z -> Z * list Z) (err : Z) (obj : list Z) : list Z :=
  let '(result, text) := strerror err in
  if result =? 0 then kw "NOISE_PROTOCOL " ++ obj ++ kw " error: " ++ text else kw "NOISE_PROTOCOL error log".

(** ** The text *)

Definition proxy_text (l : proxy_log) : list Z :=
  (match lg_peer_name l with None => [] | Some name => kw ", upstream: " ++ [34] ++ name ++ [34] end) ++
  kw ", bytes from/to client:" ++ fmt_O (lg_received l) ++ kw "/" ++ fmt_O (lg_sent l) ++
  kw ", bytes from/to upstream:" ++ fmt_O (lg_up_received l) ++ kw "/" ++ fmt_O (default 0 (lg_up_sent l)).

Definition log_text (l : log_data) : list Z :=
  (match lg_action l with None => [] | Some action => kw " while " ++ action end) ++
  kw ", " ++ (if lg_dgram l then kw "udp " else []) ++ kw "client: " ++ lg_client l ++ kw ", server: " ++ lg_server l ++
  (match lg_handler l with None => [] | Some up => proxy_text up end).

Context {PL : NgxPrintLaws}.

(** [mem1] is [mem] with the front of [text] that fits at [buf], and [p] is behind it. *)
Definition printed (buf len : Z) (text mem : list Z) (p : Z) (mem1 : list Z) : Prop :=
  exists pre old post, mem = pre ++ old ++ post /\ zlen pre = buf /\ zlen old = zlen (ztake len text) /\
    mem1 = pre ++ ztake len text ++ post /\ p = buf + zlen (ztake len text).

Lemma snprintf_prints buf len text mem :
  0 <= buf -> 0 <= len -> buf + len <= zlen mem ->
  exists p mem1, ngx_snprintf buf len text mem = Some (p, mem1) /\ printed buf len text mem p mem1.
Proof.
  intros Hb Hl Hm. assert (Ht : zlen (ztake len text) <= len) by (unfold zlen, ztake; rewrite length_take; lia).
  pose proof (zlen_nonneg (ztake len text)).
  destruct (mem_split3 buf (zlen (ztake len text)) mem) as (pre & old & post & -> & Hp & Ho); [lia..|].
  unfold ngx_snprintf. cbn zeta. rewrite snprintf_cuts, <- Hp, store_app by done. cbn. do 2 eexists. split; [done|].
  exists pre, old, post. by rewrite Hp.
Qed.

(** Printing goes on where it stopped, with the room that is left. *)
Lemma printed_more buf len t1 t2 mem p1 m1 p2 m2 :
  0 <= len -> printed buf len t1 mem p1 m1 -> printed p1 (len - (p1 - buf)) t2 m1 p2 m2 ->
  printed buf len (t1 ++ t2) mem p2 m2.
Proof.
  intros Hlen (pre & old & post & -> & Hp & Ho & -> & ->) (pre2 & old2 & post2 & Hm & Hp2 & Ho2 & -> & ->).
  set (a := ztake len t1) in *. replace (len - (buf + zlen a - buf)) with (len - zlen a) in * by lia.
  set (b := ztake (len - zlen a) t2) in *.
  rewrite app_assoc in Hm. apply app_inj_1 in Hm as [<- ->].
  2: { unfold zlen in *. rewrite length_app. lia. }
  assert (Hab : ztake len (t1 ++ t2) = a ++ b).
  { subst a b. unfold ztake, zlen. rewrite take_app. f_equal. rewrite length_take.
    destruct (decide (Z.to_nat len <= length t1)%nat).
    - rewrite !Nat.min_l by lia. by rewrite Z2Nat.id, Z.sub_diag, (proj2 (Nat.sub_0_le _ _)) by lia.
    - rewrite Nat.min_r by lia. f_equal. lia. }
  exists pre, (old ++ old2), post2. rewrite Hab, !zlen_app. split_and!; [by rewrite <- app_assoc|done|lia| |lia].
  by rewrite <- !app_assoc.
Qed.

Lemma printed_room buf len text mem p mem1 :
  0 <= len -> printed buf len text mem p mem1 -> buf <= p <= buf + len /\ zlen mem1 = zlen mem.
Proof.
  intros Hl (pre & old & post & -> & Hp & Ho & -> & ->). rewrite !zlen_app, Ho. pose proof (zlen_nonneg (ztake len text)).
  assert (zlen (ztake len text) <= len) by (unfold zlen, ztake; rewrite length_take; lia). lia.
Qed.

Lemma printed_none buf len mem : 0 <= buf <= zlen mem -> 0 <= len -> printed buf len [] mem buf mem.
Proof.
  intros Hb Hl. destruct (mem_split buf mem) as (pre & post & -> & Hp); [done|]. unfold printed, ztake. rewrite take_nil.
  exists pre, [], post. rewrite Z.add_0_r. by split_and!.
Qed.

(** One more piece behind what was printed. *)
Lemma snprintf_goes_on buf len t1 t2 mem p1 m1 :
  0 <= buf -> 0 <= len -> buf + len <= zlen mem -> printed buf len t1 mem p1 m1 ->
  exists p m2, ngx_snprintf p1 (len - (p1 - buf)) t2 m1 = Some (p, m2) /\ printed buf len (t1 ++ t2) mem p m2.
Proof.
  intros Hb Hl Hm H1. destruct (printed_room _ _ _ _ _ _ Hl H1) as [Hp Hz].
  destruct (snprintf_prints p1 (len - (p1 - buf)) t2 m1) as (p & m2 & Hrun & H2); [lia..|].
  exists p, m2. split; [done|]. by eapply printed_more.
Qed.

Lemma proxy_log_prints l buf len t1 mem p1 m1 :
  0 <= buf -> 0 <= len -> buf + len <= zlen mem -> printed buf len t1 mem p1 m1 ->
  exists p m2, ngx_nsoc_proxy_log_error l p1 (len - (p1 - buf)) m1 = Some (p, m2) /\
    printed buf len (t1 ++ proxy_text l) mem p m2.
Proof.
  intros Hb Hl Hm H1. unfold ngx_nsoc_proxy_log_error, proxy_text. destruct (lg_peer_name l) as [name|].
  - destruct (snprintf_goes_on buf len t1 (kw ", upstream: " ++ [34] ++ name ++ [34]) mem p1 m1 Hb Hl Hm H1) as (p2 & m2 & -> & H2).
    cbn [mbind option_bind]. replace (len - (p1 - buf) - (p2 - p1)) with (len - (p2 - buf)) by lia.
    rewrite (app_assoc t1). by apply snprintf_goes_on.
  - by apply snprintf_goes_on.
Qed.

(** A line of the error log gets the action, the addresses and, while the session is proxied, the
    peer and the byte counts, cut where the buffer ends: the handlers return, write nothing outside the
    [len] bytes they were given, and leave [p] behind the text. *)
Theorem log_error_cuts l buf len mem (Hb : 0 <= buf) (Hl : 0 <= len) (Hm : buf + len <= zlen mem) :
  exists p mem1, ngx_nsoc_log_error l buf len mem = Some (p, mem1) /\ printed buf len (log_text l) mem p mem1.
Proof.
  unfold ngx_nsoc_log_error, log_text.
  set (t2 := kw ", " ++ (if lg_dgram l then kw "udp " else []) ++ kw "client: " ++ lg_client l ++ kw ", server: " ++ lg_server l).
  set (t1 := match lg_action l with None => [] | Some action => kw " while " ++ action end).
  assert (H1 : exists p1 m1, (match lg_action l with
      | None => Some (buf, len, mem)
      | Some action => '(p, mem) ← ngx_snprintf buf len (kw " while " ++ action) mem; Some (p, len - (p - buf), mem)
      end) = Some (p1, len - (p1 - buf), m1) /\ printed buf len t1 mem p1 m1).
  { subst t1. destruct (lg_action l) as [action|].
    - destruct (snprintf_prints buf len (kw " while " ++ action) mem Hb Hl Hm) as (p1 & m1 & -> & H1). by exists p1, m1.
    - exists buf, mem. rewrite Z.sub_diag, Z.sub_0_r. split; [done|]. apply printed_none; lia. }
  destruct H1 as (p1 & m1 & -> & H1). cbn [mbind option_bind].
  destruct (snprintf_goes_on buf len t1 t2 mem p1 m1 Hb Hl Hm H1) as (p2 & m2 & -> & H2).
  cbn [mbind option_bind]. cbn zeta.
  replace (len - (p1 - buf) - (p2 - p1)) with (len - (p2 - buf)) by lia.
  replace (t1 ++ kw ", " ++ _) with ((t1 ++ t2) ++ match lg_handler l with None => [] | Some up => proxy_text up end)
    by (subst t2; by rewrite <- !app_assoc).
  destruct (lg_handler l) as [up|]; [by apply proxy_log_prints|]. exists p2, m2. by rewrite app_nil_r.
Qed.
End LogText.

(** A buffer of thirty bytes. *)
Example log_line_cut :
  let f := {| fmt_ui := fun _ => []; fmt_03ui := fun _ => []; fmt_O := fun _ => [48]; fmt_T_03M := fun _ _ => [];
              fmt_uA := fun _ => []; fmt_P := fun _ => [] |} in
  snd <$> ngx_nsoc_log_error (NF := f) (PR := ztake) (LogData (Some (kw "proxying")) false (kw "9.9.9.9") (kw "7:1986") None) 0 30 (replicate 32 0) =
  Some (kw " while proxying, client: 9.9.9" ++ [0; 0]).
Proof. by vm_compute. Qed.
