(* ===== verification/Upstream.v ===== *)
(** * Upstreams: the configuration of ngx_nsoc_upstream.c

    The table of upstreams, filled by [upstream] blocks and by the directives that name
    one ([ngx_nsoc_upstream_add]), the [server] lines of a block, and the initialisation
    of the balancers when the configuration is complete.  A pointer to an upstream is
    its index in the table; nothing is ever taken out of it.

    The theorems: the table names each host and port once ([upstream_add_ok]), a lookup
    while a session runs agrees with it ([runtime_lookup_agrees]), and a block of
    [server] lines becomes the balancer of RoundRobin ([upstream_block_builds]). *)

From stdpp Require Import prelude list numbers strings.
From S2P Require Import Prelude RoundRobin Ports Variables CoreVars Script Directive.

(** ** Data *)

Definition NGX_NSOC_UPSTREAM_CREATE : Z := 0x0001.
Definition NGX_NSOC_UPSTREAM_WEIGHT : Z := 0x0002.
Definition NGX_NSOC_UPSTREAM_MAX_FAILS : Z := 0x0004.
Definition NGX_NSOC_UPSTREAM_FAIL_TIMEOUT : Z := 0x0008.
Definition NGX_NSOC_UPSTREAM_DOWN : Z := 0x0010.
Definition NGX_NSOC_UPSTREAM_BACKUP : Z := 0x0020.
Definition NGX_NSOC_UPSTREAM_MAX_CONNS : Z := 0x0100.

#[export] Instance eta_upstream_server : Eta upstream_server := fun r =>
  UpstreamServer (sv_name r) (sv_addrs r) (sv_naddrs r) (sv_weight r) (sv_max_conns r) (sv_max_fails r)
    (sv_fail_timeout r) (sv_down r) (sv_backup r).

(** A zeroed server. *)
Definition no_server : upstream_server := UpstreamServer [] [] 0 0 0 0 0 false false.

(** A slot of the [srv_conf] array of a block: NULL, the upstream itself, or the
    configuration another module created. *)
Inductive conf_slot (C : Type) := SlotNull | SlotUpstream (i : nat) | SlotConf (c : C).
Arguments SlotNull {C}. Arguments SlotUpstream {C}. Arguments SlotConf {C}.

(** [ngx_nsoc_upstream_srv_conf_t].  [I] is the type of the initialisers that balancer
    modules may set; none does here.  [us_peer] is [peer.data] once it is made. *)
Record srv_conf (I C : Type) := SrvConf {
  us_init : option I;
  us_peer : option rr_upstream;
  us_srv_conf : option (list (conf_slot C));
  us_servers : option (list upstream_server);
  us_flags : Z;
  us_host : list Z;
  us_file_name : list Z;
  us_line : Z;
  us_port : Z;
  us_no_port : bool;
}.
Arguments SrvConf {I C}. Arguments us_init {I C}. Arguments us_peer {I C}. Arguments us_srv_conf {I C}.
Arguments us_servers {I C}. Arguments us_flags {I C}. Arguments us_host {I C}. Arguments us_file_name {I C}.
Arguments us_line {I C}. Arguments us_port {I C}. Arguments us_no_port {I C}.
#[export] Instance eta_srv_conf I C : Eta (srv_conf I C) := fun r =>
  SrvConf (us_init r) (us_peer r) (us_srv_conf r) (us_servers r) (us_flags r) (us_host r)
    (us_file_name r) (us_line r) (us_port r) (us_no_port r).

(** [ngx_nsoc_upstream_main_conf_t], and what [cf] gives: the place in the file, and
    the pool with the rest of the world. *)
Record upconf (I C W : Type) := UpConf {
  upstreams : list (srv_conf I C);
  cf_file : list Z;
  cf_line : Z;
  up_world : W;
}.
Arguments UpConf {I C W}. Arguments upstreams {I C W}. Arguments cf_file {I C W}.
Arguments cf_line {I C W}. Arguments up_world {I C W}.
#[export] Instance eta_upconf I C W : Eta (upconf I C W) := fun r =>
  UpConf (upstreams r) (cf_file r) (cf_line r) (up_world r).

Section Upstream.
Context {I C W : Type} `{!NgxPool W} `{!NgxStr} `{!NgxParse W}.
Abbreviation UM := (M (upconf I C W)).
Implicit Types (x y : srv_conf I C) (u : url) (s : upconf I C W).

(** An allocation; pushing to an array is one, granted while the array has room. *)
Definition up_alloc : UM bool := fun s =>
  let '(ok, w) := pool_object (up_world s) in Done (ok, s <| up_world := w |>).

Definition up_parse (u : url) : UM (Z * url) := fun s =>
  let '(rc, u', w) := ngx_parse_url u (up_world s) in Done ((rc, u'), s <| up_world := w |>).

(** A store through a pointer to an upstream. *)
Definition on_uscf (i : nat) (f : srv_conf I C -> srv_conf I C) : UM unit :=
  l ← gets upstreams;
  x ← mderef (l !! i);
  upstreams ::=! <[i := f x]> l.

Definition get_uscf (i : nat) : UM (srv_conf I C) := l ← gets upstreams; mderef (l !! i).

(** ** The table *)

Definition has (fl bit : Z) : bool := negb (Z.land fl bit =? 0).
Definition created x : bool := has (us_flags x) NGX_NSOC_UPSTREAM_CREATE.

(** The lengths and [ngx_strncasecmp]. *)
Definition same_host (host other : list Z) : bool :=
  (length host =? length other)%nat && ngx_strncasecmp host other.

(** How the loop over the table ends. *)
Inductive found := Refused | FoundAt (i : nat) | NotThere.

Fixpoint scan_upstreams (fl : Z) (u : url) (i : nat) (l : list (srv_conf I C)) : found :=
  match l with
  | [] => NotThere
  | x :: l =>
      if negb (same_host (us_host x) (u_host u)) then scan_upstreams fl u (S i) l
      else if has fl NGX_NSOC_UPSTREAM_CREATE && created x then Refused
      else if created x && negb (u_no_port u) then Refused
      else if has fl NGX_NSOC_UPSTREAM_CREATE && negb (us_no_port x) then Refused
      else if negb (us_port x =? u_port u) then scan_upstreams fl u (S i) l
      else FoundAt i
  end.

(** The server of an upstream that is one address; its weight and limits stay zero. *)
Definition literal_server u : upstream_server := no_server <| sv_addrs := u_addrs u |> <| sv_naddrs := 1 |>.

(** A new upstream at the end of the table. *)
Definition new_upstream (fl : Z) (u : url) : UM (option nat) :=
  ok ← up_alloc;
  if negb ok then mret None else
  file ← gets cf_file;
  line ← gets cf_line;
  let x := SrvConf None None None None fl (u_host u) file line (u_port u) (u_no_port u) in
  let literal := (u_naddrs u =? 1) && (negb (u_port u =? 0) || u_unix u) in
  ok ← (if literal then ok ← up_alloc; if negb ok then mret false else up_alloc else mret true);
  if negb ok then mret None else
  ok ← up_alloc;
  if negb ok then mret None else
  l ← gets upstreams;
  upstreams ::=! l ++ [if literal then x <| us_servers := Some [literal_server u] |> else x];;
  mret (Some (length l)).

Definition ngx_nsoc_upstream_add (u : url) (fl : Z) : UM (option nat) :=
  '(rc, u) ← (if has fl NGX_NSOC_UPSTREAM_CREATE then mret (NGX_OK, u) else up_parse u);
  if negb (rc =? NGX_OK) then mret None else
  l ← gets upstreams;
  match scan_upstreams fl u 0 l with
  | Refused => mret None
  | FoundAt i =>
      (if has fl NGX_NSOC_UPSTREAM_CREATE then on_uscf i (fun x => x <| us_flags := fl |>) else mret tt);;
      mret (Some i)
  | NotThere => new_upstream fl u
  end.

(** ** The lines of a block *)

(** The local variables of the directive, and the two bits it sets at once. *)
Record server_args := ServerArgs {
  a_weight : Z;
  a_max_conns : Z;
  a_max_fails : Z;
  a_fail_timeout : Z;
  a_backup : bool;
  a_down : bool;
}.
#[local] Instance eta_server_args : Eta server_args := fun r =>
  ServerArgs (a_weight r) (a_max_conns r) (a_max_fails r) (a_fail_timeout r) (a_backup r) (a_down r).

Definition default_args : server_args := ServerArgs 1 0 1 10 false false.

(** One parameter; [None] is an invalid one or one the balancer does not support. *)
Definition server_param (fl : Z) (a : server_args) (v : list Z) : option server_args :=
  if starts (kw "weight=") v then
    if negb (has fl NGX_NSOC_UPSTREAM_WEIGHT) then None else
    let n := ngx_atoi (drop 7 v) in
    if (n =? NGX_ERROR) || (n =? 0) then None else Some (a <| a_weight := n |>)
  else if starts (kw "max_conns=") v then
    if negb (has fl NGX_NSOC_UPSTREAM_MAX_CONNS) then None else
    let n := ngx_atoi (drop 10 v) in
    if n =? NGX_ERROR then None else Some (a <| a_max_conns := n |>)
  else if starts (kw "max_fails=") v then
    if negb (has fl NGX_NSOC_UPSTREAM_MAX_FAILS) then None else
    let n := ngx_atoi (drop 10 v) in
    if n =? NGX_ERROR then None else Some (a <| a_max_fails := n |>)
  else if starts (kw "fail_timeout=") v then
    if negb (has fl NGX_NSOC_UPSTREAM_FAIL_TIMEOUT) then None else
    let n := ngx_parse_time (drop 13 v) in
    if n =? NGX_ERROR then None else Some (a <| a_fail_timeout := n |>)
  else if same_str (kw "backup") v then
    if negb (has fl NGX_NSOC_UPSTREAM_BACKUP) then None else Some (a <| a_backup := true |>)
  else if same_str (kw "down") v then
    if negb (has fl NGX_NSOC_UPSTREAM_DOWN) then None else Some (a <| a_down := true |>)
  else None.

(** The loop over the parameters, and whether it got to the end. *)
Fixpoint server_params (fl : Z) (a : server_args) (vs : list (list Z)) : server_args * bool :=
  match vs with
  | [] => (a, true)
  | v :: vs => match server_param fl a v with
               | Some a => server_params fl a vs
               | None => (a, false)
               end
  end.

Definition put_server (i : nat) (servers : list upstream_server) (sv : upstream_server) : UM unit :=
  on_uscf i (fun x => x <| us_servers := Some (servers ++ [sv]) |>).

(** [args] are the words of the line, [server] first.  The array has a new element as
    soon as the directive begins. *)
Definition ngx_nsoc_upstream_server (i : nat) (args : list (list Z)) : UM conf_answer :=
  x ← get_uscf i;
  servers ← mderef (us_servers x);
  ok ← up_alloc;
  if negb ok then mret ConfError else
  let '(a, good) := server_params (us_flags x) default_args (drop 2 args) in
  let sv := no_server <| sv_backup := a_backup a |> <| sv_down := a_down a |> in
  put_server i servers sv;;
  if negb good then mret ConfError else
  value ← mderef (args !! 1%nat);
  '(rc, u) ← up_parse (no_url <| u_url := value |>);
  if negb (rc =? NGX_OK) then mret ConfError else
  if u_no_port u then mret ConfError else
  put_server i servers
    (UpstreamServer (u_url u) (u_addrs u) (u_naddrs u) (a_weight a) (a_max_conns a) (a_max_fails a)
       (a_fail_timeout a) (a_down a) (a_backup a));;
  mret ConfOk.

(** ** The block *)

(** Every module of the family in the order of the cycle: its index, and its function to
    create a server configuration. *)
Context (modules : list (nat * option (UM (option C)))) (upstream_index : nat).
(** [ngx_conf_parse] of the block of an upstream, which runs its directives. *)
Context (parse_block : nat -> UM conf_answer).

Definition BLOCK_FLAGS : Z :=
  Z.lor NGX_NSOC_UPSTREAM_CREATE (Z.lor NGX_NSOC_UPSTREAM_WEIGHT (Z.lor NGX_NSOC_UPSTREAM_MAX_CONNS
    (Z.lor NGX_NSOC_UPSTREAM_MAX_FAILS (Z.lor NGX_NSOC_UPSTREAM_FAIL_TIMEOUT
      (Z.lor NGX_NSOC_UPSTREAM_DOWN NGX_NSOC_UPSTREAM_BACKUP))))).

(** [ctx->srv_conf[ctx_index] = mconf] for every module that creates one; the array is
    that of [uscf->srv_conf]. *)
Fixpoint create_slots (i : nat) (ms : list (nat * option (UM (option C)))) : UM bool :=
  match ms with
  | [] => mret true
  | (_, None) :: ms => create_slots i ms
  | (mi, Some create) :: ms =>
      c ← create;
      match c with
      | None => mret false
      | Some c =>
          on_uscf i (fun x => x <| us_srv_conf := <[mi := SlotConf c]> <$> us_srv_conf x |>);;
          create_slots i ms
      end
  end.

Definition ngx_nsoc_upstream (args : list (list Z)) : UM conf_answer :=
  value ← mderef (args !! 1%nat);
  r ← ngx_nsoc_upstream_add
        (no_url <| u_host := value |> <| u_no_resolve := true |> <| u_no_port := true |>) BLOCK_FLAGS;
  match r with
  | None => mret ConfError
  | Some i =>
      ok ← up_alloc;
      if negb ok then mret ConfError else
      ok ← up_alloc;
      if negb ok then mret ConfError else
      let slots := <[upstream_index := SlotUpstream i]> (replicate (length modules) SlotNull) in
      on_uscf i (fun x => x <| us_srv_conf := Some slots |>);;
      ok ← create_slots i modules;
      if negb ok then mret ConfError else
      ok ← up_alloc;
      if negb ok then mret ConfError else
      on_uscf i (fun x => x <| us_servers := Some [] |>);;
      rv ← parse_block i;
      match rv with
      | ConfOk =>
          x ← get_uscf i;
          servers ← mderef (us_servers x);
          mret (match servers with [] => ConfError | _ => ConfOk end)
      | _ => mret rv
      end
  end.

(** ** The main configuration *)

Definition ngx_nsoc_upstream_create_main_conf : UM bool :=
  ok ← up_alloc;
  if negb ok then mret false else
  ok ← up_alloc;
  if negb ok then mret false else
  upstreams ::=! [];; mret true.

(** [ngx_inet_resolve_host], and the initialisers of other balancers. *)
Context (resolve : list Z -> Z -> option (list addr)) (init_other : I -> nat -> UM Z).

Definition on_pool {A} (m : M W A) : UM A := fun s =>
  match m (up_world s) with
  | Done (a, w) => Done (a, s <| up_world := w |>)
  | Undefined => Undefined
  | OutOfFuel => OutOfFuel
  end.

Definition init_upstream (i : nat) : UM Z :=
  x ← get_uscf i;
  match us_init x with
  | Some f => init_other f i
  | None =>
      '(rc, us) ← on_pool (ngx_nsoc_upstream_init_round_robin resolve (us_host x) (us_port x) (us_servers x));
      (match us with
       | Some us => on_uscf i (fun x => x <| us_peer := Some us |>)
       | None => mret tt
       end);;
      mret rc
  end.

Fixpoint init_upstreams (ix : list nat) : UM conf_answer :=
  match ix with
  | [] => mret ConfOk
  | i :: ix =>
      rc ← init_upstream i;
      if negb (rc =? NGX_OK) then mret ConfError else init_upstreams ix
  end.

Definition ngx_nsoc_upstream_init_main_conf : UM conf_answer :=
  l ← gets upstreams;
  init_upstreams (seq 0 (length l)).
End Upstream.

(** ** The table names each upstream once *)

Section Table.
Context {I C W : Type} `{!NgxPool W} `{!NgxStr} `{!NgxStrLaws} `{!NgxParse W} `{!NgxParseLaws W}.
Implicit Types (x y : srv_conf I C) (u : url) (s : upconf I C W) (l : list (srv_conf I C)).

Lemma same_host_spec h h' : same_host h h' = true <-> ngx_strlow h = ngx_strlow h'.
Proof.
  unfold same_host. rewrite andb_true_iff, Nat.eqb_eq. split.
  - intros [Hl Hc]. by apply strncasecmp_strlow.
  - intros Hs. assert (Hl : length h = length h') by (rewrite <- (strlow_length h), Hs; apply strlow_length).
    split; [done|]. by apply strncasecmp_strlow.
Qed.

(** Host and port name an upstream, and a block has no port. *)
Record table_ok l : Prop := {
  to_unique i j x y : l !! i = Some x -> l !! j = Some y ->
    same_host (us_host x) (us_host y) = true -> us_port x = us_port y -> i = j;
  to_port i x : l !! i = Some x -> us_no_port x = true -> us_port x = 0;
  to_created i x : l !! i = Some x -> created x = true -> us_no_port x = true;
}.

Lemma table_ok_nil : table_ok [].
Proof. by split; intros *; rewrite lookup_nil. Qed.

(** What the loop over the table finds out. *)
Definition passes (fl : Z) u x : Prop :=
  (has fl NGX_NSOC_UPSTREAM_CREATE = true -> created x = false /\ us_no_port x = true) /\
  (created x = true -> u_no_port u = true).

Definition clashes (fl : Z) u x : Prop :=
  (has fl NGX_NSOC_UPSTREAM_CREATE = true /\ (created x = true \/ us_no_port x = false)) \/
  (created x = true /\ u_no_port u = false).

Lemma scan_spec fl u l : forall i0,
  match scan_upstreams fl u i0 l with
  | Refused => exists i x, l !! i = Some x /\ same_host (us_host x) (u_host u) = true /\ clashes fl u x
  | FoundAt k => exists i x, k = (i0 + i)%nat /\ l !! i = Some x /\
      same_host (us_host x) (u_host u) = true /\ us_port x = u_port u /\ passes fl u x
  | NotThere => forall i x, l !! i = Some x -> same_host (us_host x) (u_host u) = true ->
      us_port x <> u_port u /\ passes fl u x
  end.
Proof.
  induction l as [|x l IH]; intros i0; cbn [scan_upstreams]; [by intros i x; rewrite lookup_nil|].
  assert (Hskip : (same_host (us_host x) (u_host u) = true -> us_port x <> u_port u /\ passes fl u x) ->
    match scan_upstreams fl u (S i0) l with
    | Refused => exists i y, (x :: l) !! i = Some y /\ same_host (us_host y) (u_host u) = true /\ clashes fl u y
    | FoundAt k => exists i y, k = (i0 + i)%nat /\ (x :: l) !! i = Some y /\
        same_host (us_host y) (u_host u) = true /\ us_port y = u_port u /\ passes fl u y
    | NotThere => forall i y, (x :: l) !! i = Some y -> same_host (us_host y) (u_host u) = true ->
        us_port y <> u_port u /\ passes fl u y
    end).
  { intros Hx. specialize (IH (S i0)). destruct (scan_upstreams fl u (S i0) l) as [|k|].
    - destruct IH as (i & y & Hy). by exists (S i), y.
    - destruct IH as (i & y & -> & Hy). exists (S i), y. by rewrite Nat.add_succ_r.
    - intros [|i] y Hy; [by injection Hy as <-|by apply (IH i)]. }
  unfold passes, clashes in *.
  destruct (same_host _ _) eqn:Hh; cbn [negb]; [|by apply Hskip].
  destruct (has fl _) eqn:Hc, (created x) eqn:Hcr, (u_no_port u) eqn:Hnp, (us_no_port x) eqn:Hxp;
    cbn [andb negb];
    try (exists 0%nat, x; rewrite Hh, Hcr, Hxp; by naive_solver);
    (destruct (Z.eqb_spec (us_port x) (u_port u)); cbn [negb];
      [exists 0%nat, x; rewrite Hh, Hcr, Hxp, Nat.add_0_r; by naive_solver|apply Hskip; intros _; by naive_solver]).
Qed.

Lemma wp_up_alloc (Q : bool -> upconf I C W -> Prop) s :
  (forall ok w, Q ok (s <| up_world := w |>)) -> wp up_alloc Q s.
Proof. intros HQ. unfold wp, up_alloc. destruct (pool_object _). apply HQ. Qed.

Lemma wp_on_uscf i f x (Q : unit -> upconf I C W -> Prop) s :
  upstreams s !! i = Some x -> Q tt (s <| upstreams := <[i := f x]> (upstreams s) |>) -> wp (on_uscf i f) Q s.
Proof. intros Hx HQ. unfold on_uscf. wp_step. wp_step. wp_step. by apply (wp_mderef _ x). Qed.

(** What is common to all entries of one place before and after. *)
Definition same_name_as x y : Prop :=
  us_host y = us_host x /\ us_port y = us_port x /\ us_no_port y = us_no_port x.

Lemma table_ok_update l i x y :
  table_ok l -> l !! i = Some x -> same_name_as x y -> (created y = true -> us_no_port x = true) ->
  table_ok (<[i := y]> l).
Proof.
  intros [U P K] Hx (Hh & Hp & Hn) Hc.
  assert (HL : forall j z, <[i := y]> l !! j = Some z ->
    (j = i /\ z = y) \/ (j <> i /\ l !! j = Some z)).
  { intros j z Hz. destruct (decide (i = j)) as [<-|Hij].
    - rewrite list_lookup_insert_eq in Hz by (by eapply lookup_lt_Some). injection Hz as <-. by left.
    - rewrite list_lookup_insert_ne in Hz by done. right. by split. }
  split.
  - intros j k a b Ha%HL Hb%HL. destruct Ha as [(-> & ->)|(? & Ha)], Hb as [(-> & ->)|(? & Hb)];
      rewrite ?Hh, ?Hp; intros; [done|eapply (U i k x b)|eapply (U j i a x)|eapply (U j k a b)]; done.
  - intros j a Ha%HL. destruct Ha as [(-> & ->)|(? & Ha)]; [|by eapply P]. rewrite Hn, Hp. by eapply P.
  - intros j a Ha%HL. destruct Ha as [(-> & ->)|(? & Ha)]; [|by eapply K]. rewrite Hn. exact Hc.
Qed.

Lemma table_ok_snoc l y :
  table_ok l -> (us_no_port y = true -> us_port y = 0) -> (created y = true -> us_no_port y = true) ->
  (forall j z, l !! j = Some z -> same_host (us_host z) (us_host y) = true ->
     us_port z <> us_port y) ->
  table_ok (l ++ [y]).
Proof.
  intros [U P K] Hp Hc Hnew.
  assert (HL : forall j z, (l ++ [y]) !! j = Some z -> l !! j = Some z \/ (j = length l /\ z = y)).
  { intros j z Hz. apply lookup_app_Some in Hz as [Hz|[Hlen Hz]]; [by left|].
    apply list_lookup_singleton_Some in Hz as [Hj ->]. right. split; [lia|done]. }
  assert (Hsym : forall a b, same_host a b = true -> same_host b a = true).
  { intros a b. rewrite !same_host_spec. by intros ->. }
  split.
  - intros j k a b Ha%HL Hb%HL. destruct Ha as [Ha|(-> & ->)], Hb as [Hb|(-> & ->)]; intros Hs Hpt; [by eauto| | |done].
    + by destruct (Hnew _ _ Ha Hs).
    + apply Hsym in Hs. by destruct (Hnew _ _ Hb Hs).
  - intros j a Ha%HL. destruct Ha as [Ha|(-> & ->)]; [by eapply P|done].
  - intros j a Ha%HL. destruct Ha as [Ha|(-> & ->)]; [by eapply K|done].
Qed.

(** The URL the table is searched for. *)
Definition sought (fl : Z) u s : url :=
  if has fl NGX_NSOC_UPSTREAM_CREATE then u else (ngx_parse_url u (up_world s)).1.2.

(** An entry before and after: only the flags of the one asked for may change. *)
Definition kept (r : option nat) (fl : Z) (l l' : list (srv_conf I C)) : Prop :=
  forall j x, l !! j = Some x ->
    l' !! j = Some x \/ (r = Some j /\ l' !! j = Some (x <| us_flags := fl |>)).

Definition names u x : Prop := same_host (us_host x) (u_host u) = true /\ us_port x = u_port u.

Definition added (fl : Z) u s (r : option nat) (s' : upconf I C W) : Prop :=
  table_ok (upstreams s') /\ kept r fl (upstreams s) (upstreams s') /\
  (r = None -> upstreams s' = upstreams s) /\
  (forall i, r = Some i -> exists x, upstreams s' !! i = Some x /\ names (sought fl u s) x /\
     (u_no_port (sought fl u s) = true -> u_port (sought fl u s) = 0) /\
     (has fl NGX_NSOC_UPSTREAM_CREATE = true -> us_flags x = fl)).

Lemma kept_refl r fl l : kept r fl l l.
Proof. intros j x Hx. by left. Qed.

Lemma not_added fl u s s' : table_ok (upstreams s) -> upstreams s' = upstreams s -> added fl u s None s'.
Proof. intros Hok He. split_and!; rewrite ?He; [done|apply kept_refl|done|done]. Qed.

Lemma new_upstream_added fl u u0 s s0 :
  u = sought fl u0 s0 -> upstreams s = upstreams s0 ->
  table_ok (upstreams s) -> (u_no_port u = true -> u_port u = 0) ->
  (has fl NGX_NSOC_UPSTREAM_CREATE = true -> u_no_port u = true) ->
  (forall j x, upstreams s !! j = Some x -> same_host (us_host x) (u_host u) = true -> us_port x <> u_port u) ->
  wp (new_upstream fl u) (added fl u0 s0) s.
Proof.
  intros Hu Hs Hok Hp Hc Hnew. unfold new_upstream. wp_step. apply wp_up_alloc. intros [|] w; cbn [negb].
  2:{ wp_step. by apply not_added; [rewrite <- Hs|]. }
  do 4 wp_step. cbv zeta. set (literal := _ && _). wp_step.
  assert (Hfin : forall w2, wp (ok ← up_alloc; if negb ok then mret None else
    l ← gets upstreams;
    upstreams ::=! l ++ [if literal
      then (SrvConf None None None None fl (u_host u) (cf_file s) (cf_line s) (u_port u) (u_no_port u))
             <| us_servers := Some [literal_server u] |>
      else SrvConf None None None None fl (u_host u) (cf_file s) (cf_line s) (u_port u) (u_no_port u)];;
    mret (Some (length l))) (added fl u0 s0) (s <| up_world := w2 |>)).
  { intros w2. wp_step. apply wp_up_alloc. intros [|] w3; cbn [negb].
    2:{ wp_step. by apply not_added; [rewrite <- Hs|]. }
    do 5 wp_step. set (y := if literal then _ else _).
    assert (Hy : us_host y = u_host u /\ us_port y = u_port u /\ us_no_port y = u_no_port u /\ us_flags y = fl)
      by (subst y; by destruct literal).
    destruct Hy as (Hyh & Hyp & Hyn & Hyf). unfold added. rewrite <- Hs. split_and!.
    - apply (table_ok_snoc (upstreams s)); rewrite ?Hyp, ?Hyn; [done|done| |].
      + unfold created. by rewrite Hyf.
      + intros j z Hz. rewrite Hyh. eauto.
    - intros j x Hx. left. by apply lookup_app_l_Some.
    - done.
    - intros i [= <-]. exists y. rewrite <- Hu. split_and!; [by apply list_lookup_middle| |done|done].
      split; [|done]. rewrite Hyh. by apply same_host_spec. }
  destruct literal; [|wp_step; cbn [negb]; apply (Hfin w)].
  wp_step. apply wp_up_alloc. intros [|] w2; cbn [negb]; [|wp_step; cbn [negb]; wp_step; by apply not_added; [rewrite <- Hs|]].
  apply wp_up_alloc. intros [|] w3; cbn [negb]; [apply Hfin|]. wp_step. by apply not_added; [rewrite <- Hs|].
Qed.

Lemma upstream_added fl u s :
  table_ok (upstreams s) -> (has fl NGX_NSOC_UPSTREAM_CREATE = true -> u_no_port u = true /\ u_port u = 0) ->
  wp (ngx_nsoc_upstream_add u fl) (added fl u s) s.
Proof.
  intros Hok Hblock.  unfold ngx_nsoc_upstream_add.
  assert (Hgo : forall rc w u', u' = sought fl u s ->
    (rc = NGX_OK -> u_no_port u' = true -> u_port u' = 0) ->
    (has fl NGX_NSOC_UPSTREAM_CREATE = true -> u_no_port u' = true) ->
    wp (if negb (rc =? NGX_OK) then mret None else
        l ← gets upstreams;
        match scan_upstreams fl u' 0 l with
        | Refused => mret None
        | FoundAt i =>
            (if has fl NGX_NSOC_UPSTREAM_CREATE then on_uscf i (fun x => x <| us_flags := fl |>) else mret tt);;
            mret (Some i)
        | NotThere => new_upstream fl u'
        end) (added fl u s) (s <| up_world := w |>)).
  { intros rc w u' Hu' Hp Hc. destruct (Z.eqb_spec rc NGX_OK) as [Hrc|]; cbn [negb]; [|wp_step; by apply not_added].
    specialize (Hp Hrc). do 2 wp_step. change (upstreams (s <| up_world := w |>)) with (upstreams s).
    pose proof (scan_spec fl u' (upstreams s) 0) as Hsc.
    destruct (scan_upstreams fl u' 0 (upstreams s)) as [|k|].
    - wp_step. by apply not_added.
    - destruct Hsc as (i & x & -> & Hx & Hh & Hpx & Hpass). cbn [Nat.add]. wp_step.
      destruct (has fl NGX_NSOC_UPSTREAM_CREATE) eqn:Hcr.
      + apply (wp_on_uscf i _ x); [done|]. wp_step. cbn.
        assert (Hi : (i < length (upstreams s))%nat) by (by eapply lookup_lt_Some). split_and!; cbn.
        * apply (table_ok_update _ i x); [done..|]. intros _. by apply Hpass.
        * intros j y Hy. destruct (decide (i = j)) as [<-|Hij].
          -- right. rewrite list_lookup_insert_eq by done. by simplify_eq.
          -- left. by rewrite list_lookup_insert_ne.
        * done.
        * intros j [= <-]. rewrite list_lookup_insert_eq by done. eexists. split; [done|].
          rewrite <- Hu'. by split_and!; [split|..].
      + wp_step. wp_step. split_and!; [done|apply kept_refl|done|]. intros j [= <-]. exists x. rewrite <- Hu'.
        by split_and!; [done|split|done|rewrite Hcr].
    - apply new_upstream_added; [done..|]. intros j x Hx Hh. by apply (Hsc j). }
  wp_step. unfold sought in Hgo. destruct (has fl NGX_NSOC_UPSTREAM_CREATE) eqn:Hcr.
  - wp_step. destruct Hblock as [Hn Hp]; [done|]. specialize (Hgo NGX_OK (up_world s) u).
    replace (s <| up_world := up_world s |>) with s in Hgo by (by destruct s). by apply Hgo.
  - unfold wp at 1, up_parse. destruct (ngx_parse_url u (up_world s)) as [[rc u'] w] eqn:Hpu. cbn.
    apply Hgo; [done| |done]. intros ->. by apply parse_url_ok in Hpu as (_ & ? & _).
Qed.

(** C19: Asking for an upstream keeps the table in order: no two entries ever have the same
    host (in any case of letters) and the same port, entries stay where they are and
    keep their contents (a block that takes over an entry sets its flags), and the
    answer is an entry of the host and the port that were asked for.  A refusal, be it
    of a second block, of a port on a block, or for memory, leaves the table as it was. *)
Theorem upstream_add_ok fl u s (Hok : table_ok (upstreams s))
    (Hblock : has fl NGX_NSOC_UPSTREAM_CREATE = true -> u_no_port u = true /\ u_port u = 0) :
  wp (ngx_nsoc_upstream_add u fl) (added fl u s) s.
Proof. by apply upstream_added. Qed.
End Table.

(** ** A block becomes a balancer *)

Section Lines.
Context {I C W : Type} `{!NgxPool W} `{!NgxStr} `{!NgxStrLaws} `{!NgxParse W} `{!NgxParseLaws W}.
Implicit Types (x y : srv_conf I C) (u : url) (s : upconf I C W) (v : list Z) (vs : list (list Z)).

(** What a line says of its server. *)
Record says (args : list (list Z)) (sv : upstream_server) : Prop := {
  says_url : args !! 1%nat = Some (sv_name sv);
  says_weight : sv_weight sv = last_param (kw "weight=") ngx_atoi 1 (drop 2 args);
  says_max_conns : sv_max_conns sv = last_param (kw "max_conns=") ngx_atoi 0 (drop 2 args);
  says_max_fails : sv_max_fails sv = last_param (kw "max_fails=") ngx_atoi 1 (drop 2 args);
  says_fail_timeout : sv_fail_timeout sv = last_param (kw "fail_timeout=") ngx_parse_time 10 (drop 2 args);
  says_backup : sv_backup sv = true <-> kw "backup" ∈ drop 2 args;
  says_down : sv_down sv = true <-> kw "down" ∈ drop 2 args;
}.

Definition keywords : list (list Z) :=
  [kw "weight="; kw "max_conns="; kw "max_fails="; kw "fail_timeout="; kw "backup"; kw "down"].

Instance keywords_distinct : Keywords keywords.
Proof. split; by vm_compute. Qed.

(** The parameters read so far. *)
Record read_so_far (vs : list (list Z)) (a : server_args) : Prop := {
  rs_weight : a_weight a = last_param (kw "weight=") ngx_atoi 1 vs;
  rs_max_conns : a_max_conns a = last_param (kw "max_conns=") ngx_atoi 0 vs;
  rs_max_fails : a_max_fails a = last_param (kw "max_fails=") ngx_atoi 1 vs;
  rs_fail_timeout : a_fail_timeout a = last_param (kw "fail_timeout=") ngx_parse_time 10 vs;
  rs_backup : a_backup a = true <-> kw "backup" ∈ vs;
  rs_down : a_down a = true <-> kw "down" ∈ vs;
  rs_range : 0 < a_weight a < 2 ^ 63 /\ 0 <= a_max_conns a < 2 ^ 63 /\ 0 <= a_max_fails a;
}.

Lemma read_nothing : read_so_far [] default_args.
Proof. by split; cbn; rewrite ?elem_of_nil. Qed.

Ltac keyword := solve_keyword keywords.

(** A field of [read_so_far] after a word that begins with the keyword [k]. *)
Ltac read_field k :=
  first [ rewrite last_param_snoc, bool_decide_eq_true_2 by assumption; reflexivity
        | rewrite (last_param_other keywords _ k) by keyword; assumption
        | rewrite (flag_other keywords _ k) by keyword; assumption
        | rewrite elem_of_app, list_elem_of_singleton; split; [by right|done] ].

(** One more word. *)
Lemma server_param_reads fl a v a' vs :
  is_word_text v -> read_so_far vs a -> server_param fl a v = Some a' -> read_so_far (vs ++ [v]) a'.
Proof.
  intros Hv [Hw Hc Hf Ht Hb Hd Hr]. unfold server_param.
  destruct (starts (kw "weight=") v) eqn:E.
  { apply (starts_keyword keywords) in E; [|keyword]. destruct (negb _); [done|].
    destruct ((_ =? _) || (_ =? _)) eqn:En; [done|]. intros [= <-].
    apply orb_false_iff in En as [En1%Z.eqb_neq En2%Z.eqb_neq].
    destruct (atoi_range (W:=W) (drop 7 v)) as [?|?]; [done|].
    split; [read_field (kw "weight=")..|cbn; lia]. }
  clear E. destruct (starts (kw "max_conns=") v) eqn:E.
  { apply (starts_keyword keywords) in E; [|keyword]. destruct (negb _); [done|].
    destruct (_ =? _) eqn:En; [done|]. intros [= <-]. apply Z.eqb_neq in En.
    destruct (atoi_range (W:=W) (drop 10 v)) as [?|?]; [done|].
    split; [read_field (kw "max_conns=")..|cbn; lia]. }
  clear E. destruct (starts (kw "max_fails=") v) eqn:E.
  { apply (starts_keyword keywords) in E; [|keyword]. destruct (negb _); [done|].
    destruct (_ =? _) eqn:En; [done|]. intros [= <-]. apply Z.eqb_neq in En.
    destruct (atoi_range (W:=W) (drop 10 v)) as [?|?]; [done|].
    split; [read_field (kw "max_fails=")..|cbn; lia]. }
  clear E. destruct (starts (kw "fail_timeout=") v) eqn:E.
  { apply (starts_keyword keywords) in E; [|keyword]. destruct (negb _); [done|].
    destruct (_ =? _) eqn:En; [done|]. intros [= <-]. split; [read_field (kw "fail_timeout=")..|cbn; lia]. }
  clear E. destruct (same_str (kw "backup") v) eqn:E.
  { apply (flag_word keywords) in E as [Hvk E]; [|keyword|done]. destruct (negb _); [done|].
    intros [= <-]. split; [read_field (kw "backup")..|cbn; lia]. }
  clear E. destruct (same_str (kw "down") v) eqn:E; [|done].
  apply (flag_word keywords) in E as [Hvk E]; [|keyword|done]. destruct (negb _); [done|].
  intros [= <-]. split; [read_field (kw "down")..|cbn; lia].
Qed.

Lemma server_params_read fl vs : forall done a a',
  Forall is_word_text vs -> read_so_far done a -> server_params fl a vs = (a', true) ->
  read_so_far (done ++ vs) a'.
Proof.
  induction vs as [|v vs IH]; intros dn a a' Hv Hr Hp; cbn [server_params] in Hp.
  - rewrite app_nil_r. by injection Hp as <-.
  - apply Forall_cons_iff in Hv as [Hv Hvs]. destruct (server_param fl a v) as [a1|] eqn:E; [|done].
    rewrite cons_middle, app_assoc. eapply IH; [done| |exact Hp]. by eapply server_param_reads.
Qed.

(** A line that was accepted: its server is what it says, and one that the balancer can
    take. *)
Definition line_made (args : list (list Z)) (sv : upstream_server) : Prop :=
  says args sv /\ server_ok sv /\ sv_addrs sv <> [].

Definition with_servers x servers : srv_conf I C := x <| us_servers := Some servers |>.

Lemma with_servers_same x servers i s :
  upstreams s !! i = Some x -> us_servers x = Some servers ->
  upstreams s = <[i := with_servers x servers]> (upstreams s).
Proof. intros Hx Hs. symmetry. apply list_insert_id. rewrite Hx. f_equal. destruct x. cbn in *. by subst. Qed.

Lemma wp_put_server i x servers sv (Q : unit -> upconf I C W -> Prop) s :
  upstreams s !! i = Some x ->
  Q tt (s <| upstreams := <[i := with_servers x (servers ++ [sv])]> (upstreams s) |>) -> wp (put_server i servers sv) Q s.
Proof. intros Hx HQ. unfold put_server. by apply (wp_on_uscf i _ x). Qed.

Definition line_done i x servers args s (r : conf_answer) (s' : upconf I C W) : Prop :=
  exists servers', upstreams s' = <[i := with_servers x servers']> (upstreams s) /\
    (r = ConfOk -> exists sv, servers' = servers ++ [sv] /\ line_made args sv).

Lemma server_line_run i x servers args s :
  upstreams s !! i = Some x -> us_servers x = Some servers ->
  Forall is_word_text (drop 2 args) -> is_Some (args !! 1%nat) ->
  wp (ngx_nsoc_upstream_server i args) (line_done i x servers args s) s.
Proof.
  intros Hx Hs Hw [value Hval]. unfold ngx_nsoc_upstream_server, get_uscf. do 3 wp_step. apply (wp_mderef _ x); [done|].
  wp_step. apply (wp_mderef _ servers); [done|]. wp_step. apply wp_up_alloc. intros [|] w; cbn [negb].
  2:{ wp_step. exists servers. split; [by apply (with_servers_same x servers i s)|done]. }
  destruct (server_params (us_flags x) default_args (drop 2 args)) as [a good] eqn:Ha.
  assert (Hi : (i < length (upstreams s))%nat) by (by eapply lookup_lt_Some).
  wp_step. apply (wp_put_server _ x); [done|]. cbn [upstreams]. destruct good; cbn [negb].
  2:{ wp_step. eexists. by split. }
  wp_step. apply (wp_mderef _ value); [done|]. wp_step. unfold wp at 1, up_parse.
  destruct (ngx_parse_url _ _) as [[rc u] w2] eqn:Hu. cbv beta iota.
  destruct (Z.eqb_spec rc NGX_OK) as [->|]; cbn [negb]; [|wp_step; eexists; by split].
  destruct (u_no_port u) eqn:Hnp; [wp_step; eexists; by split|].
  apply parse_url_ok in Hu as (Hurl & _ & Hn & Hne).
  wp_step. eapply wp_put_server; [cbn; by rewrite list_lookup_insert_eq|]. wp_step.
  eexists. split; [cbn; by rewrite list_insert_insert_eq|]. intros _. eexists. split; [done|].
  pose proof (server_params_read (us_flags x) (drop 2 args) [] default_args a Hw read_nothing Ha) as [Rw Rc Rf Rt Rb Rd Rr].
  cbn [app] in *. split_and!; [split; cbn; [by rewrite Hurl|done..]| |by apply Hne].
  repeat split; cbn; [done|lia..].
Qed.

(** A block that holds [server] lines only. *)
Fixpoint server_lines (i : nat) (lines : list (list (list Z))) : M (upconf I C W) conf_answer :=
  match lines with
  | [] => mret ConfOk
  | args :: lines =>
      rv ← ngx_nsoc_upstream_server i args;
      match rv with ConfOk => server_lines i lines | _ => mret rv end
  end.

(** Lines of plain words, at least two each, as the reader of nginx gives them. *)
Definition line_words (args : list (list Z)) : Prop :=
  Forall is_word_text (drop 2 args) /\ is_Some (args !! 1%nat).

Lemma server_lines_run i x lines : forall servers s,
  upstreams s !! i = Some x -> us_servers x = Some servers -> Forall line_words lines ->
  wp (server_lines i lines) (fun r s' => exists servers',
    upstreams s' = <[i := with_servers x servers']> (upstreams s) /\
    (r = ConfOk -> exists svs, servers' = servers ++ svs /\ Forall2 line_made lines svs)) s.
Proof.
  revert x. induction lines as [|args lines IH]; intros x servers s Hx Hs Hl; cbn [server_lines].
  - wp_step. exists servers. split; [by apply with_servers_same|]. intros _. exists []. by rewrite app_nil_r.
  - apply Forall_cons_iff in Hl as [[Hw Hv] Hl]. wp_step.
    eapply wp_mono; [by apply (server_line_run i x servers)|]. intros rv s1 (servers1 & Hs1 & Hok).
    destruct rv; [|wp_step; exists servers1; by split..].
    destruct (Hok eq_refl) as (sv & -> & Hsv).
    assert (Hi : (i < length (upstreams s))%nat) by (by eapply lookup_lt_Some).
    eapply wp_mono; [apply (IH (with_servers x (servers ++ [sv])) (servers ++ [sv]) s1)|].
    + by rewrite Hs1, list_lookup_insert_eq.
    + done.
    + done.
    + intros r s2 (servers2 & Hs2 & Hok2). exists servers2. split; [by rewrite Hs2, Hs1, list_insert_insert_eq|].
      intros Hr. destruct (Hok2 Hr) as (svs & -> & Hsvs). exists (sv :: svs). rewrite <- app_assoc. by split; [|constructor].
Qed.

(** ** From the block to the balancer *)

(** Other modules create their configurations without touching the table. *)
Definition creators_quiet (modules : list (nat * option (M (upconf I C W) (option C)))) : Prop :=
  forall mi create s, (mi, Some create) ∈ modules -> wp create (fun _ s' => upstreams s' = upstreams s) s.

(** Two entries alike but for their module configurations and servers. *)
Definition same_entry x y : Prop :=
  same_name_as x y /\ us_flags y = us_flags x /\ us_init y = us_init x.

Lemma same_entry_refl x : same_entry x x.
Proof. done. Qed.

Lemma table_ok_same l i x y : table_ok l -> l !! i = Some x -> same_entry x y -> table_ok (<[i := y]> l).
Proof.
  intros Hok Hx (Hn & Hf & _). apply (table_ok_update l i x y); [done..|].
  unfold created. rewrite Hf. by eapply to_created.
Qed.

Lemma create_slots_run i ms : forall x s,
  creators_quiet ms -> upstreams s !! i = Some x ->
  wp (create_slots i ms) (fun _ s' => exists y, upstreams s' = <[i := y]> (upstreams s) /\ same_entry x y) s.
Proof.
  induction ms as [|[mi [create|]] ms IH]; intros x s Hq Hx; cbn [create_slots].
  - wp_step. exists x. by rewrite list_insert_id.
  - wp_step. eapply wp_mono; [apply (Hq mi); apply list_elem_of_here|]. intros c s1 Hs1.
    destruct c as [c|]; [|wp_step; exists x; by rewrite Hs1, list_insert_id].
    wp_step. rewrite <- Hs1 in Hx. assert (Hi : (i < length (upstreams s1))%nat) by (by eapply lookup_lt_Some).
    apply (wp_on_uscf i _ x); [done|]. eapply wp_mono; [eapply IH|].
    + intros m f s' Hm. apply (Hq m). by apply list_elem_of_further.
    + cbn. by rewrite list_lookup_insert_eq.
    + intros r s2 (y & Hs2 & Hy). exists y. split; [rewrite Hs2; cbn; by rewrite list_insert_insert_eq, Hs1|].
      exact Hy.
  - apply IH; [|done]. intros m f s' Hm. apply (Hq m). by apply list_elem_of_further.
Qed.

Context (modules : list (nat * option (M (upconf I C W) (option C)))) (upstream_index : nat).
Context (Hquiet : creators_quiet modules).
Context (resolve : list Z -> Z -> option (list addr)) (init_other : I -> nat -> M (upconf I C W) Z).

(** The number of peers and their weights fit the words they are kept in. *)
Definition sums_fit (svs : list upstream_server) : Prop :=
  forall b, zlen (server_peers b svs) < 2 ^ 64 /\ sumz weight (server_peers b svs) < 2 ^ 64.

(** The balancer of entry [i] after its initialisation. *)
Definition balances (i : nat) (svs : list upstream_server) (rc : Z) s : Prop :=
  rc = NGX_OK -> exists x us, upstreams s !! i = Some x /\ us_peer x = Some us /\
    built (us_host x) svs us /\ wf_us us /\ fresh_peers (server_peers false svs ++ server_peers true svs).

Lemma init_upstream_builds i x svs s :
  upstreams s !! i = Some x -> us_init x = None -> us_servers x = Some svs ->
  Forall server_ok svs -> sums_fit svs -> wp (init_upstream resolve init_other i) (balances i svs) s.
Proof.
  intros Hx Hi Hs Hok Hfit. unfold init_upstream, get_uscf. do 3 wp_step. apply (wp_mderef _ x); [done|].
  rewrite Hi, Hs. wp_step. unfold wp at 1, on_pool.
  destruct (init_servers_run (us_host x) svs (up_world s)) as (rc & r & pool' & Hrun & Hcase); [by split|].
  cbn [ngx_nsoc_upstream_init_round_robin]. rewrite Hrun.
  assert (Hl : (i < length (upstreams s))%nat) by (by eapply lookup_lt_Some).
  destruct Hcase as [(-> & _ & us & -> & Hb)| ->].
  - wp_step. apply (wp_on_uscf i _ x); [done|]. wp_step. intros _.
    exists (x <| us_peer := Some us |>), us. cbn. rewrite list_lookup_insert_eq by done. split_and!; try done.
    + by destruct (built_inv (us_host x) svs us ∅ (conj Hok Hfit) Hb eq_refl) as (Hus%us_inv_wf & _).
    + apply Forall_app_2; by apply server_peers_fresh.
  - destruct r; [|do 3 wp_step; by intros]. wp_step. apply (wp_on_uscf i _ x); [done|]. wp_step. by intros.
Qed.

Definition block_made (name : list Z) (lines : list (list (list Z))) s : Prop :=
  exists i x svs, upstreams s !! i = Some x /\ same_host (us_host x) name = true /\ us_port x = 0 /\
    created x = true /\ us_servers x = Some svs /\ svs <> [] /\ Forall2 line_made lines svs /\
    (us_init x = None -> sums_fit svs -> wp (init_upstream resolve init_other i) (balances i svs) s).

Lemma made_servers_ok lines svs : Forall2 line_made lines svs -> Forall server_ok svs.
Proof. intros Hl. by apply (Forall2_Forall_r _ _ _ _ Hl), Forall_true; intros ? ? (_ & ? & _). Qed.

(** The entry after the block. *)
Definition block_entry i x (l l' : list (srv_conf I C)) : Prop :=
  exists y svs, l' = <[i := y]> l /\ us_init y = us_init x /\ us_servers y = Some svs /\ Forall server_ok svs.

(** What is left of the directive once the upstream is in the table. *)
Lemma block_tail name lines i x s :
  table_ok (upstreams s) -> upstreams s !! i = Some x -> same_host (us_host x) name = true -> us_port x = 0 ->
  us_flags x = BLOCK_FLAGS -> Forall line_words lines ->
  wp (ok ← create_slots i modules;
      if negb ok then mret ConfError else
      ok ← up_alloc;
      if negb ok then mret ConfError else
      on_uscf i (fun x => x <| us_servers := Some [] |>);;
      rv ← server_lines i lines;
      match rv with
      | ConfOk =>
          x ← get_uscf i;
          servers ← mderef (us_servers x);
          mret (match servers with [] => ConfError | _ => ConfOk end)
      | _ => mret rv
      end) (fun r s' => table_ok (upstreams s') /\
              (r = ConfOk -> block_made name lines s' /\ block_entry i x (upstreams s) (upstreams s'))) s.
Proof.
  intros Hok Hx Hh Hp Hf Hl. wp_step. eapply wp_mono; [by apply (create_slots_run i modules x)|].
  intros ok s1 (y & Hs1 & Hy). pose proof (table_ok_same _ i x y Hok Hx Hy) as Hok1. rewrite <- Hs1 in Hok1.
  assert (Hi : (i < length (upstreams s))%nat) by (by eapply lookup_lt_Some).
  assert (Hy1 : upstreams s1 !! i = Some y) by (by rewrite Hs1, list_lookup_insert_eq).
  assert (Hi1 : (i < length (upstreams s1))%nat) by (by eapply lookup_lt_Some).
  destruct ok; cbn [negb]; [|by wp_step].
  wp_step. apply wp_up_alloc. intros [|] w; cbn [negb]; [|by wp_step].
  wp_step. apply (wp_on_uscf i _ y); [done|]. wp_step.
  set (s2 := _ <| upstreams := _ |>). set (y2 := with_servers y []).
  assert (Hy2 : upstreams s2 !! i = Some y2) by (subst s2; cbn; by rewrite list_lookup_insert_eq).
  assert (Hok2 : table_ok (upstreams s2)) by (by apply (table_ok_same _ i y)).
  eapply wp_mono; [by apply (server_lines_run i y2 lines [])|]. intros rv s3 (servers & Hs3 & Hmade).
  assert (Hok3 : table_ok (upstreams s3)) by (rewrite Hs3; by apply (table_ok_same _ i y2)).
  destruct rv; [|by wp_step..]. destruct (Hmade eq_refl) as (svs & -> & Hsvs). cbn [app] in Hs3.
  assert (Hy3 : upstreams s3 !! i = Some (with_servers y2 svs)).
  { rewrite Hs3. apply list_lookup_insert_eq. by eapply lookup_lt_Some. }
  wp_step. unfold get_uscf. do 2 wp_step. apply (wp_mderef _ (with_servers y2 svs)); [done|].
  wp_step. apply (wp_mderef _ svs); [done|]. wp_step. split; [done|]. intros Hne.
  destruct Hy as ((Hyh & Hyp & _) & Hyf & Hyi). split.
  2:{ exists (with_servers y2 svs), svs. split_and!; [|done|done|by eapply made_servers_ok].
      subst s2. rewrite Hs3. cbn. by rewrite list_insert_insert_eq, Hs1, list_insert_insert_eq. }
  exists i, (with_servers y2 svs), svs. cbn. unfold created. cbn. rewrite Hyh, Hyp, Hyf, Hf.
  split_and!; try done; [by destruct svs|]. intros Hinit Hfit.
  apply (init_upstream_builds i (with_servers y2 svs)); try done. by eapply made_servers_ok.
Qed.

(** The directive, with the table before and after. *)
Lemma upstream_block_run args name lines s :
  table_ok (upstreams s) -> args !! 1%nat = Some name -> Forall line_words lines ->
  wp (ngx_nsoc_upstream modules upstream_index (fun i => server_lines i lines) args)
    (fun r s' => table_ok (upstreams s') /\ (r = ConfOk -> block_made name lines s' /\
       exists i x s1, (ngx_nsoc_upstream_add (no_url <| u_host := name |> <| u_no_resolve := true |> <| u_no_port := true |>)
                         BLOCK_FLAGS) s = Done (Some i, s1) /\ upstreams s1 !! i = Some x /\
         block_entry i x (upstreams s1) (upstreams s'))) s.
Proof.
  intros Hok Hname Hlines. unfold ngx_nsoc_upstream. wp_step. apply (wp_mderef _ name); [done|]. wp_step.
  set (u := _ <| u_no_port := true |>).
  destruct (wp_done _ _ _ (upstream_added BLOCK_FLAGS u s Hok ltac:(done))) as (o & s1 & Hrun & Hok1 & _ & _ & Hr).
  eapply done_wp; [exact Hrun|]. destruct o as [i|]; [|by wp_step].
  destruct (Hr i eq_refl) as (x & Hx & (Hh & Hp) & _ & Hf). specialize (Hf eq_refl).
  change (sought BLOCK_FLAGS u s) with u in Hh, Hp. cbn in Hh, Hp.
  wp_step. apply wp_up_alloc. intros [|] w; cbn [negb]; [|by wp_step].
  wp_step. apply wp_up_alloc. intros [|] w2; cbn [negb]; [|by wp_step].
  wp_step. apply (wp_on_uscf i _ x); [done|]. cbn [upstreams].
  assert (Hi : (i < length (upstreams s1))%nat) by (by eapply lookup_lt_Some).
  eapply wp_mono; [eapply (block_tail name lines i (x <| us_srv_conf := _ |>)); cbn; try done|].
  - by apply (table_ok_same _ i x).
  - by rewrite list_lookup_insert_eq.
  - intros r s2 [Ht Hmade]. split; [done|]. intros Hr2. destruct (Hmade Hr2) as [? (y & svs & Hs2 & Hrest)].
    split; [done|]. exists i, x, s1. split_and!; [done|done|]. exists y, svs. cbn in Hs2.
    by rewrite list_insert_insert_eq in Hs2.
Qed.

End Lines.

(** ** Concrete configurations *)

Fixpoint digits (acc : Z) (l : list Z) : option Z :=
  match l with
  | [] => Some acc
  | c :: l => if between 48 c 57 then digits (acc * 10 + (c - 48)) l else None
  end.

Definition demo_atoi (l : list Z) : Z :=
  match l, digits 0 l with
  | _ :: _, Some n => if (0 <=? n) && (n <? 2 ^ 63) then n else NGX_ERROR
  | _, _ => NGX_ERROR
  end.

(** The text before the first colon, and what is behind it. *)
Fixpoint split_colon (l : list Z) : list Z * option (list Z) :=
  match l with
  | [] => ([], None)
  | c :: l => if c =? 58 then ([], Some l) else let '(h, r) := split_colon l in (c :: h, r)
  end.

Definition demo_addrs (u : url) (host : list Z) : list addr :=
  if u_no_resolve u then [] else [Addr host 16 host].

(** Host and port; every host has one address. *)
Definition demo_parse : NgxParse unit := {|
  ngx_parse_url u w :=
    let '(h, r) := split_colon (u_url u) in
    let n := match r with Some r => demo_atoi r | None => 0 end in
    ((if n =? NGX_ERROR then NGX_ERROR else NGX_OK),
     u <| u_host := h |> <| u_port := n |> <| u_no_port := bool_decide (r = None) |>
       <| u_addrs := demo_addrs u h |> <| u_naddrs := zlen (demo_addrs u h) |>, w);
  ngx_atoi := demo_atoi;
  ngx_parse_time := demo_atoi;
  ngx_parse_addr_port l w := (NGX_OK, Addr l 16 l, w);
|}.

Lemma demo_atoi_range l : demo_atoi l = NGX_ERROR \/ 0 <= demo_atoi l < 2 ^ 63.
Proof.
  unfold demo_atoi. destruct l as [|c l]; [by left|]. destruct (digits _ _) as [n|]; [|by left].
  destruct (_ && _) eqn:E; [right|by left]. apply andb_true_iff in E as [E1%Z.leb_le E2%Z.ltb_lt]. lia.
Qed.

#[local] Existing Instance demo_parse.
#[local] Existing Instance ascii_str.
#[local] Existing Instance ascii_str_laws.
#[local] Existing Instance plentiful.

#[local] Instance demo_parse_laws : NgxParseLaws unit.
Proof.
  split; [apply demo_atoi_range..|]. intros u w u' w'. cbn. destruct (split_colon (u_url u)) as [h r].
  destruct (_ =? NGX_ERROR); [done|]. intros [= <-]. cbn. split_and!; [done| |done|].
  - intros H. case_bool_decide; [|done]. by subst.
  - unfold demo_addrs. by intros ->.
Qed.

Definition demo_conf : upconf unit unit unit := UpConf [] (kw "nginx.conf") 12 tt.

(** A name of a directive that names an upstream. *)
Definition demo_name (s : string) : url := no_url <| u_url := kw s |> <| u_no_resolve := true |>.

Definition demo_lines : list (list (list Z)) :=
  [ [kw "server"; kw "a:80"; kw "weight=5"; kw "max_fails=2"];
    [kw "server"; kw "b:81"; kw "weight=2"; kw "weight=3"];
    [kw "server"; kw "c:82"; kw "backup"; kw "fail_timeout=3"] ].

Definition demo_block (lines : list (list (list Z))) (name : string) : M (upconf unit unit unit) conf_answer :=
  ngx_nsoc_upstream [] 0 (fun i => server_lines i lines) [kw "upstream"; kw name].

Definition demo_resolve (host : list Z) (port : Z) : option (list addr) := None.
Definition demo_other (_ : unit) (_ : nat) : M (upconf unit unit unit) Z := mret NGX_ERROR.

Lemma demo_lines_words : Forall line_words demo_lines.
Proof.
  assert (Hw : forallb (fun args => forallb (fun v => negb (bool_decide (0 ∈ v))) (drop 2 args)) demo_lines = true)
    by (by vm_compute).
  apply List.Forall_forall. intros args Ha. rewrite forallb_forall in Hw. specialize (Hw args Ha). split.
  - apply List.Forall_forall. intros v Hv. rewrite forallb_forall in Hw. specialize (Hw v Hv).
    apply negb_true_iff, bool_decide_eq_false in Hw. exact Hw.
  - cbn in Ha. destruct_or!; subst; by eexists.
Qed.

Lemma upstream_add_ok_witness :
  table_ok (upstreams demo_conf) /\
  wp (ngx_nsoc_upstream_add (demo_name "a:80") 0) (added 0 (demo_name "a:80") demo_conf) demo_conf.
Proof. split; [apply table_ok_nil|]. apply upstream_add_ok; [apply table_ok_nil|done]. Defined.


(** The order of the directives decides whether a block may follow a name with a port:
    it is refused right behind it, and accepted when the name without a port came
    before. *)
Example block_after_port :
  (exists s, (ngx_nsoc_upstream_add (demo_name "main:80") 0;; demo_block demo_lines "main") demo_conf = Done (ConfError, s)) /\
  (exists s, (ngx_nsoc_upstream_add (demo_name "main") 0;; ngx_nsoc_upstream_add (demo_name "main:80") 0;;
              demo_block demo_lines "main") demo_conf = Done (ConfOk, s) /\
             map us_port (upstreams s) = [0; 80]).
Proof. split; [|eexists; split]; [eexists|..]; by vm_compute. Qed.
