(* ===== verification/UpTable.v ===== *)
(** * The table of upstreams on its way to the balancers

    Upstream shows that the table names each upstream once and what a block puts into
    it.  Here: every entry can be turned into a balancer ([entries_ok]), which every
    directive keeps; and [ngx_nsoc_upstream_init_main_conf] returns, with a balancer in
    every entry when it succeeds. *)

From stdpp Require Import prelude list numbers gmap strings.
From S2P Require Import Prelude RoundRobin Ports Variables CoreVars Script Directive Upstream.

Section UpTable.
Context {I C W : Type} `{!NgxPool W} `{!NgxStr} `{!NgxStrLaws} `{!NgxParse W} `{!NgxParseLaws W}.
Implicit Types (x y : srv_conf I C) (u : url) (s : upconf I C W) (l : list (srv_conf I C)).

(** A server has as many addresses as it says; no other balancer is asked for. *)
Definition addrs_ok (sv : upstream_server) : Prop := sv_naddrs sv = zlen (sv_addrs sv).

Definition entry_ok x : Prop :=
  us_init x = None /\ forall svs, us_servers x = Some svs -> Forall addrs_ok svs.

Definition entries_ok l : Prop := Forall entry_ok l.

Lemma entries_insert l i y : entries_ok l -> entry_ok y -> entries_ok (<[i := y]> l).
Proof. intros Hl Hy. by apply Forall_insert. Qed.

Lemma entry_flags x fl : entry_ok x -> entry_ok (x <| us_flags := fl |>).
Proof. done. Qed.

(** ** Asking for an upstream *)

Lemma new_upstream_entries fl u s :
  entries_ok (upstreams s) -> u_naddrs u = zlen (u_addrs u) \/ u_naddrs u = 0 ->
  wlp (new_upstream fl u) (fun _ s' => entries_ok (upstreams s')) s.
Proof.
  intros Hs Hn. unfold new_upstream. apply wlp_bind. unfold wlp at 1, up_alloc. destruct (pool_object _) as [[|] w]; cbn [negb]; [|done].
  do 2 apply wlp_bind, wlp_gets. cbv zeta. set (literal := _ && _).
  assert (Hfin : forall x s', entry_ok x -> upstreams s' = upstreams s ->
    wlp (ok ← up_alloc; if negb ok then mret None else
         l ← gets upstreams; upstreams ::=! l ++ [x];; mret (Some (length l))) (fun _ s' => entries_ok (upstreams s')) s').
  { intros x s' Hx Hs'. apply wlp_bind. unfold wlp at 1, up_alloc. destruct (pool_object _) as [[|] w']; cbn [negb];
      [|cbn; by rewrite Hs'].
    apply wlp_bind, wlp_gets, wlp_bind, wlp_modify, wlp_ret. cbn. rewrite Hs'. by apply Forall_app_2, Forall_singleton. }
  apply wlp_bind. destruct literal eqn:Hlit.
  - apply wlp_bind. unfold wlp at 1, up_alloc. destruct (pool_object _) as [[|] w2]; cbn [negb]; [|apply wlp_ret; cbn [negb]; by apply wlp_ret].
    unfold wlp at 1, up_alloc. destruct (pool_object _) as [[|] w3]; cbn [negb]; [|by apply wlp_ret].
    apply Hfin; [|done]. split; [done|]. intros svs [= <-]. apply Forall_singleton. unfold addrs_ok. cbn.
    subst literal. apply andb_true_iff in Hlit as [Hlit _]. apply Z.eqb_eq in Hlit. destruct Hn; lia.
  - apply wlp_ret. cbn [negb]. by apply Hfin.
Qed.

Lemma upstream_add_entries fl u s :
  entries_ok (upstreams s) -> (has fl NGX_NSOC_UPSTREAM_CREATE = true -> u_naddrs u = 0) ->
  wlp (ngx_nsoc_upstream_add u fl) (fun _ s' => entries_ok (upstreams s')) s.
Proof.
  intros Hs Hn. unfold ngx_nsoc_upstream_add. apply wlp_bind.
  assert (Hgo : forall rc u' w, (rc = NGX_OK -> u_naddrs u' = zlen (u_addrs u') \/ u_naddrs u' = 0) ->
    wlp (if negb (rc =? NGX_OK) then mret None else
         l ← gets upstreams;
         match scan_upstreams fl u' 0 l with
         | Refused => mret None
         | FoundAt i =>
             (if has fl NGX_NSOC_UPSTREAM_CREATE then on_uscf i (fun x => x <| us_flags := fl |>) else mret tt);;
             mret (Some i)
         | NotThere => new_upstream fl u'
         end) (fun _ s' => entries_ok (upstreams s')) (s <| up_world := w |>)).
  { intros rc u' w Hu. destruct (Z.eqb_spec rc NGX_OK) as [Hrc|]; cbn [negb]; [|done].
    apply wlp_bind, wlp_gets. destruct (scan_upstreams _ _ _ _) as [|i|]; [done| |by apply new_upstream_entries; auto].
    apply wlp_bind. destruct (has _ _); [|done]. unfold on_uscf. apply wlp_bind, wlp_gets, wlp_bind, wlp_mderef.
    intros x Hx. apply wlp_modify, wlp_ret. cbn. apply entries_insert; [done|]. apply entry_flags.
    unfold entries_ok in Hs. rewrite Forall_lookup in Hs. by apply (Hs i). }
  destruct (has fl NGX_NSOC_UPSTREAM_CREATE) eqn:Hc.
  - apply wlp_ret. specialize (Hgo NGX_OK u (up_world s)). replace (s <| up_world := up_world s |>) with s in Hgo by (by destruct s).
    apply Hgo. intros _. right. by apply Hn.
  - unfold wlp at 1, up_parse. destruct (ngx_parse_url u (up_world s)) as [[rc u'] w] eqn:Hu. apply Hgo.
    intros ->. apply parse_url_ok in Hu as (_ & _ & ? & _). by left.
Qed.

Lemma kept_length r fl l l' : kept r fl l l' -> (length l <= length l')%nat.
Proof.
  intros Hk. destruct (decide (length l <= length l')%nat) as [|Hn]; [done|].
  destruct (lookup_lt_is_Some_2 l (length l') ltac:(lia)) as [x Hx].
  destruct (Hk _ _ Hx) as [Hl|[_ Hl]]; apply lookup_lt_Some in Hl; lia.
Qed.

(** The table after a directive that asked for an upstream. *)
Lemma upstream_add_table fl u s :
  table_ok (upstreams s) -> entries_ok (upstreams s) ->
  (has fl NGX_NSOC_UPSTREAM_CREATE = true -> u_no_port u = true /\ u_port u = 0 /\ u_naddrs u = 0) ->
  wp (ngx_nsoc_upstream_add u fl) (fun r s' => added fl u s r s' /\ entries_ok (upstreams s') /\
    (length (upstreams s) <= length (upstreams s'))%nat /\ (forall i, r = Some i -> (i < length (upstreams s'))%nat)) s.
Proof.
  intros Ht He Hc. assert (Hc1 : has fl NGX_NSOC_UPSTREAM_CREATE = true -> u_no_port u = true /\ u_port u = 0)
    by (intros H1; by destruct (Hc H1) as (? & ? & ?)).
  destruct (wp_done _ _ _ (upstream_added fl u s Ht Hc1)) as (r & s' & Hrun & Ha).
  eapply done_wp; [exact Hrun|]. split; [done|]. split.
  - assert (Hw : wlp (ngx_nsoc_upstream_add u fl) (fun _ s' => entries_ok (upstreams s')) s)
      by (apply upstream_add_entries; [done|]; intros H1; by destruct (Hc H1) as (? & ? & ?)).
    exact (wlp_inv _ _ _ _ _ Hw Hrun).
  - destruct Ha as (_ & Hk & _ & Hr). split; [by eapply kept_length|]. intros i ->.
    destruct (Hr i eq_refl) as (x & Hx & _). by eapply lookup_lt_Some.
Qed.

(** ** An [upstream] block *)

Context (modules : list (nat * option (M (upconf I C W) (option C)))) (upstream_index : nat).
Context (Hquiet : creators_quiet modules).
Context (resolve : list Z -> Z -> option (list addr)) (init_other : I -> nat -> M (upconf I C W) Z).

Lemma upstream_block_table args name lines s :
  table_ok (upstreams s) -> entries_ok (upstreams s) -> args !! 1%nat = Some name -> Forall line_words lines ->
  wp (ngx_nsoc_upstream modules upstream_index (fun i => server_lines i lines) args)
    (fun r s' => r = ConfOk -> table_ok (upstreams s') /\ entries_ok (upstreams s') /\
       (length (upstreams s) <= length (upstreams s'))%nat) s.
Proof.
  intros Ht He Hargs Hl.
  eapply wp_mono; [by apply (upstream_block_run modules upstream_index Hquiet resolve init_other args name lines s)|].
  intros r s' [Ht' Hok] Hr. destruct (Hok Hr) as [_ (i & x & s1 & Hadd & Hx & y & svs & Hs' & Hi & Hsv & Hall)].
  pose proof (wp_done _ _ _ (upstream_add_table BLOCK_FLAGS
    (no_url <| u_host := name |> <| u_no_resolve := true |> <| u_no_port := true |>) s Ht He ltac:(done)))
    as (o & s2 & Hadd2 & _ & He2 & Hlen & _).
  rewrite Hadd in Hadd2. injection Hadd2 as <- <-. split_and!; [done| |by rewrite Hs', length_insert].
  rewrite Hs'. apply entries_insert; [done|]. unfold entries_ok in He2. rewrite Forall_lookup in He2.
  destruct (He2 i x Hx) as [Hix _]. split; [by rewrite Hi|]. intros svs' Hsvs'. rewrite Hsv in Hsvs'. injection Hsvs' as <-.
  eapply Forall_impl; [exact Hall|]. by intros sv (Hn & _).
Qed.

(** ** The balancers *)

Lemma fill_peers_total b svs : Forall addrs_ok svs -> is_Some (fill_peers b svs).
Proof.
  induction svs as [|sv svs IH]; intros Hs; cbn [fill_peers]; [by eexists|].
  apply Forall_cons in Hs as [Hsv Hs]. destruct (IH Hs) as [rest ->]. destruct (Bool.eqb _ _); [|by eexists].
  unfold peers_of_server. rewrite Hsv. unfold zlen. rewrite Nat2Z.id.
  pose proof (mapM_seq_lookup (peer_of_server sv) (sv_addrs sv) []) as Hm. cbn [app length] in Hm. rewrite Hm. by eexists.
Qed.

Lemma init_round_robin_total host port servers (w : W) :
  (forall svs, servers = Some svs -> Forall addrs_ok svs) ->
  wp (ngx_nsoc_upstream_init_round_robin resolve host port servers)
    (fun r _ => r.1 = NGX_OK -> is_Some r.2) w.
Proof.
  intros Hs. assert (Hobj : forall (Q : bool -> W -> Prop) w, (forall ok w', Q ok w') -> wp object Q w)
    by (intros Q w0 HQ; unfold wp, object; destruct (pool_object w0); apply HQ).
  destruct servers as [svs|]; cbn [ngx_nsoc_upstream_init_round_robin].
  - specialize (Hs svs eq_refl). unfold init_round_robin_servers. destruct (count_servers false svs) as [n wt].
    destruct (n =? 0); [by wp_step|]. wp_step. apply Hobj. intros [|] w1; cbn [negb]; [|by wp_step].
    wp_step. apply Hobj. intros [|] w2; cbn [negb]; [|by wp_step].
    destruct (fill_peers_total false svs Hs) as [ps Hps], (fill_peers_total true svs Hs) as [bps Hbps].
    wp_step. apply (wp_mderef _ ps); [done|]. destruct (count_servers true svs) as [bn bw]. cbv zeta.
    destruct (bn =? 0); [wp_step; cbn; by eauto|]. wp_step. apply Hobj. intros [|] w3; cbn [negb]; [|by wp_step].
    wp_step. apply Hobj. intros [|] w4; cbn [negb]; [|by wp_step]. wp_step. apply (wp_mderef _ bps); [done|].
    wp_step. cbn. by eauto.
  - unfold init_round_robin_implicit. destruct (port =? 0); [by wp_step|]. destruct (resolve host port); [|by wp_step].
    cbv zeta. wp_step. apply Hobj. intros [|] w1; cbn [negb]; [|by wp_step].
    wp_step. apply Hobj. intros [|] w2; cbn [negb]; [|by wp_step]. wp_step. cbn. by eauto.
Qed.

(** The entries from [i] on are still to be initialised. *)
Definition balanced (n : nat) l : Prop := forall i x, l !! i = Some x -> (i < n)%nat -> is_Some (us_peer x).

Lemma init_upstream_total i s :
  entries_ok (upstreams s) -> (i < length (upstreams s))%nat -> balanced i (upstreams s) ->
  wp (init_upstream resolve init_other i) (fun rc s' => entries_ok (upstreams s') /\
    length (upstreams s') = length (upstreams s) /\ (rc = NGX_OK -> balanced (S i) (upstreams s'))) s.
Proof.
  intros He Hi Hb. destruct (lookup_lt_is_Some_2 _ _ Hi) as [x Hx]. unfold init_upstream, get_uscf.
  do 3 wp_step. apply (wp_mderef _ x); [done|]. pose proof He as He'. unfold entries_ok in He'.
  rewrite Forall_lookup in He'. destruct (He' i x Hx) as [-> Hsv]. wp_step.
  destruct (wp_done _ _ _ (init_round_robin_total (us_host x) (us_port x) (us_servers x) (up_world s) Hsv))
    as ([rc us] & w & Hrun & Hus).
  unfold wp at 1, on_pool. rewrite Hrun. cbn [fst snd] in Hus. destruct us as [us|].
  - wp_step. apply (wp_on_uscf i _ x); [done|]. wp_step. cbn. rewrite length_insert. split_and!; [|done|].
    + apply entries_insert; [done|]. by destruct (He' i x Hx).
    + intros _ j y Hy Hj. destruct (decide (i = j)) as [<-|Hne].
      * rewrite list_lookup_insert_eq in Hy by done. injection Hy as <-. by eexists.
      * rewrite list_lookup_insert_ne in Hy by done. apply (Hb j y Hy). lia.
  - do 3 wp_step. split_and!; [done|done|]. intros ->. by destruct (Hus eq_refl).
Qed.

Lemma init_upstreams_total n : forall i s,
  entries_ok (upstreams s) -> (i + n = length (upstreams s))%nat -> balanced i (upstreams s) ->
  wp (init_upstreams resolve init_other (seq i n)) (fun r s' => length (upstreams s') = length (upstreams s) /\
    (r = ConfOk -> balanced (i + n) (upstreams s'))) s.
Proof.
  induction n as [|n IH]; intros i s He Hn Hb; cbn [seq init_upstreams].
  - wp_step. by rewrite Nat.add_0_r.
  - wp_step. eapply wp_mono; [apply (init_upstream_total i s He); [lia|done]|]. intros rc s1 (He1 & Hl1 & Hb1).
    destruct (Z.eqb_spec rc NGX_OK) as [Hrc|]; cbn [negb]; [|by wp_step].
    eapply wp_mono; [apply (IH (S i) s1 He1); [lia|by apply Hb1]|]. intros r s2 [Hl2 Hb2].
    split; [lia|]. intros Hr. rewrite <- Nat.add_succ_comm. by apply Hb2.
Qed.

Lemma init_main_conf_total s :
  entries_ok (upstreams s) ->
  wp (ngx_nsoc_upstream_init_main_conf resolve init_other) (fun r s' =>
    length (upstreams s') = length (upstreams s) /\
    (r = ConfOk -> forall i x, upstreams s' !! i = Some x -> is_Some (us_peer x))) s.
Proof.
  intros He. unfold ngx_nsoc_upstream_init_main_conf. do 2 wp_step.
  eapply wp_mono; [by apply (init_upstreams_total _ 0 s He); [|intros i x _ Hi; lia]|].
  intros r s' [Hl Hb]. split; [done|]. intros Hr i x Hx. apply (Hb Hr i x Hx). apply lookup_lt_Some in Hx. lia.
Qed.
End UpTable.
