(* ===== verification/UpVars.v ===== *)
(** * The variables of an upstream: the handlers of ngx_nsoc_upstream.c

    [$upstream_addr], the byte counts and the times, one text per connection the session
    tried, with a comma and a blank between them.  A handler reserves memory for the
    widest texts there can be and writes into it through a pointer; [render] is that loop
    over real memory.  [upstream_values] says that it never leaves the memory and that the
    value is the reference text [joined]. *)

From stdpp Require Import prelude list numbers strings.
From S2P Require Import Prelude RoundRobin Variables CoreVars Script Directive.
From S2P Require Proxy.
Import Proxy(upstream_state, response_time, connect_time, first_byte_time, bytes_sent, bytes_received, st_peer).

(** [s->upstream_states]: NULL, or what the session recorded of each connection. *)
Class NgxUpSess (W : Type) := session_states : W -> option (list upstream_state).

(** [sizeof("-9223372036854775808") - 1] *)
Definition NGX_OFF_T_LEN : Z := 20.
Definition NGX_TIME_T_LEN : Z := 20.

(** [(ngx_msec_t) -1] *)
Definition MSEC_UNSET : Z := 2 ^ 64 - 1.

Section UpVars.
Context {W : Type} `{!NgxPool W} `{!NgxFormat} `{!NgxUpSess W}.
Abbreviation VM := (M (vsess W)).
Implicit Types (st : upstream_state) (states : list upstream_state).

(** ** Writing *)

(** [ngx_cpymem(p, ...)] with [p] an offset into the memory of the value. *)
Definition put (p : Z) (bs mem : list Z) : option (Z * list Z) :=
  mem ← store p bs mem; Some (p + zlen bs, mem).

(** The [for (;;)] over the states; it is entered with one state at least. *)
Fixpoint render (text : upstream_state -> list Z) states (p : Z) (mem : list Z) : option (Z * list Z) :=
  match states with
  | [] => None
  | st :: rest =>
      '(p, mem) ← put p (text st) mem;
      match rest with
      | [] => Some (p, mem)
      | _ => '(p, mem) ← put p [44] mem; '(p, mem) ← put p [32] mem; render text rest p mem
      end
  end.

(** [valid = 1], [no_cacheable = 0], [not_found = 0]. *)
Definition mark_valid (v : vref) : VM unit :=
  set_value v (fun x => x <| valid := true |> <| no_cacheable := false |> <| not_found := false |>).

(** The length of a value has 28 bits. *)
Definition len28 (n : Z) : Z := n mod 2 ^ 28.

(** What the three handlers share: no states, the memory, the loop, the length. *)
Definition states_value (v : vref) (size : list upstream_state -> Z) (text : upstream_state -> list Z) : VM Z :=
  mark_valid v;;
  o ← env session_states;
  match o with
  | None | Some [] => set_value v (fun x => x <| not_found := true |>);; mret NGX_OK
  | Some states =>
      mem ← value_alloc (size states);
      match mem with
      | None => mret NGX_ERROR
      | Some mem =>
          '(p, mem) ← mderef (render text states 0 mem);
          bs ← mderef (load 0 (len28 p) mem);
          set_value v (fun x => x <| vv_data := bs |>);; mret NGX_OK
      end
  end.

(** ** The handlers *)

Definition addr_text_of st : list Z := default [] (st_peer st).

(** The loop that adds up [state[i].peer->len] and two for each. *)
Definition addr_size states : Z := foldl (fun len st => u64 (u64 (len + zlen (addr_text_of st)) + 2)) 0 states.

Definition ngx_nsoc_upstream_addr_variable (v : vref) : VM Z := states_value v addr_size addr_text_of.

Definition bytes_text (data : Z) st : list Z :=
  if data =? 1 then fmt_O (bytes_received st) else fmt_O (bytes_sent st).

Definition ngx_nsoc_upstream_bytes_variable (v : vref) (data : Z) : VM Z :=
  states_value v (fun states => u64 (zlen states * (NGX_OFF_T_LEN + 2))) (bytes_text data).

(** [ngx_sprintf(p, "%T.%03M", (time_t) ms / 1000, ms % 1000)] for a signed [ms]. *)
Definition time_text (ms : Z) : list Z := let ms := Z.max (s64 ms) 0 in fmt_T_03M (ms / 1000) (ms mod 1000).

Definition response_time_text (data : Z) st : list Z :=
  if data =? 1 then
    if first_byte_time st =? MSEC_UNSET then [45] else time_text (first_byte_time st)
  else if (data =? 2) && negb (connect_time st =? MSEC_UNSET) then time_text (connect_time st)
  else time_text (response_time st).

Definition ngx_nsoc_upstream_response_time_variable (v : vref) (data : Z) : VM Z :=
  states_value v (fun states => u64 (zlen states * (NGX_TIME_T_LEN + 4 + 2))) (response_time_text data).

(** ** The table *)

Inductive up_handler := upstream_addr | upstream_bytes | upstream_response_time.

Definition data_word (d : vdata) : Z := match d with DInt n => n | DName _ => 0 end.

Definition up_call (h : up_handler) (v : vref) (data : vdata) : VM Z :=
  match h with
  | upstream_addr => ngx_nsoc_upstream_addr_variable v
  | upstream_bytes => ngx_nsoc_upstream_bytes_variable v (data_word data)
  | upstream_response_time => ngx_nsoc_upstream_response_time_variable v (data_word data)
  end.

Definition up_var (s : string) (h : up_handler) (data : Z) : variable up_handler :=
  Var (name_of s) (Some h) (DInt data) NGX_NSOC_VAR_NOCACHEABLE 0.

Definition ngx_nsoc_upstream_vars : list (variable up_handler) := [
  up_var "upstream_addr" upstream_addr 0;
  up_var "upstream_bytes_sent" upstream_bytes 0;
  up_var "upstream_connect_time" upstream_response_time 2;
  up_var "upstream_first_byte_time" upstream_response_time 1;
  up_var "upstream_session_time" upstream_response_time 0;
  up_var "upstream_bytes_received" upstream_bytes 1].
End UpVars.

(** [ngx_nsoc_upstream_add_variables]; [handler] says where the handlers of this file are
    among all handlers of the program. *)
Section AddVars.
Context {H T W : Type} `{!NgxStr} `{!NgxHash T} `{!NgxPool W} (handler : up_handler -> H).
Abbreviation CM := (M (vconf H T W)).

(** [var->get_handler = v->get_handler; var->data = v->data] *)
Definition set_handler_data (p : vptr) (h : option H) (d : vdata) : CM unit :=
  match p with
  | KeyVar i =>
      ks ← gets variables_keys;
      keys ← mderef ks;
      '(k, v) ← mderef (keys !! i);
      variables_keys ::=! Some (<[i := (k, v <| get_handler := h |> <| v_data := d |>)]> keys)
  | PrefixVar i =>
      vs ← gets prefix_variables;
      v ← mderef (vs !! i);
      prefix_variables ::=! <[i := v <| get_handler := h |> <| v_data := d |>]> vs
  end.

Fixpoint add_up_vars (uninit : variable H) (table : list (variable up_handler)) : CM Z :=
  match table with
  | [] => mret NGX_OK
  | v :: table =>
      var ← ngx_nsoc_add_variable uninit (v_name v) (flags v);
      match var with
      | None => mret NGX_ERROR
      | Some var => set_handler_data var (handler <$> get_handler v) (v_data v);; add_up_vars uninit table
      end
  end.

Definition ngx_nsoc_upstream_add_variables (uninit : variable H) : CM Z := add_up_vars uninit ngx_nsoc_upstream_vars.
End AddVars.

(** ** The values *)

(** Texts with a comma and a blank between them. *)
Fixpoint joined (texts : list (list Z)) : list Z :=
  match texts with
  | [] => []
  | [t] => t
  | t :: rest => t ++ [44; 32] ++ joined rest
  end.

(** The widths nginx documents of its formats: [%O] of an [off_t], and [%T.%03M] of a
    number of milliseconds. *)
Class NgxFormatWidths `{!NgxFormat} : Prop := {
  width_O n : - 2 ^ 63 <= n < 2 ^ 63 -> zlen (fmt_O n) <= NGX_OFF_T_LEN;
  width_T_03M s m : 0 <= s < 2 ^ 63 -> 0 <= m < 1000 -> zlen (fmt_T_03M s m) <= NGX_TIME_T_LEN + 4;
}.

Section Values.
Context {W : Type} `{!NgxPool W} `{!NgxPoolLaws W} `{!NgxFormat} `{!NgxFormatWidths} `{!NgxUpSess W}.
Implicit Types (st : upstream_state) (states : list upstream_state) (s : vsess W).

Lemma joined_cons t texts : texts <> [] -> joined (t :: texts) = t ++ [44; 32] ++ joined texts.
Proof. by destruct texts. Qed.

Lemma put_app pre bs old room :
  zlen old = zlen bs -> put (zlen pre) bs (pre ++ old ++ room) = Some (zlen (pre ++ bs), (pre ++ bs) ++ room).
Proof. intros Hl. unfold put. rewrite store_app by done. cbn. by rewrite zlen_app, <- app_assoc. Qed.

Lemma split_room n (room : list Z) : 0 <= n <= zlen room -> exists a b, room = a ++ b /\ zlen a = n.
Proof. intros Hn. exists (ztake n room), (zdrop n room). by rewrite ztake_zdrop, zlen_ztake. Qed.

(** The bytes the loop writes are the joined texts, if they fit. *)
Lemma render_joined (text : upstream_state -> list Z) states : forall pre room,
  states <> [] -> zlen (joined (map text states)) <= zlen room ->
  exists rest, render text states (zlen pre) (pre ++ room) =
      Some (zlen pre + zlen (joined (map text states)), pre ++ joined (map text states) ++ rest).
Proof.
  induction states as [|st states IH]; intros pre room Hne Hfit; [done|].
  cbn [render map] in *. pose proof (zlen_nonneg (text st)). destruct states as [|st2 states].
  - destruct (split_room (zlen (text st)) room) as (a & rest & -> & Ha); [done|].
    rewrite put_app by done. cbn. exists rest. by rewrite zlen_app, app_assoc.
  - rewrite joined_cons in Hfit by done. rewrite !zlen_app in Hfit. pose proof (zlen_nonneg (joined (map text (st2 :: states)))).
    change (zlen [44; 32]) with 2 in Hfit.
    destruct (split_room (zlen (text st)) room) as (a & r1 & -> & Ha); [lia|]. rewrite zlen_app in Hfit.
    destruct (split_room 1 r1) as (b & r2 & -> & Hb); [lia|]. rewrite zlen_app in Hfit.
    destruct (split_room 1 r2) as (c & r3 & -> & Hc); [lia|]. rewrite zlen_app in Hfit.
    rewrite put_app by done. cbn [mbind option_bind]. rewrite put_app by done. cbn [mbind option_bind].
    rewrite put_app by done. cbn [mbind option_bind].
    destruct (IH (((pre ++ text st) ++ [44]) ++ [32]) r3) as [rest Hr]; [done|lia|].
    exists rest. rewrite Hr, joined_cons by done. rewrite !zlen_app. rewrite <- !app_assoc. do 2 f_equal.
    change (zlen [44; 32]) with 2. change (zlen [44]) with 1. change (zlen [32]) with 1. lia.
Qed.

(** *** The room is enough *)

Definition state_fits st : Prop :=
  - 2 ^ 63 <= bytes_sent st < 2 ^ 63 /\ - 2 ^ 63 <= bytes_received st < 2 ^ 63 /\
  0 <= response_time st < 2 ^ 64 /\ 0 <= connect_time st < 2 ^ 64 /\ 0 <= first_byte_time st < 2 ^ 64.

(** The states of a session: fields of their width, and names that fit the memory. *)
Definition states_fit states : Prop :=
  Forall state_fits states /\ sumz (fun st => zlen (addr_text_of st) + 26) states < 2 ^ 64.

Lemma joined_bound (text : upstream_state -> list Z) (n : Z) states :
  Forall (fun st => zlen (text st) <= n) states -> zlen (joined (map text states)) <= zlen states * (n + 2).
Proof.
  induction states as [|st states IH]; intros Hf; [done|]. apply Forall_cons_iff in Hf as [Hst Hf].
  specialize (IH Hf). cbn [map]. rewrite zlen_cons. destruct states as [|st2 states].
  - cbn in *. change (zlen (@nil upstream_state)) with 0. lia.
  - rewrite joined_cons by done. rewrite !zlen_app. change (zlen [44; 32]) with 2. lia.
Qed.

Lemma addr_sum_nonneg n states : 0 <= n -> 0 <= sumz (fun st => zlen (addr_text_of st) + n) states.
Proof.
  intros Hn. induction states as [|st states IH]; [done|]. rewrite sumz_cons.
  pose proof (zlen_nonneg (addr_text_of st)). lia.
Qed.

Lemma addr_size_sum states : forall acc,
  0 <= acc -> acc + sumz (fun st => zlen (addr_text_of st) + 26) states < 2 ^ 64 ->
  foldl (fun len st => u64 (u64 (len + zlen (addr_text_of st)) + 2)) acc states =
  acc + sumz (fun st => zlen (addr_text_of st) + 2) states.
Proof.
  induction states as [|st states IH]; intros acc Ha Hs; [by rewrite Z.add_0_r|].
  rewrite sumz_cons in *. cbn [foldl].
  pose proof (zlen_nonneg (addr_text_of st)). pose proof (addr_sum_nonneg 26 states ltac:(lia)).
  rewrite (u64_small (acc + _)) by lia. rewrite u64_small by lia. rewrite IH by lia. lia.
Qed.

Lemma joined_addrs states : zlen (joined (map addr_text_of states)) <= sumz (fun st => zlen (addr_text_of st) + 2) states.
Proof.
  induction states as [|st states IH]; [done|]. cbn [map]. rewrite sumz_cons. destruct states as [|st2 states].
  - cbn [map joined]. change (sumz _ []) with 0. lia.
  - rewrite joined_cons by done. rewrite !zlen_app. change (zlen [44; 32]) with 2. lia.
Qed.

Lemma time_text_width ms : 0 <= ms < 2 ^ 64 -> zlen (time_text ms) <= NGX_TIME_T_LEN + 4.
Proof.
  intros Hms. unfold time_text. pose proof (Z.mod_pos_bound (Z.max (s64 ms) 0) 1000).
  assert (Hs : - 2 ^ 63 <= s64 ms < 2 ^ 63) by (unfold s64; zlia).
  apply width_T_03M; [|lia]. split; [apply Z.div_pos; lia|]. apply Z.div_lt_upper_bound; lia.
Qed.

(** The text of one state under a variable. *)
Definition up_text (h : up_handler) (d : vdata) st : list Z :=
  match h with
  | upstream_addr => addr_text_of st
  | upstream_bytes => bytes_text (data_word d) st
  | upstream_response_time => response_time_text (data_word d) st
  end.

(** The value after a call that had states to show. *)
Definition shown (text : list Z) (i : nat) s (rc : Z) (s' : vsess W) : Prop :=
  rc = NGX_ERROR \/
  (rc = NGX_OK /\ slots s' = <[i := VarValue true false false (ztake (len28 (zlen text)) text)]> (slots s)).

Lemma states_value_shown i x size text states s :
  slots s !! i = Some x -> session_states (vs_env s) = Some states -> states <> [] ->
  zlen (joined (map text states)) <= size states ->
  wp (states_value (Slot i) size text) (shown (joined (map text states)) i s) s.
Proof.
  intros Hx Hst Hne Hfit. unfold states_value, mark_valid. cbn [set_value]. wp_step.
  eapply wp_on_slot; [exact Hx|]. wp_step. apply wp_env. cbn [vs_env].
  change (vs_env (s <| slots := _ |>)) with (vs_env s). rewrite Hst.
  destruct states as [|st states]; [done|]. set (sts := st :: states) in *.
  wp_step. apply wp_value_alloc. intros [mem|] w Hmem; [|wp_step; by left].
  pose proof (zlen_nonneg (joined (map text sts))).
  destruct (pool_bytes_length (size sts) _ mem w ltac:(lia) Hmem) as [Hlen _].
  destruct (render_joined text sts [] mem Hne) as [rest Hr]; [lia|]. cbn [app] in Hr. change (zlen []) with 0 in Hr.
  set (t := joined (map text sts)) in *. wp_step. eapply wp_mderef; [exact Hr|]. cbv beta iota. rewrite Z.add_0_l.
  assert (H28 : 0 <= len28 (zlen t) <= zlen t).
  { unfold len28. split; [by apply Z.mod_pos_bound|by apply Z.mod_le]. }
  wp_step. eapply wp_mderef.
  { apply load_Some. split_and!; [done|lia| |reflexivity]. rewrite zlen_app. pose proof (zlen_nonneg rest). lia. }
  change (zdrop 0 (t ++ rest)) with (t ++ rest). wp_step.
  assert (Hi : (i < length (slots s))%nat) by (by eapply lookup_lt_Some).
  eapply wp_on_slot; [cbn; by rewrite list_lookup_insert_eq|]. wp_step. right. split; [done|].
  assert (Hcut : ztake (len28 (zlen t)) (t ++ rest) = ztake (len28 (zlen t)) t).
  { unfold ztake. apply take_app_le. unfold zlen in *. lia. }
  rewrite Hcut. cbn. by rewrite list_insert_insert_eq.
Qed.

Lemma room_enough h d states :
  states <> [] -> states_fit states ->
  match h with
  | upstream_addr => zlen (joined (map (up_text h d) states)) <= addr_size states
  | upstream_bytes => zlen (joined (map (up_text h d) states)) <= u64 (zlen states * (NGX_OFF_T_LEN + 2))
  | upstream_response_time =>
      zlen (joined (map (up_text h d) states)) <= u64 (zlen states * (NGX_TIME_T_LEN + 4 + 2))
  end.
Proof.
  intros Hne [Hf Hsum].
  assert (Hn : 26 * zlen states < 2 ^ 64).
  { eapply Z.le_lt_trans; [|exact Hsum]. clear. induction states as [|st states IH]; [done|].
    rewrite sumz_cons, zlen_cons. pose proof (zlen_nonneg (addr_text_of st)). lia. }
  pose proof (zlen_nonneg states). destruct h; cbn [up_text].
  - unfold addr_size. rewrite addr_size_sum by lia. apply joined_addrs.
  - unfold NGX_OFF_T_LEN in *. rewrite u64_small by lia. apply (joined_bound _ 20).
    eapply Forall_impl; [exact Hf|]. intros st (? & ? & _). cbv beta delta [up_text bytes_text] iota.
    destruct (Z.eqb (data_word d) 1); by apply width_O.
  - unfold NGX_TIME_T_LEN in *. rewrite u64_small by lia. apply (joined_bound _ 24).
    eapply Forall_impl; [exact Hf|]. intros st (_ & _ & ? & ? & ?). cbv beta delta [up_text response_time_text] iota.
    destruct (Z.eqb (data_word d) 1); [destruct (Z.eqb (first_byte_time st) MSEC_UNSET); [done|]|destruct (andb _ _)];
      by apply time_text_width.
Qed.

(** C16: The variables of an upstream show what the session recorded.  Without a record the
    variable is not found; otherwise, unless there is no memory, its value is the text of
    every connection that was tried, in order, with a comma and a blank between two:
    exactly the reference text, cut to the 28 bits a length has.  The loop that writes
    it stays inside the memory that was reserved before the texts were known, whatever
    the counters, times and names are. *)
Theorem upstream_values h d i x s (Hx : slots s !! i = Some x)
    (Hfit : forall states, session_states (vs_env s) = Some states -> states_fit states) :
  wp (up_call h (Slot i) d) (fun rc s' =>
    match session_states (vs_env s) with
    | None | Some [] => rc = NGX_OK /\ exists bs, slots s' = <[i := VarValue true false true bs]> (slots s)
    | Some states => shown (joined (map (up_text h d) states)) i s rc s'
    end) s.
Proof.
  assert (Hnone : forall size text, (session_states (vs_env s) = None \/ session_states (vs_env s) = Some []) ->
    wp (states_value (Slot i) size text)
      (fun rc s' => rc = NGX_OK /\ exists bs, slots s' = <[i := VarValue true false true bs]> (slots s)) s).
  { intros size text Hno. unfold states_value, mark_valid. cbn [set_value]. wp_step.
    assert (Hi : (i < length (slots s))%nat) by (by eapply lookup_lt_Some).
    eapply wp_on_slot; [exact Hx|]. wp_step. apply wp_env.
    change (vs_env (s <| slots := _ |>)) with (vs_env s).
    destruct Hno as [-> | ->]; wp_step; (eapply wp_on_slot; [cbn; by rewrite list_lookup_insert_eq|]); wp_step;
      (split; [done|]); exists (vv_data x); cbn; by rewrite list_insert_insert_eq. }
  destruct (session_states (vs_env s)) as [[|st states]|] eqn:Hst; [destruct h; apply Hnone; by right| |destruct h; apply Hnone; by left].
  specialize (Hfit _ eq_refl). pose proof (room_enough h d (st :: states) ltac:(done) Hfit) as Hroom.
  destruct h; by apply (states_value_shown i x _ _ (st :: states)).
Qed.
End Values.

(** ** A session that tried two peers *)

(** Decimal digits of a number that is not negative. *)
Fixpoint decimal (fuel : nat) (n : Z) : list Z :=
  match fuel with
  | O => []
  | S fuel => if n <? 10 then [48 + n] else decimal fuel (n / 10) ++ [48 + n mod 10]
  end.

Definition demo_fmt : NgxFormat := {|
  fmt_ui := decimal 20; fmt_03ui := decimal 20; fmt_O n := if n <? 0 then [45] else decimal 20 n;
  fmt_T_03M s m := decimal 20 s ++ 46 :: decimal 3 m; fmt_uA := decimal 20; fmt_P := decimal 20;
|}.

Lemma decimal_width fuel : forall n, zlen (decimal fuel n) <= Z.of_nat fuel.
Proof.
  induction fuel as [|fuel IH]; intros n; cbn [decimal]; [done|]. destruct (n <? 10).
  - change (zlen [48 + n]) with 1. lia.
  - rewrite zlen_app. change (zlen [_]) with 1. specialize (IH (n / 10)). lia.
Qed.

Lemma demo_fmt_widths : @NgxFormatWidths demo_fmt.
Proof.
  split.
  - intros n _. cbn [fmt_O demo_fmt]. destruct (n <? 0); [done|]. apply (decimal_width 20).
  - intros s m _ _. cbn [fmt_T_03M demo_fmt]. rewrite zlen_app, zlen_cons.
    pose proof (decimal_width 20 s). pose proof (decimal_width 3 m). unfold NGX_TIME_T_LEN. lia.
Qed.

Definition demo_states : list upstream_state :=
  [Proxy.UpstreamState 1500 MSEC_UNSET MSEC_UNSET 0 0 (Some (kw "a:80"));
   Proxy.UpstreamState 12345 7 20 10 4096 (Some (kw "b:81"))].

Definition demo_up_sess : NgxUpSess unit := fun _ => Some demo_states.
Definition demo_session : vsess unit := VSess [fresh_value] [] 255 [] 0 [] tt.

Definition demo_up (h : up_handler) (data : Z) : option (list Z) :=
  match @up_call unit plentiful demo_fmt demo_up_sess h (Slot 0) (DInt data) demo_session with
  | Done (_, s) => vv_data <$> slots s !! 0%nat
  | _ => None
  end.

Example demo_up_texts :
  demo_up upstream_addr 0 = Some (kw "a:80, b:81") /\
  demo_up upstream_bytes 1 = Some (kw "0, 4096") /\
  demo_up upstream_response_time 1 = Some (kw "-, 0.20") /\
  demo_up upstream_response_time 2 = Some (kw "1.500, 0.7").
Proof. split_and!; by vm_compute. Qed.

Lemma demo_pool_laws : @NgxPoolLaws unit plentiful.
Proof.
  split. intros n p bs p' Hn [= <- _]. split; [unfold zlen; rewrite length_replicate; lia|].
  apply Forall_replicate. unfold is_byte. lia.
Qed.

Lemma upstream_values_witness :
  wp (@up_call unit plentiful demo_fmt demo_up_sess upstream_addr (Slot 0) (DInt 0))
    (shown (joined (map (@up_text demo_fmt upstream_addr (DInt 0)) demo_states)) 0 demo_session) demo_session.
Proof.
  apply (@upstream_values unit plentiful demo_pool_laws demo_fmt demo_fmt_widths demo_up_sess upstream_addr (DInt 0) 0
           fresh_value demo_session eq_refl).
  intros states [= <-]. split; [|by vm_compute].
  apply Forall_cons. split; [by vm_compute|]. apply Forall_cons. split; [by vm_compute|by apply Forall_nil].
Defined.
