(* ===== verification/Start.v ===== *)
(** * The start of the proxy

    [ngx_nsoc_proxy_handler], the content handler of a proxied server: the upstream
    structure of the session, its local address, its buffer, and the upstream itself,
    named in the configuration or by the value of a template.  A name that is not
    configured is resolved, and [ngx_nsoc_proxy_resolve_handler] goes on from there.
    Both end with the call of Proxy that connects, or with the end of the session.

    [find_upstream] is the lookup of a host among the configured upstreams;
    [runtime_lookup_agrees] compares it with what the configuration does with the same
    name (Upstream).  [proxy_start_settles] composes the start with all that Proxy does. *)

From stdpp Require Import prelude list numbers gmap strings.
From S2P Require Import Prelude RoundRobin NoiseConn Handshake Session Chain WriteFilter Proxy Variables.
From S2P Require Import CoreVars Script Directive Upstream.

(** ** State *)

(** [ngx_nsoc_upstream_local_t] *)
Record upstream_local := UpstreamLocal {
  lo_addr : option addr;
  lo_value : option complex_value;
  lo_transparent : bool;
}.
#[export] Instance eta_upstream_local : Eta upstream_local := fun r =>
  UpstreamLocal (lo_addr r) (lo_value r) (lo_transparent r).

(** The rest of [ngx_nsoc_proxy_srv_conf_t]: which upstream, as an entry of the table or
    as a template, and the local address. *)
Record start_conf := StartConf {
  sc_upstream : option nat;
  sc_upstream_value : option complex_value;
  sc_local : option upstream_local;
}.

(** [u->resolved], with [no_port] beside the fields RoundRobin uses. *)
Record named_resolved := NamedResolved { nr_resolved : resolved; nr_no_port : bool }.
#[export] Instance eta_named_resolved : Eta named_resolved := fun r => NamedResolved (nr_resolved r) (nr_no_port r).

#[export] Instance eta_resolved : Eta resolved := fun r =>
  Resolved (ur_host r) (ur_port r) (ur_naddrs r) (ur_addrs r) (ur_sockaddr r) (ur_socklen r) (ur_name r).

(** The session at its start: the proxy's part, its variables (whose world is that of
    the proxy's part whenever they are used), and the fields of [u] that Proxy does not
    look at. *)
Record pstart (HS CS W P : Type) := PStart {
  ps_px : px HS CS W P;
  ps_vars : vsess W;
  ps_has_u : bool;
  ps_local : option addr;
  ps_transparent : bool;
  ps_type : Z;
  ps_resolved : option named_resolved;
  ps_upstream : option nat;
}.
Arguments PStart {HS CS W P}. Arguments ps_px {HS CS W P}. Arguments ps_vars {HS CS W P}.
Arguments ps_has_u {HS CS W P}. Arguments ps_local {HS CS W P}. Arguments ps_transparent {HS CS W P}.
Arguments ps_type {HS CS W P}. Arguments ps_resolved {HS CS W P}. Arguments ps_upstream {HS CS W P}.
#[export] Instance eta_pstart HS CS W P : Eta (pstart HS CS W P) := fun r =>
  PStart (ps_px r) (ps_vars r) (ps_has_u r) (ps_local r) (ps_transparent r) (ps_type r)
    (ps_resolved r) (ps_upstream r).

(** The functions by which an upstream gives a session its balancer: [uscf->peer.init] of
    an entry of the table, and the one for an upstream resolved at run time; [peer_zero]
    is [u->peer] with every byte zero. *)
Class BalancerInit (P W : Type) := {
  peer_zero : P;
  peer_init : nat -> P -> W -> outcome (Z * P * W);
  peer_create : resolved -> P -> W -> outcome (Z * P * W);
}.

(** The resolver of nginx core.  [ngx_resolve_name] fails, or the name is being asked for,
    or the answer is known and the handler is called at once: a state that is zero for
    success, and the addresses. *)
Inductive resolve_start := NoContext | NoResolver | GotContext.
Inductive resolve_answer := ResolveFailed | ResolvePending | ResolveNow (state : Z) (addrs : list addr).

Class NgxResolver (W : Type) := {
  ngx_resolve_start : list Z -> W -> resolve_start * W;
  ngx_resolve_name : list Z -> W -> resolve_answer * W;
  ngx_resolve_name_done : W -> W;
}.

(** ** The lookup of a host *)

Section Lookup.
Context {I C : Type} `{!NgxStr}.

Definition upstream_matches (host : list Z) (port : Z) (no_port : bool) (x : srv_conf I C) : bool :=
  (length (us_host x) =? length host)%nat && (((us_port x =? 0) && no_port) || (us_port x =? port)) &&
  ngx_strncasecmp (us_host x) host.

Fixpoint find_upstream (host : list Z) (port : Z) (no_port : bool) (i : nat) (l : list (srv_conf I C)) : option nat :=
  match l with
  | [] => None
  | x :: l => if upstream_matches host port no_port x then Some i else find_upstream host port no_port (S i) l
  end.
End Lookup.

(** ** The handlers *)

Section Start.
Context {HS CS W P : Type} {NL : NoiseLib HS CS} {OS : NgxOs W} {PO : NgxPool W} {CO : NgxCore W}
  {BA : Balancer P} {BI : BalancerInit P W} {NP : NgxParse W} {NR : NgxResolver W} {NS : NgxStr}.
Context {H T I C : Type} {NH : NgxHash T}.
Abbreviation SM := (M (pstart HS CS W P)).
Implicit Types (s : pstart HS CS W P).

(** The variables of the program, and what evaluating a template needs (Script). *)
Context (cmcf : vconf H T W) (call : H -> vref -> vdata -> M (vsess W) Z).
Context (conf_prefix prefix : list Z) (ngx_get_full_name : list Z -> list Z -> W -> full_name_result * W).
(** [sockaddr->sa_family == AF_UNIX] *)
Context (sa_is_unix : list Z -> bool).
(** The configured upstreams, and the settings of this server. *)
Context (upstreams : list (srv_conf I C)) (pscf : proxy_conf) (conf : start_conf).

Definition on_px {A} (m : M (px HS CS W P) A) : SM A := fun s =>
  match m (ps_px s) with
  | Done (a, x) => Done (a, s <| ps_px := x |>)
  | Undefined => Undefined
  | OutOfFuel => OutOfFuel
  end.

Definition start_world {A} (f : W -> A * W) : SM A := on_px (Proxy.on_world f).

(** The variables are evaluated in the world as it is, and change it. *)
Definition on_vars {A} (m : M (vsess W) A) : SM A := fun s =>
  match m ((ps_vars s) <| vs_env := x_world (ps_px s) |>) with
  | Done (a, v) => Done (a, s <| ps_vars := v |> <| ps_px ::= fun x => x <| x_wf ::= fun f => f <| wf_world := vs_env v |> |> |>)
  | Undefined => Undefined
  | OutOfFuel => OutOfFuel
  end.

(** Calls through the balancer that [u->peer] is given. *)
Definition on_init (f : P -> W -> outcome (Z * P * W)) : SM Z := fun s =>
  match f (x_bal (ps_px s)) (x_world (ps_px s)) with
  | Done (rc, p, w) => Done (rc, s <| ps_px ::= fun x => x <| x_bal := p |> <| x_wf ::= fun f => f <| wf_world := w |> |> |>)
  | Undefined => Undefined
  | OutOfFuel => OutOfFuel
  end.

(** [ngx_nsoc_proxy_finalize] with [s->upstream] NULL records the code only. *)
Definition finalize_without_upstream (rc : Z) : SM (option Proxy.call) :=
  on_px (x_final ::=! Some rc);; mret None.

Definition fail : SM (option Proxy.call) := mret (Some (CFinalize NGX_NSOC_INTERNAL_SERVER_ERROR)).

(** [ngx_pcalloc(c->pool, sizeof(ngx_nsoc_upstream_t))] and [s->upstream = u]. *)
Definition new_upstream_struct s : pstart HS CS W P :=
  s <| ps_px ::= fun x => x <| x_peer := None |> <| x_bal := peer_zero |> <| x_start_time := 0 |>
         <| x_connected := false |> <| x_state := false |> <| x_upstream_buf := null_buf |>
         <| x_downstream_buf := null_buf |> <| x_free := [] |> <| x_upstream_out := [] |>
         <| x_upstream_busy := [] |> <| x_downstream_out := [] |> <| x_downstream_busy := [] |>
         <| x_ureceived := 0 |> <| x_start_sec := 0 |> <| x_responses := 0 |> <| x_resolving := false |> |>
    <| ps_has_u := true |> <| ps_local := None |> <| ps_transparent := false |> <| ps_type := 0 |>
    <| ps_resolved := None |> <| ps_upstream := None |>.

Definition evaluate (v : complex_value) : SM (option (list Z)) :=
  on_vars (ngx_nsoc_complex_value cmcf call conf_prefix prefix ngx_get_full_name v).

Definition ngx_nsoc_proxy_set_local (local : option upstream_local) : SM Z :=
  match local with
  | None => ps_local ::=! None;; mret NGX_OK
  | Some l =>
      ps_transparent ::=! lo_transparent l;;
      match lo_value l with
      | None => ps_local ::=! lo_addr l;; mret NGX_OK
      | Some v =>
          r ← evaluate v;
          match r with
          | None => mret NGX_ERROR
          | Some [] => mret NGX_OK
          | Some val =>
              ok ← start_world pool_object;
              if negb ok then mret NGX_ERROR else
              '(rc, a) ← start_world (fun w => let '(rc, a, w) := ngx_parse_addr_port val w in ((rc, a), w));
              if rc =? NGX_ERROR then mret NGX_ERROR
              else if negb (rc =? NGX_OK) then mret NGX_OK
              else ps_local ::=! Some (Addr (ad_sockaddr a) (ad_socklen a) val);; mret NGX_OK
          end
      end
  end.

Definition ngx_nsoc_proxy_eval (v : complex_value) : SM Z :=
  r ← evaluate v;
  match r with
  | None => mret NGX_ERROR
  | Some host =>
      '(rc, u) ← start_world (fun w =>
        let '(rc, u, w) := ngx_parse_url (no_url <| u_url := host |> <| u_no_resolve := true |>) w in ((rc, u), w));
      if negb (rc =? NGX_OK) then mret NGX_ERROR else
      ok ← start_world pool_object;
      if negb ok then ps_resolved ::=! None;; mret NGX_ERROR else
      let blank := Resolved [] 0 0 [] None 0 [] in
      let ur := match u_addrs u with
                | [] => blank
                | a :: _ => blank <| ur_sockaddr := Some (ad_sockaddr a) |> <| ur_socklen := ad_socklen a |>
                              <| ur_name := ad_name a |> <| ur_naddrs := 1 |>
                end in
      ps_resolved ::=! Some (NamedResolved (ur <| ur_host := u_host u |> <| ur_port := u_port u |>) (u_no_port u));;
      mret NGX_OK
  end.

(** [u->downstream_buf], for a stream; data that waits is handled after the start. *)
Definition alloc_downstream_buf : SM bool :=
  bs ← start_world (pool_bytes (proxy_buf_size pscf));
  match bs with
  | None => mret false
  | Some bs =>
      on_px (o ← gets (fun x => new_addr (objs (wf_heap (x_wf x))));
             modify (fun x => x <| x_wf ::= fun f => f <| wf_heap ::= set_obj o bs |> |>
               <| x_downstream_buf := null_buf <| cb_obj := o |> <| cb_end := proxy_buf_size pscf |> |>));;
      c ← on_px (gets x_client);
      (if ready (read (e_conn c)) then start_world (fun w => (tt, os_post_event (read (e_conn c)) w)) else mret tt);;
      mret true
  end.

Definition set_client_handlers : SM unit :=
  on_px (modify (fun x => x <| x_client ::= fun e => e <| e_rx ::= fun v => v <| fn := DownstreamHandler |> |>
                                                       <| e_wx ::= fun v => v <| fn := DownstreamHandler |> |> |>)).

(** The end of both handlers: the time, the limit of tries, the connection. *)
Definition start_peer : SM (option Proxy.call) :=
  on_px (now ← gets (fun x => now_msec (x_world x));
         x_start_time ::=! now;;
         pc ← gets (fun x => peer_pc (x_bal x));
         if negb (next_upstream_tries pscf =? 0) && (next_upstream_tries pscf <? tries pc)
         then modify (fun x => x <| x_bal ::= set_peer_pc (fun pc => pc <| tries := next_upstream_tries pscf |>) |>)
         else mret tt);;
  mret (Some CConnect).

(** [ctx->state] and [ctx->addrs] are the answer. *)
Definition ngx_nsoc_proxy_resolve_handler (state : Z) (addrs : list addr) : SM (option Proxy.call) :=
  o ← gets ps_resolved;
  nr ← mderef o;
  if negb (state =? 0) then fail else
  let ur := (nr_resolved nr) <| ur_naddrs := zlen addrs |> <| ur_addrs := addrs |> in
  ps_resolved ::=! Some (nr <| nr_resolved := ur |>);;
  rc ← on_init (peer_create ur);
  if negb (rc =? NGX_OK) then fail else
  start_world (fun w => (tt, ngx_resolve_name_done w));;
  on_px (x_resolving ::=! false);;
  start_peer.

(** A host that no upstream is configured for. *)
Definition start_unknown (nr : named_resolved) : SM (option Proxy.call) :=
  let ur := nr_resolved nr in
  match ur_sockaddr ur with
  | Some sa =>
      if (ur_port ur =? 0) && negb (sa_is_unix sa) then fail else
      rc ← on_init (peer_create ur);
      if negb (rc =? NGX_OK) then fail else mret (Some CConnect)
  | None =>
      if ur_port ur =? 0 then fail else
      r ← start_world (ngx_resolve_start (ur_host ur));
      match r with
      | NoContext | NoResolver => fail
      | GotContext =>
          on_px (x_resolving ::=! true);;
          a ← start_world (ngx_resolve_name (ur_host ur));
          match a with
          | ResolveFailed => on_px (x_resolving ::=! false);; fail
          | ResolvePending => mret None
          | ResolveNow state addrs => ngx_nsoc_proxy_resolve_handler state addrs
          end
      end
  end.

(** From [found] on. *)
Definition start_found (uscf : option nat) : SM (option Proxy.call) :=
  match uscf with
  | None => fail
  | Some i =>
      ps_upstream ::=! Some i;;
      rc ← on_init (peer_init i);
      if negb (rc =? NGX_OK) then fail else start_peer
  end.

Definition ngx_nsoc_proxy_handler : SM (option Proxy.call) :=
  ok ← start_world pool_object;
  if negb ok then finalize_without_upstream NGX_NSOC_INTERNAL_SERVER_ERROR else
  modify new_upstream_struct;;
  rc ← ngx_nsoc_proxy_set_local (sc_local conf);
  if negb (rc =? NGX_OK) then fail else
  ty ← on_px (gets (fun x => e_type (x_client x)));
  ps_type ::=! ty;;
  on_px (now ← gets (fun x => now_sec (x_world x)); x_start_sec ::=! now);;
  set_client_handlers;;
  ok ← start_world pool_object;
  if negb ok then fail else
  on_px (x_states ::=! []);;
  ok ← (if ty =? SOCK_STREAM then alloc_downstream_buf else mret true);
  if negb ok then fail else
  rc ← (match sc_upstream_value conf with
        | Some v => ngx_nsoc_proxy_eval v
        | None => mret NGX_OK
        end);
  if negb (rc =? NGX_OK) then fail else
  o ← gets ps_resolved;
  match o with
  | None => start_found (sc_upstream conf)
  | Some nr =>
      let ur := nr_resolved nr in
      match find_upstream (ur_host ur) (ur_port ur) (nr_no_port nr) 0 upstreams with
      | Some i => start_found (Some i)
      | None => start_unknown nr
      end
  end.
End Start.

(** ** The same name means the same upstream at run time *)

Section Agreement.
Context {I C W : Type} `{!NgxPool W} `{!NgxStr} `{!NgxStrLaws} `{!NgxParse W} `{!NgxParseLaws W}.
Implicit Types (x : srv_conf I C) (u : url) (l : list (srv_conf I C)).

Lemma matches_names u x :
  (u_no_port u = true -> u_port u = 0) ->
  upstream_matches (u_host u) (u_port u) (u_no_port u) x = true <-> names u x.
Proof.
  intros Hp. unfold upstream_matches, names, same_host. rewrite !andb_true_iff, orb_true_iff, andb_true_iff, !Z.eqb_eq.
  split; [intros [[? [[? Hn]|?]] ?]; [rewrite Hp by done|]; tauto|]. intros [[? ?] ?]. tauto.
Qed.

Lemma find_upstream_spec u l : forall i0,
  (u_no_port u = true -> u_port u = 0) ->
  match find_upstream (u_host u) (u_port u) (u_no_port u) i0 l with
  | Some k => exists i x, k = (i0 + i)%nat /\ l !! i = Some x /\ names u x
  | None => forall i x, l !! i = Some x -> ~ names u x
  end.
Proof.
  intros i0 Hp. revert i0. induction l as [|x l IH]; intros i0; cbn [find_upstream]; [by intros i x; rewrite lookup_nil|].
  pose proof (matches_names u x Hp) as Hm. destruct (upstream_matches _ _ _ _).
  - exists 0%nat, x. rewrite Nat.add_0_r. split_and!; [done|done|by apply Hm].
  - specialize (IH (S i0)). destruct (find_upstream _ _ _ _ _) as [k|].
    + destruct IH as (i & y & -> & Hy). exists (S i), y. by rewrite Nat.add_succ_r.
    + intros [|i] y Hy; [injection Hy as <-; intros Hn; by apply Hm in Hn|by apply (IH i)].
Qed.

(** Entries may be added and changed, but keep their places and names. *)
Definition extends l l' : Prop :=
  forall j x, l !! j = Some x -> exists x', l' !! j = Some x' /\ same_name_as x x'.

Lemma found_unique u l i x :
  table_ok l -> (u_no_port u = true -> u_port u = 0) -> l !! i = Some x -> names u x ->
  find_upstream (u_host u) (u_port u) (u_no_port u) 0 l = Some i.
Proof.
  intros Hok Hp Hx [Hh Hpx]. pose proof (find_upstream_spec u l 0 Hp) as Hs.
  destruct (find_upstream _ _ _ _ _) as [k|]; [|by destruct (Hs i x Hx)].
  destruct Hs as (j & y & -> & Hy & Hyh & Hyp). f_equal. cbn. apply (to_unique l Hok j i y x); try done; [|congruence].
  apply same_host_spec in Hh, Hyh. apply same_host_spec. congruence.
Qed.

(** C17: A template and the configuration mean the same upstream by the same text.  When a
    directive was given an upstream for a URL, then a session that looks the host, the
    port and the absence of a port of that URL up, in the table as it is then or in any
    table that later directives make of it, finds exactly that upstream; and it finds
    none when no entry has the host and the port. *)
Theorem runtime_lookup_agrees u (s : upconf I C W) (Hok : table_ok (upstreams s)) :
  let u' := (ngx_parse_url u (up_world s)).1.2 in
  wp (ngx_nsoc_upstream_add u 0) (fun r s' => forall i, r = Some i -> forall l, extends (upstreams s') l -> table_ok l ->
    find_upstream (u_host u') (u_port u') (u_no_port u') 0 l = Some i) s /\
  ((ngx_parse_url u (up_world s)).1.1 = NGX_OK -> forall l,
    find_upstream (u_host u') (u_port u') (u_no_port u') 0 l = None <->
    forall j x, l !! j = Some x -> same_host (us_host x) (u_host u') = true -> us_port x <> u_port u').
Proof.
  intros u'. split.
  - eapply wp_mono; [by apply (upstream_added 0 u)|]. intros r s' (_ & _ & _ & Hr) i -> l Hext Hl.
    destruct (Hr i eq_refl) as (x & Hx & [Hh Hpx] & Hp & _). change (sought 0 u s) with u' in Hh, Hpx, Hp.
    destruct (Hext i x Hx) as (x' & Hx' & Hn1 & Hn2 & _). apply (found_unique u' l i x'); try done.
    split; [by rewrite Hn1|by rewrite Hn2].
  - intros Hrc l. assert (Hp : u_no_port u' = true -> u_port u' = 0).
    { subst u'. destruct (ngx_parse_url u (up_world s)) as [[rc v] w] eqn:Hu. cbn in *. subst rc.
      by apply parse_url_ok in Hu as (_ & ? & _). }
    pose proof (find_upstream_spec u' l 0 Hp) as Hs. destruct (find_upstream _ _ _ _ _) as [k|].
    + destruct Hs as (i & x & _ & Hx & Hh & Hpx). split; [done|]. intros Hno. by destruct (Hno i x Hx Hh).
    + split; [|done]. intros _ j x Hx Hh Hpx. by apply (Hs j x Hx).
Qed.
End Agreement.

(** ** The proxy from its start to its end *)

(** [u->peer] without a peer. *)
Definition unheld {P} `{Balancer P} (p : P) : Prop :=
  pc_sockaddr (peer_pc p) = None /\ RoundRobin.connection (peer_pc p) = None /\ 0 <= tries (peer_pc p).

(** The addresses of an upstream resolved at run time are as many as it says. *)
Definition resolved_ok (ur : resolved) : Prop :=
  match ur_sockaddr ur with Some _ => ur_naddrs ur = 1 | None => ur_naddrs ur = zlen (ur_addrs ur) end.

(** [ready i] says that the balancer of entry [i] was made when the configuration was
    completed.  Giving a session its balancer returns, holds no peer yet, and is NGX_OK
    only with the balancer in order. *)
Class BalancerInitLaws (P W : Type) `{BalancerInit P W} `{Balancer P} (ok : P -> Prop) (ready : nat -> Prop) : Prop := {
  peer_zero_law : unheld peer_zero;
  peer_init_law i p w : ready i -> unheld p -> exists rc p' w',
    peer_init i p w = Done (rc, p', w') /\ unheld p' /\ (rc = NGX_OK -> ok p');
  peer_create_law ur p w : resolved_ok ur -> unheld p -> exists rc p' w',
    peer_create ur p w = Done (rc, p', w') /\ unheld p' /\ (rc = NGX_OK -> ok p');
  peer_tries_law n p : 0 <= n -> ok p -> ok (set_peer_pc (fun pc => pc <| tries := n |>) p);
}.

Section Settles.
Context {HS CS W P : Type} {NL : NoiseLib HS CS} {OS : NgxOs W} {PO : NgxPool W} {CO : NgxCore W}
  {BA : Balancer P} {CN : NgxConnect P W} {BI : BalancerInit P W} {NP : NgxParse W} {NR : NgxResolver W} {NS : NgxStr}.
Context {H T I C : Type} {NH : NgxHash T}.
Context (ok : P -> Prop) (ready : nat -> Prop).
Context {BL : BalancerLaws P ok} {BIL : BalancerInitLaws P W ok ready} {CL : NgxConnectLaws P W} {COL : NgxCoreLaws W}.
Context (cmcf : vconf H T W) (call : H -> vref -> vdata -> M (vsess W) Z).
Context (conf_prefix prefix : list Z) (ngx_get_full_name : list Z -> list Z -> W -> full_name_result * W).
Context (sa_is_unix : list Z -> bool).
Context (upstreams : list (srv_conf I C)) (pscf : proxy_conf) (conf : start_conf).
Context (process : bool -> bool -> M (px HS CS W P) (option Proxy.call)) (hs_fuel : nat).
Implicit Types (s : pstart HS CS W P) (x : px HS CS W P).

(** A session whose upstream holds nothing. *)
Record quiet x : Prop := {
  qt_bal : unheld (x_bal x);
  qt_open : x_final x = None;
  qt_peer : x_peer x = None;
  qt_out : wf_up (x_wf x) = None;
  qt_state : x_state x = false;
  qt_preread : preread_known x;
}.

(** Finalized: nothing is held and nothing is open. *)
Definition finished x : Prop :=
  is_Some (x_final x) /\ ~ held x /\ x_peer x = None /\ wf_up (x_wf x) = None.

(** The name is being asked for; the handler of the answer goes on. *)
Definition resolving s : Prop :=
  quiet (ps_px s) /\ x_resolving (ps_px s) = true /\
  exists nr, ps_resolved s = Some nr /\ ur_sockaddr (nr_resolved nr) = None.

Lemma quiet_not_held x : quiet x -> ~ held x.
Proof. intros [(Hs & _) _ _ _ _ _] [? Hh]. unfold held in Hh. congruence. Qed.

Lemma quiet_ok x : quiet x -> ok (x_bal x) -> px_ok ok x.
Proof.
  intros Hq Hb. pose proof (quiet_not_held x Hq) as Hn. destruct Hq as [(Hs & Hc & Ht) Ho Hp Hw Hst Hk].
  split; try done.
  - rewrite Hp. by intros [? ?].
  - by rewrite Hc, Hp.
Qed.

Lemma wp_on_px {A} (m : M (px HS CS W P) A) (Q : A -> pstart HS CS W P -> Prop) s :
  wp m (fun a x => Q a (s <| ps_px := x |>)) (ps_px s) -> wp (on_px m) Q s.
Proof. unfold wp, on_px. by destruct (m (ps_px s)) as [[a x]| |]. Qed.

(** What evaluation needs of the variables of the session, whatever the world does. *)
Context (vars_ok : vsess W -> Prop) (vars_world : forall st w, vars_ok st -> vars_ok (st <| vs_env := w |>)).

Definition calm s : Prop := quiet (ps_px s) /\ vars_ok (ps_vars s).

(** What a step of the start needs of the state and keeps. *)
Abbreviation keeps m := (forall s, calm s -> wp m (fun _ s' => calm s' /\ ps_resolved s' = ps_resolved s) s).

Lemma start_world_keeps {A} (f : W -> A * W) : keeps (start_world (HS:=HS) (CS:=CS) (P:=P) f).
Proof.
  intros s [[? ? ? ? ? ?] ?]. unfold wp, start_world, on_px, Proxy.on_world. destruct (f _). by split; [split; [split|]|].
Qed.

Lemma keeps_client : keeps set_client_handlers.
Proof. intros s [[? ? ? ? ? ?] ?]. by split; [split; [split|]|]. Qed.

Lemma keeps_downstream_buf : keeps (alloc_downstream_buf (PO:=PO) pscf).
Proof.
  intros s Hq. unfold alloc_downstream_buf. wp_step. eapply wp_mono; [by apply start_world_keeps|].
  intros [bs|] s1 [[Hq1 Hv1] Hr1]; [|by wp_step].
  assert (Hq2 : forall x', x_bal x' = x_bal (ps_px s1) -> x_final x' = x_final (ps_px s1) ->
    x_peer x' = x_peer (ps_px s1) -> wf_up (x_wf x') = wf_up (x_wf (ps_px s1)) -> x_state x' = x_state (ps_px s1) ->
    x_preread x' = x_preread (ps_px s1) -> bufs (wf_heap (x_wf x')) = bufs (wf_heap (x_wf (ps_px s1))) -> quiet x').
  { destruct Hq1 as [Q1 Q2 Q3 Q4 Q5 Q6]. intros x' E1 E2 E3 E4 E5 E6 E7.
    split; [by rewrite E1|by rewrite E2|by rewrite E3|by rewrite E4|by rewrite E5|].
    intros i Hi. rewrite E7. apply Q6. by rewrite <- E6. }
  wp_step. apply wp_on_px. do 3 wp_step. wp_step. apply wp_on_px. wp_step. wp_step. destruct (NoiseConn.ready _).
  - eapply wp_mono; [apply start_world_keeps; split; [by apply Hq2|done]|]. intros _ s2 [? ?]. wp_step. split; [done|].
    cbn in *. congruence.
  - do 2 wp_step. split; [split; [by apply Hq2|done]|done].
Qed.

(** The templates of the configuration, and that evaluating one returns. *)
Definition configured_value (v : complex_value) : Prop :=
  sc_upstream_value conf = Some v \/ exists l, sc_local conf = Some l /\ lo_value l = Some v.

Context (values_return : forall v st, configured_value v -> vars_ok st ->
  wp (ngx_nsoc_complex_value cmcf call conf_prefix prefix ngx_get_full_name v) (fun _ st' => vars_ok st') st).

Lemma keeps_value v : configured_value v -> keeps (evaluate cmcf call conf_prefix prefix ngx_get_full_name v).
Proof.
  intros Hv0 s [[? ? ? ? ? ?] Hok]. pose proof (values_return v _ Hv0 (vars_world _ (x_world (ps_px s)) Hok)) as Hv.
  unfold wp, evaluate, on_vars in *. destruct (ngx_nsoc_complex_value _ _ _ _ _ _ _) as [[a st]| |]; [|done..].
  by split; [split; [split|]|].
Qed.

Lemma keeps_set_local :
  keeps (ngx_nsoc_proxy_set_local (NP:=NP) (PO:=PO) cmcf call conf_prefix prefix ngx_get_full_name (sc_local conf)).
Proof.
  intros s Hq. unfold ngx_nsoc_proxy_set_local. destruct (sc_local conf) as [l|] eqn:Hl; [|do 3 wp_step; by split].
  do 2 wp_step. destruct (lo_value l) as [v|] eqn:Hlv; [|do 3 wp_step; by split]. wp_step.
  eapply wp_mono; [apply keeps_value; [right; by exists l|done]|]. intros [[|c val]|] s1 [Hq1 Hr1]; [by wp_step| |by wp_step].
  wp_step. eapply wp_mono; [by apply start_world_keeps|]. intros [|] s2 [Hq2 Hr2]; cbn [negb]; [|wp_step; split; [done|cbn in *; congruence]].
  wp_step. eapply wp_mono; [by apply start_world_keeps|]. intros [rc a] s3 [Hq3 Hr3].
  assert (Hr : ps_resolved s3 = ps_resolved s) by (cbn in *; congruence).
  destruct (rc =? NGX_ERROR); [by wp_step|]. destruct (rc =? NGX_OK); cbn [negb]; [|by wp_step]. do 3 wp_step. by split.
Qed.

(** What the template named, if it was evaluated. *)
Definition named s : Prop := forall nr, ps_resolved s = Some nr ->
  resolved_ok (nr_resolved nr) /\ ur_addrs (nr_resolved nr) = [].

Lemma eval_named v s : sc_upstream_value conf = Some v -> calm s -> ps_resolved s = None ->
  wp (ngx_nsoc_proxy_eval (NP:=NP) (PO:=PO) cmcf call conf_prefix prefix ngx_get_full_name v)
    (fun _ s' => calm s' /\ named s') s.
Proof.
  intros Hv Hq Hr. assert (Hnone : forall s', ps_resolved s' = None -> named s') by (intros s' E nr; congruence).
  unfold ngx_nsoc_proxy_eval. wp_step. eapply wp_mono; [apply keeps_value; [by left|done]|].
  intros [host|] s1 [Hq1 Hr1]; [|wp_step; split; [done|apply Hnone; congruence]].
  wp_step. eapply wp_mono; [by apply start_world_keeps|]. intros [rc u] s2 [Hq2 Hr2].
  destruct (rc =? NGX_OK); cbn [negb]; [|wp_step; split; [done|apply Hnone; congruence]].
  wp_step. eapply wp_mono; [by apply start_world_keeps|]. intros [|] s3 [Hq3 Hr3]; cbn [negb].
  2:{ do 3 wp_step. split; [done|by apply Hnone]. }
  do 3 wp_step. split; [done|]. intros nr [= <-]. by destruct (u_addrs u).
Qed.

(** How a handler of the start may end. *)
Definition begun (r : option Proxy.call) s : Prop :=
  match r with
  | None => finished (ps_px s) \/ resolving s
  | Some CConnect => px_ok ok (ps_px s) /\ ~ held (ps_px s)
  | Some (CFinalize _) => quiet (ps_px s)
  | Some _ => False
  end.

Lemma fail_begun s : quiet (ps_px s) -> wp fail begun s.
Proof. intros Hq. exact Hq. Qed.

Context (Htries : 0 <= next_upstream_tries pscf).

Lemma start_peer_begun s : quiet (ps_px s) -> ok (x_bal (ps_px s)) -> wp (start_peer pscf) begun s.
Proof.
  intros Hq Hb. unfold start_peer. wp_step. apply wp_on_px. do 6 wp_step.
  assert (Hfin : forall x', quiet x' -> ok (x_bal x') -> wp (mret (Some CConnect)) begun (s <| ps_px := x' |>)).
  { intros x' Hq' Hb'. wp_step. split; [by apply quiet_ok|by apply quiet_not_held]. }
  destruct (_ && _); wp_step; apply Hfin; try (by destruct Hq); cbn; [|by apply (peer_tries_law (BalancerInitLaws:=BIL))].
  destruct Hq as [(H1 & H2 & H3) Q2 Q3 Q4 Q5 Q6]. split; cbn; try done.
  unfold unheld. rewrite set_peer_pc_get. cbn. done.
Qed.

Lemma wp_on_init (f : P -> W -> outcome (Z * P * W)) (Q : Z -> pstart HS CS W P -> Prop) s :
  (exists rc p w, f (x_bal (ps_px s)) (x_world (ps_px s)) = Done (rc, p, w) /\
    Q rc (s <| ps_px ::= fun x => x <| x_bal := p |> <| x_wf ::= fun f => f <| wf_world := w |> |> |>)) ->
  wp (on_init f) Q s.
Proof. intros (rc & p & w & Hf & HQ). unfold wp, on_init. by rewrite Hf. Qed.

Lemma quiet_bal x p w : quiet x -> unheld p ->
  quiet (x <| x_bal := p |> <| x_wf ::= fun f => f <| wf_world := w |> |>).
Proof. intros [? ? ? ? ? ?] ?. by split. Qed.

Lemma start_found_begun uscf s :
  quiet (ps_px s) -> (forall i, uscf = Some i -> ready i) -> wp (start_found pscf uscf) begun s.
Proof.
  intros Hq Hr. unfold start_found. destruct uscf as [i|]; [|by apply fail_begun]. do 3 wp_step.
  apply wp_on_init. cbn. destruct (peer_init_law i (x_bal (ps_px s)) (x_world (ps_px s)) (Hr i eq_refl) (qt_bal _ Hq))
    as (rc & p & w & Hf & Hu & Hok). exists rc, p, w. split; [done|].
  pose proof (quiet_bal _ p w Hq Hu) as Hq'.
  destruct (Z.eqb_spec rc NGX_OK) as [->|]; cbn [negb]; [|by apply fail_begun]. apply start_peer_begun; [done|by apply Hok].
Qed.

Lemma create_begun ur s (k : M (pstart HS CS W P) (option Proxy.call)) :
  quiet (ps_px s) -> resolved_ok ur ->
  (forall s', quiet (ps_px s') -> ok (x_bal (ps_px s')) -> ps_resolved s' = ps_resolved s -> wp k begun s') ->
  wp (rc ← on_init (peer_create ur); if negb (rc =? NGX_OK) then fail else k) begun s.
Proof.
  intros Hq Hr Hk. wp_step. apply wp_on_init.
  destruct (peer_create_law ur (x_bal (ps_px s)) (x_world (ps_px s)) Hr (qt_bal _ Hq)) as (rc & p & w & Hf & Hu & Hok).
  exists rc, p, w. split; [done|]. pose proof (quiet_bal _ p w Hq Hu) as Hq'.
  destruct (Z.eqb_spec rc NGX_OK) as [->|]; cbn [negb]; [|by apply fail_begun]. apply Hk; [done|by apply Hok|done].
Qed.

Lemma resolve_handler_begun state addrs s :
  resolving s -> wp (ngx_nsoc_proxy_resolve_handler (NR:=NR) pscf state addrs) begun s.
Proof.
  intros (Hq & _ & nr & Hnr & Hsa). unfold ngx_nsoc_proxy_resolve_handler. do 3 wp_step. rewrite Hnr.
  apply (wp_mderef _ nr); [done|]. destruct (state =? 0); cbn [negb]; [|by apply fail_begun]. do 2 wp_step.
  apply create_begun; [done| |].
  { unfold resolved_ok. cbn. by rewrite Hsa. }
  intros s1 Hq1 Hb1 _. wp_step. unfold start_world. apply wp_on_px. unfold wp at 1, Proxy.on_world. wp_step.
  apply wp_on_px. wp_step. apply start_peer_begun; [|done]. destruct Hq1. by split.
Qed.

Lemma start_unknown_begun nr s :
  quiet (ps_px s) -> ps_resolved s = Some nr -> resolved_ok (nr_resolved nr) -> ur_addrs (nr_resolved nr) = [] ->
  wp (start_unknown (NR:=NR) sa_is_unix pscf nr) begun s.
Proof.
  intros Hq Hnr Hok Ha. unfold start_unknown. destruct (ur_sockaddr (nr_resolved nr)) as [sa|] eqn:Hsa.
  - destruct (_ && _); [by apply fail_begun|]. apply create_begun; [done|done|]. intros s1 Hq1 Hb1 _. wp_step.
    split; [by apply quiet_ok|by apply quiet_not_held].
  - destruct (_ =? 0); [by apply fail_begun|]. wp_step.
    eapply (wp_mono _ (fun _ s1 => quiet (ps_px s1) /\ ps_resolved s1 = ps_resolved s)).
    { unfold wp, start_world, on_px, Proxy.on_world. destruct (ngx_resolve_start _ _). split; [|done]. destruct Hq. by split. }
    intros [| |] s1 [Hq1 Hr1]; [by apply fail_begun..|].
    wp_step. apply wp_on_px. wp_step. set (s2 := s1 <| ps_px := _ |>).
    assert (Hq2 : quiet (ps_px s2)) by (subst s2; destruct Hq1; by split).
    wp_step. apply wp_on_px. unfold wp at 1, Proxy.on_world.
    destruct (ngx_resolve_name _ _) as [a w]. set (s3 := s2 <| ps_px := _ |>).
    assert (Hr3 : resolving s3).
    { split; [subst s3; destruct Hq2; by split|]. split; [done|]. exists nr. split; [|done]. subst s3 s2. cbn. congruence. }
    destruct a as [| |state addrs].
    + wp_step. apply wp_on_px. wp_step. apply fail_begun. destruct Hr3 as [[? ? ? ? ? ?] _]. by split.
    + wp_step. by right.
    + by apply resolve_handler_begun.
Qed.

Lemma find_upstream_lt host port no_port (l : list (srv_conf I C)) : forall i0 k,
  find_upstream host port no_port i0 l = Some k -> (i0 <= k < i0 + length l)%nat.
Proof.
  induction l as [|x l IH]; intros i0 k; cbn [find_upstream]; [done|].
  destruct (upstream_matches _ _ _ _); [intros [= <-]; cbn; lia|]. intros Hk%IH. cbn. lia.
Qed.

(** The session before its content phase: what was read is there, and no upstream. *)
Definition before_start x : Prop :=
  x_final x = None /\ x_peer x = None /\ ~ held x /\ wf_up (x_wf x) = None /\ preread_known x.

(** Every balancer the session can be given was made. *)
Definition upstreams_ready : Prop :=
  (forall i, sc_upstream conf = Some i -> ready i) /\ (forall i, (i < length upstreams)%nat -> ready i).

Abbreviation handler :=
  (ngx_nsoc_proxy_handler cmcf call conf_prefix prefix ngx_get_full_name sa_is_unix upstreams pscf conf).

Lemma handler_begun s : before_start (ps_px s) -> vars_ok (ps_vars s) -> upstreams_ready -> wp handler begun s.
Proof.
  intros (Hfin & Hpeer & Hheld & Hout & Hpre) Hvars (Hr1 & Hr2). unfold ngx_nsoc_proxy_handler. wp_step.
  unfold wp at 1, start_world, on_px, Proxy.on_world. destruct (pool_object _) as [[|] w]; cbv beta iota; cbn [negb].
  2:{ unfold finalize_without_upstream. wp_step. apply wp_on_px. wp_step. wp_step. left. by split; [eexists|]. }
  do 2 wp_step.
  match goal with |- wp _ _ (new_upstream_struct ?s0) => set (s1 := new_upstream_struct s0) end.
  assert (Hq1 : calm s1).
  { subst s1. split; [|done]. split; cbn; try done. apply peer_zero_law. }
  assert (Hn1 : ps_resolved s1 = None) by done. clearbody s1.
  wp_step. eapply wp_mono; [by apply keeps_set_local|]. intros rc s2 [[Hq2 Hv2] Hn2].
  destruct (rc =? NGX_OK); cbn [negb]; [|by apply fail_begun]. wp_step. apply wp_on_px. do 3 wp_step. wp_step.
  apply wp_on_px. do 3 wp_step. wp_step. eapply wp_mono; [apply keeps_client; destruct Hq2; by split; [split|]|].
  intros [] s3 [Hq3 Hn3]. cbn [ps_resolved] in Hn3. wp_step. eapply wp_mono; [by apply start_world_keeps|].
  intros [|] s4 [[Hq4 Hv4] Hn4]; cbn [negb]; [|by apply fail_begun].
  wp_step. apply wp_on_px. wp_step. wp_step. set (s5 := s4 <| ps_px := _ |>).
  assert (Hq5 : calm s5) by (subst s5; destruct Hq4; by split; [split|]).
  assert (Hn5 : ps_resolved s5 = None) by (cbn in *; congruence). clearbody s5.
  eapply (wp_mono _ (fun _ s6 => calm s6 /\ ps_resolved s6 = None)).
  { destruct (_ =? _); [|by wp_step]. eapply wp_mono; [by apply keeps_downstream_buf|].
    intros ? ? [? ?]. split; [done|congruence]. }
  intros [|] s6 [Hq6 Hn6]; cbn [negb]; [|apply fail_begun, Hq6]. wp_step.
  eapply (wp_mono _ (fun _ s7 => calm s7 /\ named s7)).
  { destruct (sc_upstream_value conf) as [v|] eqn:Hv; [by apply eval_named|]. wp_step. split; [done|]. intros nr. congruence. }
  intros rc7 s7 [[Hq7 _] Hn7]. destruct (rc7 =? NGX_OK); cbn [negb]; [|by apply fail_begun]. do 2 wp_step.
  destruct (ps_resolved s7) as [nr|] eqn:Hnr; [|by apply start_found_begun].
  destruct (Hn7 nr Hnr) as [Hok Ha]. destruct (find_upstream _ _ _ _ _) as [i|] eqn:Hf.
  - apply start_found_begun; [done|]. intros j [= <-]. apply Hr2. apply find_upstream_lt in Hf. lia.
  - by apply start_unknown_begun.
Qed.

(** ** With all that follows *)

Lemma finalize_quiet rc x : quiet x ->
  wp (ngx_nsoc_proxy_finalize rc) (fun r x' => r = None /\ finished x') x.
Proof.
  intros [(Hs & Hc & Ht) Q2 Q3 Q4 Q5 Q6]. unfold ngx_nsoc_proxy_finalize. do 3 wp_step.
  assert (Hgo : forall x1, x_peer x1 = None -> x_state x1 = false -> x_bal x1 = x_bal x -> wf_up (x_wf x1) = None ->
    wp (o ← gets x_peer;
        has ← gets x_state;
        now ← gets (fun x => now_msec (x_world x));
        got ← gets x_ureceived;
        (if (has : bool) then
           on_state (fun st => st <| response_time := response_since now st |>);;
           match o with
           | None => mret tt
           | Some pc => on_state (fun st => st <| bytes_received := got |> <| bytes_sent := sent (e_conn pc) |>)
           end
         else mret tt);;
        release_if_held 0;;
        (match o with None => mret tt | Some _ => close_peer end);;
        x_final ::=! Some rc;;
        mret (@None Proxy.call)) (fun r x' => r = None /\ finished x') x1).
  { intros x1 Hp Hst Hb Hw. do 8 wp_step. rewrite Hp, Hst. do 2 wp_step. unfold release_if_held. do 3 wp_step.
    rewrite Hb, Hs. do 5 wp_step. split; [done|]. unfold finished, held. cbn. rewrite Hb, Hs.
    split_and!; [by eexists|by intros [? ?]|done|done]. }
  destruct (x_resolving x); wp_step; by apply Hgo.
Qed.

(** The calls that a handler starts come to an end. *)
Definition settles (r : option Proxy.call) s : Prop :=
  match r with
  | None => finished (ps_px s) \/ resolving s
  | Some c => exists x, run pscf process hs_fuel (Z.to_nat (8 * left_tries (ps_px s) + 8)) c (ps_px s) = Done (tt, x) /\
      (finished x \/ waiting ok x)
  end.

Lemma begun_settles r s :
  handshake_returns pscf hs_fuel -> process_ok ok pscf process -> begun r s -> settles r s.
Proof.
  intros Hhs Hpr Hb. destruct r as [c|]; [|done]. cbn [settles begun] in *. destruct c; try done.
  - destruct Hb as [Hok Hn]. pose proof (peer_ok_tries _ (xo_bal _ _ Hok)) as Ht.
    assert (Hm : measure CConnect (ps_px s) < Z.of_nat (Z.to_nat (8 * left_tries (ps_px s) + 8)))
      by (unfold measure, rank, left_tries in *; lia).
    destruct (wp_done _ _ _ (run_spec ok pscf process hs_fuel _ CConnect (ps_px s) Hhs Hpr Hok Hn Hm))
      as ([] & x & Hrun & Hs & _). exists x. split; [done|]. destruct Hs as [(A1 & _ & A2 & A3 & A4)|?]; [by left|by right].
  - assert (Hf : exists fuel, Z.to_nat (8 * left_tries (ps_px s) + 8) = S fuel).
    { destruct (qt_bal _ Hb) as (_ & _ & Ht). unfold left_tries.
      exists (Z.to_nat (8 * tries (peer_pc (x_bal (ps_px s))) + 7)). lia. }
    destruct Hf as [fuel ->]. cbn [run perform].
    destruct (wp_done _ _ _ (finalize_quiet rc (ps_px s) Hb)) as (r & x & Hrun & -> & Hx).
    exists x. rewrite (bind_done _ _ _ _ _ Hrun). by split; [|left].
Qed.

End Settles.

(** ** The round robin balancer at the start of a session *)

Lemma open_inv us (m : gmap nat RoundRobin.session) sid rrp pc :
  world_inv (World us m) -> m !! sid = None -> Z.of_nat (size m) + 1 < 2 ^ 64 ->
  covers (tried rrp) us -> rrp_peers rrp = Primary -> pc_sockaddr pc = None ->
  world_inv (World us (<[sid := (rrp, pc)]> m)).
Proof.
  intros (Hus & Hconns & Hall & _) Hm Hsz Hcov Hr Hn. cbn in *.
  assert (Hnot : forall g k, ~ holds g k (rrp, pc)) by (intros g k [[? Hs] _]; cbn in Hs; congruence).
  split_and!; cbn; try done.
  - intros g ps k p Hg Hp. rewrite holders_insert_new by done. unfold holds1.
    rewrite decide_False by apply Hnot. rewrite Z.add_0_r. by eapply Hconns.
  - apply map_Forall_insert_2; [|done]. split_and!; [done|cbn; rewrite Hr; cbn; eauto|]. cbn. rewrite Hn. by intros [? ?].
  - rewrite map_size_insert_None by done. lia.
Qed.

Lemma alloc_tried_total {W} `{NgxPool W} n (w : W) : exists o w', alloc_tried n w = Done (o, w').
Proof.
  unfold alloc_tried. destruct (n <=? word_bits); [by do 2 eexists|].
  unfold mbind, M_bind, object, mret, M_ret. destruct (pool_object w). by do 2 eexists.
Qed.

Lemma init_peer_total {W} `{NgxPool W} us pc (w : W) :
  exists rc r pc' w', ngx_nsoc_upstream_init_round_robin_peer None us pc w = Done (rc, r, pc', w') /\
    (rc = NGX_OK /\ is_Some r \/ rc = NGX_ERROR /\ pc' = pc).
Proof.
  unfold ngx_nsoc_upstream_init_round_robin_peer.
  unfold mbind at 1, M_bind at 1, object. destruct (pool_object w) as [[|] w1]; cbn [negb].
  2:{ do 4 eexists. split; [reflexivity|]. by right. }
  match goal with |- context [alloc_tried ?n] => destruct (alloc_tried_total n w1) as (o & w2 & Ha) end.
  rewrite (bind_done _ _ _ _ _ Ha). destruct o; do 4 eexists; (split; [reflexivity|]); [left|by right].
  split; [done|by eexists].
Qed.

Section RoundRobinInit.
Context {W : Type} `{!NgxPool W} (us_of : nat -> option rr_upstream).
Context (set_port : list Z -> Z -> list Z) (sock_ntop : list Z -> list Z).

Definition rr_zero : rr_state :=
  RrState (RrUpstream (RrPeers 0 0 false false [] []) None) (RrPeerData 0 Primary None []) init_pc.

(** [us_of i] is the upstream shared by the sessions of entry [i]; [u->peer.data] of a new
    session is NULL. *)
#[local] Instance rr_init : BalancerInit rr_state W := {|
  peer_zero := rr_zero;
  peer_init i p w :=
    us ← deref (us_of i);
    '(rc, rrp, pc, w) ← ngx_nsoc_upstream_init_round_robin_peer None us (st_pc p) w;
    Done (rc, RrState us (default (st_rrp p) rrp) pc, w);
  peer_create ur p w :=
    '(rc, r, pc, w) ← ngx_nsoc_upstream_create_round_robin_peer set_port sock_ntop None ur (st_pc p) w;
    Done (rc, match r with Some (us, rrp) => RrState us rrp pc | None => p <| st_pc := pc |> end, w);
|}.

Definition rr_ready (i : nat) : Prop :=
  exists us (m : gmap nat RoundRobin.session), us_of i = Some us /\ world_inv (World us m) /\
    Z.of_nat (size m) + 1 < 2 ^ 64.

Lemma tries_nonneg us : us_inv us -> 0 <= upstream_tries us.
Proof.
  intros Hus%us_inv_wf. unfold upstream_tries. destruct (Hus Primary _ eq_refl) as [Hn _].
  pose proof (zlen_nonneg (peer (primary us))). destruct (backup us) as [b|] eqn:Hb; [|lia].
  destruct (Hus Backup b Hb) as [Hn2 _]. pose proof (zlen_nonneg (peer b)). lia.
Qed.

(** A session in a world of its sharers is in order. *)
Lemma opened_ok us (m : gmap nat RoundRobin.session) rrp pc :
  world_inv (World us m) -> Z.of_nat (size m) + 1 < 2 ^ 64 -> covers (tried rrp) us ->
  rrp_peers rrp = Primary -> pc_sockaddr pc = None -> 0 <= tries pc -> rr_ok (RrState us rrp pc).
Proof.
  intros Hw Hsz Hc Hr Hn Ht. split; [done|]. exists (<[fresh (dom m) := (rrp, pc)]> m), (fresh (dom m)).
  split; [apply lookup_insert_eq|]. apply open_inv; try done. apply not_elem_of_dom, is_fresh.
Qed.

(** The peers made of an upstream that was resolved. *)
Definition plain_peers (ps : list rr_peer) : Prop := Forall (fun p => exists a, p = plain_peer a) ps.

Lemma resolved_peers_total ur ix (w : W) :
  Forall (fun i => (i < length (ur_addrs ur))%nat) ix ->
  exists o w', resolved_peers set_port sock_ntop ur ix w = Done (o, w') /\
    (forall ps, o = Some ps -> length ps = length ix /\ plain_peers ps).
Proof.
  revert w. induction ix as [|i ix IH]; intros w Hix; cbn [resolved_peers].
  - do 2 eexists. split; [reflexivity|]. intros ps [= <-]. split; [done|constructor].
  - apply Forall_cons_iff in Hix as [Hi Hix]. destruct (lookup_lt_is_Some_2 _ _ Hi) as [a Ha]. rewrite Ha.
    unfold mbind at 1, M_bind at 1. cbn [mderef mret M_ret]. unfold mbind at 1, M_bind at 1, object at 1.
    destruct (pool_object w) as [[|] w1]; cbn [negb]; [|do 2 eexists; by split].
    unfold mbind at 1, M_bind at 1, object at 1. destruct (pool_object w1) as [[|] w2]; cbn [negb]; [|do 2 eexists; by split].
    destruct (IH w2 Hix) as (o & w3 & Hrun & Hps). rewrite (bind_done _ _ _ _ _ Hrun).
    do 2 eexists. split; [reflexivity|]. destruct o as [ps|]; [|done]. intros ps' [= <-].
    destruct (Hps ps eq_refl) as [Hl Hp]. split; [cbn; by rewrite Hl|]. constructor; [by eexists|done].
Qed.

Lemma private_world host n ps :
  plain_peers ps -> zlen ps = n -> world_inv (World (RrUpstream (RrPeers n 0 (n =? 1) false host ps) None) ∅).
Proof.
  intros Hp Hn.
  assert (Hf : fresh_peers ps).
  { eapply Forall_impl; [exact Hp|]. intros p [a ->]. unfold peer_inv. cbn. split_and!; lia. }
  assert (Hwf : wf_peers (RrPeers n 0 (n =? 1) false host ps)).
  { split; [done|]. cbn. intros ->%Z.eqb_eq. unfold zlen in Hn. lia. }
  split_and!; cbn.
  - intros [|] g Hg; [|done]. injection Hg as <-. by apply fresh_group_inv.
  - intros [|] g k p Hg Hk; [|done]. injection Hg as <-. cbn in Hk.
    unfold fresh_peers in Hf. rewrite Forall_lookup in Hf. destruct (Hf k p Hk) as (_ & -> & _).
    unfold holders. by rewrite map_filter_empty, map_size_empty.
  - by intros i s0 Hs%lookup_empty_Some.
  - rewrite map_size_empty. lia.
Qed.

Lemma tried_covers n ps host t (w w' : W) :
  alloc_tried n w = Done (Some t, w') -> zlen ps = n ->
  covers t (RrUpstream (RrPeers n 0 (n =? 1) false host ps) None).
Proof.
  intros Ha Hn. apply alloc_tried_length in Ha. intros [|] g Hg; [|done]. injection Hg as <-. cbn.
  unfold zlen in *. lia.
Qed.

Lemma create_peer_total ur pc (w : W) :
  resolved_ok ur -> pc_sockaddr pc = None -> 0 <= tries pc ->
  exists rc r pc' w', ngx_nsoc_upstream_create_round_robin_peer set_port sock_ntop None ur pc w = Done (rc, r, pc', w') /\
    (rc = NGX_OK /\ (exists us rrp, r = Some (us, rrp) /\ rr_ok (RrState us rrp pc')) \/ rc = NGX_ERROR) /\
    pc_sockaddr pc' = None /\ RoundRobin.connection pc' = RoundRobin.connection pc /\ 0 <= tries pc'.
Proof.
  intros Hur Hpc Ht. unfold ngx_nsoc_upstream_create_round_robin_peer.
  assert (Hfail : forall (o : option (rr_upstream * rr_peer_data)) w, exists rc r pc' w',
    (mret (NGX_ERROR, o, pc) : M W _) w = Done (rc, r, pc', w') /\
    (rc = NGX_OK /\ (exists us rrp, r = Some (us, rrp) /\ rr_ok (RrState us rrp pc')) \/ rc = NGX_ERROR) /\
    pc_sockaddr pc' = None /\ RoundRobin.connection pc' = RoundRobin.connection pc /\ 0 <= tries pc').
  { intros o w0. do 4 eexists. split; [reflexivity|]. split_and!; try done. by right. }
  do 3 (unfold mbind at 1, M_bind at 1, object at 1; destruct (pool_object _) as [[|] ?]; cbn [negb]; [|apply Hfail]).
  assert (Hps : exists o w1, (match ur_sockaddr ur with
        | Some sa => if ur_naddrs ur =? 0 then undefined
                     else mret (Some [plain_peer (Addr sa (ur_socklen ur) (ur_name ur))])
        | None => resolved_peers set_port sock_ntop ur (seq 0 (Z.to_nat (ur_naddrs ur)))
        end : M W _) w2 = Done (o, w1) /\ forall ps, o = Some ps -> zlen ps = ur_naddrs ur /\ plain_peers ps).
  { unfold resolved_ok in Hur. destruct (ur_sockaddr ur) as [sa|].
    - rewrite Hur. do 2 eexists. split; [reflexivity|]. intros ps [= <-]. split; [done|].
      constructor; [by eexists|constructor].
    - destruct (resolved_peers_total ur (seq 0 (Z.to_nat (ur_naddrs ur))) w2) as (o & w3 & Hrun & Hps).
      + apply Forall_seq. intros j Hj. rewrite Hur in Hj. unfold zlen in Hj. lia.
      + exists o, w3. split; [done|]. intros ps Ho. destruct (Hps ps Ho) as [Hl Hp]. split; [|done].
        unfold zlen. rewrite Hl, length_seq, Hur. unfold zlen. lia. }
  destruct Hps as (o & w3 & Hrun & Hps). rewrite (bind_done _ _ _ _ _ Hrun).
  destruct o as [ps|]; [|apply Hfail]. destruct (Hps ps eq_refl) as [Hn Hp].
  destruct (alloc_tried_total (ur_naddrs ur) w3) as (t & w4 & Ha). rewrite (bind_done _ _ _ _ _ Ha).
  destruct t as [t|]; [|apply Hfail]. set (us := RrUpstream _ None). set (rrp := RrPeerData _ _ _ t).
  pose proof (private_world (ur_host ur) (ur_naddrs ur) ps Hp Hn) as Hw.
  assert (Hpos : 0 <= upstream_tries us) by (apply tries_nonneg; apply Hw).
  do 4 eexists. split; [reflexivity|]. split_and!; try done. left. split; [done|]. exists us, rrp. split; [done|].
  apply (opened_ok us ∅); try done. by eapply tried_covers.
Qed.

#[local] Instance rr_init_laws : BalancerInitLaws rr_state W rr_ok rr_ready.
Proof.
  split.
  - by split_and!.
  - intros i [us0 rrp0 pc] w (us & m & Hi & Hw & Hsz) (Hs & Hc & Ht). cbn in Hs, Hc, Ht.
    cbn [peer_init rr_init]. rewrite Hi. cbn [deref mbind outcome_bind st_pc st_rrp].
    destruct (init_peer_total us pc w) as (rc & r & pc' & w' & Hrun & Hcase). rewrite Hrun. cbn [mbind outcome_bind].
    do 3 eexists. split; [reflexivity|]. destruct Hcase as [(-> & rrp & ->)|(-> & ->)]; [|by split].
    destruct (init_peer_run _ _ _ _ _ _ _ Hrun) as (Hcov & Hp & _ & ->); [by apply us_inv_wf; apply Hw|].
    pose proof (tries_nonneg us ltac:(apply Hw)). split; [by split_and!|]. intros _. by apply (opened_ok us m).
  - intros ur [us0 rrp0 pc] w Hur (Hs & Hc & Ht). cbn in Hs, Hc, Ht. cbn [peer_create rr_init st_pc].
    destruct (create_peer_total ur pc w Hur Hs Ht) as (rc & r & pc' & w' & Hrun & Hcase & H1 & H2 & H3).
    rewrite Hrun. cbn [mbind outcome_bind]. do 3 eexists. split; [reflexivity|].
    split; [|intros ->; destruct Hcase as [(_ & us & rrp & -> & Hok)|?]; done].
    unfold unheld. destruct r as [[us rrp]|]; cbn; by rewrite H2.
  - intros n [us rrp pc] Hn (Ht & m & sid & Hm & Hw). split; [done|]. cbn in *.
    destruct Hw as (Hus & Hconns & Hall & Hsz). cbn in *.
    exists (<[sid := (rrp, pc <| tries := n |>)]> m), sid. split; [apply lookup_insert_eq|]. split_and!; cbn; try done.
    + intros g ps k p Hg Hp. rewrite (holders_update m sid _ _ g k Hm).
      change (holds1 g k (rrp, pc <| tries := n |>)) with (holds1 g k (rrp, pc)). rewrite Z.sub_add. by eapply Hconns.
    + apply map_Forall_insert_2; [|done]. apply (Hall _ _ Hm).
    + by rewrite map_size_insert_Some by (by eexists).
Qed.
End RoundRobinInit.

(** ** Concrete starts *)

#[local] Existing Instance dead_lib.

#[local] Instance demo_start_parse : NgxParse NGX_results := {|
  ngx_parse_url u w := (NGX_OK, u <| u_host := u_url u |> <| u_port := 80 |>, w);
  ngx_atoi l := demo_atoi l;
  ngx_parse_time l := demo_atoi l;
  ngx_parse_addr_port l w := (NGX_OK, Addr l 16 l, w);
|}.

(** A resolver that knows the one address of every name, or asks for it. *)
Definition demo_resolver (known : bool) : NgxResolver NGX_results := {|
  ngx_resolve_start _ w := (GotContext, w);
  ngx_resolve_name host w := (if known then ResolveNow 0 [Addr host 16 host] else ResolvePending, w);
  ngx_resolve_name_done w := w;
|}.

Definition demo_us_of (i : nat) : option rr_upstream := if (i =? 0)%nat then Some demo_us else None.
Definition demo_table : list (srv_conf unit unit) :=
  [SrvConf None (Some demo_us) None (Some demo_servers) BLOCK_FLAGS (kw "main") [] 0 80 false].

Definition demo_value (s : string) : complex_value := ComplexValue (kw s) None None None.
Definition demo_start_conf (name : option string) : start_conf :=
  StartConf (if name is Some _ then None else Some 0%nat) (demo_value <$> name) None.

Definition demo_pstart (script : list Z) : pstart unit unit NGX_results rr_state :=
  PStart (demo_px script) (VSess [] [] 255 [] 0 [] []) false None false 0 None None.

Definition demo_handler (known : bool) (name : option string) :
    M (pstart unit unit NGX_results rr_state) (option Proxy.call) :=
  @ngx_nsoc_proxy_handler unit unit NGX_results rr_state script_pool script_core _
    (rr_init demo_us_of (fun a _ => a) (fun a => a)) demo_start_parse (demo_resolver known) ascii_str
    (list Z) (list (list Z * nat)) unit unit
    (VConf None None [] [] None []) const_call [] [] (fun _ _ w => (FullSame, w)) (fun _ => false)
    demo_table (demo_pconf None) (demo_start_conf name).

(** The calls that follow. *)
Definition demo_run (known : bool) (name : option string) (script : list Z) :
    outcome (option (px unit unit NGX_results rr_state)) :=
  match demo_handler known name (demo_pstart script) with
  | Done (None, s) => Done (Some (ps_px s))
  | Done (Some c, s) =>
      match run (demo_pconf None) idle_process 5 40 c (ps_px s) with
      | Done (_, x) => Done (Some x)
      | Undefined => Undefined
      | OutOfFuel => OutOfFuel
      end
  | Undefined => Undefined
  | OutOfFuel => OutOfFuel
  end.

(** The configured upstream, by its entry and by a template in other letters, has four
    peers; a name that is not configured has the one the resolver knows, or waits. *)
Example demo_starts :
  (if demo_run true None [NGX_AGAIN] is Done (Some x) then
     e_conn <$> x_peer x <> None /\ x_final x = None /\ left_tries x = 4 else False) /\
  (if demo_run true (Some "Main") [NGX_DECLINED; NGX_AGAIN] is Done (Some x) then
     x_final x = None /\ left_tries x = 3 else False) /\
  (if demo_run true (Some "else") [NGX_DECLINED] is Done (Some x) then
     x_final x = Some NGX_NSOC_BAD_GATEWAY /\ x_peer x = None else False) /\
  (if demo_run false (Some "else") [] is Done (Some x) then x_final x = None /\ x_resolving x = true else False).
Proof. split_and!; vm_compute; split_and?; done. Qed.

(** A name in a configuration that has the same name twice, in other letters. *)
Lemma runtime_lookup_agrees_witness :
  @table_ok _ _ ascii_str (upstreams demo_conf) /\
  let u' := (@ngx_parse_url _ demo_parse (demo_name "Main:80") tt).1.2 in
  wp (@ngx_nsoc_upstream_add unit unit unit plentiful ascii_str demo_parse (demo_name "Main:80") 0)
    (fun r s' => forall i, r = Some i -> forall l,
      extends (upstreams s') l -> @table_ok _ _ ascii_str l ->
      @find_upstream _ _ ascii_str (u_host u') (u_port u') (u_no_port u') 0 l = Some i) demo_conf /\
  forall l : list (srv_conf unit unit),
    @find_upstream _ _ ascii_str (u_host u') (u_port u') (u_no_port u') 0 l = None <->
    forall j x, l !! j = Some x -> @same_host ascii_str (us_host x) (u_host u') = true -> us_port x <> u_port u'.
Proof.
  pose proof (@runtime_lookup_agrees unit unit unit plentiful ascii_str ascii_str_laws demo_parse
    demo_parse_laws (demo_name "Main:80") demo_conf (@table_ok_nil _ _ ascii_str)) as [Ha Hb].
  split; [exact (@table_ok_nil _ _ ascii_str)|]. split; [exact Ha|]. apply Hb. by vm_compute.
Defined.

Lemma demo_idle_process_ok : process_ok rr_ok (demo_pconf None) idle_process.
Proof. apply idle_process_ok. Qed.

