(* ===== verification/Conf.v ===== *)
(** * The configuration as it is read

    The state that the directives share: the main configuration of the core module, the
    variables and the upstreams (whose parts are those of Variables and Upstream), and
    the server configurations.  A context is the array of the server configurations of
    all modules, [srv_conf] of [ngx_nsoc_conf_ctx_t], indexed by [ctx_index]; the first
    context is that of the block itself, and every [server] block makes one.  A pointer
    to a server configuration is the number of its context.

    [Slot] says where a module keeps its configuration in a context; the directives of
    a module are written against it. *)

From stdpp Require Import prelude list numbers gmap strings.
From S2P Require Import Prelude RoundRobin NoiseConn Session NoiseServer Ports Variables CoreVars Script.
From S2P Require Import Directive Upstream Proxy Start.

(** ** The server configurations of the modules *)

(** The content handlers of the program. *)
Inductive content_fn := ngx_nsoc_proxy_handler_fn.

(** [ngx_nsoc_core_srv_conf_t]; its [ctx] is the context it is in.  [L] is a log and [R]
    a resolver. *)
Record core_srv (L R : Type) := CoreSrv {
  cs_handler : option content_fn;
  cs_file_name : list Z;
  cs_line : Z;
  cs_tcp_nodelay : Z;
  cs_preread_buffer_size : Z;
  cs_preread_timeout : Z;
  cs_error_log : option L;
  cs_resolver_timeout : Z;
  cs_resolver : option R;
  cs_listen : bool;
}.
Arguments CoreSrv {L R}. Arguments cs_handler {L R}. Arguments cs_file_name {L R}. Arguments cs_line {L R}.
Arguments cs_tcp_nodelay {L R}. Arguments cs_preread_buffer_size {L R}. Arguments cs_preread_timeout {L R}.
Arguments cs_error_log {L R}. Arguments cs_resolver_timeout {L R}. Arguments cs_resolver {L R}.
Arguments cs_listen {L R}.
#[export] Instance eta_core_srv L R : Eta (core_srv L R) := fun r =>
  CoreSrv (cs_handler r) (cs_file_name r) (cs_line r) (cs_tcp_nodelay r) (cs_preread_buffer_size r)
    (cs_preread_timeout r) (cs_error_log r) (cs_resolver_timeout r) (cs_resolver r) (cs_listen r).

(** [ngx_nsoc_proxy_srv_conf_t]; [pv_link] holds the fields that the Noise part uses,
    [buffer_size] and [connect_timeout] among them.  [pv_local] is [None] for
    NGX_CONF_UNSET_PTR. *)
Record proxy_srv := ProxySrv {
  pv_timeout : Z;
  pv_next_upstream_timeout : Z;
  pv_upload_rate : Z;
  pv_download_rate : Z;
  pv_responses : Z;
  pv_next_upstream_tries : Z;
  pv_next_upstream : Z;
  pv_local : option (option upstream_local);
  pv_noise_enable : Z;
  pv_link : proxy_noise_conf;
  pv_upstream : option nat;
  pv_upstream_value : option complex_value;
}.
#[export] Instance eta_proxy_srv : Eta proxy_srv := fun r =>
  ProxySrv (pv_timeout r) (pv_next_upstream_timeout r) (pv_upload_rate r) (pv_download_rate r) (pv_responses r)
    (pv_next_upstream_tries r) (pv_next_upstream r) (pv_local r) (pv_noise_enable r) (pv_link r)
    (pv_upstream r) (pv_upstream_value r).

Inductive srv_slot (L R : Type) :=
| CoreSlot (c : core_srv L R)
| ProxySlot (p : proxy_srv)
| NoiseSlot (n : noiseserver_conf).
Arguments CoreSlot {L R}. Arguments ProxySlot {L R}. Arguments NoiseSlot {L R}.

(** [ctx_index] of the modules, in the order of the build. *)
Definition core_index : nat := 0.
Definition proxy_index : nat := 1.
Definition upstream_index : nat := 2.
Definition noiseserver_index : nat := 3.
Definition write_filter_index : nat := 4.
(** [ngx_nsoc_max_module] *)
Definition max_module : nat := 5.

Class Slot (L R X : Type) := {
  slot_index : nat;
  slot_in : X -> srv_slot L R;
  slot_out : srv_slot L R -> option X;
}.
Arguments slot_index {L R} X {_}.

Class SlotLaws (L R X : Type) `{Slot L R X} : Prop := {
  slot_out_in x : slot_out (slot_in x) = Some x;
  slot_in_out y x : slot_out y = Some x -> y = slot_in x;
}.

#[export] Instance core_slot L R : Slot L R (core_srv L R) :=
  {| slot_index := core_index; slot_in := CoreSlot; slot_out y := match y with CoreSlot c => Some c | _ => None end |}.
#[export] Instance proxy_slot L R : Slot L R proxy_srv :=
  {| slot_index := proxy_index; slot_in := ProxySlot; slot_out y := match y with ProxySlot c => Some c | _ => None end |}.
#[export] Instance noise_slot L R : Slot L R noiseserver_conf :=
  {| slot_index := noiseserver_index; slot_in := NoiseSlot; slot_out y := match y with NoiseSlot c => Some c | _ => None end |}.

#[export] Instance core_slot_laws L R : SlotLaws L R (core_srv L R).
Proof. split; [done|]. intros [c|p|n] x Hx; cbn in *; congruence. Qed.
#[export] Instance proxy_slot_laws L R : SlotLaws L R proxy_srv.
Proof. split; [done|]. intros [c|p|n] x Hx; cbn in *; congruence. Qed.
#[export] Instance noise_slot_laws L R : SlotLaws L R noiseserver_conf.
Proof. split; [done|]. intros [c|p|n] x Hx; cbn in *; congruence. Qed.

(** ** The state *)

(** [ngx_nsoc_core_main_conf_t] without the variables, which are [g_vars], and the
    phases: [servers] are the contexts of the servers. *)
Record core_main := CoreMain {
  cm_servers : list nat;
  cm_listen : list (listen_opt nat);
  cm_ncaptures : Z;
  cm_hash_max_size : Z;
  cm_hash_bucket_size : Z;
}.
#[export] Instance eta_core_main : Eta core_main := fun r =>
  CoreMain (cm_servers r) (cm_listen r) (cm_ncaptures r) (cm_hash_max_size r) (cm_hash_bucket_size r).

(** A context: [None] in Upstream's slots is a NULL configuration. *)
Abbreviation context L R := (list (conf_slot (srv_slot L R))).

Record cfg (H T I L R W : Type) := Cfg {
  g_vars : vconf H T W;
  g_upstreams : list (srv_conf I (srv_slot L R));
  g_main : core_main;
  g_ctxs : list (context L R);
  g_file : list Z;
  g_line : Z;
}.
Arguments Cfg {H T I L R W}. Arguments g_vars {H T I L R W}. Arguments g_upstreams {H T I L R W}.
Arguments g_main {H T I L R W}. Arguments g_ctxs {H T I L R W}. Arguments g_file {H T I L R W}.
Arguments g_line {H T I L R W}.
#[export] Instance eta_cfg H T I L R W : Eta (cfg H T I L R W) := fun r =>
  Cfg (g_vars r) (g_upstreams r) (g_main r) (g_ctxs r) (g_file r) (g_line r).

Section Conf.
Context {H T I L R W : Type} {PO : NgxPool W}.
Abbreviation GM := (M (cfg H T I L R W)).
Implicit Types (s : cfg H T I L R W) (k : nat).

Definition g_world s : W := vc_pool (g_vars s).

Definition on_world {A} (m : M W A) : GM A := fun s =>
  match m (g_world s) with
  | Done (a, w) => Done (a, s <| g_vars ::= fun v => v <| vc_pool := w |> |>)
  | Undefined => Undefined
  | OutOfFuel => OutOfFuel
  end.

(** An allocation from [cf->pool]. *)
Definition conf_object : GM bool := on_world (fun w => Done (pool_object w)).

Definition on_vars {A} (m : M (vconf H T W) A) : GM A := fun s =>
  match m (g_vars s) with
  | Done (a, v) => Done (a, s <| g_vars := v |>)
  | Undefined => Undefined
  | OutOfFuel => OutOfFuel
  end.

(** The part of the configuration that Upstream is about. *)
Definition ups_part s : upconf I (srv_slot L R) W := UpConf (g_upstreams s) (g_file s) (g_line s) (g_world s).
Definition with_ups s (u : upconf I (srv_slot L R) W) : cfg H T I L R W :=
  s <| g_upstreams := upstreams u |> <| g_file := cf_file u |> <| g_line := cf_line u |>
    <| g_vars ::= fun v => v <| vc_pool := up_world u |> |>.

Definition on_ups {A} (m : M (upconf I (srv_slot L R) W) A) : GM A := fun s =>
  match m (ups_part s) with
  | Done (a, u) => Done (a, with_ups s u)
  | Undefined => Undefined
  | OutOfFuel => OutOfFuel
  end.

(** The configuration of a module in context [k]: NULL, or one of another module, is not
    followed. *)
Definition slot_at {X} `{Slot L R X} s k : option X :=
  ctx ← g_ctxs s !! k;
  y ← ctx !! slot_index X;
  match y with SlotConf y => slot_out y | _ => None end.

Definition get_slot {X} `{Slot L R X} k : GM X := s ← gets id; mderef (slot_at s k).

Definition put_slot {X} `{Slot L R X} k (x : X) : GM unit :=
  modify (fun s => s <| g_ctxs ::= alter (fun ctx => <[slot_index X := SlotConf (slot_in x)]> ctx) k |>).
End Conf.

(** ** What a step leaves alone *)

(** An entry is one of those listed. *)
Ltac touched := repeat first [apply list_elem_of_here|apply list_elem_of_further].

Section Frame.
Context {H T I L R W : Type} {PO : NgxPool W}.
Implicit Types (s : cfg H T I L R W) (k i : nat) (t : list (nat * nat)).

(** The entry of a module in a context. *)
Definition raw_at s k i : option (conf_slot (srv_slot L R)) := ctx ← g_ctxs s !! k; ctx !! i.

(** No configuration but the entries of [t] changes. *)
Record ctx_frame t s s' : Prop := {
  fr_length : length (g_ctxs s') = length (g_ctxs s);
  fr_raw k i : (k, i) ∉ t -> raw_at s' k i = raw_at s k i;
}.

(** Nothing but the entries of [t] changes, and the pool. *)
Record frame t s s' : Prop := {
  fr_ctx : ctx_frame t s s';
  fr_main : g_main s' = g_main s;
  fr_ups : g_upstreams s' = g_upstreams s;
  fr_vars : (g_vars s') <| vc_pool := g_world s |> = g_vars s;
}.

Lemma ctx_frame_same t s s' : g_ctxs s' = g_ctxs s -> ctx_frame t s s'.
Proof. intros He. split; [by rewrite He|]. intros k i _. unfold raw_at. by rewrite He. Qed.

Lemma ctx_frame_trans t s1 s2 s3 : ctx_frame t s1 s2 -> ctx_frame t s2 s3 -> ctx_frame t s1 s3.
Proof. intros [A1 A2] [B1 B2]. split; [congruence|]. intros k i Hki. by rewrite B2, A2. Qed.

Lemma slot_at_raw {X : Type} {SX : Slot L R X} s s' k :
  raw_at s' k (slot_index X) = raw_at s k (slot_index X) -> slot_at (X:=X) s' k = slot_at s k.
Proof.
  unfold raw_at, slot_at. intros Hr.
  destruct (g_ctxs s !! k) as [ctx|], (g_ctxs s' !! k) as [ctx'|]; cbn in *;
    [by rewrite Hr|by rewrite <- Hr|by rewrite Hr|done].
Qed.

Lemma ctx_frame_slot {X : Type} {SX : Slot L R X} t s s' k :
  ctx_frame t s s' -> (k, slot_index X) ∉ t -> slot_at (X:=X) s' k = slot_at s k.
Proof. intros Hf Hk. by apply slot_at_raw, (fr_raw t s s' Hf). Qed.

Lemma ctx_frame_store t i y s k :
  (k, i) ∈ t -> ctx_frame t s (s <| g_ctxs ::= alter (fun ctx => <[i := y]> ctx) k |>).
Proof.
  intros Hk. split; [cbn; by rewrite length_alter|].
  intros k' i' Hki. unfold raw_at. cbn. destruct (decide (k = k')) as [<-|Hne]; [|by rewrite list_lookup_alter_ne].
  rewrite list_lookup_alter_eq. destruct (g_ctxs s !! k) as [ctx|]; [|done]. cbn.
  rewrite list_lookup_insert_ne; [done|]. by intros <-.
Qed.

Lemma ctx_frame_put {X : Type} {SX : Slot L R X} t (x : X) s k :
  (k, slot_index X) ∈ t ->
  ctx_frame t s (s <| g_ctxs ::= alter (fun ctx => <[slot_index X := SlotConf (slot_in x)]> ctx) k |>).
Proof. apply ctx_frame_store. Qed.

Lemma raw_at_store i y s k :
  is_Some (raw_at s k i) -> raw_at (s <| g_ctxs ::= alter (fun ctx => <[i := y]> ctx) k |>) k i = Some y.
Proof.
  unfold raw_at. cbn. rewrite list_lookup_alter_eq. destruct (g_ctxs s !! k) as [ctx|]; [|by intros []].
  cbn. intros [z Hz]. rewrite list_lookup_insert_eq; [done|]. by eapply lookup_lt_Some.
Qed.

Lemma frame_same t s s' :
  g_ctxs s' = g_ctxs s -> g_main s' = g_main s -> g_upstreams s' = g_upstreams s ->
  (g_vars s') <| vc_pool := g_world s |> = g_vars s -> frame t s s'.
Proof. intros. split; try done. by apply ctx_frame_same. Qed.

Lemma frame_refl t s : frame t s s.
Proof. apply frame_same; try done. by destruct s as [[]]. Qed.

Lemma frame_trans t s1 s2 s3 : frame t s1 s2 -> frame t s2 s3 -> frame t s1 s3.
Proof.
  intros [A1 A2 A3 A4] [B1 B2 B3 B4]. split; try congruence; [by eapply ctx_frame_trans|].
  rewrite <- A4, <- B4. by destruct s3 as [[]].
Qed.

Lemma frame_world t s (w : W) : frame t s (s <| g_vars ::= fun v => v <| vc_pool := w |> |>).
Proof. apply frame_same; try done. by destruct s as [[]]. Qed.

Lemma frame_slot {X : Type} {SX : Slot L R X} t s s' k :
  frame t s s' -> (k, slot_index X) ∉ t -> slot_at (X:=X) s' k = slot_at s k.
Proof. intros [Hf _ _ _]. by apply ctx_frame_slot. Qed.

Lemma frame_put {X : Type} {SX : Slot L R X} t (x : X) s k :
  (k, slot_index X) ∈ t ->
  frame t s (s <| g_ctxs ::= alter (fun ctx => <[slot_index X := SlotConf (slot_in x)]> ctx) k |>).
Proof. intros Hk. split; try done; [by apply ctx_frame_put|by destruct s as [[]]]. Qed.
End Frame.

(** ** Reading and writing a server configuration *)

Section SlotLemmas.
Context {H T I L R W : Type} {PO : NgxPool W}.
Context {X : Type} {SX : Slot L R X} {SL : SlotLaws L R X}.
Implicit Types (s : cfg H T I L R W) (k : nat).

Lemma slot_at_put (x y : X) s k :
  slot_at s k = Some y ->
  slot_at (s <| g_ctxs ::= alter (fun ctx => <[slot_index X := SlotConf (slot_in x)]> ctx) k |>) k = Some x.
Proof.
  unfold slot_at. cbn. rewrite list_lookup_alter_eq. destruct (g_ctxs s !! k) as [ctx|]; [|done]. cbn.
  destruct (ctx !! slot_index X) as [z|] eqn:Hz; [|done]. intros _. cbn.
  rewrite list_lookup_insert_eq by (by eapply lookup_lt_Some). apply slot_out_in.
Qed.

(** A configuration in another context, or of another module, is not touched. *)
Lemma slot_at_other {Y : Type} {SY : Slot L R Y} (x : X) s k k' :
  k <> k' \/ slot_index X <> slot_index Y ->
  slot_at (X:=Y) (s <| g_ctxs ::= alter (fun ctx => <[slot_index X := SlotConf (slot_in x)]> ctx) k |>) k' = slot_at s k'.
Proof.
  intros Hne. unfold slot_at. cbn. destruct (decide (k = k')) as [<-|Hk].
  - rewrite list_lookup_alter_eq. destruct (g_ctxs s !! k) as [ctx|]; [|done]. cbn.
    rewrite list_lookup_insert_ne by (by destruct Hne). done.
  - by rewrite list_lookup_alter_ne.
Qed.

Lemma wp_get_slot k (x : X) (Q : X -> cfg H T I L R W -> Prop) s :
  slot_at s k = Some x -> Q x s -> wp (get_slot k) Q s.
Proof. intros Hx HQ. unfold get_slot. apply wp_bind, wp_gets. by apply (wp_mderef _ x). Qed.

(** A store to a configuration that is there. *)
Lemma wp_put k (x y : X) (Q : unit -> cfg H T I L R W -> Prop) s :
  slot_at s k = Some y ->
  (forall s', s' = s <| g_ctxs ::= alter (fun ctx => <[slot_index X := SlotConf (slot_in x)]> ctx) k |> ->
     slot_at s' k = Some x -> Q tt s') -> wp (put_slot k x) Q s.
Proof. intros Hy HQ. unfold put_slot. wp_step. apply HQ; [done|]. by apply (slot_at_put x y). Qed.

(** A store, with what it leaves alone since [s0]. *)
Lemma wp_put_slot t k (x y : X) (Q : unit -> cfg H T I L R W -> Prop) s0 s :
  frame t s0 s -> (k, slot_index X) ∈ t -> slot_at s k = Some y ->
  (forall s', frame t s0 s' -> slot_at s' k = Some x ->
     (forall k', k' <> k -> slot_at (X:=X) s' k' = slot_at s k') -> Q tt s') -> wp (put_slot k x) Q s.
Proof.
  intros Hf Hk Hy HQ. unfold put_slot. wp_step. apply HQ.
  - eapply frame_trans; [exact Hf|by apply frame_put].
  - by apply (slot_at_put x y).
  - intros k' Hk'. apply slot_at_other. by left.
Qed.

Lemma wlp_get_slot k (Q : X -> cfg H T I L R W -> Prop) s :
  (forall x, slot_at s k = Some x -> Q x s) -> wlp (get_slot k) Q s.
Proof. intros HQ. unfold get_slot. apply wlp_bind, wlp_gets, wlp_mderef. intros x. apply HQ. Qed.
End SlotLemmas.

Section Adapters.
Context {H T I L R W : Type} {PO : NgxPool W}.
Implicit Types (s : cfg H T I L R W).

Lemma wp_on_vars {A} (m : M (vconf H T W) A) (Q : A -> cfg H T I L R W -> Prop) s :
  wp m (fun a v => Q a (s <| g_vars := v |>)) (g_vars s) -> wp (on_vars m) Q s.
Proof. unfold wp, on_vars. by destruct (m _) as [[a v]| |]. Qed.

Lemma wlp_on_vars {A} (m : M (vconf H T W) A) (Q : A -> cfg H T I L R W -> Prop) s :
  wlp m (fun a v => Q a (s <| g_vars := v |>)) (g_vars s) -> wlp (on_vars m) Q s.
Proof. unfold wlp, on_vars. by destruct (m _) as [[a v]| |]. Qed.

Lemma wlp_on_ups {A} (m : M (upconf I (srv_slot L R) W) A) (Q : A -> cfg H T I L R W -> Prop) s :
  wlp m (fun a u => Q a (with_ups s u)) (ups_part s) -> wlp (on_ups m) Q s.
Proof. unfold wlp, on_ups. by destruct (m _) as [[a u]| |]. Qed.

Lemma wp_on_ups {A} (m : M (upconf I (srv_slot L R) W) A) (Q : A -> cfg H T I L R W -> Prop) s :
  wp m (fun a u => Q a (with_ups s u)) (ups_part s) -> wp (on_ups m) Q s.
Proof. unfold wp, on_ups. by destruct (m _) as [[a u]| |]. Qed.

(** What does not depend on the world survives an allocation. *)
Lemma wlp_on_world {A} (m : M W A) (Q : A -> cfg H T I L R W -> Prop) s :
  (forall a w, Q a (s <| g_vars ::= fun v => v <| vc_pool := w |> |>)) -> wlp (on_world m) Q s.
Proof. intros HQ. unfold wlp, on_world. destruct (m _) as [[a w]| |]; [apply HQ|done..]. Qed.

Lemma wp_on_world_frame {A} t (m : M W A) (Q : A -> cfg H T I L R W -> Prop) s0 s :
  frame t s0 s ->
  wp m (fun a _ => forall s', frame t s0 s' -> g_ctxs s' = g_ctxs s -> Q a s') (g_world s) -> wp (on_world m) Q s.
Proof.
  intros Hf HQ. unfold wp, on_world in *. destruct (m _) as [[a w]| |]; [|done..]. apply HQ; [|done].
  eapply frame_trans; [exact Hf|apply frame_world].
Qed.

(** Any answer of nginx core. *)
Lemma wp_answer {A} (f : W -> A * W) (Q : A -> W -> Prop) w : (forall a w', Q a w') -> wp (fun w => Done (f w)) Q w.
Proof. intros HQ. unfold wp. destruct (f w). apply HQ. Qed.

Lemma wp_conf_object (Q : bool -> cfg H T I L R W -> Prop) s :
  (forall ok w, Q ok (s <| g_vars ::= fun v => v <| vc_pool := w |> |>)) -> wp conf_object Q s.
Proof. intros HQ. unfold wp, conf_object, on_world. cbn. destruct (pool_object _). apply HQ. Qed.
End Adapters.
