(* ===== verification/CoreConf.v ===== *)
(** * The core module's directives: ngx_nsoc_core_module.c

    The main configuration of the core module, the settings of a server with what they
    become when the block is complete, and the directives [server], [listen], [resolver]
    and [error_log].

    [listen_keeps_pairs] says what a [listen] line adds and that an address and port
    pair is listened on once, which is what the table of the ports (Ports) needs;
    [core_merge_completes] says what the settings of an accepted server are.

    The build has IPv6, TCP keepalive parameters and SO_REUSEPORT. *)

From stdpp Require Import prelude list numbers gmap strings.
From S2P Require Import Prelude RoundRobin NoiseConn Session NoiseServer Ports Variables CoreVars Script.
From S2P Require Import Directive Upstream Proxy Start Conf.

(** What nginx core offers to these directives: comparing socket addresses with their
    ports, searching a character, making a resolver, setting a log; [new_log] is the log
    of the cycle. *)
Class NgxConfCore (L R W : Type) := {
  ngx_cmp_sockaddr : inet_addr * Z -> inet_addr * Z -> Z;
  ngx_strlchr : list Z -> Z -> option nat;
  ngx_resolver_create : list (list Z) -> W -> option R * W;
  ngx_log_set_log : list (list Z) -> option L -> W -> conf_answer * option L * W;
  ngx_align : Z -> Z -> Z;
  ngx_cacheline_size : Z;
  NGX_LISTEN_BACKLOG : Z;
  new_log : L;
}.

(** Addresses are the same when they are equal; a log that is set is there. *)
Class NgxConfCoreLaws (L R W : Type) `{NgxConfCore L R W} : Prop := {
  cmp_sockaddr_ok a b : ngx_cmp_sockaddr a b = NGX_OK <-> a = b;
  set_log_ok args o w o' w' : ngx_log_set_log args o w = (ConfOk, o', w') -> is_Some o';
}.

Section CoreConf.
Context {H T I L R W : Type} {PO : NgxPool W} {NP : NgxParse W} {CC : NgxConfCore L R W} {CM : NgxConfMerge}.
Abbreviation GM := (M (cfg H T I L R W)).
Implicit Types (s : cfg H T I L R W) (k : nat) (c : core_srv L R).

(** [cscf] of a context. *)
Definition get_core k : GM (core_srv L R) := get_slot k.

(** ** The main configuration *)

Definition ngx_nsoc_core_create_main_conf : GM bool :=
  ok ← conf_object;
  if negb ok then mret false else
  ok ← conf_object;
  if negb ok then mret false else
  ok ← conf_object;
  if negb ok then mret false else
  g_main ::=! CoreMain [] [] 0 NGX_CONF_UNSET_UINT NGX_CONF_UNSET_UINT;;
  mret true.

Definition ngx_nsoc_core_init_main_conf : GM conf_answer :=
  m ← gets g_main;
  let size := conf_init (Z.eqb NGX_CONF_UNSET_UINT) (cm_hash_max_size m) 1024 in
  let bucket := conf_init (Z.eqb NGX_CONF_UNSET_UINT) (cm_hash_bucket_size m) 64 in
  let n := cm_ncaptures m in
  g_main ::=! m <| cm_hash_max_size := size |>
                <| cm_hash_bucket_size := ngx_align bucket ngx_cacheline_size |>
                <| cm_ncaptures := if n =? 0 then n else u64 ((n + 1) * 3) |>;;
  mret ConfOk.

(** ** The settings of a server *)

(** [file] and [line] are the place of the block in the configuration. *)
Definition ngx_nsoc_core_create_srv_conf (file : list Z) (line : Z) : M W (option (core_srv L R)) :=
  ok ← (fun w => Done (pool_object w));
  mret (if (ok : bool)
        then Some (CoreSrv None file line NGX_CONF_UNSET NGX_CONF_UNSET_SIZE NGX_CONF_UNSET_MSEC None
                     NGX_CONF_UNSET_MSEC None false)
        else None).

(** [prev] is the configuration of the block, [conf] that of the server. *)
Definition ngx_nsoc_core_merge_srv_conf (prev conf : nat) : GM conf_answer :=
  p ← get_core prev;
  c ← get_core conf;
  let c := c <| cs_resolver_timeout :=
                  conf_merge (Z.eqb NGX_CONF_UNSET_MSEC) (cs_resolver_timeout c) (cs_resolver_timeout p) 30000 |> in
  put_slot conf c;;
  r ← (match cs_resolver c with
       | Some r => mret (Some r)
       | None =>
           match cs_resolver p with
           | Some r => mret (Some r)
           | None =>
               r ← on_world (fun w => Done (ngx_resolver_create [] w));
               put_slot prev (p <| cs_resolver := r |>);;
               mret r
           end
       end);
  match r with
  | None => mret ConfError
  | Some r =>
      let c := c <| cs_resolver := Some r |> in
      put_slot conf c;;
      match cs_handler c with
      | None => mret ConfError
      | Some _ =>
          let c := c <| cs_error_log := match cs_error_log c with
                                        | Some l => Some l
                                        | None => match cs_error_log p with Some l => Some l | None => Some new_log end
                                        end |>
                     <| cs_tcp_nodelay := conf_merge (Z.eqb NGX_CONF_UNSET) (cs_tcp_nodelay c) (cs_tcp_nodelay p) 1 |>
                     <| cs_preread_buffer_size :=
                          conf_merge (Z.eqb NGX_CONF_UNSET_SIZE) (cs_preread_buffer_size c) (cs_preread_buffer_size p)
                            NOISE_PROTOCOL_PAYLOAD_SIZE |> in
          put_slot conf c;;
          if NOISE_PROTOCOL_PAYLOAD_SIZE <? cs_preread_buffer_size c then mret ConfError else
          put_slot conf (c <| cs_preread_timeout :=
            conf_merge (Z.eqb NGX_CONF_UNSET_MSEC) (cs_preread_timeout c) (cs_preread_timeout p) 30000 |>);;
          mret ConfOk
      end
  end.

(** ** Directives *)

Definition ngx_nsoc_core_error_log (k : nat) (args : list (list Z)) : GM conf_answer :=
  c ← get_core k;
  '(rv, l) ← on_world (fun w =>
    let '(rv, l, w) := ngx_log_set_log args (cs_error_log c) w in Done ((rv, l), w));
  put_slot k (c <| cs_error_log := l |>);;
  mret rv.

Definition ngx_nsoc_core_resolver (k : nat) (args : list (list Z)) : GM conf_answer :=
  c ← get_core k;
  match cs_resolver c with
  | Some _ => mret ConfDuplicate
  | None =>
      r ← on_world (fun w => Done (ngx_resolver_create (drop 1 args) w));
      put_slot k (c <| cs_resolver := r |>);;
      mret (match r with None => ConfError | Some _ => ConfOk end)
  end.

(** ** The [server] block *)

(** A module of the family: its index, and its function to create a server configuration
    from the place in the file. *)
Definition creator : Type := (nat * option (list Z -> Z -> M W (option (srv_slot L R))))%type.

(** [ctx->srv_conf[mi] = module->create_srv_conf(cf)], and whether it is not NULL. *)
Definition create_srv (k mi : nat) (create : list Z -> Z -> M W (option (srv_slot L R))) : GM bool :=
  s ← gets id;
  y ← on_world (create (g_file s) (g_line s));
  match y with
  | None => mret false
  | Some y =>
      modify (fun s => s <| g_ctxs ::= alter (fun ctx => <[mi := SlotConf y]> ctx) k |>);;
      mret true
  end.

(** The loop ends at a NULL. *)
Fixpoint create_srv_confs (k : nat) (ms : list creator) : GM bool :=
  match ms with
  | [] => mret true
  | (_, None) :: ms => create_srv_confs k ms
  | (mi, Some create) :: ms =>
      ok ← create_srv k mi create;
      if negb ok then mret false else create_srv_confs k ms
  end.

(** A new context, all of whose configurations are NULL: the array and the structure
    around it. *)
Definition new_context : GM (option nat) :=
  ok ← conf_object;
  if negb ok then mret None else
  ok ← conf_object;
  if negb ok then mret None else
  s ← gets id;
  g_ctxs ::=! g_ctxs s ++ [replicate max_module SlotNull];;
  mret (Some (length (g_ctxs s))).

(** [parse_block k] is [ngx_conf_parse] with [cf->ctx] the context [k]. *)
Definition ngx_nsoc_core_server (modules : list creator) (parse_block : nat -> GM conf_answer) : GM conf_answer :=
  o ← new_context;
  match o with
  | None => mret ConfError
  | Some k =>
      ok ← create_srv_confs k modules;
      if negb ok then mret ConfError else
      _ ← get_core k;
      ok ← conf_object;
      if negb ok then mret ConfError else
      modify (fun s => s <| g_main ::= fun m => m <| cm_servers ::= fun l => l ++ [k] |> |>);;
      rv ← parse_block k;
      match rv with
      | ConfOk => c ← get_core k; mret (if cs_listen c then ConfOk else ConfError)
      | _ => mret rv
      end
  end.

(** ** The [listen] directive *)

(** The local variables: the entry being filled, and whether there was a backlog. *)
Record listen_args := ListenArgs { la_opt : listen_opt nat; la_backlog : bool }.
#[local] Instance eta_listen_args : Eta listen_args := fun r => ListenArgs (la_opt r) (la_backlog r).
Implicit Types (a : listen_args) (v : list Z) (o : sock_options).

Definition set_opt a (f : sock_options -> sock_options) : listen_args :=
  a <| la_opt ::= fun ls => ls <| l_options ::= f |> |>.
Definition set_bind a : listen_args := a <| la_opt ::= fun ls => ls <| l_bind := true |> |>.

(** What is before the next colon and what is behind it. *)
Definition cut_colon v : list Z * list Z :=
  match ngx_strlchr v 58 with Some n => (take n v, drop (S n) v) | None => (v, []) end.

(** A part of the value: when it is not empty it is a number, stored in an [int]. *)
Definition keep_part (parse : list Z -> Z) (set : Z -> sock_options -> sock_options) v o : sock_options * bool :=
  match v with
  | [] => (o, true)
  | _ => let n := s32 (parse v) in (set n o, negb (n =? NGX_ERROR))
  end.

(** "idle:interval:count" *)
Definition keepalive_times v o : sock_options * bool :=
  let '(idle, v) := cut_colon v in
  let '(o, good) := keep_part ngx_parse_time (fun n o => o <| o_keepidle := n |>) idle o in
  if negb good then (o, false) else
  let '(intvl, v) := cut_colon v in
  let '(o, good) := keep_part ngx_parse_time (fun n o => o <| o_keepintvl := n |>) intvl o in
  if negb good then (o, false) else
  let '(o, good) := keep_part ngx_atoi (fun n o => o <| o_keepcnt := n |>) v o in
  if negb good then (o, false) else
  if (o_keepidle o =? 0) && (o_keepintvl o =? 0) && (o_keepcnt o =? 0) then (o, false)
  else (o <| o_so_keepalive := 1 |>, true).

Definition so_keepalive v o : sock_options * bool :=
  if same_str (kw "on") v then (o <| o_so_keepalive := 1 |>, true)
  else if same_str (kw "off") v then (o <| o_so_keepalive := 2 |>, true)
  else keepalive_times v o.

(** One parameter; the second part says that it is good.  What was set before an error
    is found stays set. *)
Definition listen_param a v : listen_args * bool :=
  let ls := la_opt a in
  if same_str (kw "udp") v then (a <| la_opt := ls <| l_type := SOCK_DGRAM |> |>, true)
  else if same_str (kw "bind") v then (set_bind a, true)
  else if starts (kw "backlog=") v then
    let n := s32 (ngx_atoi (drop 8 v)) in
    let a := set_bind (set_opt a (fun o => o <| o_backlog := n |>)) in
    if (n =? NGX_ERROR) || (n =? 0) then (a, false) else (a <| la_backlog := true |>, true)
  else if starts (kw "ipv6only=o") v then
    if bool_decide (sa_family (l_addr ls) = AF_INET6) then
      if same_str (kw "n") (drop 10 v) then (set_bind (set_opt a (fun o => o <| o_ipv6only := true |>)), true)
      else if same_str (kw "ff") (drop 10 v) then (set_bind (set_opt a (fun o => o <| o_ipv6only := false |>)), true)
      else (a, false)
    else (a, true)
  else if same_str (kw "reuseport") v then (set_bind (set_opt a (fun o => o <| o_reuseport := true |>)), true)
  else if same_str (kw "noise") v then (a <| la_opt := ls <| l_noise_on := true |> |>, true)
  else if starts (kw "so_keepalive=") v then
    let '(o, good) := so_keepalive (drop 13 v) (l_options ls) in
    let a := set_opt a (fun _ => o) in
    if (good : bool) then (set_bind a, true) else (a, false)
  else if same_str (kw "proxy_protocol") v then (a <| la_opt := ls <| l_proxy_protocol := true |> |>, true)
  else (a, false).

Fixpoint listen_params a (vs : list (list Z)) : listen_args * bool :=
  match vs with
  | [] => (a, true)
  | v :: vs => let '(a, good) := listen_param a v in if (good : bool) then listen_params a vs else (a, false)
  end.

(** What does not go with udp. *)
Definition udp_conflict a : option (list Z) :=
  let ls := la_opt a in
  if negb (l_type ls =? SOCK_DGRAM) then None
  else if la_backlog a then Some (kw "backlog")
  else if l_noise_on ls then Some (kw "noise")
  else if negb (o_so_keepalive (l_options ls) =? 0) then Some (kw "so_keepalive")
  else if l_proxy_protocol ls then Some (kw "proxy_protocol")
  else None.

(** The loop over the entries before the new one. *)
Definition same_pair (ls als : listen_opt nat) : bool :=
  (l_type ls =? l_type als) && (ngx_cmp_sockaddr (l_addr als, l_port als) (l_addr ls, l_port ls) =? NGX_OK).

Definition new_listen k (u : url) : listen_opt nat :=
  ListenOpt (u_sockaddr u).1 (u_sockaddr u).2 SOCK_STREAM k false (u_wildcard u) false false
    (no_options <| o_backlog := NGX_LISTEN_BACKLOG |> <| o_ipv6only := true |>).

(** The new entry is in the array before its parameters are read. *)
Definition ngx_nsoc_core_listen k (args : list (list Z)) : GM conf_answer :=
  c ← get_core k;
  put_slot k (c <| cs_listen := true |>);;
  value ← mderef (args !! 1%nat);
  '(rc, u) ← on_world (fun w =>
    let '(rc, u, w) := ngx_parse_url (no_url <| u_url := value |> <| u_listen := true |>) w in Done ((rc, u), w));
  if negb (rc =? NGX_OK) then mret ConfError else
  ok ← conf_object;
  if negb ok then mret ConfError else
  als ← gets (fun s => cm_listen (g_main s));
  let '(a, good) := listen_params (ListenArgs (new_listen k u) false) (drop 2 args) in
  let ls := la_opt a in
  modify (fun s => s <| g_main ::= fun m => m <| cm_listen := als ++ [ls] |> |>);;
  if negb good then mret ConfError else
  match udp_conflict a with
  | Some param => mret (ConfIncompatible param)
  | None => if existsb (same_pair ls) als then mret ConfError else mret ConfOk
  end.
End CoreConf.

(** ** What a [listen] line says *)

Definition listen_keywords : list (list Z) :=
  [kw "udp"; kw "bind"; kw "backlog="; kw "ipv6only=o"; kw "reuseport"; kw "noise"; kw "so_keepalive=";
   kw "proxy_protocol"].

#[export] Instance listen_keywords_apart : Keywords listen_keywords.
Proof. split; by vm_compute. Qed.

Section Listen.
#[local] Arguments name_of : simpl never.
Context {H T I L R W : Type} {PO : NgxPool W} {NP : NgxParse W} {CC : NgxConfCore L R W}.
Implicit Types (a : listen_args) (v : list Z) (vs : list (list Z)) (ls : listen_opt nat).

(** The entry for address [x] and port [p] of the server [k], after the parameters [vs]. *)
Record listen_says (k : nat) (x : inet_addr) (p : Z) (wild : bool) vs ls : Prop := {
  sy_addr : l_addr ls = x;
  sy_port : l_port ls = p;
  sy_wildcard : l_wildcard ls = wild;
  sy_ctx : l_ctx ls = k;
  sy_noise : l_noise_on ls = mentions (kw "noise") vs;
  sy_type : l_type ls = if mentions (kw "udp") vs then SOCK_DGRAM else SOCK_STREAM;
  sy_proxy : l_proxy_protocol ls = mentions (kw "proxy_protocol") vs;
  sy_bind : l_bind ls = mentions (kw "bind") vs || mentions (kw "reuseport") vs || begins (kw "backlog=") vs ||
              begins (kw "so_keepalive=") vs || bool_decide (sa_family x = AF_INET6) && begins (kw "ipv6only=o") vs;
  sy_backlog : o_backlog (l_options ls) =
                 last_param (kw "backlog=") (fun v => s32 (ngx_atoi v)) NGX_LISTEN_BACKLOG vs;
  sy_ipv6only : o_ipv6only (l_options ls) =
                  if bool_decide (sa_family x = AF_INET6) then last_param (kw "ipv6only=o") (same_str (kw "n")) true vs else true;
  sy_reuseport : o_reuseport (l_options ls) = mentions (kw "reuseport") vs;
  sy_keepalive : (o_so_keepalive (l_options ls) =? 0) = negb (begins (kw "so_keepalive=") vs);
}.

(** The parameters read so far. *)
Definition listen_read k x p wild vs a : Prop :=
  listen_says k x p wild vs (la_opt a) /\ la_backlog a = begins (kw "backlog=") vs.

Lemma so_keepalive_set v o :
  let '(o', good) := so_keepalive v o in
  (good = true -> (o_so_keepalive o' =? 0) = false) /\
  o_ipv6only o' = o_ipv6only o /\ o_reuseport o' = o_reuseport o /\ o_backlog o' = o_backlog o.
Proof.
  unfold so_keepalive, keepalive_times, keep_part. repeat case_match; simplify_eq; done.
Qed.

(** Compares the word [v], which begins with the keyword [k0], with all keywords. *)
Ltac compare_word k0 v :=
  let Hp := match goal with E : k0 `prefix_of` v |- _ => E end in
  let Hin := fresh in let Hb := fresh in let Hm := fresh in
  assert (Hin : k0 ∈ listen_keywords) by solve_keyword listen_keywords;
  pose proof (begins_all listen_keywords k0 v Hin Hp) as Hb;
  pose proof (mentions_all listen_keywords k0 v Hin Hp) as Hm;
  unfold listen_keywords in Hb, Hm; rewrite !Forall_cons in Hb, Hm; destruct_and!; clear Hin;
  repeat match goal with
    | E : bool_decide (_ `prefix_of` v) = bool_decide (?x = k0) |- _ =>
        let b := eval vm_compute in (bool_decide (x = k0)) in
        change (bool_decide (x = k0)) with b in E
    | E : bool_decide (?x = k0) = false -> ?P |- _ =>
        let b := eval vm_compute in (bool_decide (x = k0)) in
        lazymatch b with
        | false => specialize (E eq_refl)
        | true => clear E
        end
    end.

(** The fields after the word [v], by what [compare_word] found. *)
Ltac read_fields :=
  split; [split|]; cbn;
  rewrite ?begins_snoc, ?mentions_snoc, ?last_param_snoc;
  repeat match goal with E : bool_decide _ = _ |- _ => rewrite E end;
  rewrite ?orb_false_r, ?orb_true_r, ?orb_true_l, ?andb_true_r; cbn; try done; try congruence.

Ltac flag_case E v k0 :=
  apply (flag_word listen_keywords) in E as [Heq E]; [|solve_keyword listen_keywords|done];
  compare_word k0 v; pose proof (bool_decide_eq_true_2 (k0 = v) (eq_sym Heq)).

Ltac value_case E v k0 :=
  apply (starts_keyword listen_keywords) in E; [|solve_keyword listen_keywords]; compare_word k0 v.

Lemma listen_param_read k x p wild vs a v a' :
  is_word_text v -> listen_read k x p wild vs a -> listen_param a v = (a', true) ->
  listen_read k x p wild (vs ++ [v]) a'.
Proof.
  intros Hv [[Ha Hp Hw Hc Hn Hty Hpp Hbi Hba H6 Hre Hka] Hback] Hrun. unfold listen_param in Hrun.
  destruct (same_str (kw "udp") v) eqn:E; [flag_case E v (kw "udp"); injection Hrun as <-; by read_fields|].
  clear E. destruct (same_str (kw "bind") v) eqn:E; [flag_case E v (kw "bind"); injection Hrun as <-; by read_fields|].
  clear E. destruct (starts (kw "backlog=") v) eqn:E.
  { value_case E v (kw "backlog="). lazymatch type of Hrun with context [if ?b then _ else _] => destruct b end; [done|].
    injection Hrun as <-. by read_fields. }
  clear E. destruct (starts (kw "ipv6only=o") v) eqn:E.
  { value_case E v (kw "ipv6only=o"). rewrite Ha in Hrun. destruct (bool_decide (sa_family x = AF_INET6)) eqn:Hf.
    - destruct (same_str (kw "n") (drop 10 v)) eqn:En; [injection Hrun as <-; by read_fields|].
      destruct (same_str (kw "ff") (drop 10 v)); [|done]. injection Hrun as <-. by read_fields.
    - injection Hrun as <-. rewrite andb_false_l, orb_false_r in Hbi. by read_fields. }
  clear E. destruct (same_str (kw "reuseport") v) eqn:E;
    [flag_case E v (kw "reuseport"); injection Hrun as <-; by read_fields|].
  clear E. destruct (same_str (kw "noise") v) eqn:E; [flag_case E v (kw "noise"); injection Hrun as <-; by read_fields|].
  clear E. destruct (starts (kw "so_keepalive=") v) eqn:E.
  { value_case E v (kw "so_keepalive="). pose proof (so_keepalive_set (drop 13 v) (l_options (la_opt a))) as Hset.
    destruct (so_keepalive _ _) as [o good]. destruct good; [|done]. destruct Hset as (Hk & Ho6 & Hor & Hob).
    injection Hrun as <-. read_fields. by rewrite Hk. }
  clear E. destruct (same_str (kw "proxy_protocol") v) eqn:E; [|done].
  flag_case E v (kw "proxy_protocol"). injection Hrun as <-. by read_fields.
Qed.
Lemma listen_params_read k x p wild ws : forall vs a a',
  Forall is_word_text ws -> listen_read k x p wild vs a -> listen_params a ws = (a', true) ->
  listen_read k x p wild (vs ++ ws) a'.
Proof.
  induction ws as [|v ws IH]; intros vs a a' Hw Hr Hrun; cbn [listen_params] in Hrun.
  - injection Hrun as <-. by rewrite app_nil_r.
  - apply Forall_cons in Hw as [Hv Hw]. destruct (listen_param a v) as [a1 good] eqn:Ha. destruct good; [|done].
    apply listen_param_read with (k := k) (x := x) (p := p) (wild := wild) (vs := vs) in Ha; [|done..].
    specialize (IH (vs ++ [v]) a1 a' Hw Ha Hrun). by rewrite <- app_assoc in IH.
Qed.

Lemma new_listen_read k u :
  listen_read k (u_sockaddr u).1 (u_sockaddr u).2 (u_wildcard u) [] (ListenArgs (new_listen k u) false).
Proof. split; [split|]; try done; cbn; by destruct (bool_decide _). Qed.

(** Whatever the parameters, and whether they are good, the address stays. *)
Lemma listen_param_pair a v :
  let ls := la_opt (listen_param a v).1 in
  l_addr ls = l_addr (la_opt a) /\ l_port ls = l_port (la_opt a) /\ l_ctx ls = l_ctx (la_opt a) /\
  l_wildcard ls = l_wildcard (la_opt a).
Proof. unfold listen_param. cbv zeta. repeat case_match; simplify_eq; done. Qed.
End Listen.

(** ** An address is listened on once *)

(** The unspecified address of a family. *)
Definition is_any (x : inet_addr) : bool :=
  match x with In4 a => a =? 0 | In6 a => bool_decide (a = replicate 16 0) | Unix _ => false end.

(** A URL to listen on is a wildcard when its address is unspecified. *)
Class NgxListenLaws (W : Type) `{NgxParse W} : Prop :=
  parse_listen_ok u w u' w' : u_listen u = true -> ngx_parse_url u w = (NGX_OK, u', w') ->
    u_wildcard u' = is_any (u_sockaddr u').1.

Definition pair_of (ls : listen_opt nat) : Z * inet_addr * Z := (l_type ls, l_addr ls, l_port ls).

Record listens_ok (l : list (listen_opt nat)) : Prop := {
  li_pairs : NoDup (pair_of <$> l);
  li_wild : Forall (fun ls => l_wildcard ls = is_any (l_addr ls)) l;
}.

Lemma nodup_fmap_inj {A B : Type} (f : A -> B) (l : list A) a b :
  NoDup (f <$> l) -> a ∈ l -> b ∈ l -> f a = f b -> a = b.
Proof.
  intros Hnd (i & Hi)%list_elem_of_lookup (j & Hj)%list_elem_of_lookup Hf.
  assert (i = j) as ->; [|congruence]. apply (NoDup_lookup _ _ _ (f a) Hnd); rewrite list_lookup_fmap; [by rewrite Hi|].
  by rewrite Hj, Hf.
Qed.

Lemma is_any_family x y : is_any x = true -> is_any y = true -> sa_family x = sa_family y -> x = y.
Proof.
  destruct x as [a|a|a], y as [b|b|b]; cbn; try done.
  - by intros ->%Z.eqb_eq ->%Z.eqb_eq.
  - intros ->%bool_decide_eq_true ->%bool_decide_eq_true. done.
Qed.

(** What the dispatch of connections needs of the lines of one port. *)
Lemma listens_port_ok l key : listens_ok l -> port_ok (filter (fun ls => key_of ls = key) l).
Proof.
  intros [Hp Hw]. rewrite list.Forall_forall in Hw.
  assert (Hin : forall a, a ∈ filter (fun ls => key_of ls = key) l -> key_of a = key /\ a ∈ l)
    by (intros a Ha; by apply list_elem_of_filter in Ha).
  assert (Hsame : forall a b, a ∈ filter (fun ls => key_of ls = key) l -> b ∈ filter (fun ls => key_of ls = key) l ->
    l_addr a = l_addr b -> a = b).
  { intros a b [Hka Ha]%Hin [Hkb Hb]%Hin He. apply (nodup_fmap_inj pair_of l); [done..|]. unfold pair_of.
    rewrite <- Hka in Hkb. injection Hkb as _ Ht Hpo. by rewrite He, Ht, Hpo. }
  split.
  - apply NoDup_filter. by eapply NoDup_fmap_1.
  - intros a b Ha Hb Hwa Hwb. apply Hsame; [done..|]. destruct (Hin a Ha) as [Hka Hla], (Hin b Hb) as [Hkb Hlb].
    apply is_any_family; [by rewrite <- (Hw a Hla)|by rewrite <- (Hw b Hlb)|]. rewrite <- Hka in Hkb.
    by injection Hkb as Hf _ _.
  - intros x a b Ha Hb [_ Hx%bool_decide_eq_true]%andb_true_iff [_ He%bool_decide_eq_true]%andb_true_iff.
    apply Hsame; [done..|congruence].
Qed.

Lemma listens_ok_nil : listens_ok [].
Proof. split; [apply NoDup_nil_2|apply Forall_nil_2]. Qed.

Section Pairs.
Context {H T I L R W : Type} {PO : NgxPool W} {NP : NgxParse W} {NL : NgxListenLaws W} {CC : NgxConfCore L R W}
  {CCL : NgxConfCoreLaws L R W}.
Implicit Types (s : cfg H T I L R W) (k : nat) (ls : listen_opt nat).

Lemma same_pair_spec ls als : same_pair ls als = true <-> pair_of als = pair_of ls.
Proof.
  unfold same_pair, pair_of. rewrite andb_true_iff, !Z.eqb_eq, cmp_sockaddr_ok. split.
  - intros [-> Hp]. by injection Hp as -> ->.
  - intros Hp. by injection Hp as -> -> ->.
Qed.

Lemma listens_ok_snoc l ls :
  listens_ok l -> l_wildcard ls = is_any (l_addr ls) -> existsb (same_pair ls) l = false -> listens_ok (l ++ [ls]).
Proof.
  intros [Hp Hw] Hls Hex. split; [|by apply Forall_app; split; [|by apply Forall_singleton]].
  rewrite fmap_app. apply list.NoDup_app. split_and!; [done| |by apply NoDup_singleton].
  intros x (als & -> & Hin)%list_elem_of_fmap Heq%list_elem_of_singleton.
  assert (Ht : existsb (same_pair ls) l = true); [|congruence].
  apply existsb_exists. exists als. split; [by apply list_elem_of_In|by apply same_pair_spec].
Qed.

(** What the URL of a line is taken for. *)
Definition listen_url (value : list Z) s : url :=
  (ngx_parse_url (no_url <| u_url := value |> <| u_listen := true |>) (g_world s)).1.2.

(** The line added its entry: the last of the list, for the address and port of its URL. *)
Definition listened k value vs s s' : Prop :=
  exists ls, let u := listen_url value s in
    cm_listen (g_main s') = cm_listen (g_main s) ++ [ls] /\
    listen_says k (u_sockaddr u).1 (u_sockaddr u).2 (is_any (u_sockaddr u).1) vs ls /\
    (l_type ls = SOCK_DGRAM -> l_noise_on ls = false /\ l_proxy_protocol ls = false /\
       begins (kw "backlog=") vs = false /\ begins (kw "so_keepalive=") vs = false).

(** Nothing else of the configuration changes but the mark of the server. *)
Definition only_listens k (c : core_srv L R) s s' : Prop :=
  g_ctxs s' = alter (fun ctx => <[slot_index (core_srv L R) := SlotConf (CoreSlot (c <| cs_listen := true |>))]> ctx) k (g_ctxs s) /\
  g_upstreams s' = g_upstreams s /\ cm_servers (g_main s') = cm_servers (g_main s) /\
  (g_vars s') <| vc_pool := g_world s |> = g_vars s.
Lemma listen_run k value args c s :
  slot_at s k = Some c -> args !! 1%nat = Some value -> Forall is_word_text (drop 2 args) ->
  listens_ok (cm_listen (g_main s)) ->
  wp (ngx_nsoc_core_listen k args) (fun r s' => only_listens k c s s' /\
    (r = ConfOk -> listens_ok (cm_listen (g_main s')) /\ listened k value (drop 2 args) s s')) s.
Proof.
  intros Hc Hval Hw Hok. unfold ngx_nsoc_core_listen, get_core. wp_step. apply (wp_get_slot _ c); [done|].
  wp_step. unfold put_slot at 1. wp_step. wp_step. apply (wp_mderef _ value); [done|]. wp_step.
  unfold wp at 1, on_world. cbn [g_world]. change (g_world (s <| g_ctxs ::= _ |>)) with (g_world s).
  unfold listened, listen_url. destruct (ngx_parse_url _ (g_world s)) as [[rc u] w] eqn:Hu. cbv beta iota.
  assert (Honly : forall s', g_ctxs s' = alter (fun ctx => <[slot_index (core_srv L R) := SlotConf (slot_in (c <| cs_listen := true |>))]> ctx) k (g_ctxs s) ->
    g_upstreams s' = g_upstreams s -> cm_servers (g_main s') = cm_servers (g_main s) ->
    (g_vars s') <| vc_pool := g_world s |> = g_vars s -> only_listens k c s s') by (intros; by split_and!).
  destruct (Z.eqb_spec rc NGX_OK) as [->|]; cbn [negb].
  2:{ wp_step. split; [|done]. apply Honly; try done. by destruct s, g_vars. }
  wp_step. apply wp_conf_object. intros [|] w2; cbn [negb].
  2:{ wp_step. split; [|done]. apply Honly; try done. by destruct s, g_vars. }
  do 2 wp_step. cbn [cm_listen g_main]. destruct (listen_params _ _) as [a good] eqn:Ha. wp_step. wp_step.
  match goal with |- wp _ _ ?st => set (s' := st) end.
  assert (Ho : only_listens k c s s') by (apply Honly; try done; by destruct s, g_vars).
  destruct good; cbn [negb]; [|by wp_step]. destruct (udp_conflict a) eqn:Hudp; [by wp_step|].
  match goal with |- context [existsb ?f ?l] => change l with (cm_listen (g_main s)); destruct (existsb f _) eqn:Hex end;
    [by wp_step|].
  wp_step. split; [done|]. intros _. cbn [fst snd].
  pose proof (listen_params_read k _ _ _ (drop 2 args) [] _ a Hw (new_listen_read k u) Ha) as [Hsay Hback].
  cbn [app] in Hsay, Hback. apply parse_listen_ok in Hu; [|done]. rewrite Hu in Hsay. split.
  - apply (listens_ok_snoc (cm_listen (g_main s)) (la_opt a) Hok); [|done].
    by rewrite (sy_wildcard _ _ _ _ _ _ Hsay), (sy_addr _ _ _ _ _ _ Hsay).
  - exists (la_opt a). split_and!; [done|done|]. intros Hty. unfold udp_conflict in Hudp. rewrite Hty in Hudp.
    cbn [negb Z.eqb] in Hudp. rewrite <- Hback. pose proof (sy_keepalive _ _ _ _ _ _ Hsay) as Hka.
    repeat case_match; try done. split_and!; try done.
    match goal with E : negb (_ =? 0) = false |- _ => apply negb_false_iff in E; rewrite E in Hka end.
    by destruct (begins (kw "so_keepalive=") _).
Qed.

End Pairs.

(** ** The settings of an accepted server *)

Section Merge.
Context {H T I L R W : Type} {PO : NgxPool W} {NP : NgxParse W} {CC : NgxConfCore L R W} {CM : NgxConfMerge}
  {CML : NgxConfMergeLaws}.
Implicit Types (s : cfg H T I L R W) (k : nat) (p c : core_srv L R).

(** [c'] is what [c] becomes in a block whose own settings are [p]. *)
Record core_complete p c c' : Prop := {
  co_handler : cs_handler c' = cs_handler c /\ is_Some (cs_handler c');
  co_resolver : is_Some (cs_resolver c');
  co_error_log : inherits is_unset (cs_error_log c) (cs_error_log p) (Some new_log) (cs_error_log c');
  co_resolver_timeout : inherits (Z.eqb NGX_CONF_UNSET_MSEC) (cs_resolver_timeout c) (cs_resolver_timeout p) 30000
    (cs_resolver_timeout c');
  co_tcp_nodelay : inherits (Z.eqb NGX_CONF_UNSET) (cs_tcp_nodelay c) (cs_tcp_nodelay p) 1 (cs_tcp_nodelay c');
  co_preread_size : inherits (Z.eqb NGX_CONF_UNSET_SIZE) (cs_preread_buffer_size c) (cs_preread_buffer_size p)
    NOISE_PROTOCOL_PAYLOAD_SIZE (cs_preread_buffer_size c');
  co_preread_max : cs_preread_buffer_size c' <= NOISE_PROTOCOL_PAYLOAD_SIZE;
  co_preread_timeout : inherits (Z.eqb NGX_CONF_UNSET_MSEC) (cs_preread_timeout c) (cs_preread_timeout p) 30000
    (cs_preread_timeout c');
}.

(** The configurations of two contexts after the merge: the outer one may have got a
    resolver. *)
Definition core_merged (prev conf : nat) p c s (r : conf_answer) s' : Prop :=
  frame [(prev, core_index); (conf, core_index)] s s' /\
  exists p' c', slot_at s' prev = Some p' /\ slot_at s' conf = Some c' /\ p' <| cs_resolver := cs_resolver p |> = p /\
    (r = ConfOk -> core_complete p c c').

Lemma core_merge_run prev conf p c s :
  prev <> conf -> slot_at s prev = Some p -> slot_at s conf = Some c ->
  wp (ngx_nsoc_core_merge_srv_conf prev conf) (core_merged prev conf p c s) s.
Proof.
  intros Hne Hp Hc. unfold ngx_nsoc_core_merge_srv_conf, get_core, core_merged.
  set (t := [(prev, core_index); (conf, core_index)]).
  assert (Hfail : forall p' c' s', frame t s s' -> slot_at s' prev = Some p' -> slot_at s' conf = Some c' ->
    p' <| cs_resolver := cs_resolver p |> = p ->
    frame t s s' /\ exists p' c', slot_at s' prev = Some p' /\ slot_at s' conf = Some c' /\
      p' <| cs_resolver := cs_resolver p |> = p /\ (ConfError = ConfOk -> core_complete p c c'))
    by (intros p' c' s' ? ? ? ?; split; [done|]; exists p', c'; by split_and!).
  assert (Hpp : p <| cs_resolver := cs_resolver p |> = p) by (by destruct p).
  wp_step. apply (wp_get_slot _ p); [done|]. wp_step. apply (wp_get_slot _ c); [done|].
  set (c1 := c <| cs_resolver_timeout := _ |>). wp_step.
  apply (wp_put_slot t _ _ c _ s); [apply frame_refl|touched|done|]. intros s1 Hf1 Hc1 Ho1.
  assert (Hp1 : slot_at s1 prev = Some p) by (by rewrite Ho1). wp_step.
  apply (wp_mono _ (fun _ s2 => frame t s s2 /\ slot_at s2 conf = Some c1 /\ exists p2, slot_at s2 prev = Some p2 /\
    p2 <| cs_resolver := cs_resolver p |> = p)).
  { destruct (cs_resolver c1); [wp_step; by eauto|]. destruct (cs_resolver p) eqn:Hr; [wp_step; by eauto|].
    wp_step. apply (wp_on_world_frame t _ _ s); [done|]. apply wp_answer. intros r w s2 Hf2 Hs2. wp_step.
    assert (Hslots : forall k, slot_at (X:=core_srv L R) s2 k = slot_at s1 k) by (intros k; unfold slot_at; by rewrite Hs2).
    apply (wp_put_slot t _ _ p _ s); [done|touched|by rewrite Hslots|]. intros s3 Hf3 Hp3 Ho3. wp_step.
    split_and!; [done|by rewrite Ho3, Hslots|]. eexists. split; [done|]. by destruct p. }
  intros r s2 (Hf2 & Hc2 & p2 & Hp2 & Hpe). destruct r as [r|]; [|by apply (Hfail p2 c1)]. cbv zeta.
  wp_step. apply (wp_put_slot t _ _ c1 _ s); [done|touched|done|]. intros s3 Hf3 Hc3 Ho3.
  assert (Hp3 : slot_at s3 prev = Some p2) by (by rewrite Ho3).
  destruct (cs_handler _) eqn:Hh; [|wp_step; by eapply Hfail]. cbn in Hh.
  wp_step. eapply (wp_put_slot t _ _ _ _ s); [done|touched|done|]. intros s4 Hf4 Hc4 Ho4.
  assert (Hp4 : slot_at s4 prev = Some p2) by (by rewrite Ho4).
  destruct (_ <? _) eqn:Hmax; [wp_step; by eapply Hfail|].
  wp_step. eapply (wp_put_slot t _ _ _ _ s); [done|touched|done|]. intros s5 Hf5 Hc5 Ho5. wp_step.
  split; [done|]. exists p2. eexists. split_and!; [by rewrite Ho5|exact Hc5|done|]. intros _.
  split; cbn; try apply merge_inherits; [by rewrite Hh|by eexists| |by apply Z.ltb_ge in Hmax].
  unfold inherits. by destruct (cs_error_log c), (cs_error_log p).
Qed.

(** C22: [ngx_nsoc_core_merge_srv_conf] gives a server that it accepts every setting: what its
    own lines set, else what the lines of the block set, else the default; a resolver and a
    log are there, there is a content handler, and the preread buffer is no larger than the
    payload of a Noise message.  It touches the two configurations it is given only, and of
    the block's the resolver only. *)
Theorem core_merge_completes prev conf p c s
    (Hne : prev <> conf) (Hp : slot_at s prev = Some p) (Hc : slot_at s conf = Some c) :
  wp (ngx_nsoc_core_merge_srv_conf prev conf) (core_merged prev conf p c s) s.
Proof. by apply core_merge_run. Qed.
End Merge.
