(* ===== verification/ProxyConf.v ===== *)
(** * The directives of the proxy: the configuration part of ngx_nsoc_proxy_module.c

    The settings of a proxied server, what they become when the block is complete, and
    the directives [proxy_pass] and [proxy_bind].  The Noise settings that an enabled
    [proxy_noise] asks for are made by [ngx_nsoc_proxy_set_noiselink] (NoiseServer).

    [proxy_conf_of] and [start_conf_of] are the settings as Proxy and Start read them.
    [proxy_pass_names] says what a [proxy_pass] line stores; [proxy_merge_completes] what an
    accepted server has. *)

From stdpp Require Import prelude list numbers gmap strings.
From S2P Require Import Prelude RoundRobin KeyFiles NoiseConn Session NoiseServer Ports Variables CoreVars.
From S2P Require Import Script Directive Upstream UpTable Proxy Start Conf CoreConf.

Definition NGX_MAX_INT32_VALUE : Z := 2 ^ 31 - 1.

Section ProxyConf.
Context {H T I L R W : Type} {PO : NgxPool W} {NS : NgxStr} {NH : NgxHash T} {NP : NgxParse W} {CM : NgxConfMerge}.
Abbreviation GM := (M (cfg H T I L R W)).
Implicit Types (s : cfg H T I L R W) (k : nat) (c : proxy_srv).

(** What compiling a template and making Noise settings need. *)
Context (uninit : variable H) (ngx_conf_full_name : list Z -> bool -> option (list Z)).
Context (fopen : list Z -> option (list Z)) (behind : W -> list Z) (ids : noise_ids).

(** [pscf] of a context. *)
Definition get_proxy k : GM proxy_srv := get_slot k.

(** ** Settings *)

Definition ngx_nsoc_proxy_create_srv_conf : M W (option proxy_srv) :=
  ok ← (fun w => Done (pool_object w));
  mret (if (ok : bool)
        then Some (ProxySrv NGX_CONF_UNSET_MSEC NGX_CONF_UNSET_MSEC NGX_CONF_UNSET_SIZE NGX_CONF_UNSET_SIZE
                     NGX_CONF_UNSET_UINT NGX_CONF_UNSET_UINT NGX_CONF_UNSET None NGX_CONF_UNSET
                     (ProxyNoiseConf None NGX_CONF_UNSET_SIZE NGX_CONF_UNSET_MSEC None None) None None)
        else None).

(** The part of the merge before the size of the buffer is tested, and the part behind. *)
Definition merge_sizes (p c : proxy_srv) : proxy_srv :=
  let lp := pv_link p in let lc := pv_link c in
  c <| pv_link := lc <| p_connect_timeout :=
                          conf_merge (Z.eqb NGX_CONF_UNSET_MSEC) (p_connect_timeout lc) (p_connect_timeout lp) 60000 |>
                     <| p_buffer_size :=
                          conf_merge (Z.eqb NGX_CONF_UNSET_SIZE) (p_buffer_size lc) (p_buffer_size lp)
                            NOISE_PROTOCOL_PAYLOAD_SIZE |> |>
    <| pv_timeout := conf_merge (Z.eqb NGX_CONF_UNSET_MSEC) (pv_timeout c) (pv_timeout p) (10 * 60000) |>
    <| pv_next_upstream_timeout :=
         conf_merge (Z.eqb NGX_CONF_UNSET_MSEC) (pv_next_upstream_timeout c) (pv_next_upstream_timeout p) 0 |>.

Definition merge_rest (p c : proxy_srv) : proxy_srv :=
  let lp := pv_link p in let lc := pv_link c in
  c <| pv_upload_rate := conf_merge (Z.eqb NGX_CONF_UNSET_SIZE) (pv_upload_rate c) (pv_upload_rate p) 0 |>
    <| pv_download_rate := conf_merge (Z.eqb NGX_CONF_UNSET_SIZE) (pv_download_rate c) (pv_download_rate p) 0 |>
    <| pv_responses := conf_merge (Z.eqb NGX_CONF_UNSET_UINT) (pv_responses c) (pv_responses p) NGX_MAX_INT32_VALUE |>
    <| pv_next_upstream_tries :=
         conf_merge (Z.eqb NGX_CONF_UNSET_UINT) (pv_next_upstream_tries c) (pv_next_upstream_tries p) 0 |>
    <| pv_next_upstream := conf_merge (Z.eqb NGX_CONF_UNSET) (pv_next_upstream c) (pv_next_upstream p) 1 |>
    <| pv_local := conf_merge is_unset (pv_local c) (pv_local p) (Some None) |>
    <| pv_noise_enable := conf_merge (Z.eqb NGX_CONF_UNSET) (pv_noise_enable c) (pv_noise_enable p) 0 |>
    <| pv_link := lc <| client_private_key_file :=
                          conf_merge is_unset (client_private_key_file lc) (client_private_key_file lp) (Some []) |>
                     <| server_public_key_file :=
                          conf_merge is_unset (server_public_key_file lc) (server_public_key_file lp) (Some []) |> |>.

Definition ngx_nsoc_proxy_merge_srv_conf (prev conf : nat) : GM conf_answer :=
  p ← get_proxy prev;
  c ← get_proxy conf;
  let c := merge_sizes p c in
  put_slot conf c;;
  if NOISE_PROTOCOL_PAYLOAD_SIZE <? p_buffer_size (pv_link c) then mret ConfError else
  let c := merge_rest p c in
  put_slot conf c;;
  if pv_noise_enable c =? 0 then mret ConfOk else
  '(rc, link) ← on_world (ngx_nsoc_proxy_set_noiselink fopen behind ids (pv_link c));
  put_slot conf (c <| pv_link := link |>);;
  mret (if rc =? NGX_OK then ConfOk else ConfError).

(** ** Directives *)

Definition compile_value (v : list Z) : GM (option complex_value) :=
  on_vars (ngx_nsoc_compile_complex_value uninit ngx_conf_full_name (CompileArgs v false false false)).

(** A value with references is compiled; one without names an upstream. *)
Definition ngx_nsoc_proxy_pass k (args : list (list Z)) : GM conf_answer :=
  c ← get_proxy k;
  match pv_upstream c, pv_upstream_value c with
  | None, None =>
      cscf ← get_core k;
      put_slot k (cscf <| cs_handler := Some ngx_nsoc_proxy_handler_fn |>);;
      value ← mderef (args !! 1%nat);
      r ← compile_value value;
      match r with
      | None => mret ConfError
      | Some cv =>
          match cv_lengths cv with
          | Some _ =>
              ok ← conf_object;
              if negb ok then mret ConfError else
              put_slot k (c <| pv_upstream_value := Some cv |>);;
              mret ConfOk
          | None =>
              u ← on_ups (ngx_nsoc_upstream_add (no_url <| u_url := value |> <| u_no_resolve := true |>) 0);
              put_slot k (c <| pv_upstream := u |>);;
              mret (match u with None => ConfError | Some _ => ConfOk end)
          end
      end
  | _, _ => mret ConfDuplicate
  end.

(** The value of [proxy_bind]: a template, or an address.  The pointer in the settings is
    that of [local], which is filled step by step. *)
Definition bind_value k c (local : upstream_local) (cv : complex_value) (value : list Z)
    : GM (option upstream_local) :=
  ok ← conf_object;
  if negb ok then mret None else
  match cv_lengths cv with
  | Some _ =>
      let local := local <| lo_value := Some cv |> in
      put_slot k (c <| pv_local := Some (Some local) |>);;
      mret (Some local)
  | None =>
      '(rc, a) ← on_world (fun w => let '(rc, a, w) := ngx_parse_addr_port value w in Done ((rc, a), w));
      let a := if rc =? NGX_OK then Addr (ad_sockaddr a) (ad_socklen a) value else a in
      let local := local <| lo_addr := Some a |> in
      put_slot k (c <| pv_local := Some (Some local) |>);;
      mret (if rc =? NGX_OK then Some local else None)
  end.

Definition ngx_nsoc_proxy_bind k (args : list (list Z)) : GM conf_answer :=
  c ← get_proxy k;
  match pv_local c with
  | Some _ => mret ConfDuplicate
  | None =>
      value ← mderef (args !! 1%nat);
      if (length args =? 2)%nat && same_str (kw "off") value then
        put_slot k (c <| pv_local := Some None |>);;
        mret ConfOk
      else
        r ← compile_value value;
        match r with
        | None => mret ConfError
        | Some cv =>
            ok ← conf_object;
            if negb ok then mret ConfError else
            let local := UpstreamLocal None None false in
            put_slot k (c <| pv_local := Some (Some local) |>);;
            o ← bind_value k c local cv value;
            match o with
            | None => mret ConfError
            | Some local =>
                match args !! 2%nat with
                | None => mret ConfOk
                | Some word =>
                    if same_str (kw "transparent") word then
                      put_slot k (c <| pv_local := Some (Some (local <| lo_transparent := true |>)) |>);;
                      mret ConfOk
                    else mret ConfError
                end
            end
        end
  end.
End ProxyConf.

(** ** The settings as the proxy reads them *)

(** [nodelay] is [tcp_nodelay] of the core module's settings. *)
Definition proxy_conf_of (nodelay : Z) (c : proxy_srv) : proxy_conf :=
  ProxyConf (p_connect_timeout (pv_link c)) (pv_timeout c) (pv_next_upstream_timeout c) (p_buffer_size (pv_link c))
    (pv_upload_rate c) (pv_download_rate c) (pv_responses c) (pv_next_upstream_tries c)
    (negb (pv_next_upstream c =? 0)) (p_noise (pv_link c)) (negb (nodelay =? 0)).

Definition start_conf_of (c : proxy_srv) : start_conf :=
  StartConf (pv_upstream c) (pv_upstream_value c) (pv_local c ≫= id).

(** ** Compiling a value leaves the names of the variables alone *)

Section CompileStill.
Context {H T W : Type} {PO : NgxPool W} {NS : NgxStr} {NH : NgxHash T}.
Context (uninit : variable H) (ngx_conf_full_name : list Z -> bool -> option (list Z)).

(** All but the indexed variables. *)
Definition names_part (c : vconf H T W) :=
  (variables_keys c, named_variables c, prefix_variables c, variables_hash c).

Abbreviation in_names := (fun s : script_compile H T W => names_part (sc_cf s)).

Lemma still_conf_alloc : still names_part (@conf_alloc H T W PO).
Proof. unfold conf_alloc. solve_still. Qed.
#[local] Hint Resolve still_conf_alloc : still.

Lemma still_get_index name : still names_part (ngx_nsoc_get_variable_index uninit name).
Proof. unfold ngx_nsoc_get_variable_index. solve_still. Qed.
#[local] Hint Resolve still_get_index : still.

Lemma still_on_cf {A} (m : M (vconf H T W) A) : still names_part m -> still in_names (on_cf m).
Proof.
  intros Hm s. unfold wlp, on_cf. specialize (Hm (sc_cf s)). unfold wlp in Hm. by destruct (m _) as [[a c]| |].
Qed.
#[local] Hint Resolve still_on_cf : still.

Lemma still_sc_alloc : still in_names (@sc_alloc H T W PO).
Proof. unfold sc_alloc. auto with still. Qed.
#[local] Hint Resolve still_sc_alloc : still.

Lemma still_add_code arr size c : still in_names (ngx_nsoc_script_add_code (H:=H) (T:=T) (W:=W) arr size c).
Proof. unfold ngx_nsoc_script_add_code. solve_still. Qed.
#[local] Hint Resolve still_add_code : still.

Lemma still_add_codes ls lc vs vc : still in_names (add_codes (H:=H) (T:=T) (W:=W) ls lc vs vc).
Proof. unfold add_codes. solve_still. Qed.
#[local] Hint Resolve still_add_codes : still.

Lemma still_push_flush i : still in_names (push_flush (H:=H) (T:=T) (W:=W) i).
Proof. unfold push_flush. solve_still. Qed.
#[local] Hint Resolve still_push_flush : still.

Lemma still_copy_code v b : still in_names (ngx_nsoc_script_add_copy_code (H:=H) (T:=T) (W:=W) v b).
Proof. unfold ngx_nsoc_script_add_copy_code. solve_still. Qed.
#[local] Hint Resolve still_copy_code : still.

Lemma still_compile_step rest : still in_names (compile_step uninit rest).
Proof.
  unfold compile_step, compile_variable, ngx_nsoc_script_add_capture_code, ngx_nsoc_script_add_var_code. solve_still.
Qed.
#[local] Hint Resolve still_compile_step : still.

Lemma still_compile_loop fuel : forall rest, still in_names (compile_loop uninit fuel rest).
Proof. induction fuel; intros [|ch rest]; cbn [compile_loop]; solve_still. Qed.
#[local] Hint Resolve still_compile_loop : still.

Lemma still_script_compile : still in_names (@ngx_nsoc_script_compile H T W NS PO uninit).
Proof.
  unfold ngx_nsoc_script_compile, ngx_nsoc_script_init_arrays, ngx_nsoc_script_done, ngx_nsoc_script_add_full_name_code.
  solve_still.
Qed.

Lemma still_compile_value ccv : still names_part (ngx_nsoc_compile_complex_value uninit ngx_conf_full_name ccv).
Proof.
  unfold ngx_nsoc_compile_complex_value. destruct (count_refs _) as [nv nc]. cbv zeta.
  match goal with |- still _ (match ?x with _ => _ end) => destruct x as [[[v cp] rp]|] end; [|solve_still].
  destruct (_ && _); [solve_still|]. do 3 (apply still_bind; [auto with still|intros []]; cbn [negb]; [|solve_still]).
  apply still_state. intros c. destruct (ngx_nsoc_script_compile _ _) as [[rc sc]| |] eqn:Hrun; [|done..].
  apply (still_done _ _ _ _ _ still_script_compile) in Hrun. cbn in Hrun.
  apply wlp_bind, wlp_modify. rewrite <- Hrun.
  match goal with |- wlp ?m _ _ => assert (Hm : still names_part m) by solve_still end. apply Hm.
Qed.
End CompileStill.

(** ** What [proxy_pass] and [proxy_bind] store *)

Section Directives.
Context {H T I L R W : Type} {PO : NgxPool W} {NS : NgxStr} {NSL : NgxStrLaws} {NH : NgxHash T} {NP : NgxParse W}
  {NPL : NgxParseLaws W}.
Context (uninit : variable H) (ngx_conf_full_name : list Z -> bool -> option (list Z)).
Implicit Types (s : cfg H T I L R W) (k : nat) (c : proxy_srv).

(** A template of the configuration, compiled with the variables there are. *)
Definition compiled (value : list Z) (cv : complex_value) s : Prop :=
  exists ts, template value ts /\ compiled_value (indexed (g_vars s)) value ts cv.

Lemma compile_value_run value s :
  indexed_ok (indexed (g_vars s)) ->
  wp (compile_value uninit ngx_conf_full_name value) (fun r s' => exists v, s' = s <| g_vars := v |> /\
    names_part v = names_part (g_vars s) /\
    (forall cv, r = Some cv -> indexed_ok (indexed v) /\ compiled value cv s')) s.
Proof.
  intros Hix. unfold compile_value. apply wp_on_vars.
  destruct (wp_done _ _ _ (compile_value_ok uninit ngx_conf_full_name value (g_vars s) Hix)) as (r & v & Hrun & Hr).
  eapply done_wp; [exact Hrun|]. exists v. split_and!; [done| |].
  - exact (still_done _ _ _ _ _ (still_compile_value uninit ngx_conf_full_name _) Hrun).
  - intros cv ->. destruct Hr as (ts & Ht & Hix' & Hc). split; [done|]. by exists ts.
Qed.

(** What a directive of the proxy leaves alone. *)
Record proxy_step (t : list (nat * nat)) s s' : Prop := {
  ps_ctx : ctx_frame t s s';
  ps_main : g_main s' = g_main s;
  ps_names : names_part (g_vars s') = names_part (g_vars s);
}.

(** The tables that the directives of the proxy extend. *)
Record tables_ok s : Prop := {
  tb_indexed : indexed_ok (indexed (g_vars s));
  tb_ups : table_ok (g_upstreams s);
  tb_entries : entries_ok (g_upstreams s);
}.

(** The URL of a [proxy_pass] without references, in some world. *)
Definition pass_url (value : list Z) (u : url) : Prop :=
  exists w : W, u = (ngx_parse_url (no_url <| u_url := value |> <| u_no_resolve := true |>) w).1.2.

(** The settings after the line: a compiled template, or an upstream of the URL. *)
Definition passes_to (value : list Z) c c' s' : Prop :=
  (exists cv, c' = c <| pv_upstream_value := Some cv |> /\ compiled value cv s' /\ cv_lengths cv <> None) \/
  (exists i x u, c' = c <| pv_upstream := Some i |> /\ g_upstreams s' !! i = Some x /\ pass_url value u /\ names u x /\
     (u_no_port u = true -> u_port u = 0) /\ exists ts, template value ts /\ var_count ts = 0 /\ cap_count ts = 0).

Definition passed k value (cs : core_srv L R) c s (r : conf_answer) s' : Prop :=
  proxy_step [(k, core_index); (k, proxy_index)] s s' /\
  (length (g_upstreams s) <= length (g_upstreams s'))%nat /\
  (r = ConfOk -> tables_ok s' /\ pv_upstream c = None /\ pv_upstream_value c = None /\
     slot_at s' k = Some (cs <| cs_handler := Some ngx_nsoc_proxy_handler_fn |>) /\
     exists c', slot_at s' k = Some c' /\ passes_to value c c' s').

(** The store of where to pass to, behind the content handler. *)
Lemma wp_put_target k (cs : core_srv L R) c c' (Q : unit -> cfg H T I L R W -> Prop) s0 s :
  proxy_step [(k, core_index); (k, proxy_index)] s0 s -> slot_at s k = Some cs -> slot_at s k = Some c ->
  (forall s', proxy_step [(k, core_index); (k, proxy_index)] s0 s' -> g_vars s' = g_vars s ->
     g_upstreams s' = g_upstreams s -> slot_at s' k = Some cs -> slot_at s' k = Some c' -> Q tt s') ->
  wp (put_slot k c') Q s.
Proof.
  intros [Hf Hm Hn] Hcs Hc HQ. apply (wp_put _ _ c); [done|]. intros s' Hs' Hc'. apply HQ; [|by rewrite Hs'..| |done].
  - split; [|by rewrite Hs'..]. eapply ctx_frame_trans; [exact Hf|]. rewrite Hs'. apply ctx_frame_put. touched.
  - rewrite <- Hcs. apply (ctx_frame_slot [(k, proxy_index)] s s'); [rewrite Hs'; apply ctx_frame_put; touched|].
    rewrite list_elem_of_singleton. by intros [=].
Qed.

(** Memory is taken, or the table of the upstreams grows. *)
Lemma proxy_step_same t s0 s s' :
  proxy_step t s0 s -> g_ctxs s' = g_ctxs s -> g_main s' = g_main s -> names_part (g_vars s') = names_part (g_vars s) ->
  proxy_step t s0 s'.
Proof.
  intros [Hf Hm Hn] Hc Hm' Hn'. split; [|congruence..]. eapply ctx_frame_trans; [exact Hf|by apply ctx_frame_same].
Qed.

Lemma proxy_pass_run k value args (cs : core_srv L R) c s :
  tables_ok s -> slot_at s k = Some cs -> slot_at s k = Some c -> args !! 1%nat = Some value ->
  wp (ngx_nsoc_proxy_pass uninit ngx_conf_full_name k args) (passed k value cs c s) s.
Proof.
  intros [Hix Hup Hen] Hcs Hc Hval.
  unfold ngx_nsoc_proxy_pass, get_proxy. wp_step. apply (wp_get_slot _ c); [done|].
  assert (Hrefuse : forall r, r <> ConfOk -> passed k value cs c s r s).
  { intros r Hr. split_and!; [split; [by apply ctx_frame_same|done..]|done|done]. }
  destruct (pv_upstream c) eqn:Hcu; [wp_step; by apply Hrefuse|].
  destruct (pv_upstream_value c) eqn:Hcv; [wp_step; by apply Hrefuse|].
  unfold get_core. wp_step. apply (wp_get_slot _ cs); [done|]. wp_step.
  apply (wp_put _ _ cs); [done|]. intros s1 Hs1 Hcs1. wp_step. apply (wp_mderef _ value); [done|]. wp_step.
  assert (Hf1 : ctx_frame [(k, core_index); (k, proxy_index)] s s1) by (rewrite Hs1; apply ctx_frame_put, list_elem_of_here).
  assert (Hc1 : slot_at s1 k = Some c).
  { rewrite <- Hc. apply (ctx_frame_slot [(k, core_index)] s s1); [rewrite Hs1; apply ctx_frame_put, list_elem_of_here|].
    rewrite list_elem_of_singleton. by intros [=]. }
  eapply wp_mono; [apply compile_value_run; by rewrite Hs1|]. intros r s2 (v & Hs2 & Hnames & Hr).
  assert (Hslots : forall X (SX : Slot L R X), slot_at (X:=X) s2 k = slot_at s1 k) by (intros; by rewrite Hs2).
  assert (Hstep2 : proxy_step [(k, core_index); (k, proxy_index)] s s2).
  { split; [eapply ctx_frame_trans; [exact Hf1|by apply ctx_frame_same; rewrite Hs2]|by rewrite Hs2, Hs1|].
    rewrite Hs2. cbn. by rewrite Hnames, Hs1. }
  assert (Hup2 : g_upstreams s2 = g_upstreams s) by (by rewrite Hs2, Hs1).
  rewrite <- Hslots in Hcs1, Hc1. destruct r as [cv|]; [|wp_step; split_and!; [done|by rewrite Hup2|done]].
  destruct (Hr cv eq_refl) as [Hix2 Hcomp]. replace v with (g_vars s2) in Hix2 by (by rewrite Hs2).
  clear Hr Hnames Hs2. destruct (cv_lengths cv) eqn:Hlen.
  - wp_step. apply wp_conf_object. intros ok w.
    assert (Hstep3 : proxy_step [(k, core_index); (k, proxy_index)] s (s2 <| g_vars ::= fun v => v <| vc_pool := w |> |>))
      by (by eapply proxy_step_same).
    destruct ok; cbn [negb]; [|wp_step; split_and!; [done|by cbn; rewrite Hup2|done]].
    wp_step. eapply wp_put_target; [exact Hstep3|done|done|]. intros s4 Hstep4 Hv4 Hu4 Hcs4 Hc4. wp_step.
    cbn in Hu4. rewrite Hup2 in Hu4. split_and!; [done|by rewrite Hu4|]. intros _. split_and!; try done.
    + split; rewrite ?Hv4, ?Hu4; done.
    + eexists. split; [done|]. left. exists cv. split_and!; [done| |congruence].
      destruct Hcomp as (ts & Ht & Hcval). exists ts. split; [done|]. by rewrite Hv4.
  - wp_step. apply wp_on_ups. set (u0 := no_url <| u_url := value |> <| u_no_resolve := true |>).
    eapply wp_mono; [apply (upstream_add_table 0 u0 (ups_part s2)); [by cbn; rewrite Hup2..|done]|].
    intros o us (Hadd & Hen3 & Hlen3 & _). cbn in Hlen3. rewrite Hup2 in Hlen3.
    assert (Hstep3 : proxy_step [(k, core_index); (k, proxy_index)] s (with_ups s2 us)) by (by eapply proxy_step_same).
    wp_step. eapply wp_put_target; [exact Hstep3|done|done|]. intros s4 Hstep4 Hv4 Hu4 Hcs4 Hc4. wp_step.
    split_and!; [done|by rewrite Hu4|]. intros Hok. destruct o as [i|]; [|done]. destruct Hadd as (Hup3 & _ & _ & Hadd).
    destruct (Hadd i eq_refl) as (x & Hx & Hn & Hp & _). split_and!; try done.
    + split; rewrite ?Hv4, ?Hu4; done.
    + eexists. split; [done|]. right. exists i, x, (sought 0 u0 (ups_part s2)).
      split_and!; [done|by rewrite Hu4|by exists (up_world (ups_part s2))|done|done|].
      destruct Hcomp as (ts & Ht & [(_ & _ & _ & Hcv0 & Hn0)|(ps & _ & Hps)]); [by exists ts|].
      destruct Hps as (Hps & _). congruence.
Qed.

(** The local address of a [proxy_bind] line. *)
Definition binds_to (args : list (list Z)) (value : list Z) (l : option upstream_local) s' : Prop :=
  match l with
  | None => length args = 2%nat /\ same_str (kw "off") value = true
  | Some l =>
      lo_transparent l = (if args !! 2%nat is Some _ then true else false) /\
      (forall word, args !! 2%nat = Some word -> same_str (kw "transparent") word = true) /\
      ((exists cv, lo_value l = Some cv /\ lo_addr l = None /\ compiled value cv s' /\ cv_lengths cv <> None) \/
       (exists a, lo_addr l = Some a /\ lo_value l = None /\ ad_name a = value))
  end.

Definition bound k value args c s (r : conf_answer) s' : Prop :=
  proxy_step [(k, proxy_index)] s s' /\ g_upstreams s' = g_upstreams s /\
  (r = ConfOk -> indexed_ok (indexed (g_vars s')) /\ pv_local c = None /\
     exists l, slot_at s' k = Some (c <| pv_local := Some l |>) /\ binds_to args value l s').

(** A store to the settings, in a proof that collects what changed since [s0]. *)
Lemma wp_put_proxy k (c y : proxy_srv) (Q : unit -> cfg H T I L R W -> Prop) s0 s :
  proxy_step [(k, proxy_index)] s0 s -> g_upstreams s = g_upstreams s0 -> slot_at s k = Some y ->
  (forall s', proxy_step [(k, proxy_index)] s0 s' -> g_upstreams s' = g_upstreams s0 -> slot_at s' k = Some c ->
     g_vars s' = g_vars s -> Q tt s') -> wp (put_slot k c) Q s.
Proof.
  intros [Hf Hm Hn] Hu Hy HQ. apply (wp_put _ _ y); [done|]. intros s' Hs' Hc. apply HQ; [|by rewrite Hs'|done|by rewrite Hs'].
  split; [|by rewrite Hs'..]. eapply ctx_frame_trans; [exact Hf|]. rewrite Hs'. apply ctx_frame_put. touched.
Qed.

(** A step that changes the pool only. *)
Lemma proxy_step_world t s0 s (w : W) :
  proxy_step t s0 s -> proxy_step t s0 (s <| g_vars ::= fun v => v <| vc_pool := w |> |>).
Proof. intros [Hf Hm Hn]. split; [|done..]. eapply ctx_frame_trans; [exact Hf|by apply ctx_frame_same]. Qed.

Lemma bind_value_run k c (y : proxy_srv) local cv value s0 s :
  proxy_step [(k, proxy_index)] s0 s -> g_upstreams s = g_upstreams s0 -> slot_at s k = Some y ->
  lo_value local = None -> lo_addr local = None -> compiled value cv s ->
  wp (bind_value k c local cv value) (fun o s' =>
    proxy_step [(k, proxy_index)] s0 s' /\ g_upstreams s' = g_upstreams s0 /\
    (indexed_ok (indexed (g_vars s)) -> indexed_ok (indexed (g_vars s'))) /\
    (forall l, o = Some l -> slot_at s' k = Some (c <| pv_local := Some (Some l) |>) /\
       lo_transparent l = lo_transparent local /\
       ((exists cv, lo_value l = Some cv /\ lo_addr l = None /\ compiled value cv s' /\ cv_lengths cv <> None) \/
        (exists a, lo_addr l = Some a /\ lo_value l = None /\ ad_name a = value)))) s.
Proof.
  intros Hs Hu Hy Hv Ha Hcomp. unfold bind_value. wp_step. apply wp_conf_object. intros ok w.
  destruct ok; cbn [negb]; [|wp_step; split_and!; [by apply proxy_step_world|done|done|done]].
  destruct (cv_lengths cv) eqn:Hlen.
  - wp_step. eapply (wp_put_proxy k _ y _ s0); [by apply proxy_step_world|done|done|]. intros s1 H1 H2 H3 H4. wp_step.
    split_and!; [done|done|by rewrite H4|]. intros l [= <-]. split_and!; [done|done|]. left. exists cv.
    split_and!; [done|done| |congruence]. unfold compiled. by rewrite H4.
  - wp_step. unfold wp at 1, on_world. destruct (ngx_parse_addr_port _ _) as [[rc a] w2]. cbv beta iota zeta.
    wp_step. eapply (wp_put_proxy k _ y _ s0); [by do 2 apply proxy_step_world|done|done|]. intros s1 H1 H2 H3 H4. wp_step.
    split_and!; [done|done|by rewrite H4|]. destruct (rc =? NGX_OK); [|done]. intros l [= <-].
    split_and!; [done|done|]. right. by eexists.
Qed.

Lemma proxy_bind_run k value args c s :
  indexed_ok (indexed (g_vars s)) -> slot_at s k = Some c -> args !! 1%nat = Some value ->
  wp (ngx_nsoc_proxy_bind uninit ngx_conf_full_name k args) (bound k value args c s) s.
Proof.
  intros Hix Hc Hval. unfold ngx_nsoc_proxy_bind, get_proxy. wp_step. apply (wp_get_slot _ c); [done|].
  assert (Hrefl : proxy_step [(k, proxy_index)] s s) by (split; [by apply ctx_frame_same|done..]).
  destruct (pv_local c) eqn:Hcl; [wp_step; by split_and!|].
  wp_step. apply (wp_mderef _ value); [done|].
  destruct ((length args =? 2)%nat && _) eqn:Hoff.
  { wp_step. eapply (wp_put_proxy k _ c _ s); [done..|]. intros s1 H1 H2 H3 H4. wp_step.
    split_and!; [done|done|]. intros _. split_and!; [by rewrite H4|done|]. exists None. split; [done|].
    apply andb_true_iff in Hoff as [Hl Hoff]. by apply Nat.eqb_eq in Hl. }
  wp_step. eapply wp_mono; [by apply compile_value_run|]. intros r s1 (v & Hs1 & Hnames & Hr).
  assert (Hstep1 : proxy_step [(k, proxy_index)] s s1) by (rewrite Hs1; split; [by apply ctx_frame_same|done..]).
  assert (Hu1 : g_upstreams s1 = g_upstreams s) by (by rewrite Hs1).
  assert (Hc1 : slot_at s1 k = Some c) by (by rewrite Hs1).
  destruct r as [cv|]; [|wp_step; by split_and!]. destruct (Hr cv eq_refl) as [Hix1 Hcomp].
  wp_step. apply wp_conf_object. intros ok w.
  destruct ok; cbn [negb]; [|wp_step; split_and!; [by apply proxy_step_world|done|done]]. cbv zeta.
  wp_step. eapply (wp_put_proxy k _ c _ s); [by apply proxy_step_world|done|done|]. intros s2 Hstep2 Hu2 Hc2 Hv2.
  assert (Hcomp2 : compiled value cv s2) by (unfold compiled; by rewrite Hv2).
  assert (Hix2 : indexed_ok (indexed (g_vars s2))) by (by rewrite Hv2, Hs1).
  wp_step. eapply wp_mono; [by apply (bind_value_run k c _ _ _ _ s s2 Hstep2 Hu2 Hc2)|].
  intros o s3 (Hstep3 & Hu3 & Hix3 & Ho). specialize (Hix3 Hix2).
  destruct o as [l|]; [|wp_step; by split_and!]. destruct (Ho l eq_refl) as (Hc3 & Htr & Hval3).
  destruct (args !! 2%nat) as [word|] eqn:Hword.
  2:{ wp_step. split_and!; [done|done|]. intros _. split_and!; [done|done|]. exists (Some l). split; [done|].
      unfold binds_to. rewrite Hword. split_and!; [done|done|done]. }
  destruct (same_str _ word) eqn:Hw; [|wp_step; by split_and!].
  wp_step. eapply (wp_put_proxy k _ _ _ s); [done..|]. intros s4 Hstep4 Hu4 Hc4 Hv4. wp_step.
  split_and!; [done|done|]. intros _. split_and!; [by rewrite Hv4|done|]. eexists. split; [done|]. unfold binds_to.
  rewrite Hword. split_and!; [done|by intros ? [= <-]|].
  destruct Hval3 as [(cv' & A1 & A2 & A3 & A4)|(a & A1 & A2 & A3)]; [left; exists cv'|right; by exists a].
  split_and!; [done|done| |done]. unfold compiled. by rewrite Hv4.
Qed.

(** C20: A [proxy_pass] line that is accepted was the first of its server, makes the proxy its
    content handler, and stores where to pass to: a template compiled with the variables
    there are when the value refers to variables, else an entry of the upstream table with
    the host and the port of the URL, a table that names every upstream once as before.
    Whatever the line, only this server's settings change. *)
Theorem proxy_pass_names k value args (cs : core_srv L R) c s
    (Htables : tables_ok s) (Hcs : slot_at s k = Some cs) (Hc : slot_at s k = Some c) (Hval : args !! 1%nat = Some value) :
  wp (ngx_nsoc_proxy_pass uninit ngx_conf_full_name k args) (passed k value cs c s) s.
Proof. by apply proxy_pass_run. Qed.
End Directives.

(** ** The settings of an accepted server *)

Section Merge.
Context {H T I L R W : Type} {PO : NgxPool W} {POL : NgxPoolLaws W} {CM : NgxConfMerge} {CML : NgxConfMergeLaws}.
Context (fopen : list Z -> option (list Z)) (behind : W -> list Z) (ids : noise_ids).
(** While the configuration is read there is memory: an allocation that fails where its
    result is not tested is the end of the program (NoiseServer). *)
Context (Hpool : forall w : W, (pool_object w).1 = true) (Hbytes : forall n (w : W), is_Some (pool_bytes n w).1).
Implicit Types (s : cfg H T I L R W) (k : nat) (p c : proxy_srv).

Lemma load_public_total file key :
  zlen key = NOISE_PROTOCOL_CURVE25519_KEY_LEN ->
  exists r, ngx_noise_protocol_load_public_key file key NOISE_PROTOCOL_CURVE25519_KEY_LEN = Done r.
Proof.
  intros Hk. destruct file as [chs|]; [|by eexists].
  destruct (load_public_key_loads chs key NOISE_PROTOCOL_CURVE25519_KEY_LEN) as [(bs & _ & _ & ->)|(_ & key' & _ & ->)];
    [rewrite Hk; done|done|by eexists..].
Qed.

Lemma load_private_total file key :
  zlen key = NOISE_PROTOCOL_CURVE25519_KEY_LEN ->
  exists r, ngx_noise_protocol_load_private_key file key NOISE_PROTOCOL_CURVE25519_KEY_LEN = Done r.
Proof.
  intros Hk. destruct (load_private_key_correct file key NOISE_PROTOCOL_CURVE25519_KEY_LEN) as (r & Hr & _);
    [rewrite Hk; done|by exists r].
Qed.

Lemma wp_object_true (Q : bool -> W -> Prop) w : (forall w', Q true w') -> wp new_object Q w.
Proof. intros HQ. unfold wp, new_object. specialize (Hpool w). destruct (pool_object w) as [ok w']. cbn in Hpool. by rewrite Hpool. Qed.

Lemma read_key_total load name w :
  (forall file key, zlen key = NOISE_PROTOCOL_CURVE25519_KEY_LEN ->
     exists r, load file key NOISE_PROTOCOL_CURVE25519_KEY_LEN = Done r) ->
  wp (read_key fopen behind load name) (fun _ _ => True) w.
Proof.
  intros Hload. unfold wp, read_key. specialize (Hpool w). destruct (pool_object w) as [ok w1]. cbn in Hpool. rewrite Hpool. cbn [negb].
  destruct (pool_bytes _ w1) as [data w2] eqn:Hd. destruct (Hbytes NOISE_PROTOCOL_CURVE25519_KEY_LEN w1) as [bs Hbs].
  rewrite Hd in Hbs. cbn in Hbs. subst data. destruct (pool_bytes_length NOISE_PROTOCOL_CURVE25519_KEY_LEN w1 bs w2 ltac:(done) Hd) as [Hl _].
  destruct (Hload (fopen name) (default [] (Some bs)) Hl) as [r ->]. done.
Qed.

(** The Noise settings of a proxied server. *)
Definition link_made (link link' : proxy_noise_conf) : Prop :=
  exists n x, p_noise link' = Some n /\ n_ctx n = Some x /\ is_Some (private_keys x) /\
    n_buffer_size n = p_buffer_size link /\ n_handshake_timeout n = p_connect_timeout link /\
    n_prologue n = link_prologue ids /\
    (str_text (server_public_key_file link) <> [] -> is_Some (public_keys x)) /\
    str_text (client_private_key_file link) <> [].

Lemma set_noiselink_run link w :
  wp (ngx_nsoc_proxy_set_noiselink fopen behind ids link) (fun r _ =>
    r.2 <| p_noise := p_noise link |> = link /\ (r.1 = NGX_OK -> link_made link r.2)) w.
Proof.
  unfold ngx_nsoc_proxy_set_noiselink. wp_step. apply wp_object_true. intros w1. cbn [negb]. cbv zeta. wp_step.
  unfold wp at 1, ngx_nsoc_create. specialize (Hpool w1) as Hw1. destruct (pool_object w1) as [ok w2]. cbn in Hw1. subst ok.
  cbv beta iota. change (NGX_OK =? NGX_OK) with true. cbn [negb]. wp_step. apply wp_object_true. intros w3. cbn [negb].
  match goal with |- context [str_text (client_private_key_file ?l)] =>
    change (client_private_key_file l) with (client_private_key_file link) end.
  destruct (str_text (client_private_key_file link)) as [|ch name] eqn:Hpriv.
  { wp_step. split; [by destruct link|done]. }
  wp_step. eapply wp_mderef; [done|]. wp_step.
  apply (wp_mono _ (fun r _ => forall x, r = Some x -> private_keys x = None /\
    (str_text (server_public_key_file link) <> [] -> is_Some (public_keys x)))).
  { match goal with |- context [match str_text (server_public_key_file ?l) with _ => _ end] =>
      change (server_public_key_file l) with (server_public_key_file link) end.
    destruct (str_text (server_public_key_file link)) as [|ch2 name2]; [wp_step; by intros x [= <-]|].
    wp_step. eapply wp_mono; [by apply read_key_total, load_public_total|]. intros o w4 _. wp_step.
    destruct o as [key|]; [|done]. intros x [= <-]. split; [done|]. by eexists. }
  intros o w4 Ho. destruct o as [x|]; [|wp_step; split; [by destruct link|done]].
  destruct (Ho x eq_refl) as [_ Hpub]. wp_step. eapply wp_mono; [by apply read_key_total, load_private_total|].
  intros o w5 _. destruct o as [key|]; [|wp_step; split; [by destruct link|done]].
  wp_step. split; [by destruct link|]. intros _. eexists _, _. cbn.
  split_and!; [done|done|by eexists|done|done|done|done|by rewrite Hpriv].
Qed.

(** [c'] is what [c] becomes in a block whose own settings are [p]. *)
Record proxy_complete p c c' : Prop := {
  pc_connect_timeout : inherits (Z.eqb NGX_CONF_UNSET_MSEC) (p_connect_timeout (pv_link c)) (p_connect_timeout (pv_link p))
    60000 (p_connect_timeout (pv_link c'));
  pc_timeout : inherits (Z.eqb NGX_CONF_UNSET_MSEC) (pv_timeout c) (pv_timeout p) 600000 (pv_timeout c');
  pc_next_timeout : inherits (Z.eqb NGX_CONF_UNSET_MSEC) (pv_next_upstream_timeout c) (pv_next_upstream_timeout p) 0
    (pv_next_upstream_timeout c');
  pc_buffer_size : inherits (Z.eqb NGX_CONF_UNSET_SIZE) (p_buffer_size (pv_link c)) (p_buffer_size (pv_link p))
    NOISE_PROTOCOL_PAYLOAD_SIZE (p_buffer_size (pv_link c'));
  pc_buffer_max : p_buffer_size (pv_link c') <= NOISE_PROTOCOL_PAYLOAD_SIZE;
  pc_upload : inherits (Z.eqb NGX_CONF_UNSET_SIZE) (pv_upload_rate c) (pv_upload_rate p) 0 (pv_upload_rate c');
  pc_download : inherits (Z.eqb NGX_CONF_UNSET_SIZE) (pv_download_rate c) (pv_download_rate p) 0 (pv_download_rate c');
  pc_responses : inherits (Z.eqb NGX_CONF_UNSET_UINT) (pv_responses c) (pv_responses p) NGX_MAX_INT32_VALUE (pv_responses c');
  pc_tries : inherits (Z.eqb NGX_CONF_UNSET_UINT) (pv_next_upstream_tries c) (pv_next_upstream_tries p) 0
    (pv_next_upstream_tries c');
  pc_next : inherits (Z.eqb NGX_CONF_UNSET) (pv_next_upstream c) (pv_next_upstream p) 1 (pv_next_upstream c');
  pc_local : inherits is_unset (pv_local c) (pv_local p) (Some None) (pv_local c');
  pc_enable : inherits (Z.eqb NGX_CONF_UNSET) (pv_noise_enable c) (pv_noise_enable p) 0 (pv_noise_enable c');
  pc_private : inherits is_unset (client_private_key_file (pv_link c)) (client_private_key_file (pv_link p)) (Some [])
    (client_private_key_file (pv_link c'));
  pc_public : inherits is_unset (server_public_key_file (pv_link c)) (server_public_key_file (pv_link p)) (Some [])
    (server_public_key_file (pv_link c'));
  pc_upstream : pv_upstream c' = pv_upstream c /\ pv_upstream_value c' = pv_upstream_value c;
  pc_noise : if pv_noise_enable c' =? 0 then p_noise (pv_link c') = p_noise (pv_link c)
             else link_made (pv_link c') (pv_link c');
}.

Lemma merged_complete p c link :
  let m := merge_rest p (merge_sizes p c) in
  p_buffer_size (pv_link (merge_sizes p c)) <= NOISE_PROTOCOL_PAYLOAD_SIZE ->
  link <| p_noise := p_noise (pv_link m) |> = pv_link m ->
  (if pv_noise_enable m =? 0 then link = pv_link m else link_made (pv_link m) link) ->
  proxy_complete p c (m <| pv_link := link |>).
Proof.
  intros m Hmax Hlink Hn.
  assert (Hf : p_connect_timeout link = p_connect_timeout (pv_link m) /\ p_buffer_size link = p_buffer_size (pv_link m) /\
    client_private_key_file link = client_private_key_file (pv_link m) /\
    server_public_key_file link = server_public_key_file (pv_link m)) by (rewrite <- Hlink; by destruct link).
  destruct Hf as (F1 & F2 & F3 & F4).
  split; cbn; rewrite ?F1, ?F2, ?F3, ?F4; try (subst m; apply merge_inherits); [exact Hmax|by split|].
  change (if pv_noise_enable m =? 0 then p_noise link = p_noise (pv_link m) else link_made link link).
  destruct (pv_noise_enable m =? 0); [by rewrite Hn|].
  destruct Hn as (n & x & H1 & H2 & H3 & H4 & H5 & H6 & H7 & H8). exists n, x.
  rewrite F1, F2, F3, F4. by split_and!.
Qed.

Definition proxy_merged (conf : nat) p c s (r : conf_answer) s' : Prop :=
  frame [(conf, proxy_index)] s s' /\
  exists c', slot_at s' conf = Some c' /\ (r = ConfOk -> proxy_complete p c c').

Lemma proxy_merge_run prev conf p c s :
  slot_at s prev = Some p -> slot_at s conf = Some c ->
  wp (ngx_nsoc_proxy_merge_srv_conf fopen behind ids prev conf) (proxy_merged conf p c s) s.
Proof.
  intros Hp Hc. unfold ngx_nsoc_proxy_merge_srv_conf, get_proxy, proxy_merged. set (t := [(conf, proxy_index)]).
  wp_step. apply (wp_get_slot _ p); [done|]. wp_step. apply (wp_get_slot _ c); [done|]. cbv zeta.
  wp_step. apply (wp_put_slot t _ _ c _ s); [apply frame_refl|touched|done|]. intros s1 Hf1 Hc1 _.
  destruct (Z.ltb_spec NOISE_PROTOCOL_PAYLOAD_SIZE (p_buffer_size (pv_link (merge_sizes p c)))) as [|Hmax].
  { wp_step. split; [done|]. by eexists. }
  wp_step. eapply (wp_put_slot t _ _ _ _ s); [done|touched|done|]. intros s2 Hf2 Hc2 _.
  pose proof (merged_complete p c) as Hm. cbv zeta in Hm. set (m := merge_rest p (merge_sizes p c)) in *.
  destruct (pv_noise_enable m =? 0) eqn:Hen.
  { wp_step. split; [done|]. exists m. split; [done|]. intros _. specialize (Hm (pv_link m) Hmax).
    replace (m <| pv_link := pv_link m |>) with m in Hm by (by destruct m). apply Hm; [by destruct (pv_link m)|done]. }
  wp_step. apply (wp_on_world_frame t _ _ s); [done|]. eapply wp_mono; [apply set_noiselink_run|].
  intros [rc link] w [Hsame Hok] s3 Hf3 Hs3. cbn [fst snd] in *.
  assert (Hc3 : slot_at s3 conf = Some m) by (rewrite <- Hc2; unfold slot_at; by rewrite Hs3).
  wp_step. apply (wp_put_slot t _ _ m _ s); [done|touched|done|]. intros s4 Hf4 Hc4 _. wp_step.
  split; [done|]. eexists. split; [done|]. destruct (Z.eqb_spec rc NGX_OK) as [Hrc|]; [|done]. intros _. by apply Hm; [|rewrite ?Hen; auto..].
Qed.

(** C21: [ngx_nsoc_proxy_merge_srv_conf] gives a server every setting in the same way, with a
    buffer no larger than the payload of a Noise message; where [proxy_noise] is on, the
    Noise settings are made from them: the client's private key is read from its file, which
    has a name, the server's public key when there is a file of it, and the prologue, the
    buffer's size and the timeout are those of the settings. *)
Theorem proxy_merge_completes prev conf p c s (Hp : slot_at s prev = Some p) (Hc : slot_at s conf = Some c) :
  wp (ngx_nsoc_proxy_merge_srv_conf fopen behind ids prev conf) (proxy_merged conf p c s) s.
Proof. by apply proxy_merge_run. Qed.
End Merge.
