(* ===== verification/Modules.v ===== *)
(** * The modules of the block: their functions and their directives

    Five modules make up the [noise_socket] block; nginx knows each by a structure of six
    functions, [ngx_nsoc_module_t], and a table of directives.  The structures and the
    tables are here as the sources have them, in the order of the build (src/config).

    Setting a number, a flag or a string is a function of nginx core; which function is
    called with which field is the table's. *)

From stdpp Require Import prelude list numbers gmap strings.
From S2P Require Import Prelude RoundRobin KeyFiles NoiseConn Net HsRead Record Handshake Session NoiseServer.
From S2P Require Import Ports Variables CoreVars Script Directive Upstream UpVars Proxy Start Conf CoreConf.
From S2P Require Import ProxyConf.

(** The functions of nginx core that set a field from the words of a line; they see what
    the field was. *)
Class NgxConfSet := {
  ngx_conf_set_msec_slot : list (list Z) -> Z -> conf_answer * Z;
  ngx_conf_set_size_slot : list (list Z) -> Z -> conf_answer * Z;
  ngx_conf_set_num_slot : list (list Z) -> Z -> conf_answer * Z;
  ngx_conf_set_flag_slot : list (list Z) -> Z -> conf_answer * Z;
  ngx_conf_set_str_slot : list (list Z) -> conf_str -> conf_answer * conf_str;
}.

(** ** The state of the block *)

(** [ngx_nsoc_top_filter] is NULL or the one filter there is. *)
Inductive filter_fn := ngx_nsoc_write_filter_fn.

(** What [ngx_nsoc_block] works on: the pointer to the context of the block, kept by
    nginx, the configuration, the phases with their engine, the filter and the sockets. *)
Record block (H T I L R HS CS W : Type) := Block {
  b_conf : option nat;
  b_cfg : cfg H T I L R W;
  b_phases : list (list (handler_pt HS CS W));
  b_engine : option (list (phase_entry HS CS W));
  b_filter : option filter_fn;
  b_listening : list (listening nat);
}.
Arguments Block {H T I L R HS CS W}. Arguments b_conf {H T I L R HS CS W}. Arguments b_cfg {H T I L R HS CS W}.
Arguments b_phases {H T I L R HS CS W}. Arguments b_engine {H T I L R HS CS W}.
Arguments b_filter {H T I L R HS CS W}. Arguments b_listening {H T I L R HS CS W}.
#[export] Instance eta_block H T I L R HS CS W : Eta (block H T I L R HS CS W) := fun r =>
  Block (b_conf r) (b_cfg r) (b_phases r) (b_engine r) (b_filter r) (b_listening r).

(** ** Structures *)

(** [ngx_nsoc_module_t]: [B] is the state of the block, [C] that of the configuration, [P]
    the pool. *)
Record nsoc_module (B C P Y : Type) := NsocModule {
  preconfiguration : option (M B Z);
  postconfiguration : option (M B Z);
  create_main_conf : option (M C bool);
  init_main_conf : option (M C conf_answer);
  create_srv_conf : option (list Z -> Z -> M P (option Y));
  merge_srv_conf : option (nat -> nat -> M C conf_answer);
}.
Arguments NsocModule {B C P Y}. Arguments preconfiguration {B C P Y}. Arguments postconfiguration {B C P Y}.
Arguments create_main_conf {B C P Y}. Arguments init_main_conf {B C P Y}. Arguments create_srv_conf {B C P Y}.
Arguments merge_srv_conf {B C P Y}.

(** A directive that is a line, of the configuration in a context or of an upstream; one
    that is a block gets what parses the block. *)
Inductive set_fn (C U : Type) :=
| SetLine (f : nat -> list (list Z) -> M C conf_answer)
| SetServer (f : (nat -> M C conf_answer) -> M C conf_answer)
| SetUpstream (f : (nat -> M U conf_answer) -> list (list Z) -> M C conf_answer)
| SetUpsLine (f : nat -> list (list Z) -> M U conf_answer).
Arguments SetLine {C U}. Arguments SetServer {C U}. Arguments SetUpstream {C U}. Arguments SetUpsLine {C U}.

(** [ngx_command_t] *)
Record command (C U : Type) := Command { cmd_name : list Z; cmd_type : Z; cmd_set : set_fn C U }.
Arguments Command {C U}. Arguments cmd_name {C U}. Arguments cmd_type {C U}. Arguments cmd_set {C U}.

(** Where a directive may stand. *)
Definition NGX_NSOC_MAIN_CONF : Z := 0x02000000.
Definition NGX_NSOC_SRV_CONF : Z := 0x04000000.
Definition NGX_NSOC_UPS_CONF : Z := 0x08000000.

(** How many words it takes, from nginx. *)
Definition NGX_CONF_NOARGS : Z := 0x00000001.
Definition NGX_CONF_TAKE1 : Z := 0x00000002.
Definition NGX_CONF_TAKE12 : Z := 0x00000006.
Definition NGX_CONF_BLOCK : Z := 0x00000100.
Definition NGX_CONF_FLAG : Z := 0x00000200.
Definition NGX_CONF_1MORE : Z := 0x00000800.

Definition in_main (n : Z) : Z := Z.lor NGX_NSOC_MAIN_CONF n.
Definition in_srv (n : Z) : Z := Z.lor NGX_NSOC_SRV_CONF n.
Definition in_both (n : Z) : Z := Z.lor NGX_NSOC_MAIN_CONF (in_srv n).

Section Modules.
Context {H T I L R W HS CS : Type} {PO : NgxPool W} {NS : NgxStr} {NH : NgxHash T} {NP : NgxParse W}
  {CC : NgxConfCore L R W} {CM : NgxConfMerge} {ST : NgxConfSet} {NL : NoiseLib HS CS} {OS : NgxOs W}.
Abbreviation GM := (M (cfg H T I L R W)).
Abbreviation UM := (M (upconf I (srv_slot L R) W)).
Abbreviation BM := (M (block H T I L R HS CS W)).
Abbreviation ngx_nsoc_module_t := (nsoc_module (block H T I L R HS CS W) (cfg H T I L R W) W (srv_slot L R)).
Abbreviation ngx_command_t := (command (cfg H T I L R W) (upconf I (srv_slot L R) W)).

(** The handlers of variables, and what the directives need of nginx core. *)
Context (uninit : variable H) (core_handler_of : core_handler -> H) (up_handler_of : up_handler -> H).
Context (ngx_conf_full_name : list Z -> bool -> option (list Z)).
Context (fopen : list Z -> option (list Z)) (behind : W -> list Z) (ids : noise_ids).
Context (resolve : list Z -> Z -> option (list addr)) (init_other : I -> nat -> UM Z).
(** The reads of a handshake that runs while its handler does. *)
Context (fuel : nat).

Definition on_cfg {A} (m : GM A) : BM A := fun b =>
  match m (b_cfg b) with
  | Done (a, s) => Done (a, b <| b_cfg := s |>)
  | Undefined => Undefined
  | OutOfFuel => OutOfFuel
  end.

(** ** The core module *)

(** The variables of a table with their handlers among all of the program. *)
Definition core_table : list (variable H) :=
  map (fun v => Var (v_name v) (core_handler_of <$> get_handler v) (v_data v) (flags v) (index v)) ngx_nsoc_core_variables.

Definition ngx_nsoc_core_preconfiguration : BM Z :=
  on_cfg (on_vars (ngx_nsoc_variables_add_core_vars uninit core_table)).

(** A configuration that is made, as a slot of a context. *)
Definition as_slot {X} `{Slot L R X} (m : M W (option X)) : M W (option (srv_slot L R)) :=
  o ← m; mret (slot_in <$> o).

Definition ngx_nsoc_core_module_ctx : ngx_nsoc_module_t :=
  NsocModule (Some ngx_nsoc_core_preconfiguration) None
    (Some ngx_nsoc_core_create_main_conf) (Some ngx_nsoc_core_init_main_conf)
    (Some (fun file line => as_slot (ngx_nsoc_core_create_srv_conf file line))) (Some ngx_nsoc_core_merge_srv_conf).

(** A field of a server's configuration, by a function of nginx core. *)
Definition set_field {X F} `{Slot L R X} (f : list (list Z) -> F -> conf_answer * F) (get : X -> F) (set : F -> X -> X)
    : nat -> list (list Z) -> GM conf_answer := fun k args =>
  x ← get_slot k;
  let '(r, y) := f args (get x) in
  put_slot k (set y x);;
  mret r.

(** One of the main configuration. *)
Definition set_main_field (f : list (list Z) -> Z -> conf_answer * Z) (get : core_main -> Z)
    (set : Z -> core_main -> core_main) : nat -> list (list Z) -> GM conf_answer := fun _ args =>
  m ← gets g_main;
  let '(r, y) := f args (get m) in
  g_main ::=! set y m;;
  mret r.

(** What [ngx_nsoc_core_server] and [ngx_nsoc_upstream] read of the modules. *)
Definition creators (ms : list (nat * ngx_nsoc_module_t)) : list (creator (L:=L) (R:=R) (W:=W)) :=
  map (fun '(mi, m) => (mi, create_srv_conf m)) ms.

Definition up_creators (ms : list (nat * ngx_nsoc_module_t)) : list (nat * option (UM (option (srv_slot L R)))) :=
  map (fun '(mi, m) => (mi, (fun create => file ← gets cf_file; line ← gets cf_line; on_pool (create file line))
                              <$> create_srv_conf m)) ms.

Definition ngx_nsoc_core_commands (ms : list (nat * ngx_nsoc_module_t)) : list ngx_command_t := [
  Command (kw "variables_hash_max_size") (in_main NGX_CONF_TAKE1)
    (SetLine (set_main_field ngx_conf_set_num_slot cm_hash_max_size (fun y m => m <| cm_hash_max_size := y |>)));
  Command (kw "variables_hash_bucket_size") (in_main NGX_CONF_TAKE1)
    (SetLine (set_main_field ngx_conf_set_num_slot cm_hash_bucket_size (fun y m => m <| cm_hash_bucket_size := y |>)));
  Command (kw "server") (in_main (Z.lor NGX_CONF_BLOCK NGX_CONF_NOARGS)) (SetServer (ngx_nsoc_core_server (creators ms)));
  Command (kw "listen") (in_srv NGX_CONF_1MORE) (SetLine ngx_nsoc_core_listen);
  Command (kw "error_log") (in_both NGX_CONF_1MORE) (SetLine ngx_nsoc_core_error_log);
  Command (kw "resolver") (in_both NGX_CONF_1MORE) (SetLine ngx_nsoc_core_resolver);
  Command (kw "resolver_timeout") (in_both NGX_CONF_TAKE1)
    (SetLine (set_field ngx_conf_set_msec_slot cs_resolver_timeout (fun y (c : core_srv L R) => c <| cs_resolver_timeout := y |>)));
  Command (kw "tcp_nodelay") (in_both NGX_CONF_FLAG)
    (SetLine (set_field ngx_conf_set_flag_slot cs_tcp_nodelay (fun y (c : core_srv L R) => c <| cs_tcp_nodelay := y |>)));
  Command (kw "preread_buffer_size") (in_both NGX_CONF_TAKE1)
    (SetLine (set_field ngx_conf_set_size_slot cs_preread_buffer_size
                (fun y (c : core_srv L R) => c <| cs_preread_buffer_size := y |>)));
  Command (kw "preread_timeout") (in_both NGX_CONF_TAKE1)
    (SetLine (set_field ngx_conf_set_msec_slot cs_preread_timeout
                (fun y (c : core_srv L R) => c <| cs_preread_timeout := y |>)))].

(** ** The proxy *)

Definition ngx_nsoc_proxy_module_ctx : ngx_nsoc_module_t :=
  NsocModule None None None None (Some (fun _ _ => as_slot ngx_nsoc_proxy_create_srv_conf))
    (Some (ngx_nsoc_proxy_merge_srv_conf fopen behind ids)).

Definition set_proxy {F} (f : list (list Z) -> F -> conf_answer * F) (get : proxy_srv -> F)
    (set : F -> proxy_srv -> proxy_srv) : set_fn (cfg H T I L R W) (upconf I (srv_slot L R) W) :=
  SetLine (set_field f get set).

Definition ngx_nsoc_proxy_commands : list ngx_command_t := [
  Command (kw "proxy_pass") (in_srv NGX_CONF_TAKE1) (SetLine (ngx_nsoc_proxy_pass uninit ngx_conf_full_name));
  Command (kw "proxy_bind") (in_both NGX_CONF_TAKE12) (SetLine (ngx_nsoc_proxy_bind uninit ngx_conf_full_name));
  Command (kw "proxy_connect_timeout") (in_both NGX_CONF_TAKE1)
    (set_proxy ngx_conf_set_msec_slot (fun c => p_connect_timeout (pv_link c))
       (fun y c => c <| pv_link ::= fun l => l <| p_connect_timeout := y |> |>));
  Command (kw "proxy_timeout") (in_both NGX_CONF_TAKE1)
    (set_proxy ngx_conf_set_msec_slot pv_timeout (fun y c => c <| pv_timeout := y |>));
  Command (kw "block_buffer_size") (in_both NGX_CONF_TAKE1)
    (set_proxy ngx_conf_set_size_slot (fun c => p_buffer_size (pv_link c))
       (fun y c => c <| pv_link ::= fun l => l <| p_buffer_size := y |> |>));
  Command (kw "proxy_upload_rate") (in_both NGX_CONF_TAKE1)
    (set_proxy ngx_conf_set_size_slot pv_upload_rate (fun y c => c <| pv_upload_rate := y |>));
  Command (kw "proxy_download_rate") (in_both NGX_CONF_TAKE1)
    (set_proxy ngx_conf_set_size_slot pv_download_rate (fun y c => c <| pv_download_rate := y |>));
  Command (kw "proxy_responses") (in_both NGX_CONF_TAKE1)
    (set_proxy ngx_conf_set_num_slot pv_responses (fun y c => c <| pv_responses := y |>));
  Command (kw "proxy_next_upstream") (in_both NGX_CONF_FLAG)
    (set_proxy ngx_conf_set_flag_slot pv_next_upstream (fun y c => c <| pv_next_upstream := y |>));
  Command (kw "proxy_next_upstream_tries") (in_both NGX_CONF_TAKE1)
    (set_proxy ngx_conf_set_num_slot pv_next_upstream_tries (fun y c => c <| pv_next_upstream_tries := y |>));
  Command (kw "proxy_next_upstream_timeout") (in_both NGX_CONF_TAKE1)
    (set_proxy ngx_conf_set_msec_slot pv_next_upstream_timeout (fun y c => c <| pv_next_upstream_timeout := y |>));
  Command (kw "proxy_noise") (in_both NGX_CONF_FLAG)
    (set_proxy ngx_conf_set_flag_slot pv_noise_enable (fun y c => c <| pv_noise_enable := y |>));
  Command (kw "client_private_key_file") (in_both NGX_CONF_TAKE1)
    (set_proxy ngx_conf_set_str_slot (fun c => client_private_key_file (pv_link c))
       (fun y c => c <| pv_link ::= fun l => l <| client_private_key_file := y |> |>));
  Command (kw "server_public_key_file") (in_both NGX_CONF_TAKE1)
    (set_proxy ngx_conf_set_str_slot (fun c => server_public_key_file (pv_link c))
       (fun y c => c <| pv_link ::= fun l => l <| server_public_key_file := y |> |>))].

(** ** Upstreams *)

Definition ngx_nsoc_upstream_module_ctx : ngx_nsoc_module_t :=
  NsocModule (Some (on_cfg (on_vars (ngx_nsoc_upstream_add_variables up_handler_of uninit)))) None
    (Some (on_ups ngx_nsoc_upstream_create_main_conf)) (Some (on_ups (ngx_nsoc_upstream_init_main_conf resolve init_other)))
    None None.

Definition ngx_nsoc_upstream_commands (ms : list (nat * ngx_nsoc_module_t)) : list ngx_command_t := [
  Command (kw "upstream") (in_main (Z.lor NGX_CONF_BLOCK NGX_CONF_TAKE1))
    (SetUpstream (fun parse_block args => on_ups (ngx_nsoc_upstream (up_creators ms) upstream_index parse_block args)));
  Command (kw "server") (Z.lor NGX_NSOC_UPS_CONF NGX_CONF_1MORE) (SetUpsLine ngx_nsoc_upstream_server)].

(** ** The Noise server *)

(** [prev] and [conf] are contexts; [cf->ctx] is that of the server, so the buffer's size
    is the server's. *)
Definition noiseserver_merge (prev conf : nat) : GM conf_answer :=
  p ← get_slot prev;
  c ← get_slot conf;
  cscf ← get_core conf;
  '(ok, c) ← on_world (ngx_nsoc_noiseserver_merge_conf (cs_preread_buffer_size cscf) p c);
  put_slot conf c;;
  mret (if (ok : bool) then ConfOk else ConfError).

(** The handler is registered. *)
Definition noiseserver_post : BM Z := fun b =>
  let s := b_cfg b in
  let '(rc, phases, w) := ngx_nsoc_noiseserver_init fopen behind fuel (b_phases b) (g_world s) in
  Done (rc, b <| b_phases := phases |> <| b_cfg := s <| g_vars ::= fun v => v <| vc_pool := w |> |> |>).

Definition ngx_nsoc_noiseserver_module_ctx : ngx_nsoc_module_t :=
  NsocModule None (Some noiseserver_post) None None
    (Some (fun _ _ => as_slot (fun w => Done (ngx_nsoc_noiseserver_create_conf w)))) (Some noiseserver_merge).

Definition set_noise_field {F} (f : list (list Z) -> F -> conf_answer * F) (get : noiseserver_conf -> F)
    (set : F -> noiseserver_conf -> noiseserver_conf) : set_fn (cfg H T I L R W) (upconf I (srv_slot L R) W) :=
  SetLine (set_field f get set).

Definition ngx_nsoc_noiseserver_commands : list ngx_command_t := [
  Command (kw "noise_handshake_timeout") (in_both NGX_CONF_TAKE1)
    (set_noise_field ngx_conf_set_msec_slot ns_handshake_timeout (fun y c => c <| ns_handshake_timeout := y |>));
  Command (kw "server_private_key_file") (in_both NGX_CONF_TAKE1)
    (set_noise_field ngx_conf_set_str_slot server_private_key_file (fun y c => c <| server_private_key_file := y |>));
  Command (kw "client_public_key_file") (in_both NGX_CONF_TAKE1)
    (set_noise_field ngx_conf_set_str_slot client_public_key_file (fun y c => c <| client_public_key_file := y |>))].

(** ** The write filter *)

Definition ngx_nsoc_write_filter_init : BM Z :=
  b_filter ::=! Some ngx_nsoc_write_filter_fn;; mret NGX_OK.

Definition ngx_nsoc_write_filter_module_ctx : ngx_nsoc_module_t :=
  NsocModule None (Some ngx_nsoc_write_filter_init) None None None None.

(** ** All of them *)

(** With their [ctx_index], in the order of the cycle. *)
Definition modules : list (nat * ngx_nsoc_module_t) := [
  (core_index, ngx_nsoc_core_module_ctx); (proxy_index, ngx_nsoc_proxy_module_ctx);
  (upstream_index, ngx_nsoc_upstream_module_ctx); (noiseserver_index, ngx_nsoc_noiseserver_module_ctx);
  (write_filter_index, ngx_nsoc_write_filter_module_ctx)].

Definition commands : list ngx_command_t :=
  ngx_nsoc_core_commands modules ++ ngx_nsoc_proxy_commands ++ ngx_nsoc_upstream_commands modules ++
  ngx_nsoc_noiseserver_commands.
End Modules.
