(* ===== verification/Reading.v ===== *)
(** * Reading the block: what every directive keeps

    [run_main] is what [ngx_conf_parse] does with a block in which it has found the
    directives of a list: it calls them one after the other, until one fails.  The
    directives are those of the tables of Modules; a [server] block is a list of lines of
    its own, an [upstream] block a list of [server] lines (Upstream).

    [reads_ok] is what a configuration satisfies while the block is read: the tables of
    the variables, of the upstreams and of the [listen] lines are well formed, every
    context has the configurations of all modules, and a server with a handler has
    something to pass to.  [run_main_ok]: reading keeps it. *)

From stdpp Require Import prelude list numbers gmap strings.
From S2P Require Import Prelude RoundRobin KeyFiles NoiseConn Net HsRead Record Handshake Session NoiseServer.
From S2P Require Import Ports Variables CoreVars Script Directive Upstream UpTable UpVars Proxy Start Conf.
From S2P Require Import CoreConf ProxyConf Modules.

(** ** The invariant *)

Section Invariant.
Context {H T I L R W : Type} {NS : NgxStr}.
Implicit Types (s : cfg H T I L R W) (k : nat).

(** The settings say where to pass to. *)
Definition passes_on (n : nat) (p : proxy_srv) : Prop :=
  (exists i, pv_upstream p = Some i /\ (i < n)%nat) \/ is_Some (pv_upstream_value p).

Definition slots_ok s k : Prop :=
  exists (c : core_srv L R) (p : proxy_srv) (n : noiseserver_conf),
    slot_at s k = Some c /\ slot_at s k = Some p /\ slot_at s k = Some n /\
    (is_Some (cs_handler c) -> passes_on (length (g_upstreams s)) p).

Record reads_ok s : Prop := {
  rd_keys : is_Some (variables_keys (g_vars s));
  rd_tables : tables_ok s;
  rd_listens : listens_ok (cm_listen (g_main s));
  rd_ctxs k : (k < length (g_ctxs s))%nat -> slots_ok s k;
  rd_servers : Forall (fun k => (0 < k < length (g_ctxs s))%nat) (cm_servers (g_main s));
  rd_owners : Forall (fun ls => l_ctx ls ∈ cm_servers (g_main s)) (cm_listen (g_main s));
}.

(** A line in context [k] leaves the other contexts alone, and adds no server; its
    entries of the [listen] table are those of the context. *)
Record line_done k s s' : Prop := {
  ln_length : length (g_ctxs s') = length (g_ctxs s);
  ln_other k' i : k' <> k -> raw_at s' k' i = raw_at s k' i;
  ln_slots : slots_ok s' k;
  ln_servers : cm_servers (g_main s') = cm_servers (g_main s);
  ln_listen : exists l, cm_listen (g_main s') = cm_listen (g_main s) ++ l /\ Forall (fun ls => l_ctx ls = k) l;
  ln_keys : variables_keys (g_vars s') = variables_keys (g_vars s);
  ln_ups : (length (g_upstreams s) <= length (g_upstreams s'))%nat;
  ln_tables : tables_ok s';
  ln_listens : listens_ok (cm_listen (g_main s'));
}.

Lemma passes_mono n n' p : (n <= n')%nat -> passes_on n p -> passes_on n' p.
Proof. intros Hn [(i & Hi & Hl)|Hv]; [left; exists i; split; [done|lia]|by right]. Qed.

(** The configurations of a context that nothing has touched. *)
Lemma slots_ok_same s s' k :
  (forall i, raw_at s' k i = raw_at s k i) -> (length (g_upstreams s) <= length (g_upstreams s'))%nat ->
  slots_ok s k -> slots_ok s' k.
Proof.
  intros Hr Hu (c & p & n & Hc & Hp & Hn & Hpass). exists c, p, n.
  rewrite !(slot_at_raw s s' k) by apply Hr. split_and!; [done..|]. intros Hh. eapply passes_mono; [exact Hu|by apply Hpass].
Qed.

(** A line of the block, or of a server that is in the list, keeps the invariant. *)
Lemma line_keeps k s s' :
  reads_ok s -> line_done k s s' -> (cm_listen (g_main s') <> cm_listen (g_main s) -> k ∈ cm_servers (g_main s)) ->
  reads_ok s'.
Proof.
  intros [K Ta Li Cx Se Ow] [Hl Ho Hsl Hs (l & Hli & Hk) Hke Hu Hta Hls] Hmem. split; try done.
  - by rewrite Hke.
  - intros k' Hk'. rewrite Hl in Hk'. destruct (decide (k' = k)) as [->|Hne]; [done|].
    apply (slots_ok_same s s'); [intros i; by apply Ho|done|by apply Cx].
  - by rewrite Hs, Hl.
  - rewrite Hs, Hli. apply Forall_app. split; [done|]. destruct l as [|ls l]; [done|].
    assert (Hin : k ∈ cm_servers (g_main s)).
    { apply Hmem. rewrite Hli. intros He. apply (f_equal length) in He. rewrite length_app in He. cbn in He. lia. }
    eapply Forall_impl; [exact Hk|]. by intros ? ->.
Qed.

(** What the pool alone changes is kept. *)
Lemma vars_pool (v v' : vconf H T W) (w : W) :
  v' <| vc_pool := w |> = v -> variables_keys v' = variables_keys v /\ indexed v' = indexed v.
Proof. intros <-. done. Qed.

Lemma frame_line t k s s' :
  reads_ok s -> frame t s s' -> (forall e, e ∈ t -> e.1 = k) -> slots_ok s' k -> line_done k s s'.
Proof.
  intros Hr [[Hl Ho] Hm Hu Hv] Ht Hs. apply vars_pool in Hv as [Hk Hi].
  split; try done; [|by rewrite Hm|exists []; by rewrite Hm, app_nil_r|by rewrite Hu| |rewrite Hm; apply (rd_listens s Hr)].
  - intros k' i Hne. apply Ho. intros He. by apply Ht in He.
  - destruct (rd_tables s Hr) as [A B C]. split; by rewrite ?Hi, ?Hu.
Qed.
End Invariant.

(** ** Lines *)

Section Lines.
Context {H T I L R W HS CS : Type} {PO : NgxPool W} {NS : NgxStr} {NSL : NgxStrLaws} {NH : NgxHash T} {NP : NgxParse W}
  {NPL : NgxParseLaws W} {NGL : NgxListenLaws W} {CC : NgxConfCore L R W} {CCL : NgxConfCoreLaws L R W}
  {ST : NgxConfSet}.
Context (uninit : variable H) (ngx_conf_full_name : list Z -> bool -> option (list Z)).
Abbreviation GM := (M (cfg H T I L R W)).
Abbreviation UM := (M (upconf I (srv_slot L R) W)).
Implicit Types (s : cfg H T I L R W) (k : nat) (args : list (list Z)).

(** The words of a line: a name, a value, and no zero bytes. *)
Definition words_ok args : Prop := (2 <= length args)%nat /\ Forall is_word_text args.

(** What a directive does; one that may stand outside of a server adds no [listen] entry. *)
Definition keeps_line (main : bool) (f : nat -> list (list Z) -> GM conf_answer) : Prop := forall k args s,
  words_ok args -> reads_ok s -> (k < length (g_ctxs s))%nat ->
  wp (f k args) (fun r s' => r = ConfOk -> line_done k s s' /\
    (main = true -> cm_listen (g_main s') = cm_listen (g_main s))) s.

(** A store to the settings of one module. *)
Lemma slot_line t k (s s' : cfg H T I L R W) (c : core_srv L R) (p : proxy_srv) (n : noiseserver_conf) :
  reads_ok s -> frame t s s' -> (forall e, e ∈ t -> e.1 = k) ->
  slot_at s' k = Some c -> slot_at s' k = Some p -> slot_at s' k = Some n ->
  (is_Some (cs_handler c) -> passes_on (length (g_upstreams s')) p) ->
  line_done k s s' /\ (true = true -> cm_listen (g_main s') = cm_listen (g_main s)).
Proof.
  intros Hr Hf Ht Hc Hp Hn Hpass. split; [|intros _; by rewrite (fr_main _ _ _ Hf)].
  apply (frame_line t); [done..|]. by exists c, p, n.
Qed.

(** *** Fields *)

(** A configuration of another module. *)
Ltac untouched Hf := apply (frame_slot _ _ _ _ Hf); rewrite list_elem_of_singleton; by intros [=].

Lemma set_core_keeps {F} (f : list (list Z) -> F -> conf_answer * F) get set :
  (forall y (c : core_srv L R), cs_handler (set y c) = cs_handler c) -> keeps_line true (set_field f get set).
Proof.
  intros Hset k args s _ Hr Hk. destruct (rd_ctxs s Hr k Hk) as (c & p & n & Hc & Hp & Hn & Hpass).
  unfold set_field. wp_step. apply (wp_get_slot _ c); [done|]. destruct (f args (get c)) as [r y].
  wp_step. apply (wp_put_slot [(k, core_index)] _ _ c _ s); [apply frame_refl|touched|done|].
  intros s' Hf Hc' _. wp_step. intros _. apply (slot_line [(k, core_index)] _ _ _ (set y c) p n); try done.
  - by intros e ->%list_elem_of_singleton.
  - rewrite <- Hp. untouched Hf.
  - rewrite <- Hn. untouched Hf.
  - by rewrite Hset, (fr_ups _ _ _ Hf).
Qed.

Lemma set_proxy_keeps {F} (f : list (list Z) -> F -> conf_answer * F) get set :
  (forall y c, pv_upstream (set y c) = pv_upstream c /\ pv_upstream_value (set y c) = pv_upstream_value c) ->
  keeps_line true (set_field f get set).
Proof.
  intros Hset k args s _ Hr Hk. destruct (rd_ctxs s Hr k Hk) as (c & p & n & Hc & Hp & Hn & Hpass).
  unfold set_field. wp_step. apply (wp_get_slot _ p); [done|]. destruct (f args (get p)) as [r y].
  wp_step. apply (wp_put_slot [(k, proxy_index)] _ _ p _ s); [apply frame_refl|touched|done|].
  intros s' Hf Hc' _. wp_step. intros _. apply (slot_line [(k, proxy_index)] _ _ _ c (set y p) n); try done.
  - by intros e ->%list_elem_of_singleton.
  - rewrite <- Hc. untouched Hf.
  - rewrite <- Hn. untouched Hf.
  - rewrite (fr_ups _ _ _ Hf). unfold passes_on. destruct (Hset y p) as [-> ->]. done.
Qed.

Lemma set_noise_keeps {F} (f : list (list Z) -> F -> conf_answer * F) get (set : F -> noiseserver_conf -> noiseserver_conf) :
  keeps_line true (set_field f get set).
Proof.
  intros k args s _ Hr Hk. destruct (rd_ctxs s Hr k Hk) as (c & p & n & Hc & Hp & Hn & Hpass).
  unfold set_field. wp_step. apply (wp_get_slot _ n); [done|]. destruct (f args (get n)) as [r y].
  wp_step. apply (wp_put_slot [(k, noiseserver_index)] _ _ n _ s); [apply frame_refl|touched|done|].
  intros s' Hf Hc' _. wp_step. intros _. apply (slot_line [(k, noiseserver_index)] _ _ _ c p (set y n)); try done.
  - by intros e ->%list_elem_of_singleton.
  - rewrite <- Hc. untouched Hf.
  - rewrite <- Hp. untouched Hf.
  - by rewrite (fr_ups _ _ _ Hf).
Qed.

Lemma set_main_keeps f get set :
  (forall y m, cm_listen (set y m) = cm_listen m /\ cm_servers (set y m) = cm_servers m) ->
  keeps_line true (set_main_field f get set).
Proof.
  intros Hset k args s _ Hr Hk. unfold set_main_field. do 2 wp_step. destruct (f args _) as [r y]. do 2 wp_step.
  wp_step. intros _. destruct (Hset y (g_main s)) as [Hl Hs]. split; [|done].
  split; try done; [by apply (rd_ctxs s Hr)|exists []; cbn; by rewrite Hl, app_nil_r|by destruct (rd_tables s Hr)|].
  cbn. rewrite Hl. apply (rd_listens s Hr).
Qed.

(** *** The core module *)

Lemma error_log_keeps : keeps_line true ngx_nsoc_core_error_log.
Proof.
  intros k args s _ Hr Hk. destruct (rd_ctxs s Hr k Hk) as (c & p & n & Hc & Hp & Hn & Hpass).
  unfold ngx_nsoc_core_error_log, get_core. wp_step. apply (wp_get_slot _ c); [done|].
  wp_step. apply (wp_on_world_frame [(k, core_index)] _ _ s); [apply frame_refl|].
  unfold wp. destruct (ngx_log_set_log _ _ _) as [[rv l] w]. cbv beta iota. intros s1 Hf1 Hs1.
  change (wp (put_slot k (c <| cs_error_log := l |>);; mret rv) (fun r s' => r = ConfOk -> line_done k s s' /\
    (true = true -> cm_listen (g_main s') = cm_listen (g_main s))) s1).
  wp_step. apply (wp_put_slot [(k, core_index)] _ _ c _ s); [done|touched|unfold slot_at; by rewrite Hs1|].
  intros s' Hf Hc' _. wp_step. intros _. apply (slot_line [(k, core_index)] _ _ _ (c <| cs_error_log := l |>) p n); try done.
  - by intros e ->%list_elem_of_singleton.
  - rewrite <- Hp. untouched Hf.
  - rewrite <- Hn. untouched Hf.
  - by rewrite (fr_ups _ _ _ Hf).
Qed.

Lemma resolver_keeps : keeps_line true ngx_nsoc_core_resolver.
Proof.
  intros k args s _ Hr Hk. destruct (rd_ctxs s Hr k Hk) as (c & p & n & Hc & Hp & Hn & Hpass).
  unfold ngx_nsoc_core_resolver, get_core. wp_step. apply (wp_get_slot _ c); [done|].
  destruct (cs_resolver c); [by wp_step|].
  wp_step. apply (wp_on_world_frame [(k, core_index)] _ _ s); [apply frame_refl|]. apply wp_answer. intros r w s1 Hf1 Hs1.
  wp_step. apply (wp_put_slot [(k, core_index)] _ _ c _ s); [done|touched|unfold slot_at; by rewrite Hs1|].
  intros s' Hf Hc' _. wp_step. intros _. apply (slot_line [(k, core_index)] _ _ _ (c <| cs_resolver := r |>) p n); try done.
  - by intros e ->%list_elem_of_singleton.
  - rewrite <- Hp. untouched Hf.
  - rewrite <- Hn. untouched Hf.
  - by rewrite (fr_ups _ _ _ Hf).
Qed.

Lemma words_value args : words_ok args -> exists value, args !! 1%nat = Some value /\ Forall is_word_text (drop 2 args).
Proof.
  intros [Hl Hw]. destruct (lookup_lt_is_Some_2 args 1 ltac:(lia)) as [v Hv]. exists v. split; [done|]. by apply Forall_drop.
Qed.

(** A store, as the contexts after it. *)
Lemma ctxs_put {X : Type} {SX : Slot L R X} {SL : SlotLaws L R X} k (x y : X) s s' :
  g_ctxs s' = alter (fun ctx => <[slot_index X := SlotConf (slot_in x)]> ctx) k (g_ctxs s) -> slot_at s k = Some y ->
  ctx_frame [(k, slot_index X)] s s' /\ slot_at s' k = Some x.
Proof.
  intros Hg Hy. set (s0 := s <| g_ctxs ::= alter (fun ctx => <[slot_index X := SlotConf (slot_in x)]> ctx) k |>).
  assert (Hg0 : g_ctxs s' = g_ctxs s0) by done. split.
  - eapply ctx_frame_trans; [apply (ctx_frame_put _ x s k); touched|by apply ctx_frame_same].
  - rewrite <- (slot_at_put x y s k Hy). unfold slot_at. by rewrite Hg0.
Qed.

Lemma listen_keeps : keeps_line false ngx_nsoc_core_listen.
Proof.
  intros k args s Hw Hr Hk. destruct (rd_ctxs s Hr k Hk) as (c & p & n & Hc & Hp & Hn & Hpass).
  destruct (words_value args Hw) as (value & Hv & Hd).
  eapply wp_mono; [exact (listen_run k value args c s Hc Hv Hd (rd_listens s Hr))|].
  cbv beta. intros r s' [(Hg & Hu & Hs & Hvars) Hok] Hr'. split; [|done]. destruct (Hok Hr') as [Hli (ls & Hls & Hsay & _)].
  apply vars_pool in Hvars as [Hke Hix]. destruct (ctxs_put k _ c s s' Hg Hc) as [Hf' Hc'].
  split; try done.
  - apply (fr_length _ _ _ Hf').
  - intros k' i Hne. apply (fr_raw _ _ _ Hf'). rewrite list_elem_of_singleton. by intros [= ->].
  - exists (c <| cs_listen := true |>), p, n. rewrite Hu. split_and!; [| | |done].
    + exact Hc'.
    + rewrite <- Hp. apply (ctx_frame_slot _ _ _ _ Hf'). rewrite list_elem_of_singleton. by intros [=].
    + rewrite <- Hn. apply (ctx_frame_slot _ _ _ _ Hf'). rewrite list_elem_of_singleton. by intros [=].
  - exists [ls]. split; [done|]. apply Forall_singleton, (sy_ctx _ _ _ _ _ _ Hsay).
  - by rewrite Hu.
  - destruct (rd_tables s Hr) as [A B C]. split; by rewrite ?Hix, ?Hu.
Qed.

(** *** The proxy *)

Lemma proxy_pass_keeps : keeps_line true (ngx_nsoc_proxy_pass uninit ngx_conf_full_name).
Proof.
  intros k args s Hw Hr Hk. destruct (rd_ctxs s Hr k Hk) as (c & p & n & Hc & Hp & Hn & Hpass).
  destruct (words_value args Hw) as (value & Hv & Hd).
  eapply wp_mono; [exact (proxy_pass_run uninit ngx_conf_full_name k value args c p s (rd_tables s Hr) Hc Hp Hv)|].
  cbv beta. intros r s' ([[Hl Ho] Hm Hna] & Hlen & Hok) Hr'. destruct (Hok Hr') as (Hta & _ & _ & Hc' & p' & Hp' & Hto).
  split; [|intros _; by rewrite Hm]. split; try done; [| |by rewrite Hm|exists []; by rewrite Hm, app_nil_r| |].
  - intros k' i Hne. apply Ho. rewrite !not_elem_of_cons. split_and!; [by intros [= ->]..|apply not_elem_of_nil].
  - exists (c <| cs_handler := Some ngx_nsoc_proxy_handler_fn |>), p', n. split_and!; [done|done| |].
    + rewrite <- Hn. apply slot_at_raw, Ho. rewrite !not_elem_of_cons. split_and!; [by intros [=]..|apply not_elem_of_nil].
    + intros _. destruct Hto as [(cv & -> & _)|(i & x & u & -> & Hx & _)]; [right; by eexists|].
      left. exists i. split; [done|]. by eapply lookup_lt_Some.
  - by injection Hna.
  - rewrite Hm. apply (rd_listens s Hr).
Qed.

Lemma proxy_bind_keeps : keeps_line true (ngx_nsoc_proxy_bind uninit ngx_conf_full_name).
Proof.
  intros k args s Hw Hr Hk. destruct (rd_ctxs s Hr k Hk) as (c & p & n & Hc & Hp & Hn & Hpass).
  destruct (words_value args Hw) as (value & Hv & Hd). destruct (rd_tables s Hr) as [A B C].
  eapply wp_mono; [exact (proxy_bind_run uninit ngx_conf_full_name k value args p s A Hp Hv)|].
  cbv beta. intros r s' ([[Hl Ho] Hm Hna] & Hu & Hok) Hr'. destruct (Hok Hr') as (Hix & _ & l & Hp' & _).
  split; [|intros _; by rewrite Hm].
  split; try done; [| |by rewrite Hm|exists []; by rewrite Hm, app_nil_r| |by rewrite Hu| |].
  - intros k' i Hne. apply Ho. rewrite list_elem_of_singleton. by intros [= ->].
  - exists c, (p <| pv_local := Some l |>), n. rewrite Hu. split_and!; [|done| |done];
      [rewrite <- Hc|rewrite <- Hn]; apply slot_at_raw, Ho; rewrite list_elem_of_singleton; by intros [=].
  - by injection Hna.
  - split; by rewrite ?Hu.
  - rewrite Hm. apply (rd_listens s Hr).
Qed.
End Lines.

(** ** What the parser does *)

(** The directives found in a block, with the functions of their commands. *)
Inductive stmt (C U : Type) :=
| Line (f : nat -> list (list Z) -> M C conf_answer) (args : list (list Z))
| ServerBlock (f : (nat -> M C conf_answer) -> M C conf_answer)
    (lines : list ((nat -> list (list Z) -> M C conf_answer) * list (list Z)))
| UpstreamBlock (f : (nat -> M U conf_answer) -> list (list Z) -> M C conf_answer) (args : list (list Z))
    (lines : list (list (list Z))).
Arguments Line {C U}. Arguments ServerBlock {C U}. Arguments UpstreamBlock {C U}.

Section Parse.
Context {H T I L R W : Type} {PO : NgxPool W} {NP : NgxParse W}.
Abbreviation GM := (M (cfg H T I L R W)).

Fixpoint run_lines (k : nat) (lines : list ((nat -> list (list Z) -> GM conf_answer) * list (list Z))) : GM conf_answer :=
  match lines with
  | [] => mret ConfOk
  | (f, args) :: lines => rv ← f k args; match rv with ConfOk => run_lines k lines | _ => mret rv end
  end.

Definition run_stmt (k : nat) (st : stmt (cfg H T I L R W) (upconf I (srv_slot L R) W)) : GM conf_answer :=
  match st with
  | Line f args => f k args
  | ServerBlock f lines => f (fun k => run_lines k lines)
  | UpstreamBlock f args lines => f (fun i => server_lines i lines) args
  end.

Fixpoint run_main (sts : list (stmt (cfg H T I L R W) (upconf I (srv_slot L R) W))) (k : nat) : GM conf_answer :=
  match sts with
  | [] => mret ConfOk
  | st :: sts => rv ← run_stmt k st; match rv with ConfOk => run_main sts k | _ => mret rv end
  end.
End Parse.

(** ** The directives of the tables *)

Section Run.
Context {H T I L R W HS CS : Type} {PO : NgxPool W} {NS : NgxStr} {NSL : NgxStrLaws} {NH : NgxHash T} {NP : NgxParse W}
  {NPL : NgxParseLaws W} {NGL : NgxListenLaws W} {CC : NgxConfCore L R W} {CCL : NgxConfCoreLaws L R W}
  {CM : NgxConfMerge} {ST : NgxConfSet} {NL : NoiseLib HS CS} {OS : NgxOs W}.
Context (uninit : variable H) (core_handler_of : core_handler -> H) (up_handler_of : up_handler -> H).
Context (ngx_conf_full_name : list Z -> bool -> option (list Z)).
Context (fopen : list Z -> option (list Z)) (behind : W -> list Z) (ids : noise_ids).
Context (resolve : list Z -> Z -> option (list addr)) (init_other : I -> nat -> M (upconf I (srv_slot L R) W) Z).
Context (fuel : nat).
Abbreviation GM := (M (cfg H T I L R W)).
Abbreviation UM := (M (upconf I (srv_slot L R) W)).
Abbreviation words := (list (list Z)).
Abbreviation the_modules := (modules (HS:=HS) (CS:=CS) uninit core_handler_of up_handler_of fopen behind ids resolve init_other fuel).
Abbreviation the_commands := (commands (HS:=HS) (CS:=CS) uninit core_handler_of up_handler_of ngx_conf_full_name fopen behind ids resolve init_other fuel).
Implicit Types (s : cfg H T I L R W) (k : nat) (args : words).

Lemma keeps_weaken main (f : nat -> words -> GM conf_answer) : keeps_line true f -> keeps_line main f.
Proof. intros Hf k args s Hw Hr Hk. eapply wp_mono; [by apply Hf|]. cbv beta. intros r s' Ha Hr'. destruct (Ha Hr') as [A B]. by split; [|intros _; apply B]. Qed.

(** A line of a table keeps the invariant, and one that may stand in the block itself
    listens on nothing. *)
Definition command_ok (c : command (cfg H T I L R W) (upconf I (srv_slot L R) W)) : Prop :=
  match cmd_set c with SetLine f => keeps_line (has (cmd_type c) NGX_NSOC_MAIN_CONF) f | _ => True end.

Lemma core_commands_ok ms : Forall command_ok (ngx_nsoc_core_commands (HS:=HS) (CS:=CS) ms).
Proof.
  unfold ngx_nsoc_core_commands. repeat apply Forall_cons_2; try apply Forall_nil_2; unfold command_ok; cbn [cmd_set cmd_type];
    [by apply set_main_keeps|by apply set_main_keeps|done|apply listen_keeps|apply error_log_keeps|apply resolver_keeps|by apply set_core_keeps..].
Qed.

Lemma proxy_commands_ok : Forall command_ok (ngx_nsoc_proxy_commands uninit ngx_conf_full_name).
Proof.
  unfold ngx_nsoc_proxy_commands. repeat apply Forall_cons_2; try apply Forall_nil_2; unfold command_ok; cbn [cmd_set cmd_type set_proxy];
    [apply keeps_weaken, proxy_pass_keeps|apply proxy_bind_keeps|by apply set_proxy_keeps..].
Qed.

Lemma noise_commands_ok : Forall command_ok (ngx_nsoc_noiseserver_commands (H:=H) (T:=T) (I:=I) (L:=L) (R:=R) (W:=W)).
Proof.
  unfold ngx_nsoc_noiseserver_commands. repeat apply Forall_cons_2; try apply Forall_nil_2; unfold command_ok;
    cbn [cmd_set cmd_type set_noise_field]; apply set_noise_keeps.
Qed.

Lemma commands_ok : Forall command_ok the_commands.
Proof.
  unfold commands. repeat apply Forall_app_2; [apply core_commands_ok|apply proxy_commands_ok| |apply noise_commands_ok].
  repeat apply Forall_cons_2; try apply Forall_nil_2; done.
Qed.

(** *** New configurations *)

Implicit Types (P : srv_slot L R -> Prop).

Lemma create_srv_run k mi create P s :
  (forall file line w, wp (create file line) (fun o _ => forall y, o = Some y -> P y) w) -> is_Some (raw_at s k mi) ->
  wp (create_srv k mi create) (fun ok s' => frame [(k, mi)] s s' /\
    (ok = true -> exists y, P y /\ raw_at s' k mi = Some (SlotConf y))) s.
Proof.
  intros Hc Hr. unfold create_srv. do 3 wp_step. apply (wp_on_world_frame [(k, mi)] _ _ s); [apply frame_refl|].
  eapply wp_mono; [apply Hc|]. intros o w Hy s1 Hf1 Hs1. destruct o as [y|]; [|by wp_step].
  do 2 wp_step. wp_step. split.
  - destruct Hf1 as [A B C D]. split; try done. eapply ctx_frame_trans; [exact A|]. apply ctx_frame_store. touched.
  - intros _. exists y. split; [by apply Hy|]. apply raw_at_store. unfold raw_at in *. by rewrite Hs1.
Qed.

Lemma slot_of_raw {X : Type} {SX : Slot L R X} {SL : SlotLaws L R X} s k (x : X) :
  raw_at s k (slot_index X) = Some (SlotConf (slot_in x)) -> slot_at s k = Some x.
Proof. unfold raw_at, slot_at. destruct (g_ctxs s !! k) as [ctx|]; [|done]. cbn. intros ->. cbn. apply slot_out_in. Qed.

(** What the modules make. *)
Definition fresh_core (y : srv_slot L R) : Prop := exists c : core_srv L R, y = slot_in c /\ cs_handler c = None.
Definition fresh_proxy (y : srv_slot L R) : Prop := exists p : proxy_srv, y = slot_in p.
Definition fresh_noise (y : srv_slot L R) : Prop := exists n : noiseserver_conf, y = slot_in n.

Lemma core_created file line w :
  wp (as_slot (ngx_nsoc_core_create_srv_conf file line)) (fun o _ => forall y, o = Some y -> fresh_core y) w.
Proof.
  unfold as_slot, ngx_nsoc_core_create_srv_conf. do 2 wp_step. apply wp_answer. intros ok w1. wp_step. wp_step.
  destruct ok; [|done]. intros y [= <-]. eexists. by split.
Qed.

Lemma proxy_created w : wp (as_slot ngx_nsoc_proxy_create_srv_conf) (fun o _ => forall y, o = Some y -> fresh_proxy y) w.
Proof.
  unfold as_slot, ngx_nsoc_proxy_create_srv_conf. do 2 wp_step. apply wp_answer. intros ok w1. wp_step. wp_step.
  destruct ok; [|done]. intros y [= <-]. by eexists.
Qed.

Lemma noise_created w :
  wp (as_slot (fun w => Done (ngx_nsoc_noiseserver_create_conf w))) (fun o _ => forall y, o = Some y -> fresh_noise y) w.
Proof.
  unfold as_slot. wp_step. apply wp_answer. intros o w1. wp_step. intros y Hy.
  destruct o as [n|]; [|done]. injection Hy as <-. by eexists.
Qed.

(** The configurations that a context has after the loops. *)
Lemma fresh_slots s k yc yp yn :
  fresh_core yc -> fresh_proxy yp -> fresh_noise yn ->
  raw_at s k core_index = Some (SlotConf yc) -> raw_at s k proxy_index = Some (SlotConf yp) ->
  raw_at s k noiseserver_index = Some (SlotConf yn) -> slots_ok s k.
Proof.
  intros (c & -> & Hh) (p & ->) (n & ->) Hc Hp Hn. exists c, p, n.
  split_and!; [by apply (slot_of_raw s k c)|by apply (slot_of_raw s k p)|by apply (slot_of_raw s k n)|].
  rewrite Hh. by intros [].
Qed.

(** A context of NULL configurations. *)
Definition null_context s k : Prop := g_ctxs s !! k = Some (replicate max_module SlotNull).

Lemma create_srv_confs_run k s :
  null_context s k ->
  wp (create_srv_confs k (creators the_modules)) (fun ok s' =>
    frame [(k, core_index); (k, proxy_index); (k, noiseserver_index)] s s' /\ (ok = true -> slots_ok s' k)) s.
Proof.
  intros Hnull. set (t := [(k, core_index); (k, proxy_index); (k, noiseserver_index)]).
  assert (Hraw : forall i, (i < max_module)%nat -> is_Some (raw_at s k i)).
  { intros i Hi. unfold raw_at. rewrite Hnull. cbn [mbind option_bind]. rewrite lookup_replicate_2 by done. by eexists. }
  assert (Hsub : forall i s1 s2, (k, i) ∈ t -> frame [(k, i)] s1 s2 -> frame t s1 s2).
  { intros i s1 s2 Hi [[A B] C D E]. split; try done. split; [done|]. intros k' i' Hki. apply B.
    rewrite list_elem_of_singleton. intros He. apply Hki. by rewrite He. }
  cbn. wp_step. eapply wp_mono; [apply (create_srv_run k core_index _ fresh_core s core_created); by apply Hraw; unfold core_index, max_module; lia|].
  intros ok s1 [Hf1 Hy1]. pose proof (Hsub core_index _ _ ltac:(touched) Hf1) as Ht1. destruct ok; cbn [negb]; [|by wp_step].
  destruct (Hy1 eq_refl) as (yc & Hyc & Hc). wp_step.
  eapply wp_mono; [apply (create_srv_run k proxy_index _ fresh_proxy s1 (fun _ _ => proxy_created))|].
  { rewrite (fr_raw _ _ _ (fr_ctx _ _ _ Hf1)); [apply Hraw; unfold proxy_index, max_module; lia|].
    rewrite list_elem_of_singleton. by intros [=]. }
  intros ok s2 [Hf2 Hy2]. pose proof (frame_trans _ _ _ _ Ht1 (Hsub proxy_index _ _ ltac:(touched) Hf2)) as Ht2.
  destruct ok; cbn [negb]; [|by wp_step]. destruct (Hy2 eq_refl) as (yp & Hyp & Hp). wp_step.
  eapply wp_mono; [apply (create_srv_run k noiseserver_index _ fresh_noise s2 (fun _ _ => noise_created))|].
  { rewrite (fr_raw _ _ _ (fr_ctx _ _ _ Hf2)), (fr_raw _ _ _ (fr_ctx _ _ _ Hf1));
      [apply Hraw; unfold noiseserver_index, max_module; lia|rewrite list_elem_of_singleton; by intros [=]..]. }
  intros ok s3 [Hf3 Hy3]. pose proof (frame_trans _ _ _ _ Ht2 (Hsub noiseserver_index _ _ ltac:(touched) Hf3)) as Ht3.
  destruct ok; cbn [negb]; [|by wp_step]. destruct (Hy3 eq_refl) as (yn & Hyn & Hn). wp_step. split; [done|]. intros _.
  apply (fresh_slots s3 k yc yp yn); try done.
  - rewrite (fr_raw _ _ _ (fr_ctx _ _ _ Hf3)), (fr_raw _ _ _ (fr_ctx _ _ _ Hf2));
      [done|rewrite list_elem_of_singleton; by intros [=]..].
  - rewrite (fr_raw _ _ _ (fr_ctx _ _ _ Hf3)); [done|rewrite list_elem_of_singleton; by intros [=]].
Qed.

(** *** Blocks *)

(** A function of a command that may stand in a block of type [t]. *)
Definition allowed (t : Z) (g : set_fn (cfg H T I L R W) (upconf I (srv_slot L R) W)) : Prop :=
  exists c, c ∈ the_commands /\ has (cmd_type c) t = true /\ cmd_set c = g.

Definition line_fits (t : Z) (l : (nat -> words -> GM conf_answer) * words) : Prop :=
  allowed t (SetLine l.1) /\ words_ok l.2.

Definition stmt_fits (st : stmt (cfg H T I L R W) (upconf I (srv_slot L R) W)) : Prop :=
  match st with
  | Line f args => line_fits NGX_NSOC_MAIN_CONF (f, args)
  | ServerBlock f lines => allowed NGX_NSOC_MAIN_CONF (SetServer f) /\ Forall (line_fits NGX_NSOC_SRV_CONF) lines
  | UpstreamBlock f args lines =>
      allowed NGX_NSOC_MAIN_CONF (SetUpstream f) /\ is_Some (args !! 1%nat) /\ Forall line_words lines
  end.

(** The command in place [i] of the tables. *)
Lemma allowed_nth i c t g : the_commands !! i = Some c -> has (cmd_type c) t = true -> cmd_set c = g -> allowed t g.
Proof. intros Hc Ht Hg. exists c. split_and!; [by eapply list_elem_of_lookup_2|done|done]. Qed.

Lemma allowed_line t f : allowed t (SetLine f) -> keeps_line (bool_decide (t = NGX_NSOC_MAIN_CONF)) f.
Proof.
  intros (c & Hc & Ht & Hf). pose proof (proj1 (list.Forall_forall _ _) commands_ok c Hc) as Hok. unfold command_ok in Hok.
  rewrite Hf in Hok. case_bool_decide as Heq; [subst t; by rewrite Ht in Hok|].
  destruct (has (cmd_type c) NGX_NSOC_MAIN_CONF); [by apply keeps_weaken|done].
Qed.

Lemma block_commands : Forall (fun c => match cmd_set c with
  | SetServer f => f = ngx_nsoc_core_server (creators the_modules)
  | SetUpstream f => f = (fun parse args => on_ups (ngx_nsoc_upstream (up_creators the_modules) upstream_index parse args))
  | _ => True
  end) the_commands.
Proof. unfold commands. repeat apply Forall_app_2; repeat apply Forall_cons_2; try apply Forall_nil_2; done. Qed.

Lemma allowed_block t g : allowed t g -> match g with
  | SetServer f => f = ngx_nsoc_core_server (creators the_modules)
  | SetUpstream f => f = (fun parse args => on_ups (ngx_nsoc_upstream (up_creators the_modules) upstream_index parse args))
  | _ => True
  end.
Proof. intros (c & Hc & _ & <-). exact (proj1 (list.Forall_forall _ _) block_commands c Hc). Qed.

Lemma run_lines_ok k lines : forall s,
  reads_ok s -> k ∈ cm_servers (g_main s) -> Forall (line_fits NGX_NSOC_SRV_CONF) lines ->
  wp (run_lines k lines) (fun r s' => r = ConfOk -> reads_ok s' /\ length (g_ctxs s') = length (g_ctxs s) /\
    cm_servers (g_main s') = cm_servers (g_main s)) s.
Proof.
  induction lines as [|[f args] lines IH]; intros s Hr Hk Hl; cbn [run_lines]; [by wp_step|].
  apply Forall_cons in Hl as [[Hf Hw] Hl]. cbn [fst snd] in Hf, Hw. apply allowed_line in Hf.
  assert (Hlt : (k < length (g_ctxs s))%nat).
  { pose proof (proj1 (list.Forall_forall _ _) (rd_servers s Hr) k Hk) as Hlt. cbv beta in Hlt. lia. }
  wp_step. eapply wp_mono; [by apply Hf|]. cbv beta. intros rv s1 H1. destruct rv; try by wp_step.
  destruct (H1 eq_refl) as [H2 _]. assert (Hr1 : reads_ok s1) by (by eapply line_keeps).
  eapply wp_mono; [apply IH; [done|by rewrite (ln_servers _ _ _ H2)|done]|]. cbv beta. intros r s' H3 Hr'.
  destruct (H3 Hr') as (? & -> & ->). split_and!; [done|apply (ln_length _ _ _ H2)|apply (ln_servers _ _ _ H2)].
Qed.

Lemma new_context_run s :
  wp new_context (fun o s' => forall k, o = Some k -> k = length (g_ctxs s) /\ exists w : W,
    s' = s <| g_vars ::= fun v => v <| vc_pool := w |> |> <| g_ctxs := g_ctxs s ++ [replicate max_module SlotNull] |>) s.
Proof.
  unfold new_context. wp_step. apply wp_conf_object. intros ok w. destruct ok; cbn [negb]; [|by wp_step].
  wp_step. apply wp_conf_object. intros ok w2. destruct ok; cbn [negb]; [|by wp_step].
  do 5 wp_step. intros k [= <-]. split; [done|]. by exists w2.
Qed.

Lemma server_block_ok lines s :
  reads_ok s -> (0 < length (g_ctxs s))%nat -> Forall (line_fits NGX_NSOC_SRV_CONF) lines ->
  wp (ngx_nsoc_core_server (creators the_modules) (fun k => run_lines k lines))
    (fun r s' => r = ConfOk -> reads_ok s' /\ (length (g_ctxs s) <= length (g_ctxs s'))%nat) s.
Proof.
  intros Hr H0 Hl. unfold ngx_nsoc_core_server. wp_step. eapply wp_mono; [apply new_context_run|].
  cbv beta. intros [k|] s1 Hs1; [|by wp_step]. destruct (Hs1 k eq_refl) as (Hk & w & Hs). clear Hs1.
  assert (Hnull : null_context s1 k) by (unfold null_context; rewrite Hs; cbn; by rewrite Hk, list_lookup_middle).
  wp_step. eapply wp_mono; [by apply create_srv_confs_run|]. cbv beta. intros ok s2 [Hf2 Hok2].
  destruct ok; cbn [negb]; [|by wp_step]. specialize (Hok2 eq_refl).
  destruct Hok2 as (c & p & n & Hc & Hp & Hn & Hpass). wp_step. unfold get_core. apply (wp_get_slot _ c); [done|].
  wp_step. apply wp_conf_object. intros ok w2. destruct ok; cbn [negb]; [|by wp_step]. wp_step. wp_step.
  match goal with |- wp _ _ ?st => set (s3 := st) end.
  destruct Hf2 as [[Hlen Hraw] Hm Hu Hv]. apply vars_pool in Hv as [Hke Hix].
  assert (Hlen3 : length (g_ctxs s3) = S (length (g_ctxs s))).
  { change (g_ctxs s3) with (g_ctxs s2). rewrite Hlen, Hs. cbn. rewrite length_app. cbn. lia. }
  assert (Hsrv3 : cm_servers (g_main s3) = cm_servers (g_main s) ++ [k]).
  { change (cm_servers (g_main s3)) with (cm_servers (g_main s2) ++ [k]). by rewrite Hm, Hs. }
  assert (Hli3 : cm_listen (g_main s3) = cm_listen (g_main s)).
  { change (cm_listen (g_main s3)) with (cm_listen (g_main s2)). by rewrite Hm, Hs. }
  assert (Hr3 : reads_ok s3).
  { destruct Hr as [A [B1 B2 B3] C D E F]. split.
    - change (g_vars s3) with ((g_vars s2) <| vc_pool := w2 |>). cbn. by rewrite Hke, Hs.
    - split; [change (indexed (g_vars s3)) with (indexed (g_vars s2)); by rewrite Hix, Hs|
              change (g_upstreams s3) with (g_upstreams s2); by rewrite Hu, Hs..].
    - by rewrite Hli3.
    - intros k' Hk'. rewrite Hlen3 in Hk'. destruct (decide (k' = k)) as [->|Hne]; [by exists c, p, n|].
      apply (slots_ok_same s s3); [|change (g_upstreams s3) with (g_upstreams s2); by rewrite Hu, Hs|apply D; lia].
      intros i. change (raw_at s3 k' i) with (raw_at s2 k' i). rewrite Hraw.
      2:{ rewrite !not_elem_of_cons. split_and!; [by intros [= ->]..|apply not_elem_of_nil]. }
      rewrite Hs. unfold raw_at. cbn. rewrite lookup_app_l by lia. done.
    - rewrite Hsrv3, Hlen3. apply Forall_app. split; [|apply Forall_singleton; lia].
      eapply Forall_impl; [exact E|]. cbv beta. lia.
    - rewrite Hli3, Hsrv3. eapply Forall_impl; [exact F|]. cbv beta. intros ls ?. rewrite elem_of_app. by left. }
  wp_step. eapply wp_mono; [apply (run_lines_ok k lines s3 Hr3); [|done]|].
  { rewrite Hsrv3, elem_of_app. right. by apply list_elem_of_singleton. }
  cbv beta. intros rv s4 H4. destruct rv; try by wp_step. destruct (H4 eq_refl) as (Hr4 & Hl4 & _).
  destruct (rd_ctxs s4 Hr4 k) as (c4 & _ & _ & Hc4 & _); [rewrite Hl4, Hlen3; lia|].
  wp_step. apply (wp_get_slot _ c4); [done|]. wp_step. intros _. split; [done|]. lia.
Qed.

Lemma up_creators_quiet : creators_quiet (up_creators the_modules).
Proof.
  intros mi create u0 Hin.
  assert (Hq : Forall (fun e : nat * option (UM (option (srv_slot L R))) => match e.2 with
      | Some create => forall u : upconf I (srv_slot L R) W, wp create (fun _ u' => upstreams u' = upstreams u) u
      | None => True
      end) (up_creators the_modules)).
  { assert (Hp : forall (m : list Z -> Z -> M W (option (srv_slot L R))),
        (forall file line w, wp (m file line) (fun _ _ => True) w) -> forall u : upconf I (srv_slot L R) W,
        wp (file ← gets cf_file; line ← gets cf_line; on_pool (m file line)) (fun _ u' => upstreams u' = upstreams u) u).
    { intros m Hm u. do 4 wp_step. specialize (Hm (cf_file u) (cf_line u) (up_world u)). unfold wp, on_pool in *.
      by destruct (m _ _ _) as [[o w]| |]. }
    repeat apply Forall_cons_2; try apply Forall_nil_2; cbn; try done; apply Hp; intros file line w.
    - eapply wp_mono; [apply core_created|done].
    - eapply wp_mono; [apply proxy_created|done].
    - eapply wp_mono; [apply noise_created|done]. }
  exact (proj1 (list.Forall_forall _ _) Hq _ Hin u0).
Qed.

Lemma upstream_block_ok args lines s :
  reads_ok s -> is_Some (args !! 1%nat) -> Forall line_words lines ->
  wp (on_ups (ngx_nsoc_upstream (up_creators the_modules) upstream_index (fun i => server_lines i lines) args))
    (fun r s' => r = ConfOk -> reads_ok s' /\ g_ctxs s' = g_ctxs s) s.
Proof.
  intros [A [B1 B2 B3] C D E F] [name Hn] Hl. apply wp_on_ups.
  eapply wp_mono; [exact (upstream_block_table (up_creators the_modules) upstream_index up_creators_quiet resolve init_other
    args name lines (ups_part s) B2 B3 Hn Hl)|].
  cbv beta. intros r u Hok Hr. destruct (Hok Hr) as (Ht & He & Hlen). split; [|done]. split; try done.
  intros k Hk. apply (slots_ok_same s); [done|exact Hlen|by apply D].
Qed.

(** Reading a block keeps the invariant. *)
Lemma run_main_ok k sts : forall s,
  reads_ok s -> (k < length (g_ctxs s))%nat -> Forall stmt_fits sts ->
  wp (run_main sts k) (fun r s' => r = ConfOk -> reads_ok s' /\ (length (g_ctxs s) <= length (g_ctxs s'))%nat) s.
Proof.
  induction sts as [|st sts IH]; intros s Hr Hk Hf; cbn [run_main]; [by wp_step|].
  apply Forall_cons in Hf as [Hst Hf]. wp_step.
  apply (wp_mono _ (fun r s' => r = ConfOk -> reads_ok s' /\ (length (g_ctxs s) <= length (g_ctxs s'))%nat)).
  2:{ intros rv s1 H1. destruct rv; try by wp_step. destruct (H1 eq_refl) as [Hr1 Hl1].
      eapply wp_mono; [apply IH; [done|lia|done]|]. cbv beta. intros r s2 H2 Hr'. destruct (H2 Hr'). split; [done|lia]. }
  destruct st as [f args|f lines|f args lines]; cbn [run_stmt stmt_fits] in *.
  - destruct Hst as [Ha Hw]. apply allowed_line in Ha. cbn [fst snd] in *. eapply wp_mono; [by apply Ha|]. cbv beta.
    intros r s1 H1 Hr'. destruct (H1 Hr') as [H2 H3]. split; [|by rewrite (ln_length _ _ _ H2)].
    eapply line_keeps; [exact Hr|done|]. intros Hne. by destruct (Hne (H3 eq_refl)).
  - destruct Hst as [Ha Hl]. rewrite (allowed_block _ _ Ha). apply server_block_ok; [done|lia|done].
  - destruct Hst as (Ha & Hn & Hl). rewrite (allowed_block _ _ Ha). eapply wp_mono; [by apply upstream_block_ok|]. cbv beta.
    intros r s1 H1 Hr'. destruct (H1 Hr') as [H2 H3]. by rewrite H3.
Qed.
End Run.
