(* ===== verification/Block.v ===== *)
(** * The [noise_socket] block: ngx_nsoc_block

    The directive that configures everything: it makes the configurations of the modules,
    reads the block, merges the settings of the servers, runs the initialisers of the
    modules, builds the engine of the phases and opens the sockets.

    [block_configures] (BlockOk) says what is there when it is accepted.  Reading the
    directives is a parameter, [parse], as [ngx_conf_parse] is a function of nginx core;
    [run_main] (Reading) is what it does with a block. *)

From stdpp Require Import prelude list numbers gmap strings sorting.
From S2P Require Import Prelude RoundRobin KeyFiles NoiseConn Net HsRead Record Handshake Session NoiseServer.
From S2P Require Import Ports Variables CoreVars Script Directive Upstream UpTable UpVars Proxy Start Conf.
From S2P Require Import CoreConf ProxyConf Modules.

Section Block.
Context {H T I L R W HS CS : Type} {PO : NgxPool W}.
Abbreviation GM := (M (cfg H T I L R W)).
Abbreviation BM := (M (block H T I L R HS CS W)).
Abbreviation ngx_nsoc_module_t := (nsoc_module (block H T I L R HS CS W) (cfg H T I L R W) W (srv_slot L R)).
Implicit Types (k : nat) (b : block H T I L R HS CS W) (ms : list (nat * ngx_nsoc_module_t)).

(** ** The loops over the modules *)

Fixpoint create_confs k ms : GM bool :=
  match ms with
  | [] => mret true
  | (mi, m) :: ms =>
      ok ← (match create_main_conf m with None => mret true | Some create => create end);
      if negb ok then mret false else
      ok ← (match create_srv_conf m with None => mret true | Some create => create_srv k mi create end);
      if negb ok then mret false else create_confs k ms
  end.

(** The functions of the modules that are there, until one is not content. *)
Fixpoint run_hooks {S} (hooks : list (option (M S Z))) : M S bool :=
  match hooks with
  | [] => mret true
  | None :: hooks => run_hooks hooks
  | Some f :: hooks => rc ← f; if negb (rc =? NGX_OK) then mret false else run_hooks hooks
  end.

(** The server configurations of one module. *)
Fixpoint merge_servers (merge : nat -> GM conf_answer) (ks : list nat) : GM conf_answer :=
  match ks with
  | [] => mret ConfOk
  | k :: ks => rv ← merge k; match rv with ConfOk => merge_servers merge ks | _ => mret rv end
  end.

Fixpoint init_confs k ms : GM conf_answer :=
  match ms with
  | [] => mret ConfOk
  | (_, m) :: ms =>
      rv ← (match init_main_conf m with None => mret ConfOk | Some init => init end);
      match rv with
      | ConfOk =>
          servers ← gets (fun s => cm_servers (g_main s));
          rv ← (match merge_srv_conf m with None => mret ConfOk | Some merge => merge_servers (merge k) servers end);
          match rv with ConfOk => init_confs k ms | _ => mret rv end
      | _ => mret rv
      end
  end.

(** ** The directive *)

(** What is done with the pool alone. *)
Definition on_pool_of_block {A} (f : W -> A * W) : BM A := fun b =>
  let '(a, w) := f (g_world (b_cfg b)) in
  Done (a, b <| b_cfg ::= fun s => s <| g_vars ::= fun v => v <| vc_pool := w |> |> |>).

(** The context of the block: it is linked before its arrays are there, that of the main
    configurations and that of the server configurations. *)
Definition block_context : BM (option nat) :=
  ok ← on_cfg conf_object;
  if negb ok then mret None else
  k ← gets (fun b => length (g_ctxs (b_cfg b)));
  modify (fun b => b <| b_conf := Some k |> <| b_cfg ::= fun s => s <| g_ctxs ::= fun l => l ++ [[]] |> |>);;
  ok ← on_cfg conf_object;
  if negb ok then mret None else
  ok ← on_cfg conf_object;
  if negb ok then mret None else
  modify (fun b => b <| b_cfg ::= fun s => s <| g_ctxs ::= alter (fun _ => replicate max_module SlotNull) k |> |>);;
  mret (Some k).

Context (ngx_sort : (listen_opt nat -> listen_opt nat -> Z) -> list (listen_opt nat) -> list (listen_opt nat)).

(** The part behind the configurations: the engine and the sockets. *)
Definition finish_block : BM conf_answer :=
  phases ← gets b_phases;
  '(rc, engine) ← on_pool_of_block (fun w => let '(rc, e, w) := ngx_nsoc_init_phase_handlers phases w in ((rc, e), w));
  if negb (rc =? NGX_OK) then mret ConfError else
  b_engine ::=! engine;;
  ok ← on_cfg conf_object;
  if negb ok then mret ConfError else
  listen ← gets (fun b => cm_listen (g_main (b_cfg b)));
  '(rc, ports) ← on_pool_of_block (fun w => let '(rc, p, w) := add_all listen [] w in ((rc, p), w));
  if negb (rc =? NGX_OK) then mret ConfError else
  lss ← on_pool_of_block (ngx_nsoc_optimize_servers ngx_sort ports);
  match lss with
  | None => mret ConfError
  | Some lss => l ← gets b_listening; b_listening ::=! l ++ lss;; mret ConfOk
  end.

Context {NH : NgxHash T}.

(** The part from the phases on. *)
Definition finish_modules ms : BM conf_answer :=
  '(rc, phases) ← on_pool_of_block (fun w => let '(rc, p, w) := ngx_nsoc_init_phases w in ((rc, p), w));
  b_phases ::=! phases;;
  if negb (rc =? NGX_OK) then mret ConfError else
  ok ← run_hooks (map (fun m => postconfiguration m.2) ms);
  if negb ok then mret ConfError else
  rc ← on_cfg (on_vars ngx_nsoc_variables_init_vars);
  if negb (rc =? NGX_OK) then mret ConfError else finish_block.

(** [parse] is [ngx_conf_parse] with [cf->ctx] a context. *)
Definition ngx_nsoc_block ms (parse : nat -> GM conf_answer) : BM conf_answer :=
  conf ← gets b_conf;
  match conf with
  | Some _ => mret ConfDuplicate
  | None =>
      o ← block_context;
      match o with
      | None => mret ConfError
      | Some k =>
          ok ← on_cfg (create_confs k ms);
          if negb ok then mret ConfError else
          ok ← run_hooks (map (fun m => preconfiguration m.2) ms);
          if negb ok then mret ConfError else
          rv ← on_cfg (parse k);
          match rv with
          | ConfOk =>
              rv ← on_cfg (init_confs k ms);
              match rv with ConfOk => finish_modules ms | _ => mret rv end
          | _ => mret rv
          end
      end
  end.
End Block.
