(* ===== verification/BlockOk.v ===== *)
(** * What an accepted [noise_socket] block has configured

    The stages of [ngx_nsoc_block] one by one: the configurations are made and the
    variables known (so that reading can start with [reads_ok]), the settings of every
    server are merged module by module, and the initialisers build the engine and the
    sockets.  [block_configures] puts them together. *)

From stdpp Require Import prelude list numbers gmap strings sorting.
From S2P Require Import Prelude RoundRobin KeyFiles NoiseConn Net HsRead Record Handshake Session NoiseServer.
From S2P Require Import Ports Variables CoreVars Script Directive Upstream UpTable UpVars Proxy Start Conf.
From S2P Require Import CoreConf ProxyConf Modules Reading Block.

(** ** The variables before the block is read *)

Section Preconf.
Context {H T W : Type} {PO : NgxPool W} {NS : NgxStr} {NH : NgxHash T}.
Context (uninit : variable H).
Implicit Types (c : vconf H T W).

(** A variable that is there. *)
Definition vptr_ok c (p : vptr) : Prop :=
  match p with
  | KeyVar i => exists keys, variables_keys c = Some keys /\ (i < length keys)%nat
  | PrefixVar i => (i < length (prefix_variables c))%nat
  end.

Record keys_kept c c' : Prop := {
  kk_variables : variables c' = variables c;
  kk_keys : is_Some (variables_keys c) -> is_Some (variables_keys c');
}.

#[export] Instance keys_kept_preorder : PreOrder keys_kept.
Proof. split; [done|]. intros x y z [A B] [C D]. split; [congruence|auto]. Qed.

Lemma conf_alloc_kept c (Q : bool -> vconf H T W -> Prop) :
  (forall ok w, Q ok (c <| vc_pool := w |>)) -> wp (conf_alloc (H:=H)) Q c.
Proof. intros HQ. apply wp_conf_alloc. intros ok w _. apply HQ. Qed.

Lemma add_prefix_kept name fl c :
  wp (ngx_nsoc_add_prefix_variable uninit name fl) (fun o c' => keys_kept c c' /\
    forall p, o = Some p -> vptr_ok c' p) c.
Proof.
  unfold ngx_nsoc_add_prefix_variable. do 2 wp_step. destruct (list_find _ _) as [[i v]|] eqn:Hf.
  - destruct (negb _); [by wp_step|]. do 3 wp_step. split; [done|]. intros p [= <-]. cbn. rewrite length_insert.
    apply list_find_Some in Hf as [Hi _]. by eapply lookup_lt_Some.
  - wp_step. apply conf_alloc_kept. intros ok w. destruct ok; cbn [negb]; [|by wp_step]. do 2 wp_step.
    wp_step. apply conf_alloc_kept. intros ok w2. destruct ok; cbn [negb]; [|by wp_step]. do 3 wp_step. split; [done|].
    intros p [= <-]. cbn. rewrite length_app. cbn. lia.
Qed.

Lemma add_variable_kept name fl c :
  is_Some (variables_keys c) ->
  wp (ngx_nsoc_add_variable uninit name fl) (fun o c' => keys_kept c c' /\ forall p, o = Some p -> vptr_ok c' p) c.
Proof.
  intros [keys Hk]. unfold ngx_nsoc_add_variable. destruct (_ =? 0)%nat; [by wp_step|].
  destruct (negb _); [apply add_prefix_kept|]. do 2 wp_step. wp_step. apply (wp_mderef _ keys); [done|].
  destruct (list_find _ _) as [[i [k v]]|] eqn:Hf.
  - destruct (negb _); [by wp_step|]. do 3 wp_step. split; [by split|]. intros p [= <-]. cbn. eexists. split; [done|].
    rewrite length_insert. apply list_find_Some in Hf as [Hi _]. by eapply lookup_lt_Some.
  - wp_step. apply conf_alloc_kept. intros ok w. destruct ok; cbn [negb]; [|by wp_step].
    wp_step. apply conf_alloc_kept. intros ok w2. destruct ok; cbn [negb]; [|by wp_step].
    destruct (_ =? NGX_ERROR); [by wp_step|]. destruct (_ =? NGX_BUSY); [by wp_step|]. do 3 wp_step. split; [by split|].
    intros p [= <-]. cbn. eexists. split; [done|]. rewrite length_app. cbn. lia.
Qed.

Lemma assign_kept p v c : vptr_ok c p -> wp (assign_variable p v) (fun _ c' => keys_kept c c') c.
Proof.
  destruct p as [i|i]; cbn [assign_variable vptr_ok].
  - intros (keys & Hk & Hi). destruct (lookup_lt_is_Some_2 _ _ Hi) as [[k v0] Hv].
    do 3 wp_step. apply (wp_mderef _ keys); [done|]. wp_step. apply (wp_mderef _ (k, v0)); [done|]. wp_step. by split.
  - intros Hi. do 3 wp_step. by split.
Qed.

Lemma set_handler_kept p h d c : vptr_ok c p -> wp (set_handler_data p h d) (fun _ c' => keys_kept c c') c.
Proof.
  destruct p as [i|i]; cbn [set_handler_data vptr_ok].
  - intros (keys & Hk & Hi). destruct (lookup_lt_is_Some_2 _ _ Hi) as [[k v0] Hv].
    do 3 wp_step. apply (wp_mderef _ keys); [done|]. wp_step. apply (wp_mderef _ (k, v0)); [done|]. wp_step. by split.
  - intros Hi. destruct (lookup_lt_is_Some_2 _ _ Hi) as [v0 Hv]. do 3 wp_step. apply (wp_mderef _ v0); [done|]. wp_step. by split.
Qed.

Lemma add_vars_kept table : forall c, is_Some (variables_keys c) ->
  wp (add_vars uninit table) (fun _ c' => keys_kept c c') c.
Proof.
  induction table as [|cv table IH]; intros c Hk; cbn [add_vars]; [by wp_step|]. wp_step.
  eapply wp_mono; [by apply add_variable_kept|]. intros [p|] c1 [H1 Hp]; [|by wp_step]. wp_step.
  eapply wp_mono; [apply assign_kept; by apply Hp|]. cbv beta. intros [] c2 H2.
  eapply wp_mono; [apply IH; by apply (kk_keys _ _ H2), (kk_keys _ _ H1)|]. cbv beta. intros rc c3 H3.
  by do 2 (etrans; [eassumption|]).
Qed.

Lemma add_up_vars_kept (handler : up_handler -> H) table : forall c, is_Some (variables_keys c) ->
  wp (add_up_vars handler uninit table) (fun _ c' => keys_kept c c') c.
Proof.
  induction table as [|cv table IH]; intros c Hk; cbn [add_up_vars]; [by wp_step|]. wp_step.
  eapply wp_mono; [by apply add_variable_kept|]. intros [p|] c1 [H1 Hp]; [|by wp_step]. wp_step.
  eapply wp_mono; [apply set_handler_kept; by apply Hp|]. cbv beta. intros [] c2 H2.
  eapply wp_mono; [apply IH; by apply (kk_keys _ _ H2), (kk_keys _ _ H1)|]. cbv beta. intros rc c3 H3.
  by do 2 (etrans; [eassumption|]).
Qed.

Lemma add_core_vars_kept table c :
  wp (ngx_nsoc_variables_add_core_vars uninit table) (fun rc c' => variables c' = variables c /\
    (rc = NGX_OK -> is_Some (variables_keys c'))) c.
Proof.
  unfold ngx_nsoc_variables_add_core_vars. wp_step. apply conf_alloc_kept. intros ok w. destruct ok; cbn [negb]; [|by wp_step].
  wp_step. apply conf_alloc_kept. intros ok w2. destruct ok; cbn [negb]; [|by wp_step]. do 2 wp_step.
  wp_step. apply conf_alloc_kept. intros ok w3. destruct ok; cbn [negb]; [|by wp_step]. do 2 wp_step.
  eapply wp_mono; [apply add_vars_kept; by eexists|]. cbv beta. intros rc c' [A B]. split; [done|]. intros _. apply B. by eexists.
Qed.

(** The last step: it returns. *)
Lemma init_vars_returns c (Q : Z -> vconf H T W -> Prop) :
  is_Some (variables_keys c) -> (forall rc c', Q rc c') -> wp ngx_nsoc_variables_init_vars Q c.
Proof.
  intros [keys Hk] HQ. unfold ngx_nsoc_variables_init_vars. do 7 wp_step.
  apply (wp_mderef _ keys); [done|]. destruct (init_vars_loop _ _ _ _) as [[ok vs'] keys'].
  do 4 wp_step. destruct ok; cbn [negb]; [|by wp_step]. destruct (ngx_hash_init _); [|by wp_step].
  do 6 wp_step. by wp_step.
Qed.
End Preconf.

(** ** The configurations that are made *)

Section Made.
Context {H T I L R W HS CS : Type} {PO : NgxPool W} {NS : NgxStr} {NSL : NgxStrLaws} {NH : NgxHash T} {NP : NgxParse W}
  {NPL : NgxParseLaws W} {CC : NgxConfCore L R W} {CM : NgxConfMerge} {NL : NoiseLib HS CS} {OS : NgxOs W}.
Context (uninit : variable H) (core_handler_of : core_handler -> H) (up_handler_of : up_handler -> H).
Context (fopen : list Z -> option (list Z)) (behind : W -> list Z) (ids : noise_ids).
Context (resolve : list Z -> Z -> option (list addr)) (init_other : I -> nat -> M (upconf I (srv_slot L R) W) Z).
Context (fuel : nat).
Abbreviation the_modules := (modules (HS:=HS) (CS:=CS) uninit core_handler_of up_handler_of fopen behind ids resolve init_other fuel).
Implicit Types (s : cfg H T I L R W) (k : nat) (b : block H T I L R HS CS W).

(** The main configurations are fresh, and no variable has an index. *)
Record blank_main s : Prop := {
  bm_servers : cm_servers (g_main s) = [];
  bm_listen : cm_listen (g_main s) = [];
  bm_ups : g_upstreams s = [];
}.

Definition same_vars s s' : Prop := variables (g_vars s') = variables (g_vars s).

Lemma frame_vars t s s' : frame t s s' -> same_vars s s'.
Proof. intros [_ _ _ Hv]. unfold same_vars. by rewrite <- Hv. Qed.

Lemma frame_raw t s s' k i y : frame t s s' -> (k, i) ∉ t -> raw_at s k i = y -> raw_at s' k i = y.
Proof. intros [Hf _ _ _] Hi <-. by apply (fr_raw _ _ _ Hf). Qed.

Lemma core_main_made s :
  wp ngx_nsoc_core_create_main_conf (fun ok s' => ok = true ->
    g_ctxs s' = g_ctxs s /\ cm_servers (g_main s') = [] /\ cm_listen (g_main s') = [] /\ same_vars s s') s.
Proof.
  unfold ngx_nsoc_core_create_main_conf. do 3 (wp_step; apply wp_conf_object; intros [|] ?; cbn [negb]; [|by wp_step]).
  do 2 wp_step. by wp_step.
Qed.

Lemma up_main_made s :
  wp (on_ups ngx_nsoc_upstream_create_main_conf) (fun ok s' => ok = true ->
    g_ctxs s' = g_ctxs s /\ g_main s' = g_main s /\ g_upstreams s' = [] /\ same_vars s s') s.
Proof.
  apply wp_on_ups. unfold wp, ngx_nsoc_upstream_create_main_conf, up_alloc, mbind, M_bind. cbn.
  destruct (pool_object _) as [[|] w]; cbn; [|done]. by destruct (pool_object _) as [[|] w2].
Qed.

Lemma null_slot s k i : null_context s k -> (i < max_module)%nat -> is_Some (raw_at s k i).
Proof. intros Hnull Hi. unfold raw_at. rewrite Hnull. cbn [mbind option_bind]. rewrite lookup_replicate_2 by done. by eexists. Qed.

(** A module puts a fresh configuration into its slot. *)
Lemma slot_made k i (fresh : srv_slot L R -> Prop) create s1 :
  (forall file line w, wp (create file line) (fun o _ => forall y, o = Some y -> fresh y) w) -> is_Some (raw_at s1 k i) ->
  wp (create_srv k i create) (fun ok s' => ok = true -> frame [(k, i)] s1 s' /\
    exists y, fresh y /\ raw_at s' k i = Some (SlotConf y)) s1.
Proof.
  intros Hfresh Hi. eapply wp_mono; [by apply (create_srv_run k i create fresh s1 Hfresh)|].
  cbv beta. intros ok s' [Hf Hy] Hok. split; [done|by apply Hy].
Qed.

(** Other slots of the context. *)
Lemma frame_other k (i j : nat) s s' y : frame [(k, i)] s s' -> i <> j -> raw_at s k j = y -> raw_at s' k j = y.
Proof. intros Hf Hne. eapply frame_raw; [exact Hf|]. rewrite list_elem_of_singleton. intros [= He]. by apply Hne. Qed.

(** The steps of the three modules with server configurations, [s0] after the core module's
    main configuration and [s3] after that of the upstreams. *)
Lemma slots_filled k s s0 s1 s2 s3 s4 yc yp yn :
  g_ctxs s0 = g_ctxs s -> cm_servers (g_main s0) = [] -> cm_listen (g_main s0) = [] -> same_vars s s0 ->
  frame [(k, core_index)] s0 s1 -> fresh_core yc -> raw_at s1 k core_index = Some (SlotConf yc) ->
  frame [(k, proxy_index)] s1 s2 -> fresh_proxy yp -> raw_at s2 k proxy_index = Some (SlotConf yp) ->
  g_ctxs s3 = g_ctxs s2 -> g_main s3 = g_main s2 -> g_upstreams s3 = [] -> same_vars s2 s3 ->
  frame [(k, noiseserver_index)] s3 s4 -> fresh_noise yn -> raw_at s4 k noiseserver_index = Some (SlotConf yn) ->
  length (g_ctxs s4) = length (g_ctxs s) /\ slots_ok s4 k /\ blank_main s4 /\ same_vars s s4.
Proof.
  intros Hc0 Hs0 Hl0 Hv0 Hf1 Hyc Hc1 Hf2 Hyp Hp2 Hc3 Hm3 Hu3 Hv3 Hf4 Hyn Hn4.
  assert (Hlast : forall i y, noiseserver_index <> i -> raw_at s2 k i = y -> raw_at s4 k i = y).
  { intros i y Hi Hy. eapply frame_other; [exact Hf4|done|]. unfold raw_at in *. by rewrite Hc3. }
  split_and!.
  - rewrite (fr_length _ _ _ (fr_ctx _ _ _ Hf4)), Hc3, (fr_length _ _ _ (fr_ctx _ _ _ Hf2)), (fr_length _ _ _ (fr_ctx _ _ _ Hf1)).
    by rewrite Hc0.
  - apply (fresh_slots s4 k yc yp yn); [done..| | |done].
    + apply Hlast; [done|]. by eapply frame_other.
    + by apply Hlast.
  - assert (Hm : g_main s4 = g_main s0) by (by rewrite (fr_main _ _ _ Hf4), Hm3, (fr_main _ _ _ Hf2), (fr_main _ _ _ Hf1)).
    split; [by rewrite Hm..|]. by rewrite (fr_ups _ _ _ Hf4).
  - apply frame_vars in Hf1, Hf2, Hf4. unfold same_vars in *. congruence.
Qed.

Lemma create_confs_made k s :
  null_context s k ->
  wp (create_confs k the_modules) (fun ok s' => ok = true ->
    length (g_ctxs s') = length (g_ctxs s) /\ slots_ok s' k /\ blank_main s' /\ same_vars s s') s.
Proof.
  intros Hnull. assert (Hraw := fun i => null_slot s k i Hnull).
  unfold modules, create_confs. cbn [create_main_conf create_srv_conf ngx_nsoc_core_module_ctx ngx_nsoc_proxy_module_ctx
    ngx_nsoc_upstream_module_ctx ngx_nsoc_noiseserver_module_ctx ngx_nsoc_write_filter_module_ctx].
  wp_step. eapply wp_mono; [apply core_main_made|]. cbv beta. intros [|] s0 H0; cbn [negb]; [|by wp_step].
  destruct (H0 eq_refl) as (Hc0 & Hs0 & Hl0 & Hv0). clear H0.
  assert (Hr0 : forall i, raw_at s0 k i = raw_at s k i) by (intros i; unfold raw_at; by rewrite Hc0).
  wp_step. eapply wp_mono; [apply (slot_made k core_index fresh_core _ s0 core_created)|].
  { rewrite Hr0. apply Hraw. unfold core_index, max_module. lia. }
  cbv beta. intros [|] s1 H1; cbn [negb]; [|by wp_step]. destruct (H1 eq_refl) as (Hf1 & yc & Hyc & Hc1). clear H1.
  do 2 wp_step. cbn [negb]. wp_step.
  eapply wp_mono; [apply (slot_made k proxy_index fresh_proxy _ s1 (fun _ _ => proxy_created))|].
  { rewrite (frame_other k core_index proxy_index s0 s1 _ Hf1 ltac:(done) (Hr0 _)). apply Hraw. unfold proxy_index, max_module. lia. }
  cbv beta. intros [|] s2 H2; cbn [negb]; [|by wp_step]. destruct (H2 eq_refl) as (Hf2 & yp & Hyp & Hp2). clear H2.
  wp_step. eapply wp_mono; [apply up_main_made|]. cbv beta. intros [|] s3 H3; cbn [negb]; [|by wp_step].
  destruct (H3 eq_refl) as (Hc3 & Hm3 & Hu3 & Hv3). clear H3.
  do 2 wp_step. cbn [negb]. do 2 wp_step. cbn [negb]. wp_step.
  eapply wp_mono; [apply (slot_made k noiseserver_index fresh_noise _ s3 (fun _ _ => noise_created))|].
  { replace (raw_at s3 k noiseserver_index) with (raw_at s2 k noiseserver_index) by (unfold raw_at; by rewrite Hc3).
    rewrite (frame_other k proxy_index noiseserver_index s1 s2 (raw_at s k noiseserver_index) Hf2 ltac:(done)
      (frame_other k core_index noiseserver_index s0 s1 _ Hf1 ltac:(done) (Hr0 _))).
    apply Hraw. unfold noiseserver_index, max_module. lia. }
  cbv beta. intros [|] s4 H4; cbn [negb]; [|by wp_step]. destruct (H4 eq_refl) as (Hf4 & yn & Hyn & Hn4). clear H4.
  do 2 wp_step. cbn [negb]. do 2 wp_step. cbn [negb]. wp_step. intros _.
  by eapply (slots_filled k s s0 s1 s2 s3 s4).
Qed.

(** *** Up to the parser *)

Lemma wp_on_cfg {A} (m : M (cfg H T I L R W) A) (Q : A -> block H T I L R HS CS W -> Prop) b :
  wp m (fun a s => Q a (b <| b_cfg := s |>)) (b_cfg b) -> wp (on_cfg m) Q b.
Proof. unfold wp, on_cfg. by destruct (m _) as [[a s]| |]. Qed.

(** What is not the configuration. *)
Record outside b b' : Prop := {
  ou_conf : b_conf b' = b_conf b;
  ou_listening : b_listening b' = b_listening b;
}.

#[export] Instance outside_preorder : PreOrder outside.
Proof. split; [done|]. intros x y z [A B] [C D]. split; congruence. Qed.

Lemma wp_block_object b (Q : bool -> block H T I L R HS CS W -> Prop) :
  (forall ok w, Q ok (b <| b_cfg ::= fun s => s <| g_vars ::= fun v => v <| vc_pool := w |> |> |>)) -> wp (on_cfg conf_object) Q b.
Proof. intros HQ. apply wp_on_cfg, wp_conf_object. intros ok w. apply HQ. Qed.

Lemma block_context_run b :
  wp block_context (fun o b' => forall k, o = Some k -> k = length (g_ctxs (b_cfg b)) /\ b_conf b' = Some k /\
    b_listening b' = b_listening b /\ null_context (b_cfg b') k /\ length (g_ctxs (b_cfg b')) = S k /\
    same_vars (b_cfg b) (b_cfg b')) b.
Proof.
  unfold block_context. wp_step. apply wp_block_object. intros [|] w; cbn [negb]; [|by wp_step].
  do 2 wp_step. wp_step. wp_step. wp_step. apply wp_block_object. intros [|] w2; cbn [negb]; [|by wp_step].
  wp_step. apply wp_block_object. intros [|] w3; cbn [negb]; [|by wp_step]. wp_step. wp_step. wp_step.
  intros k [= <-]. split_and!; [done|done|done| |cbn; rewrite length_alter, length_app; cbn; lia|done].
  unfold null_context. cbn. rewrite list_lookup_alter_eq, list_lookup_middle; done.
Qed.

Lemma pre_hooks_run b :
  wp (run_hooks (map (fun m => preconfiguration m.2) the_modules)) (fun ok b' => ok = true -> outside b b' /\
    exists v, b_cfg b' = (b_cfg b) <| g_vars := v |> /\ variables v = variables (g_vars (b_cfg b)) /\ is_Some (variables_keys v)) b.
Proof.
  unfold modules. cbn [map preconfiguration snd ngx_nsoc_core_module_ctx ngx_nsoc_proxy_module_ctx
    ngx_nsoc_upstream_module_ctx ngx_nsoc_noiseserver_module_ctx ngx_nsoc_write_filter_module_ctx run_hooks].
  wp_step. unfold ngx_nsoc_core_preconfiguration. apply wp_on_cfg, wp_on_vars.
  eapply wp_mono; [apply add_core_vars_kept|]. cbv beta. intros rc v1 [Hv1 Hk1].
  destruct (Z.eqb_spec rc NGX_OK) as [Hrc|]; cbn [negb]; [|by wp_step]. specialize (Hk1 Hrc).
  wp_step. apply wp_on_cfg, wp_on_vars. eapply wp_mono; [by apply add_up_vars_kept|]. cbv beta. intros rc2 v2 [Hv2 Hk2].
  destruct (rc2 =? NGX_OK); cbn [negb]; [|by wp_step]. wp_step. intros _. split; [done|]. exists v2.
  split_and!; [done|by rewrite Hv2|by apply Hk2].
Qed.

Definition pristine b : Prop :=
  b_conf b = None /\ g_ctxs (b_cfg b) = [] /\ variables (g_vars (b_cfg b)) = None.

(** The first directive is read with the invariant. *)
Lemma reading_begins s v :
  length (g_ctxs s) = 1%nat -> slots_ok s 0%nat -> blank_main s -> variables v = None -> is_Some (variables_keys v) ->
  reads_ok (s <| g_vars := v |>).
Proof.
  intros Hl Hs [B1 B2 B3] Hv Hk. split; cbn; rewrite ?B1, ?B2, ?B3.
  - done.
  - split; cbn; [unfold indexed; rewrite Hv; apply indexed_ok_nil|rewrite B3; apply table_ok_nil|rewrite B3; apply Forall_nil_2].
  - apply listens_ok_nil.
  - intros k Hk'. assert (k = 0%nat) as -> by (cbn in Hk'; lia). exact Hs.
  - apply Forall_nil_2.
  - apply Forall_nil_2.
Qed.
End Made.

(** ** Merging the settings *)

Section Merging.
Context {H T I L R W : Type} {PO : NgxPool W} {POL : NgxPoolLaws W} {NS : NgxStr} {NSL : NgxStrLaws} {NP : NgxParse W}
  {CC : NgxConfCore L R W} {CM : NgxConfMerge} {CML : NgxConfMergeLaws}.
Context (fopen : list Z -> option (list Z)) (behind : W -> list Z) (ids : noise_ids).
Context (Hpool : forall w : W, (pool_object w).1 = true) (Hbytes : forall n (w : W), is_Some (pool_bytes n w).1).
Implicit Types (s : cfg H T I L R W) (k : nat).

(** What an accepted server has: of the core module, *)
Record core_ready (c : core_srv L R) : Prop := {
  cr_handler : is_Some (cs_handler c);
  cr_resolver : is_Some (cs_resolver c);
  cr_log : is_Some (cs_error_log c);
  cr_preread : cs_preread_buffer_size c <= NOISE_PROTOCOL_PAYLOAD_SIZE;
}.

(** of the proxy, *)
Record proxy_ready (p : proxy_srv) : Prop := {
  pr_buffer : p_buffer_size (pv_link p) <= NOISE_PROTOCOL_PAYLOAD_SIZE;
  pr_local : pv_local p <> None;
  pr_noise : pv_noise_enable p <> 0 -> link_made ids (pv_link p) (pv_link p);
}.

(** and of the Noise server. *)
Definition noise_ready (c : core_srv L R) (n : noiseserver_conf) : Prop :=
  ns_noise n = Some (NoiseT (Some (NoiseCtx None None))
    (PrologueData prologue_text (swapw NGX_NSOC_1MSG_NEG_DATA_SIZE) (FirstHdr 0 0 0 0 0))
    (cs_preread_buffer_size c) (ns_handshake_timeout n)) /\
  server_private_key_file n <> None /\ client_public_key_file n <> None.

Definition has_core s k : Prop := exists c, slot_at s k = Some c /\ core_ready c.
Definition has_proxy s k : Prop := exists p, slot_at s k = Some p /\ proxy_ready p.
Definition has_noise s k : Prop := exists c n, slot_at s k = Some c /\ slot_at s k = Some n /\ noise_ready c n.

(** What the merges keep of the configuration that was read. *)
Record settled_conf s0 (ups : list (srv_conf I (srv_slot L R))) s : Prop := {
  sc_servers : cm_servers (g_main s) = cm_servers (g_main s0);
  sc_listen : cm_listen (g_main s) = cm_listen (g_main s0);
  sc_length : length (g_ctxs s) = length (g_ctxs s0);
  sc_keys : variables_keys (g_vars s) = variables_keys (g_vars s0);
  sc_ups : g_upstreams s = ups;
  sc_slots k : (k < length (g_ctxs s))%nat -> slots_ok s k;
}.

Lemma frame_settled t s0 ups s s' :
  settled_conf s0 ups s -> frame t s s' -> (forall k, k ∈ t.*1 -> slots_ok s' k) -> settled_conf s0 ups s'.
Proof.
  intros [A B C D E F] Hf Ht. pose proof Hf as [[Hl Hraw] Hm Hu Hv]. apply vars_pool in Hv as [Hk _].
  split; try congruence. intros k Hlt. destruct (decide (k ∈ t.*1)) as [Hin|Hout]; [by apply Ht|].
  apply (slots_ok_same s s'); [|by rewrite Hu|apply F; lia]. intros i. apply Hraw. intros Hki. apply Hout.
  by apply (list_elem_of_fmap_2 fst) in Hki.
Qed.

(** The loop over the servers. *)
Lemma merge_servers_run (J : cfg H T I L R W -> Prop) (D : cfg H T I L R W -> nat -> Prop) merge ks :
  (forall k s, k ∈ ks -> J s -> wp (merge k) (fun r s' => r = ConfOk ->
     J s' /\ D s' k /\ forall k', k' ∈ ks -> k' <> k -> D s k' -> D s' k') s) ->
  forall s, J s -> wp (merge_servers merge ks) (fun r s' => r = ConfOk -> J s' /\ forall k, k ∈ ks -> D s' k) s.
Proof.
  intros Hstep. assert (Hgo : forall (left ready : list nat) s, left ⊆ ks -> J s -> (forall k, k ∈ ready -> k ∈ ks /\ D s k) ->
    wp (merge_servers merge left) (fun r s' => r = ConfOk -> J s' /\ forall k, k ∈ ready \/ k ∈ left -> D s' k) s).
  { induction left as [|k left IH]; intros ready s Hsub HJ HD; cbn [merge_servers].
    - wp_step. intros _. split; [done|]. intros k [?|Hk]; [by apply HD|by apply not_elem_of_nil in Hk].
    - assert (Hk : k ∈ ks) by apply Hsub, list_elem_of_here.
      wp_step. eapply wp_mono; [by apply Hstep|]. cbv beta. intros rv s1 H1.
      destruct rv; try by wp_step. destruct (H1 eq_refl) as (HJ1 & HD1 & Hk1).
      eapply wp_mono; [apply (IH (k :: ready) s1); [|done|]|].
      + intros x Hx. by apply Hsub, list_elem_of_further.
      + intros k' [->|Hk']%elem_of_cons; [done|]. destruct (HD k' Hk') as [Hin Hd]. split; [done|].
        destruct (decide (k' = k)) as [->|Hne]; [done|by apply Hk1].
      + cbv beta. intros r s2 H2 Hr. destruct (H2 Hr) as [HJ2 HD2]. split; [done|]. intros k'.
        rewrite elem_of_cons. intros [Hk'|[->|Hk']]; apply HD2; rewrite elem_of_cons; auto. }
  intros s HJ. eapply wp_mono; [apply (Hgo ks [] s); [done|done|by intros k ?%not_elem_of_nil]|].
  cbv beta. intros r s' Hr Hok. destruct (Hr Hok) as [HJ' HD]. split; [done|]. intros k Hk. apply HD. by right.
Qed.

(** *** One module after the other *)

Lemma core_stage s0 ups s :
  settled_conf s0 ups s -> Forall (fun k => (0 < k < length (g_ctxs s0))%nat) (cm_servers (g_main s0)) ->
  wp (merge_servers (ngx_nsoc_core_merge_srv_conf 0) (cm_servers (g_main s))) (fun r s' => r = ConfOk ->
    settled_conf s0 ups s' /\ forall k, k ∈ cm_servers (g_main s) -> has_core s' k) s.
Proof.
  intros Hs Hlt. rewrite (sc_servers _ _ _ Hs). apply merge_servers_run; [|done]. clear s Hs. intros k s Hk Hs.
  rewrite list.Forall_forall in Hlt. pose proof (Hlt k Hk) as Hltk. cbv beta in Hltk. pose proof (sc_length _ _ _ Hs) as Hlen.
  destruct (sc_slots _ _ _ Hs 0%nat ltac:(lia)) as (p & pp & pn & Hp & Hpp & Hpn & Hppass).
  destruct (sc_slots _ _ _ Hs k ltac:(lia)) as (c & cp & cn & Hc & Hcp & Hcn & Hcpass).
  eapply wp_mono; [apply (core_merge_run 0 k p c s); [lia|done..]|]. cbv beta.
  intros r s' [Hf (p' & c' & Hp' & Hc' & Hpeq & Hdone)] Hr. destruct (Hdone Hr) as [[Hh Hhs] Hres Hlog _ _ _ Hmax _].
  assert (Hkeep : forall X (SX : Slot L R X) k', slot_index X <> core_index -> slot_at (X:=X) s' k' = slot_at s k').
  { intros X SX k' Hi. apply (frame_slot _ _ _ _ Hf). rewrite !not_elem_of_cons. split_and!; [by intros [=]..|apply not_elem_of_nil]. }
  split_and!.
  - eapply frame_settled; [exact Hs|exact Hf|]. intros k' Hk'. cbn in Hk'.
    apply elem_of_cons in Hk' as [->|Hk']; [|apply list_elem_of_singleton in Hk' as ->].
    + exists p', pp, pn. rewrite (Hkeep proxy_srv _ _), (Hkeep noiseserver_conf _ _) by done. split_and!; [done..|]. rewrite (fr_ups _ _ _ Hf).
      by rewrite <- Hpeq in Hppass.
    + exists c', cp, cn. rewrite (Hkeep proxy_srv _ _), (Hkeep noiseserver_conf _ _) by done. split_and!; [done..|]. rewrite (fr_ups _ _ _ Hf), Hh. done.
  - exists c'. split; [done|]. split; try done. unfold inherits in Hlog. rewrite Hlog.
    destruct (cs_error_log c); [by eexists|]. by destruct (cs_error_log p); eexists.
  - intros k' Hk' Hne (d & Hd & Hready). exists d. split; [|done]. rewrite <- Hd. apply (frame_slot _ _ _ _ Hf).
    specialize (Hlt k' Hk'). cbv beta in Hlt.
    rewrite !not_elem_of_cons. split_and!; [intros [=]; lia|by intros [= ->]|apply not_elem_of_nil].
Qed.

(** A merge that touches one configuration of a server only. *)
Lemma one_settled s0 ups s s' k i :
  settled_conf s0 ups s -> frame [(k, i)] s s' -> slots_ok s' k -> settled_conf s0 ups s'.
Proof.
  intros Hs Hf Hk. eapply frame_settled; [exact Hs|exact Hf|]. intros k' Hk'. cbn in Hk'.
  by apply list_elem_of_singleton in Hk' as ->.
Qed.

(** What one module keeps of another's settings. *)
Lemma one_slot {X : Type} {SX : Slot L R X} s s' k i k' :
  frame [(k, i)] s s' -> k' <> k \/ slot_index X <> i -> slot_at (X:=X) s' k' = slot_at s k'.
Proof. intros Hf Hne. apply (frame_slot _ _ _ _ Hf). rewrite list_elem_of_singleton. intros He. injection He as Hk Hi. by destruct Hne. Qed.

Lemma has_core_one s s' k i k' : frame [(k, i)] s s' -> i <> core_index -> has_core s k' -> has_core s' k'.
Proof. intros Hf Hi (c & Hc & Hr). exists c. split; [|done]. rewrite <- Hc. eapply one_slot; [exact Hf|]. by right. Qed.

Lemma has_proxy_one s s' k i k' : frame [(k, i)] s s' -> k' <> k \/ i <> proxy_index -> has_proxy s k' -> has_proxy s' k'.
Proof.
  intros Hf Hi (c & Hc & Hr). exists c. split; [|done]. rewrite <- Hc. eapply one_slot; [exact Hf|].
  destruct Hi; [by left|by right].
Qed.

(** The outer configuration is that of the block. *)
Lemma proxy_stage s0 ups s :
  settled_conf s0 ups s -> Forall (fun k => (0 < k < length (g_ctxs s0))%nat) (cm_servers (g_main s0)) ->
  (forall k, k ∈ cm_servers (g_main s0) -> has_core s k) ->
  wp (merge_servers (ngx_nsoc_proxy_merge_srv_conf fopen behind ids 0) (cm_servers (g_main s))) (fun r s' => r = ConfOk ->
    (settled_conf s0 ups s' /\ forall k, k ∈ cm_servers (g_main s0) -> has_core s' k) /\
    forall k, k ∈ cm_servers (g_main s0) -> has_proxy s' k) s.
Proof.
  intros Hs Hlt Hcore. rewrite (sc_servers _ _ _ Hs).
  apply (merge_servers_run (fun s => settled_conf s0 ups s /\ forall k, k ∈ cm_servers (g_main s0) -> has_core s k)); [|done].
  clear s Hs Hcore. intros k s Hk [Hs Hcore]. rewrite list.Forall_forall in Hlt. pose proof (Hlt k Hk) as Hltk. cbv beta in Hltk.
  pose proof (sc_length _ _ _ Hs) as Hlen. destruct (sc_slots _ _ _ Hs 0%nat ltac:(lia)) as (_ & p & _ & _ & Hp & _).
  destruct (sc_slots _ _ _ Hs k ltac:(lia)) as (cc & c & cn & Hcc & Hc & Hcn & Hpass).
  eapply wp_mono; [exact (proxy_merge_run fopen behind ids Hpool Hbytes 0 k p c s Hp Hc)|]. cbv beta.
  intros r s' [Hf (c' & Hc' & Hdone)] Hr. specialize (Hdone Hr). split_and!.
  - eapply one_settled; [exact Hs|exact Hf|]. exists cc, c', cn.
    rewrite (one_slot (X:=core_srv L R) s s' k proxy_index k Hf) by (by right).
    rewrite (one_slot (X:=noiseserver_conf) s s' k proxy_index k Hf) by (by right).
    split_and!; [done..|]. rewrite (fr_ups _ _ _ Hf). unfold passes_on. destruct (pc_upstream _ _ _ _ Hdone) as [-> ->]. done.
  - intros k' Hk'. eapply has_core_one; [exact Hf|done|by apply Hcore].
  - exists c'. split; [done|]. split; [apply (pc_buffer_max _ _ _ _ Hdone)| |].
    + pose proof (pc_local _ _ _ _ Hdone) as Hl. unfold inherits in Hl. rewrite Hl.
      destruct (pv_local c); [done|]. by destruct (pv_local p).
    + intros Hen. pose proof (pc_noise _ _ _ _ Hdone) as Hn. by destruct (Z.eqb_spec (pv_noise_enable c') 0).
  - intros k' _ Hne. eapply has_proxy_one; [exact Hf|by left].
Qed.

(** A string with a default is set after the merge. *)
Lemma merged_set {A : Type} (own outer : option A) (d : A) : conf_merge is_unset own outer (Some d) <> None.
Proof.
  pose proof (merge_inherits is_unset own outer (Some d)) as Hm. unfold inherits in Hm. rewrite Hm. clear Hm.
  destruct own; [done|]. by destruct outer.
Qed.

Lemma noise_merge_run prev conf p c (cs : core_srv L R) s :
  slot_at s prev = Some p -> slot_at s conf = Some c -> slot_at s conf = Some cs ->
  wp (noiseserver_merge prev conf) (fun r s' => frame [(conf, noiseserver_index)] s s' /\
    exists c', slot_at s' conf = Some c' /\ (r = ConfOk -> noise_ready cs c')) s.
Proof.
  intros Hp Hc Hcs. unfold noiseserver_merge, get_core. wp_step. apply (wp_get_slot _ p); [done|].
  wp_step. apply (wp_get_slot _ c); [done|]. wp_step. apply (wp_get_slot _ cs); [done|].
  wp_step. apply (wp_on_world_frame [(conf, noiseserver_index)] _ _ s); [apply frame_refl|].
  apply (wp_mono _ (fun r _ => r.1 = true -> noise_ready cs r.2)).
  { unfold ngx_nsoc_noiseserver_merge_conf. cbv zeta. wp_step. unfold new_object. apply wp_answer. intros [|] w; cbn [negb]; [|by wp_step].
    wp_step. unfold wp at 1, ngx_nsoc_create. destruct (pool_object w) as [[|] w2]; cbv beta iota;
      [|change (negb (NGX_ERROR =? NGX_OK)) with true; cbv iota; by wp_step].
    change (negb (NGX_OK =? NGX_OK)) with false. cbv iota. wp_step. apply wp_answer. intros ok w3. wp_step. intros _.
    unfold noise_ready. cbn. split_and!; [done|apply merged_set..]. }
  intros [ok c'] w Hok s1 Hf1 Hs1. cbn [fst snd] in Hok.
  wp_step. apply (wp_put_slot [(conf, noiseserver_index)] _ _ c _ s); [done|touched|unfold slot_at; by rewrite Hs1|].
  intros s2 Hf2 Hc2 _. wp_step. split; [done|]. exists c'. split; [done|]. destruct ok; [|done]. intros _. by apply Hok.
Qed.

Lemma noise_stage s0 ups s :
  settled_conf s0 ups s -> Forall (fun k => (0 < k < length (g_ctxs s0))%nat) (cm_servers (g_main s0)) ->
  (forall k, k ∈ cm_servers (g_main s0) -> has_core s k /\ has_proxy s k) ->
  wp (merge_servers (noiseserver_merge 0) (cm_servers (g_main s))) (fun r s' => r = ConfOk ->
    (settled_conf s0 ups s' /\ forall k, k ∈ cm_servers (g_main s0) -> has_core s' k /\ has_proxy s' k) /\
    forall k, k ∈ cm_servers (g_main s0) -> has_noise s' k) s.
Proof.
  intros Hs Hlt Hcore. rewrite (sc_servers _ _ _ Hs).
  apply (merge_servers_run (fun s => settled_conf s0 ups s /\ forall k, k ∈ cm_servers (g_main s0) -> has_core s k /\ has_proxy s k)); [|done].
  clear s Hs Hcore. intros k s Hk [Hs Hcore]. rewrite list.Forall_forall in Hlt. pose proof (Hlt k Hk) as Hltk. cbv beta in Hltk.
  pose proof (sc_length _ _ _ Hs) as Hlen. destruct (sc_slots _ _ _ Hs 0%nat ltac:(lia)) as (_ & _ & p & _ & _ & Hp & _).
  destruct (sc_slots _ _ _ Hs k ltac:(lia)) as (cc & cp & c & Hcc & Hcp & Hc & Hpass).
  eapply wp_mono; [exact (noise_merge_run 0 k p c cc s Hp Hc Hcc)|]. cbv beta.
  intros r s' [Hf (c' & Hc' & Hdone)] Hr. specialize (Hdone Hr).
  assert (Hcc' : slot_at s' k = Some cc) by (rewrite <- Hcc; apply (one_slot s s' k noiseserver_index k Hf); by right).
  split_and!.
  - eapply one_settled; [exact Hs|exact Hf|]. exists cc, cp, c'.
    rewrite (one_slot (X:=proxy_srv) s s' k noiseserver_index k Hf) by (by right).
    split_and!; [done..|]. by rewrite (fr_ups _ _ _ Hf).
  - intros k' Hk'. destruct (Hcore k' Hk'). split; [by eapply has_core_one|]. eapply has_proxy_one; [exact Hf|by right|done].
  - by exists cc, c'.
  - intros k' _ Hne (d & n & Hd & Hn & Hr'). exists d, n.
    rewrite (one_slot (X:=core_srv L R) s s' k noiseserver_index k' Hf) by (by left).
    rewrite (one_slot (X:=noiseserver_conf) s s' k noiseserver_index k' Hf) by (by left). done.
Qed.

(** *** The loop over the modules *)

Context {HS CS : Type} {NH : NgxHash T} {NPL : NgxParseLaws W} {NL : NoiseLib HS CS} {OS : NgxOs W}.
Context (uninit : variable H) (core_handler_of : core_handler -> H) (up_handler_of : up_handler -> H).
Context (resolve : list Z -> Z -> option (list addr)) (init_other : I -> nat -> M (upconf I (srv_slot L R) W) Z).
Context (fuel : nat).
Abbreviation the_modules := (modules (HS:=HS) (CS:=CS) uninit core_handler_of up_handler_of fopen behind ids resolve init_other fuel).

Definition server_ready s k : Prop := (has_core s k /\ has_proxy s k) /\ has_noise s k.

Lemma reads_settled s : reads_ok s -> settled_conf s (g_upstreams s) s.
Proof. intros Hr. split; try done. apply (rd_ctxs s Hr). Qed.

Lemma core_init_settled s0 ups s :
  settled_conf s0 ups s -> wp ngx_nsoc_core_init_main_conf (fun r s' => r = ConfOk -> settled_conf s0 ups s') s.
Proof. intros [A B C D E F]. unfold ngx_nsoc_core_init_main_conf. do 3 wp_step. wp_step. wp_step. by split. Qed.

Lemma up_init_settled s0 ups s :
  settled_conf s0 ups s -> entries_ok ups ->
  wp (on_ups (ngx_nsoc_upstream_init_main_conf resolve init_other)) (fun r s' => r = ConfOk -> g_ctxs s' = g_ctxs s /\
    exists ups', settled_conf s0 ups' s' /\ forall i x, ups' !! i = Some x -> is_Some (us_peer x)) s.
Proof.
  intros [A B C D E F] He. apply wp_on_ups. rewrite <- E in He.
  eapply wp_mono; [exact (init_main_conf_total resolve init_other (ups_part s) He)|]. cbv beta.
  intros r u [Hl Hb] Hr. split; [done|]. exists (upstreams u). split; [|by apply Hb]. split; try done.
  intros k Hk. apply (slots_ok_same s); [done|cbn; by rewrite Hl|by apply F].
Qed.

Lemma init_confs_run s :
  reads_ok s -> (0 < length (g_ctxs s))%nat ->
  wp (init_confs 0 the_modules) (fun r s' => r = ConfOk -> exists ups, settled_conf s ups s' /\
    (forall i x, ups !! i = Some x -> is_Some (us_peer x)) /\ forall k, k ∈ cm_servers (g_main s) -> server_ready s' k) s.
Proof.
  intros Hr H0. pose proof (rd_servers s Hr) as Hlt. pose proof (tb_entries _ (rd_tables s Hr)) as He.
  pose proof (reads_settled s Hr) as Hset.
  unfold modules, init_confs. cbn [init_main_conf merge_srv_conf ngx_nsoc_core_module_ctx ngx_nsoc_proxy_module_ctx
    ngx_nsoc_upstream_module_ctx ngx_nsoc_noiseserver_module_ctx ngx_nsoc_write_filter_module_ctx].
  wp_step. eapply wp_mono; [by apply core_init_settled|]. cbv beta. intros [| | |] s1 H1; try by wp_step.
  specialize (H1 eq_refl). do 3 wp_step. eapply wp_mono; [by apply core_stage|]. cbv beta. intros [| | |] s2 H2; try by wp_step.
  destruct (H2 eq_refl) as [Hs2 Hc2]. rewrite (sc_servers _ _ _ H1) in Hc2.
  do 5 wp_step. eapply wp_mono; [by apply proxy_stage|]. cbv beta. intros [| | |] s3 H3; try by wp_step.
  destruct (H3 eq_refl) as [[Hs3 Hc3] Hp3].
  wp_step. eapply wp_mono; [exact (up_init_settled s _ s3 Hs3 He)|]. cbv beta. intros [| | |] s4 H4; try by wp_step.
  destruct (H4 eq_refl) as (Hg4 & ups & Hs4 & Hb). do 3 wp_step. wp_step.
  assert (Hcp4 : forall k, k ∈ cm_servers (g_main s) -> has_core s4 k /\ has_proxy s4 k).
  { intros k Hk. destruct (Hc3 k Hk) as (c & Hc & ?), (Hp3 k Hk) as (p & Hp & ?).
    split; [exists c|exists p]; (split; [|done]); unfold slot_at in *; by rewrite Hg4. }
  do 5 wp_step. eapply wp_mono; [exact (noise_stage s ups s4 Hs4 Hlt Hcp4)|]. cbv beta. intros [| | |] s5 H5; try by wp_step.
  destruct (H5 eq_refl) as [[Hs5 Hcp5] Hn5].
  do 5 wp_step. wp_step. intros _. exists ups. split_and!; [done|done|]. intros k Hk. split; [by apply Hcp5|by apply Hn5].
Qed.

(** ** The engine and the sockets *)

Context {NSLaws : NgxListenLaws W} {CCL : NgxConfCoreLaws L R W} {ST : NgxConfSet}.
Context (ngx_conf_full_name : list Z -> bool -> option (list Z)).
Context (ngx_sort : (listen_opt nat -> listen_opt nat -> Z) -> list (listen_opt nat) -> list (listen_opt nat)).
(** [ngx_sort] sorts, where the comparison is an order. *)
Context (Hsort : forall l, port_ok l -> sorts ngx_sort l).
Implicit Types (b : block H T I L R HS CS W).

(** The sockets, grouped by family, type and port, give every connection the settings of
    the line for its local address, or of the wildcard's line. *)
Definition dispatched (listen : list (listen_opt nat)) (lss : list (listening nat)) : Prop :=
  exists keys parts, lss = concat parts /\ NoDup keys /\ (forall l, l ∈ listen -> key_of l ∈ keys) /\
    Forall2 (fun key part => dispatches (filter (fun l => key_of l = key) listen) part) keys parts.

(** The table that runs the phases: the Noise server's handler, then the content. *)
Definition noise_engine : list (phase_entry HS CS W) :=
  [PhaseEntry (Some GenericPhase) (Some (ngx_nsoc_noiseserver_handler fopen behind fuel)) 1;
   PhaseEntry (Some ContentPhase) None 0; null_entry].

Definition noise_phases : list (list (handler_pt HS CS W)) :=
  [[]; []; []; [ngx_nsoc_noiseserver_handler fopen behind fuel]; []; []; []].

Lemma wp_on_pool_of_block {A} (f : W -> A * W) (Q : A -> block H T I L R HS CS W -> Prop) b :
  (forall w', f (g_world (b_cfg b)) = ((f (g_world (b_cfg b))).1, w') ->
     Q (f (g_world (b_cfg b))).1 (b <| b_cfg ::= fun s => s <| g_vars ::= fun v => v <| vc_pool := w' |> |> |>)) ->
  wp (on_pool_of_block f) Q b.
Proof. intros HQ. unfold wp, on_pool_of_block. destruct (f _) as [a w]. by apply HQ. Qed.

Lemma open_sockets (listen : list (listen_opt nat)) ports (w : W) :
  listens_ok listen -> ports_wf ports -> (forall key, addrs_at key ports = filter (fun l => key_of l = key) listen) ->
  exists lss w', ngx_nsoc_optimize_servers ngx_sort ports w = (Some lss, w') /\ dispatched listen lss.
Proof.
  intros Hl Hwf Hat.
  assert (Haddrs : forall p, p ∈ ports -> cp_addrs p = filter (fun l => key_of l = key_of_port p) listen)
    by (intros p Hp; by rewrite <- Hat, addrs_at_port).
  destruct (ports_dispatch Hpool ngx_sort ports w) as (parts & w' & -> & Hparts).
  { apply list.Forall_forall. intros p Hp. rewrite (Haddrs p Hp). pose proof (listens_port_ok listen (key_of_port p) Hl) as Hok.
    split; [done|by apply Hsort]. }
  exists (concat parts), w'. split; [done|]. exists (map key_of_port ports), parts. split_and!; [done|by destruct Hwf| |].
  - intros l Hin. destruct (decide (key_of l ∈ map key_of_port ports)) as [|Hout]; [done|].
    apply addrs_at_absent in Hout. rewrite Hat in Hout.
    assert (Hin' : l ∈ filter (fun l' => key_of l' = key_of l) listen) by (by apply list_elem_of_filter).
    rewrite Hout in Hin'. by apply not_elem_of_nil in Hin'.
  - apply Forall2_fmap_l. assert (Hall : Forall (fun p => cp_addrs p = filter (fun l => key_of l = key_of_port p) listen) ports)
      by (by apply list.Forall_forall). clear -Hparts Hall. induction Hparts as [|p part ports parts Hp Hparts IH]; [done|].
    apply Forall_cons in Hall as [Hp' Hall]. constructor; [rewrite Hp' in Hp; exact Hp|by apply IH].
Qed.

(** What the last part of the directive does. *)
Record finished b b' : Prop := {
  fi_conf : b_conf b' = b_conf b;
  fi_ctxs : g_ctxs (b_cfg b') = g_ctxs (b_cfg b);
  fi_main : g_main (b_cfg b') = g_main (b_cfg b);
  fi_ups : g_upstreams (b_cfg b') = g_upstreams (b_cfg b);
  fi_engine : b_engine b' = Some noise_engine;
  fi_filter : b_filter b' = Some ngx_nsoc_write_filter_fn;
  fi_sockets : exists lss, b_listening b' = b_listening b ++ lss /\ dispatched (cm_listen (g_main (b_cfg b))) lss;
}.

Lemma finish_block_run b0 b :
  b_phases b = noise_phases -> b_filter b = Some ngx_nsoc_write_filter_fn -> listens_ok (cm_listen (g_main (b_cfg b))) ->
  b_conf b = b_conf b0 -> g_ctxs (b_cfg b) = g_ctxs (b_cfg b0) -> g_main (b_cfg b) = g_main (b_cfg b0) ->
  g_upstreams (b_cfg b) = g_upstreams (b_cfg b0) -> b_listening b = b_listening b0 ->
  wp (finish_block ngx_sort) (fun r b' => r = ConfOk -> finished b0 b') b.
Proof.
  intros Hph Hfi Hli H1 H2 H3 H4 H5. unfold finish_block. do 3 wp_step. apply wp_on_pool_of_block. intros w Hw.
  unfold ngx_nsoc_init_phase_handlers in *. destruct (pool_ok Hpool (g_world (b_cfg b))) as [w1 Hw1]. rewrite Hw1 in *. cbn [negb fst] in *.
  cbv beta iota. change (negb (NGX_OK =? NGX_OK)) with false. cbv iota. rewrite Hph. do 2 wp_step.
  wp_step. apply wp_block_object. intros [|] w2; cbn [negb]; [|by wp_step]. do 2 wp_step.
  wp_step. apply wp_on_pool_of_block. intros w3 Hw3.
  match goal with |- context [add_all ?l [] ?w] => destruct (add_all_ok Hpool l [] w ports_wf_nil) as (ports & w4 & Hadd & Hwf & Hat) end.
  rewrite Hadd. cbn [fst]. cbv beta iota. change (negb (NGX_OK =? NGX_OK)) with false. cbv iota.
  wp_step. apply wp_on_pool_of_block. intros w5 Hw5.
  match goal with |- context [ngx_nsoc_optimize_servers ngx_sort ports ?w] =>
    destruct (open_sockets _ ports w Hli Hwf Hat) as (lss & w6 & Hopt & Hdis) end.
  rewrite Hopt. cbn [fst]. do 2 wp_step. do 2 wp_step. wp_step. intros _.
  split; cbn; try done. exists lss. split; [by rewrite H5|by rewrite <- H3].
Qed.

Lemma finish_modules_run b :
  is_Some (variables_keys (g_vars (b_cfg b))) -> listens_ok (cm_listen (g_main (b_cfg b))) ->
  wp (finish_modules ngx_sort the_modules) (fun r b' => r = ConfOk -> finished b b') b.
Proof.
  intros Hk Hl. unfold finish_modules. wp_step. apply wp_on_pool_of_block. intros w Hw. clear Hw.
  assert (Hinit : forall w : W, (let '(rc, p, w) := ngx_nsoc_init_phases (HS:=HS) (CS:=CS) w in ((rc, p), w)).1 = (NGX_OK, replicate 7 [])).
  { intros w0. unfold ngx_nsoc_init_phases. cbn [init_arrays]. do 6 (match goal with |- context [pool_object ?w] =>
      destruct (pool_ok Hpool w) as [? ->]; cbv beta iota end). done. }
  rewrite Hinit. cbv beta iota. do 2 wp_step. change (negb (NGX_OK =? NGX_OK)) with false. cbv iota.
  unfold modules. cbn [map postconfiguration snd ngx_nsoc_core_module_ctx ngx_nsoc_proxy_module_ctx
    ngx_nsoc_upstream_module_ctx ngx_nsoc_noiseserver_module_ctx ngx_nsoc_write_filter_module_ctx run_hooks].
  wp_step. wp_step. unfold wp at 1, noiseserver_post, ngx_nsoc_noiseserver_init.
  match goal with |- context [pool_object ?w] => destruct (pool_ok Hpool w) as [w1 ->] end. cbn [negb]. cbv beta iota.
  change (negb (NGX_OK =? NGX_OK)) with false. cbv iota. wp_step. unfold ngx_nsoc_write_filter_init. do 2 wp_step. wp_step.
  change (negb (NGX_OK =? NGX_OK)) with false. cbv iota. wp_step. cbn [negb].
  wp_step. apply wp_on_cfg, wp_on_vars, init_vars_returns; [exact Hk|]. intros rc v.
  destruct (rc =? NGX_OK); cbn [negb]; [|by wp_step]. by apply finish_block_run.
Qed.

(** ** The block *)

(** The contexts decide what a server has. *)
Lemma server_ready_same s s' k : g_ctxs s' = g_ctxs s -> server_ready s k -> server_ready s' k.
Proof.
  intros Hg. unfold server_ready, has_core, has_proxy, has_noise.
  assert (Hs : forall X (SX : Slot L R X) k, slot_at (X:=X) s' k = slot_at s k) by (intros; unfold slot_at; by rewrite Hg).
  by rewrite !Hs.
Qed.

Record block_configured b b' : Prop := {
  bc_linked : b_conf b' = Some 0%nat;
  bc_servers k : k ∈ cm_servers (g_main (b_cfg b')) -> server_ready (b_cfg b') k;
  bc_passes k : k ∈ cm_servers (g_main (b_cfg b')) ->
    exists p, slot_at (b_cfg b') k = Some p /\ passes_on (length (g_upstreams (b_cfg b'))) p;
  bc_balancers i x : g_upstreams (b_cfg b') !! i = Some x -> is_Some (us_peer x);
  bc_engine : b_engine b' = Some noise_engine;
  bc_filter : b_filter b' = Some ngx_nsoc_write_filter_fn;
  bc_owners ls : ls ∈ cm_listen (g_main (b_cfg b')) -> l_ctx ls ∈ cm_servers (g_main (b_cfg b'));
  bc_sockets : exists lss, b_listening b' = b_listening b ++ lss /\ dispatched (cm_listen (g_main (b_cfg b'))) lss;
}.

(** The stages together. *)
Lemma block_run sts b (Hnew : pristine b)
    (Hfit : Forall (stmt_fits (HS:=HS) (CS:=CS) uninit core_handler_of up_handler_of ngx_conf_full_name fopen behind ids
                      resolve init_other fuel) sts) :
  wp (ngx_nsoc_block ngx_sort the_modules (run_main sts)) (fun r b' => r = ConfOk -> block_configured b b') b.
Proof.
  destruct Hnew as (Hconf & Hctxs & Hvars). unfold ngx_nsoc_block. do 2 wp_step. rewrite Hconf.
  wp_step. eapply wp_mono; [apply block_context_run|]. cbv beta. intros [k|] b1 H1; [|by wp_step].
  destruct (H1 k eq_refl) as (Hk & Hc1 & Hl1 & Hnull & Hlen1 & Hv1). rewrite Hctxs in Hk. cbn in Hk. subst k.
  wp_step. apply wp_on_cfg. eapply wp_mono; [by apply create_confs_made|]. cbv beta. intros [|] s2 H2; cbn [negb]; [|by wp_step].
  destruct (H2 eq_refl) as (Hlen2 & Hs2 & Hb2 & Hv2). wp_step. eapply wp_mono; [apply pre_hooks_run|]. cbv beta.
  intros [|] b3 H3; cbn [negb]; [|by wp_step]. destruct (H3 eq_refl) as ([Hc3 Hl3] & v & Hs3 & Hv3 & Hk3). cbn in Hc3, Hl3, Hs3, Hv3.
  assert (Hr3 : reads_ok (b_cfg b3)).
  { rewrite Hs3. apply reading_begins; [by rewrite Hlen2|done|done| |done]. unfold same_vars in *. congruence. }
  assert (Hlen3 : length (g_ctxs (b_cfg b3)) = 1%nat) by (rewrite Hs3; cbn; by rewrite Hlen2).
  wp_step. apply wp_on_cfg. eapply wp_mono; [eapply (run_main_ok (HS:=HS) (CS:=CS)); [exact Hr3|lia|exact Hfit]|].
  cbv beta. intros rv s4 H4. destruct rv; try by wp_step. destruct (H4 eq_refl) as [Hr4 Hlen4].
  wp_step. apply wp_on_cfg. eapply wp_mono; [apply (init_confs_run s4 Hr4); lia|]. cbv beta.
  intros rv s5 H5. destruct rv; try by wp_step. destruct (H5 eq_refl) as (ups & Hset & Hbal & Hready). cbn in Hready.
  eapply wp_mono; [apply finish_modules_run|].
  - cbn. rewrite (sc_keys _ _ _ Hset). apply (rd_keys _ Hr4).
  - cbn. rewrite (sc_listen _ _ _ Hset). apply (rd_listens _ Hr4).
  - cbv beta. intros r b6 H6 Hr. destruct (H6 Hr) as [F1 F2 F3 F4 F5 F6 (lss & F7 & F8)]. cbn in F1, F2, F3, F4, F7, F8.
    split; try done; rewrite ?F3, ?F4.
    + by rewrite F1, Hc3.
    + intros k Hk. rewrite (sc_servers _ _ _ Hset) in Hk. by eapply server_ready_same; [exact F2|apply Hready].
    + intros k Hk. rewrite (sc_servers _ _ _ Hset) in Hk. pose proof (proj1 (list.Forall_forall _ _) (rd_servers _ Hr4) k Hk) as Hlt.
      cbv beta in Hlt. destruct (sc_slots _ _ _ Hset k) as (c & p & n & Hc & Hp & _ & Hpass); [rewrite (sc_length _ _ _ Hset); lia|].
      exists p. split; [unfold slot_at in *; by rewrite F2|]. apply Hpass. destruct (Hready k Hk) as [[(c' & Hc' & [Hh _ _ _]) _] _].
      rewrite Hc in Hc'. by injection Hc' as ->.
    + rewrite (sc_ups _ _ _ Hset). apply Hbal.
    + intros ls. rewrite (sc_listen _ _ _ Hset), (sc_servers _ _ _ Hset). apply (proj1 (list.Forall_forall _ _) (rd_owners _ Hr4)).
    + exists lss. split; [by rewrite F7, Hl3, Hl1|done].
Qed.

(** C7: The [noise_socket] block configures what it says.  Whatever the directives are,
    [ngx_nsoc_block] returns; when it accepts them, every server has a content handler with
    an upstream or a template to pass to, a resolver, a log, buffers no larger than the
    payload of a Noise message and, where Noise is on, its keys and prologue; every upstream
    has a balancer; the engine runs the Noise server's handler before the content; and each
    connection that a socket takes gets the settings of the [listen] line for its address,
    which is that of one of these servers. *)
Theorem block_configures sts b (Hnew : pristine b)
    (Hfit : Forall (stmt_fits (HS:=HS) (CS:=CS) uninit core_handler_of up_handler_of ngx_conf_full_name fopen behind ids
                      resolve init_other fuel) sts) :
  wp (ngx_nsoc_block ngx_sort the_modules (run_main sts)) (fun r b' => r = ConfOk -> block_configured b b') b.
Proof. exact (block_run sts b Hnew Hfit). Qed.
End Merging.
