(* ===== verification/BlockDemo.v ===== *)
(** * A concrete block

    Functions of nginx core for a configuration that is read in memory, and a block with an
    upstream and two servers.  The theorems of CoreConf, ProxyConf, BlockOk and Guard hold of it. *)

From stdpp Require Import prelude list numbers gmap strings sorting.
From S2P Require Import Prelude RoundRobin KeyFiles NoiseConn Net HsRead Record Handshake Session NoiseServer.
From S2P Require Import Ports Variables CoreVars Script Directive Upstream UpTable UpVars Proxy Start Conf.
From S2P Require Import CoreConf ProxyConf Modules Reading Block BlockOk Guard.

#[local] Existing Instance ascii_str.
#[local] Existing Instance ascii_str_laws.
#[local] Existing Instance list_hash.
#[local] Existing Instance plain_merge.
#[local] Existing Instance plain_merge_laws.

(** The address before the colon: a number, or "*". *)
Definition demo_host (h : list Z) : inet_addr := let a := demo_atoi h in In4 (if a =? NGX_ERROR then 0 else a).

#[local] Instance net_parse : NgxParse net := {|
  ngx_parse_url u w :=
    let '(h, r) := split_colon (u_url u) in
    let n := match r with Some r => demo_atoi r | None => 0 end in
    ((if n =? NGX_ERROR then NGX_ERROR else NGX_OK),
     u <| u_host := h |> <| u_port := n |> <| u_no_port := bool_decide (r = None) |>
       <| u_addrs := demo_addrs u h |> <| u_naddrs := zlen (demo_addrs u h) |>
       <| u_sockaddr := (demo_host h, n) |> <| u_wildcard := is_any (demo_host h) |>, w);
  ngx_atoi := demo_atoi;
  ngx_parse_time := demo_atoi;
  ngx_parse_addr_port l w := (NGX_OK, Addr l 16 l, w);
|}.

#[local] Instance net_parse_laws : NgxParseLaws net.
Proof.
  split; [apply demo_atoi_range..|]. intros u w u' w'. cbn. destruct (split_colon (u_url u)) as [h r].
  destruct (_ =? NGX_ERROR); [done|]. intros [= <-]. cbn. split_and!; [done| |done|].
  - intros Hr. case_bool_decide; [|done]. by subst.
  - unfold demo_addrs. by intros ->.
Qed.

#[local] Instance net_listen_laws : NgxListenLaws net.
Proof. intros u w u' w' _. cbn. destruct (split_colon (u_url u)) as [h r]. by intros [= _ <- _]. Qed.

#[local] Instance net_core : NgxConfCore unit unit net := {|
  ngx_cmp_sockaddr a b := if bool_decide (a = b) then NGX_OK else NGX_DECLINED;
  ngx_strlchr v ch := fst <$> list_find (fun c => c = ch) v;
  ngx_resolver_create _ w := (Some tt, w);
  ngx_log_set_log _ _ w := (ConfOk, Some tt, w);
  ngx_align n a := (n + a - 1) / a * a;
  ngx_cacheline_size := 64;
  NGX_LISTEN_BACKLOG := 511;
  new_log := tt;
|}.

#[local] Instance net_core_laws : NgxConfCoreLaws unit unit net.
Proof.
  split; cbn; [|intros args o w o' w' [= <- _]; by eexists].
  intros a b. by case_bool_decide.
Qed.

(** The second word of a line. *)
Definition demo_number (args : list (list Z)) (_ : Z) : conf_answer * Z :=
  let n := demo_atoi (nth 1 args []) in if n =? NGX_ERROR then (ConfError, n) else (ConfOk, n).

#[local] Instance demo_set : NgxConfSet := {|
  ngx_conf_set_msec_slot := demo_number;
  ngx_conf_set_size_slot := demo_number;
  ngx_conf_set_num_slot := demo_number;
  ngx_conf_set_flag_slot args _ := (ConfOk, if same_str (kw "on") (nth 1 args []) then 1 else 0);
  ngx_conf_set_str_slot args _ := (ConfOk, Some (nth 1 args []));
|}.

(** The handlers of the variables, and the rest. *)
Abbreviation handlers := (core_handler + up_handler)%type.
Abbreviation table := (list (list Z * nat)).
Abbreviation demo_cfg := (cfg handlers table unit unit unit net).
Abbreviation demo_ups := (upconf unit (srv_slot unit unit) net).
Definition no_variable : variable handlers := Var [] None (DInt 0) 0 0.
Definition demo_ids : noise_ids := NoiseIds 2 1 2 12.
Definition demo_full_name (v : list Z) (_ : bool) : option (list Z) := Some v.
Definition one_address (host : list Z) (_ : Z) : option (list addr) := Some [Addr host 16 host].
Definition no_balancer (_ : unit) (_ : nat) : M demo_ups Z := mret NGX_ERROR.

Abbreviation demo_modules := (modules (HS:=toy_hs) (CS:=Z) no_variable (inl : core_handler -> handlers) (inr : up_handler -> handlers)
  demo_fopen demo_behind demo_ids one_address no_balancer 20).

(** The words of a line. *)
Definition line (s : list string) : list (list Z) := map kw s.

Definition demo_listen_line : (nat -> list (list Z) -> M demo_cfg conf_answer) := ngx_nsoc_core_listen.
Definition demo_pass_line : (nat -> list (list Z) -> M demo_cfg conf_answer) := ngx_nsoc_proxy_pass no_variable demo_full_name.
Definition demo_timeout_line : (nat -> list (list Z) -> M demo_cfg conf_answer) :=
  set_field ngx_conf_set_msec_slot pv_timeout (fun y c => c <| pv_timeout := y |>).

Definition demo_stmts : list (stmt demo_cfg demo_ups) := [
  Line demo_timeout_line (line ["proxy_timeout"; "30"]);
  UpstreamBlock (fun parse args => on_ups (ngx_nsoc_upstream (up_creators demo_modules) upstream_index parse args))
    (line ["upstream"; "main"]) demo_lines;
  ServerBlock (ngx_nsoc_core_server (creators demo_modules))
    [(demo_listen_line, line ["listen"; "*:1986"; "noise"]); (demo_pass_line, line ["proxy_pass"; "main"])];
  ServerBlock (ngx_nsoc_core_server (creators demo_modules))
    [(demo_listen_line, line ["listen"; "7:1986"; "backlog=5"]); (demo_pass_line, line ["proxy_pass"; "other:80"]);
     (demo_timeout_line, line ["proxy_timeout"; "7"])]].

Definition demo_block : block handlers table unit unit unit toy_hs Z net :=
  Block None (Cfg (VConf None None [] [] None (Net [] [] [])) [] (CoreMain [] [] 0 0 0) [] (kw "nginx.conf") 1) [] None None [].

Abbreviation demo_run := (ngx_nsoc_block (@insertion_sort (listen_opt nat)) demo_modules (run_main demo_stmts) demo_block).

Definition ports_of (b : block handlers table unit unit unit toy_hs Z net) : list (inet_addr * nat) :=
  map (fun ls => (ls_addr ls, ls_log_ctx ls)) (b_listening b).

(** Accepted: two servers, one socket for both addresses. *)
Example demo_block_accepted :
  match demo_run with
  | Done (r, b) => (r, cm_servers (g_main (b_cfg b)), ports_of b)
  | _ => (ConfError, [], [])
  end = (ConfOk, [1; 2]%nat, [(In4 7, 2%nat); (In4 0, 1%nat)]).
Proof. vm_compute. reflexivity. Qed.

Example demo_block_engine :
  match demo_run with Done (_, b) => bool_decide (is_Some (b_engine b)) | _ => false end = true.
Proof. vm_compute. reflexivity. Qed.

(** ** Witnesses *)

Abbreviation demo_fits := (stmt_fits (HS:=toy_hs) (CS:=Z) no_variable inl inr demo_full_name demo_fopen demo_behind demo_ids
  one_address no_balancer 20).

(** The commands by their places in the tables. *)
Ltac in_tables i := eapply (allowed_nth no_variable inl inr demo_full_name demo_fopen demo_behind demo_ids
  one_address no_balancer 20 i); reflexivity.
Ltac plain_words := split; [cbn; lia|apply (bool_decide_unpack _); vm_compute; exact I].

Lemma demo_stmts_fit : Forall demo_fits demo_stmts.
Proof.
  unfold demo_stmts. repeat apply Forall_cons_2; [| | | |apply Forall_nil_2].
  - split; [in_tables 13%nat|plain_words].
  - split_and!; [in_tables 24%nat|by eexists|exact demo_lines_words].
  - split; [in_tables 2%nat|]. repeat apply Forall_cons_2; [..|apply Forall_nil_2]; (split; [|plain_words]);
      [in_tables 3%nat|in_tables 10%nat].
  - split; [in_tables 2%nat|]. repeat apply Forall_cons_2; [..|apply Forall_nil_2]; (split; [|plain_words]);
      [in_tables 3%nat|in_tables 10%nat|in_tables 13%nat].
Qed.

Lemma block_configures_witness :
  exists b, demo_run = Done (ConfOk, b) /\
    block_configured demo_fopen demo_behind demo_ids 20 demo_block b.
Proof.
  pose proof (block_configures demo_fopen demo_behind demo_ids (fun _ => eq_refl) (fun _ _ => ex_intro _ _ eq_refl)
    no_variable inl inr one_address no_balancer 20 demo_full_name (@insertion_sort (listen_opt nat)) insertion_sort_sorts
    demo_stmts demo_block (conj eq_refl (conj eq_refl eq_refl)) demo_stmts_fit) as Hw.
  apply wp_done in Hw as (r & b & Hrun & Hb).
  pose proof demo_block_accepted as Hr. rewrite Hrun in Hr. injection Hr as Hr _ _. subst r.
  exists b. split; [exact Hrun|exact (Hb eq_refl)].
Defined.

(** A configuration with one context beside that of the block. *)
Definition demo_core : core_srv unit unit := CoreSrv None (kw "nginx.conf") 3 (-1) NGX_CONF_UNSET_SIZE NGX_CONF_UNSET_MSEC
  None NGX_CONF_UNSET_MSEC None false.
Definition demo_proxy : proxy_srv := ProxySrv NGX_CONF_UNSET_MSEC NGX_CONF_UNSET_MSEC NGX_CONF_UNSET_SIZE NGX_CONF_UNSET_SIZE
  NGX_CONF_UNSET_UINT NGX_CONF_UNSET_UINT NGX_CONF_UNSET None NGX_CONF_UNSET
  (ProxyNoiseConf None NGX_CONF_UNSET_SIZE NGX_CONF_UNSET_MSEC None None) None None.
Definition demo_context (c : core_srv unit unit) (p : proxy_srv) : list (conf_slot (srv_slot unit unit)) :=
  [SlotConf (CoreSlot c); SlotConf (ProxySlot p); SlotNull; SlotNull; SlotNull].
Definition demo_two (c : core_srv unit unit) (p : proxy_srv) : demo_cfg :=
  Cfg (VConf None None [] [] None (Net [] [] [])) [] (CoreMain [1%nat] [] 0 0 0)
    [demo_context demo_core demo_proxy; demo_context c p] (kw "nginx.conf") 4.
Definition demo_server : demo_cfg := demo_two demo_core demo_proxy.

(** What a run answers. *)
Definition answer {S} (o : outcome (conf_answer * S)) : option conf_answer :=
  match o with Done (r, _) => Some r | _ => None end.

Lemma accepted {S} (m : M S conf_answer) (Q : conf_answer -> S -> Prop) s :
  wp m Q s -> answer (m s) = Some ConfOk -> exists s', m s = Done (ConfOk, s') /\ Q ConfOk s'.
Proof. unfold wp, answer. destruct (m s) as [[r s']| |]; [|done..]. intros HQ [= ->]. by exists s'. Qed.


Lemma core_merge_completes_witness :
  let c := demo_core <| cs_handler := Some ngx_nsoc_proxy_handler_fn |> <| cs_preread_timeout := 5 |> in
  let s := demo_two c demo_proxy in
  exists s', ngx_nsoc_core_merge_srv_conf 0 1 s = Done (ConfOk, s') /\ core_merged 0 1 demo_core c s ConfOk s'.
Proof.
  intros c s. pose proof (core_merge_completes 0 1 demo_core c s ltac:(done) eq_refl eq_refl) as Hw.
  apply (accepted _ _ _ Hw). by vm_compute.
Defined.

Lemma proxy_pass_names_witness :
  exists s', ngx_nsoc_proxy_pass no_variable demo_full_name 1 (line ["proxy_pass"; "main"]) demo_server = Done (ConfOk, s') /\
    passed 1 (kw "main") demo_core demo_proxy demo_server ConfOk s'.
Proof.
  assert (Ht : tables_ok demo_server).
  { split; [apply indexed_ok_nil|apply table_ok_nil|apply Forall_nil_2]. }
  pose proof (proxy_pass_names no_variable demo_full_name 1 (kw "main") (line ["proxy_pass"; "main"]) demo_core demo_proxy
    demo_server Ht eq_refl eq_refl eq_refl) as Hw.
  apply (accepted _ _ _ Hw). by vm_compute.
Defined.

(** With [proxy_noise]: the key's file is that of NoiseServer. *)
Lemma proxy_merge_completes_witness :
  let c := demo_proxy <| pv_noise_enable := 1 |> <| pv_link ::= fun l => l <| client_private_key_file := Some [107] |> |> in
  let s := demo_two demo_core c in
  exists s', ngx_nsoc_proxy_merge_srv_conf demo_fopen demo_behind demo_ids 0 1 s = Done (ConfOk, s') /\
    proxy_merged demo_ids 1 demo_proxy c s ConfOk s'.
Proof.
  intros c s. pose proof (proxy_merge_completes demo_fopen demo_behind demo_ids (fun _ => eq_refl) (fun _ _ => ex_intro _ _ eq_refl)
    0 1 demo_proxy c s eq_refl eq_refl) as Hw.
  apply (accepted _ _ _ Hw). by vm_compute.
Defined.

(** ** The guard *)

Lemma toy_writes r : ~ @write_error toy_hs Z toy_lib r.
Proof.
  intros [Hr (h & m & h' & Hw)]. cbn in Hw. assert (Hl : zlen (toy_message h) <= NOISE_PROTOCOL_MAX_HANDSHAKE_LEN).
  { unfold toy_message, zlen. rewrite length_replicate. unfold toy_len. by destruct (toy_step h) as [|[|k]]. }
  rewrite (proj2 (Z.leb_le _ _) Hl) in Hw. by injection Hw as <-.
Qed.

(** Serving in the clear, and refusing to. *)
Definition serve : M (session toy_hs Z net) unit := modify (fun s => s <| Session.s_received := 77 |>).
Definition serve_encrypted : M (session toy_hs Z net) unit := fun s =>
  match io (sc (s_io s)) with NsocIo => serve s | OsIo => Undefined end.
Definition serving (content : M (session toy_hs Z net) unit) : core_srv_conf toy_hs Z net := CoreSrvConf 100 100 false content.

Lemma serving_alike : alike_when_protected (serving serve) (serving serve_encrypted).
Proof. split; [done..|]. intros s (n & _ & _ & Hio & _). cbn. unfold serve_encrypted. by rewrite Hio. Qed.

(** The socket of the block has two addresses; the wildcard's line has [noise]. *)
Definition demo_addrs_conf : list (in_addr nat) := [(In4 7, AddrConf 2%nat false); (In4 0, AddrConf 1%nat true)].

Abbreviation start_with content srv w table := (ngx_nsoc_init_connection (fun _ => srv) (fun w => (true, w)) false demo_addrs_conf
  demo_conn (In4 3) None true (ngx_nsoc_core_run_phases (serving content) [] (fun w => (true, w)) 5 5 table) w).

